(* ===== verification/_CoqProject ===== *)
-Q . S2P
Prelude.v
Survey.v
Categories.v
Sankey.v
Layout.v
Sequencer.v
Settings.v
Pages.v
Login.v
ApiTester.v
Colors.v
Chord.v
DataFeed.v
AdminControls.v
QuestionSelector.v
Pipeline.v
Highlight.v
ChordCycle.v
Render.v
ChordStyle.v
TestChord.v
