(* ===== verification/Prelude.v ===== *)
(** * A verification development for Med-Vis, the survey visualization dashboard

    Med-Vis ([src/src]) renders survey answers of a conference (tenure at
    the company, learning style, what shaped the attendee, peak-performance
    time, motivation) as a Sankey (alluvial) diagram and a chord diagram.
    The heart of it is [components/DataVisualization/AlluvialDiagram.tsx]:
    records are bucketed into categories, turned into a node/link graph,
    laid out by d3-sankey, and an auto-play sequencer walks through the
    (source value, target field) pairs on a timer, pausing on hover.

    ** Files, in dependency order

    - [Prelude] (this file): the JavaScript idioms the code relies on, as
      executable definitions with their lemmas: [Array.includes],
      [indexOf], [Array.from(new Set(..))] ([array_from_set]), a JS [Map]
      as an association list in insertion order ([map_get], [map_set]),
      [Array.prototype.sort] with the default string order ([js_sort],
      [String_as_OT.compare]) and with a numeric key ([sort_by_key]), the
      link-key separator [ARROW] ("→") and sums of counts in [Q].
      The hint database [medvis] and the tactics [invc] and [zdiv_lia].
    - [Survey]: the record type [SurveyResponse], the five selectable
      fields ([Module Field], [availableFields]), and the Category
      Resolver: [getYearsCategory] of [shared/colorUtils.ts] and
      [getValidYearsCategory] of the diagram, and the column [accessor].
      Also the 20 records of [app/test-chord/page.tsx]
      ([testChordMockData]), the fixture every witness runs on.
    - [Categories]: the [sources]/[targets] memos (lines 151-185) and the
      render's [sortedSources]/[sortedTargets] (lines 563-577).
    - [Sankey]: render steps 1-3 (lines 563-636) as [sankey_graph]: the
      null-tenure filter, the node list, the link aggregation in a JS Map
      keyed by [sourceId→targetId] ([count_record], [aggregate]) and the
      dummy links for columns without flow; the dummy filters of the
      drawing ([filteredLinks], [filteredNodes]).
    - [Layout]: d3-sankey is a library the code only calls.  What the
      sequencer needs from it, the top-to-bottom order of the source
      column, is the typeclass [SankeyLayout] (a permutation of [sources]);
      the sequencer's theorems hold for every instance, and [sortedLayout]
      instantiates it with the render's sort.  Also [animationDurations].
    - [Sequencer]: the auto-play.  Its state ([State]) is the mutable
      [animationRef.current] ([AnimRef]), the React state the sequencer
      reads and writes ([View]), the browser's pending [setTimeout]
      callbacks ([pending], each a [Timer] holding the [animate] closure of
      the render that scheduled it), the animation effect's last
      dependency array and whether its last run returned a cleanup.  An
      [Event] is a timer firing, the pointer entering or leaving a link or
      node, a dropdown change or the global auto-play toggle; [step] runs
      its [handler] and then React's [commit], which re-runs the animation
      effect ([effect_body], lines 449-526) after its cleanup when a
      dependency changed.  [reachable] is the set of states of a mounted
      component.
    - [Settings]: [lib/context/AppContext.tsx]: [VisualizationSettings],
      its defaults and every setter of [AppProvider] as a functional update
      [prev -> next]; JavaScript objects are [JsMap]s ([set_color]).
    - [Pages]: the App Router's routes ([app_routes], one per [page.tsx])
      and the links of [app/page.tsx], the two visualization pages and
      [app/test-context/page.tsx]; the dark page's effect that forces dark
      mode ([forceDarkEffect], re-run on every commit since the provider's
      [toggleDarkMode] is a fresh closure); the test-context page's
      settings card, quick actions and colour preview ([colorPreview]).
    - [Login]: [app/login/page.tsx] in [Module LoginPage]: the six state
      cells, the pending [supabase.auth] calls with the arguments they
      captured, and the routes pushed ([LoginState]); [handleLogin] and
      [handleReset] split at their [await]; the page as [login_step] over
      [LoginEvent]s (typing, submit under the [disabled] and [required]
      guards, the two toggle buttons, an answer to the [k]-th pending call).
    - [ApiTester]: [app/test-supabase/page.tsx] in [Module
      SupabaseApiTester]: the select and insert handlers split at their
      [await], answers in any order ([tester_step]).
    - [Colors]: [shared/colorUtils.ts]: the theme palettes, the d3 ordinal
      scales of the five categories ([OrdinalScale], [apply_scale] with
      [.unknown]), [interpolateRgb] on [#RRGGBB] colours, [getNodeColor],
      and the accessibility helpers [getLuminance], [getContrastRatio],
      [isAccessible] with [Math.pow] as a parameter [pow].
    - [Chord]: [ChordDiagram.tsx]: the render effect's side values,
      category arrays, totals and [connectionMatrix], the arc layout
      ([layoutArcs], angles in units of pi as [Q]), the ribbon loop
      ([connections], [None] for the [TypeError] of a missing arc), the
      insights, the secondary tenure/performance chord and
      [ensureDifferentCategories].
    - [DataFeed]: [shared/useVisualizationData.ts]: [validateResponse], the
      per-attendee [dedupe], and the hook as a state [Feed] stepped by
      [FeedEvent]s: a pending [select] resolving (fetches in flight are
      kept with their [isRetry] flag and may resolve in any order), a retry
      timeout, a realtime payload, the subscription status, the unmount.
    - [AdminControls]: [app/admin/controls/page.tsx]: the hex validator of
      [ColorPicker], its handlers, and the page as a state [Admin] (the
      settings, the edited theme and one [inputValue] per picker key,
      which React keeps while the key stays) stepped by [AdminEvent]s.
    - [QuestionSelector]: [shared/QuestionSelector.tsx]: the options with
      their [disabled] flag and the pairs the two dropdowns emit (the
      guard of the sequencer's selection events), and the chord's
      [onChange].
    - [Pipeline]: the data feed composed with the chord render: the rows
      [useVisualizationData] delivers are what [ChordDiagram] draws.
    - [Highlight]: the highlight effect of the Sankey (lines 1001-1086):
      node and link opacities and strokes computed from the sequencer's
      [hoveredSourceIndex], [hoveredTargetIndex] and [animationPhase], over
      the drawn graph, with d3-sankey's resolution of a link's ends to named
      nodes ([node_name_of], a JS [Map] where the last node of an id wins).
    - [ChordCycle]: the chord component's own state machine (lines
      66-336 and 831-836): the shown pair, the last change, the rotation
      angle and the secondary-chord flag ([ChordState]); the auto-cycle
      interval over [cyclingModes] ([cycle_tick]), the rotation interval
      ([rotate_tick]) and the selector's corrected [onChange]
      ([select_pair]) as [ChordEvent]s, each followed by React's commit ([chord_commit])
      of the secondary-chord and render effects ([redraws] counts the
      redraws).  [cyclingModes] lives in [shared/chordUtils], which is not
      in the repository: it is a parameter of every theorem.
    - [Render]: the render effect's label layer (lines 919-962) and its
      insights (lines 965-974), on the nodes and links of [sankey_graph];
      d3-sankey's node values are its [computeNodeValues] ([d3_node_value])
      and its geometry is a section variable.
    - [ChordStyle]: the chord's label layer (anchor and rotation from the
      arc's mid angle), ribbon tooltip and insight strings, and the
      secondary chord's palette, fills and labels.
    - [TestChord]: [app/test-chord/page.tsx]: the two selects and the
      rotation interval as a step relation; its drawing goes through
      [shared/chordUtils], which is not in the repository.

    ** What is proved

    - Category Resolver: the five bands are contiguous and total
      ([getYearsCategory_band]); the validated variant agrees with it on
      integers.
    - Node lists: each column lists every distinct non-empty value once,
      in band or string order ([sortedSources_spec]), independently of the
      order of the records ([sorted_nodes_order_independent]).
    - Sankey graph: when no source value contains the separator, the
      drawn link weights add up to the counted records
      ([sankey_total_weight]), there is exactly one link per occurring
      pair with the right count ([sankey_links_exact]), and every node has
      a link of positive weight ([sankey_every_node_has_flow]).  Without
      that hypothesis the keys collide: for any values, the pairs
      [(x→ct:y, z)] and [(x, y→ct:z)] share a key, the aggregation never
      holds a link for both, and its one entry counts the records of both
      ([sankey_key_collision]).
    - Sequencer: an invariant ([seq_inv]) holds in every reachable state
      ([reachable_inv], by induction on [reachable], from one lemma per
      handler and one for the commit): at most one timer is pending and it
      is the one the ref holds ([at_most_one_timer]); a running unpaused
      animation always has one ([running_has_timer]); the two fields
      shown differ ([fields_distinct]).  The cycle advances the target
      field after one category pause ([target_change_pauses]) but starts
      the next source field at once, the 1.5x pause being cancelled by
      the effect's cleanup ([source_change_restarts]).  Hovering stops the
      auto-play for good ([hover_never_resumes]): the commit after
      [mouseenter] tears the animation down, so [resumeAnimation] on
      [mouseleave] finds it stopped, and the restart keeps [isPaused].
    - Timings: every tick lasts at least 1.2 s and every category pause
      1.5 s ([animationDurations_bounds]).
    - Chord: when the side values come in the order of the sorted category
      arrays every ribbon joins the arcs of its row and column
      ([chord_ribbons_aligned]); with tenure as the source and every band
      present they do not, and every ribbon of a band other than 0-5 is
      drawn from another band's arc ([chord_ribbon_mismatch]); a
      missing answer makes the render throw
      ([chord_missing_answer_throws]); tenure arcs tile their half circle
      ([chord_years_arcs_tile]) but many answers overflow it
      ([chord_arcs_overflow]); the matrices count each record once
      ([chord_matrix_total]) or twice, symmetrically, for the secondary
      chord (the lemmas [secondary_matrix_total], [secondaryMatrix_symmetric]).
    - Data feed: [dedupe] keeps one row per attendee, the latest
      ([dedupe_spec]); row ids stay distinct in every session
      ([session_ids_unique]); the upsert replaces by id
      ([upsert_by_id_spec]); a loaded answer is shown
      ([fetch_ok_loads]).  The retry branch is dead
      ([fetch_error_no_retry]); in any session a valid new response of an
      attendee already shown is shown beside the old one
      ([realtime_duplicates_attendee]), and a realtime row is lost when a
      pending fetch resolves with a snapshot lacking it
      ([initial_load_overwrites_realtime]).  Every row the hook holds
      passes [validateResponse] ([session_rows_valid], the type invariant of
      the rows).
    - Composition: on the feed's rows the chord render never throws, for
      any settings and fields ([chord_renders_session]), so the throw of
      [chord_missing_answer_throws] is not reachable inside the app.
    - Chord cycle: for any [cyclingModes], the chord's two fields always
      differ and the angle stays in [0, 360) ([chord_state_inv], by
      induction on [chord_reachable]); on valid distinct modes [n] ticks
      move [n] modes on, modulo the length ([chord_cycle_visits]); but a
      mode with equal fields is not skipped, it stops the cycle for good
      ([chord_cycle_stalls]); and a rotation tick redraws the same chart,
      the angle being read by nothing but the render effect's dependency
      list ([rotation_redraws_same_chart]).
    - Highlight: while a source value is highlighted, a target node is lit
      exactly when a counted record pairs it with that value
      ([highlight_target_lit], through [sankey_links_exact]'s lemmas and the
      name resolution); but entering a link or node while the animation
      runs never shows its highlight: the commit that follows runs the
      animation effect's cleanup, which sets the phase back to [full], and
      everything is repainted at baseline ([hover_highlight_erased]).  The
      draw-in of new links never plays: every change of the pair records
      it as [lastCategoryChange] at once, so the render's
      [isCategoryChange] is false in every reachable state
      ([draw_in_never_plays]).
    - Colours and settings: the colour picker's round trip
      ([updateCategoryColor_spec]); the hex regular expression accepts
      exactly what [d3.color] parses ([hex_color_parse]) and the admin
      page keeps the palettes made of such colours
      ([admin_palettes_valid]) and the speed on the slider's range
      ([admin_speed_bounded]), though in every state a mounted picker's
      text field keeps its text across a reset or a theme switch while its
      swatch changes ([hex_text_stale]); [getNodeColor]'s override and its surface-colour
      fallback ([getNodeColor_override], [getNodeColor_unknown_answer]);
      the digit-run reader reads back [interpolateRgb]'s output
      ([interpolateRgb_roundtrip]) but misreads hex colours (the example
      [isAccessible_hex_misread]).
    - Selector: the dropdowns never emit equal fields
      ([selector_distinct]), so the chord's correction never changes an
      emitted pair ([chord_select_uncorrected]).
    - Render: the labels name each source value once in the column order
      and then each target value, none dimmed, since every node has a link
      of positive weight ([render_labels_columns]); the "Most Common Flow"
      insight names a drawn link whose count is the largest count of any
      pair ([most_common_flow]).
    - Chord styling: the labels of a tenure column face outwards
      ([tenure_labels_face_out]); the secondary chord's palette index
      wraps, so a seventh performance answer takes the 0-5 band's colour
      ([secondary_fill_wraps]).  The chord test page keeps its angle a
      whole number of half degrees in [0, 360) under JavaScript's
      truncating [%] ([test_chord_rotation_bounded], by induction on
      [testChord_reachable]: the bound needs the angle never to be
      negative).
    - Login page: a sign-in is pending exactly while [isLoading] disables
      the buttons, and at most one ([login_loading_inv], by induction on
      [login_reachable]); each answer of a sign-in has its outcome,
      error message, generic message or navigation ([login_resolve_outcome]);
      but the navigation goes to [/admin], which no page serves
      ([login_lands_not_found]), and the reset form, which never sets
      [isLoading], accepts any number of resets in flight from any
      reachable state showing it, and a success then a failure shows the
      success message next to the error ([reset_double_submit]; its
      "Sending..." label follows the sign-in, [reset_label_signin]).
    - API tester: in every reachable state [loading] implies a pending
      query and each click starts one, but with two queries in flight
      either answer hides "Loading..." ([tester_loading_cleared_early]).
    - Pages: the home page's [/survey] link is the only dead one
      ([dead_page_links]); the dark page turns dark mode back on after any
      settings change and its effect settles ([dark_page_forces_dark]).

    ** Modelling choices

    - Numbers: tenure is an integer ([Z]); [null]/[undefined] tenure is
      [JsNull]/[JsUndefined] and [|| 0] maps it to 0.  A fractional or
      [NaN] tenure (which [validateResponse]'s [years < 0] test would let
      through) is not modelled: the rows come as JSON, which has no
      [NaN], and the bands' bounds are integers.  JavaScript's [%] is
      [js_rem], whose quotient is truncated ([Z.quot]), so its result has
      the sign of the dividend; the bounds on the rotation angles are
      proved from the invariant that they stay non-negative.  Link weights and
      durations are rationals ([Q]): the code's values (counts, 0.0001,
      speeds in ms scaled by 1/8, 1/12, 1/3, 1/2, 1.5) are exact there.
    - No fuel is needed: every definition is structural ([fold_left] over
      the records, [run], [feed_run] and [admin_run] over a list of
      events).  Byte-sized facts (the decimal printing of 0..255, the 256
      characters of the hex class) are checked by evaluation.
    - Asynchrony: an [await] splits a function into the part before it and
      a continuation that runs when the event delivering its result comes;
      the database's answers are the events' arguments, so every answer
      and every interleaving with realtime payloads is covered.
    - React: discrete events flush before the next one, effects run in
      declaration order, and the handlers read refs only, so a handler's
      [setState] calls are applied at once and the commit follows.  The
      hover listeners of the hover effect (lines 1232-1313) are the active
      ones: in every commit where the render effect adds elements the
      hover effect, declared after it, runs too and replaces them.  A
      change of the settings (the provider's [getCurrentThemeColors] is a
      new closure on each of its renders) or of the pair re-runs the
      render effect, whose [selectAll('*').remove()] destroys the element
      under the pointer: its [mouseleave] never fires ([svg_rebuilt]).
      The SVG element of the Sankey is assumed mounted; the chord's
      early return (no [<svg>], no records, loading, a container too
      small) is [chordRenderEffect].  The records of a mounted Sankey are
      fixed ([Env]): a change of [data.length] is not an event.
    - Browser timers: handles are positive and increasing; a fired timer is
      removed from [pending]; [clearTimeout] removes the timer with the
      handle the ref holds.

    ** Not modelled

    The d3 drawing, transitions and tooltips (presentation; the opacities
    of the separate highlight effect, the labels and the insights are
    modelled, the render effect's enter-time opacities and path shapes are
    not); d3-sankey's
    geometry (behind [SankeyLayout]); d3's scales, colour parser and
    interpolator are library code, modelled by their documented behaviour
    ([parse_hex] reads the [#RRGGBB] form only, the one the palettes hold,
    where [d3.color] also reads names, [#RGB] and [rgb()]);
    the test-chord page's drawing, which relies on [shared/chordUtils] (not
    in the repository; the chord's auto-cycle is modelled over any list of
    modes, and the page's own state in [TestChord]); the trigonometric
    positions of the chord labels and d3-chord's layout of the secondary
    chord;
    the pages [test], [constellation] and the visualization pages' bodies,
    which render components absent from the repository
    ([DataVisualization], [TestEnvironment], [ConstellationView], [Layout]);
    [layout.tsx] and the markup of every page.  The Supabase client and
    the browser (form validation, [window.location.origin], the router)
    are the parameters and events of [Login] and [ApiTester]: the e-mail
    check is the variable [email_valid], the server's answers are event
    arguments, and a navigation is recorded, not performed. *)

From Stdlib Require Export String ZArith QArith Qminmax Lqa OrdersEx Sorted.
From stdpp Require Export base list strings sorting sets.
From Stdlib Require Import Ascii Qround.

(** The development's own scope: JavaScript array idioms used by the code. *)
Declare Scope medvis_scope.
Delimit Scope medvis_scope with mv.

(** ** JavaScript array operations *)

Section JsArray.
Context {A : Type} `{EqDecision A}.

(** [arr.includes(x)] *)
Definition js_includes (l : list A) (x : A) : bool :=
  existsb (fun y => bool_decide (x = y)) l.

(** [arr.indexOf(x)]: the first position, or [-1]. *)
Fixpoint js_indexOf (l : list A) (x : A) : Z :=
  match l with
  | [] => (-1)%Z
  | y :: l' =>
      if bool_decide (x = y) then 0%Z
      else let i := js_indexOf l' x in if (i <? 0)%Z then (-1)%Z else (i + 1)%Z
  end.

(** [Array.from(new Set(arr))]: a [Set] keeps the first occurrence of each
    value, in insertion order.  [seen] is the set built so far. *)
Fixpoint set_insert_all (seen : list A) (l : list A) : list A :=
  match l with
  | [] => seen
  | x :: l' =>
      if js_includes seen x then set_insert_all seen l'
      else set_insert_all (seen ++ [x]) l'
  end.

Definition array_from_set (l : list A) : list A := set_insert_all [] l.
End JsArray.

Notation "l '.includes' x" := (js_includes l x) (at level 10, only parsing) : medvis_scope.

(** ** JavaScript [Map]

    A [Map] iterates in insertion order; [set] on a present key replaces the
    value in place, on a new key appends the entry. *)

Section JsMap.
Context {K V : Type} `{EqDecision K}.

Definition JsMap := list (K * V).

Fixpoint map_get (m : JsMap) (k : K) : option V :=
  match m with
  | [] => None
  | (k', v) :: m' => if bool_decide (k = k') then Some v else map_get m' k
  end.

Definition map_has (m : JsMap) (k : K) : bool :=
  match map_get m k with Some _ => true | None => false end.

Fixpoint map_set (k : K) (v : V) (m : JsMap) : JsMap :=
  match m with
  | [] => [(k, v)]
  | (k', v') :: m' => if bool_decide (k = k') then (k, v) :: m' else (k', v') :: map_set k v m'
  end.

(** [Array.from(map.values())] *)
Definition map_values (m : JsMap) : list V := map snd m.

Definition map_keys (m : JsMap) : list K := map fst m.
End JsMap.

(** [s.replace(/_/g, ' ')] *)
Fixpoint replace_underscores (s : string) : string :=
  match s with
  | EmptyString => EmptyString
  | String c s' => String (if Ascii.eqb c "_"%char then " "%char else c) (replace_underscores s')
  end.

(** The sum of a list of numbers, [arr.reduce((s, x) => s + x, 0)]. *)
Definition qsum (l : list Q) : Q := fold_right Qplus 0%Q l.

(** [arr.filter(p).length], as a number. *)
Definition qcount {A} (p : A -> bool) (l : list A) : Q :=
  inject_Z (Z.of_nat (length (List.filter p l))).

(** ** JavaScript's remainder

    [a % b] on numbers truncates the quotient towards zero: the result
    has the sign of [a] ([-0.5 % 360] is [-0.5]).  [Z.quot] is that
    truncation on the numerator over the denominator. *)
Definition js_trunc (q : Q) : Z := Z.quot (Qnum q) (Zpos (Qden q)).
Definition js_rem (a b : Q) : Q := (a - b * inject_Z (js_trunc (a / b)))%Q.

(** ** JavaScript's default [Array.prototype.sort] on strings

    Without a comparator, [sort()] compares strings by UTF-16 code units; on
    the ASCII labels of this program that is the byte order of
    [String_as_OT.compare].  The engines implement a stable merge sort
    (TimSort), modelled by stdpp's stable [merge_sort]. *)

Definition str_le (a b : string) : Prop := String_as_OT.compare a b <> Gt.
Definition str_lt (a b : string) : Prop := String_as_OT.compare a b = Lt.

#[export] Instance str_le_dec : RelDecision str_le.
Proof. intros a b. unfold str_le. apply _. Defined.

Definition js_sort (l : list string) : list string := merge_sort str_le l.

(** [arr.sort((a, b) => key(a) - key(b))]: a stable sort by an integer key. *)
Definition key_le {A} (key : A -> Z) (a b : A) : Prop := (key a <= key b)%Z.

#[export] Instance key_le_dec {A} (key : A -> Z) : RelDecision (key_le key).
Proof. intros a b. unfold key_le. apply _. Defined.

Definition sort_by_key {A} (key : A -> Z) (l : list A) : list A :=
  merge_sort (key_le key) l.

(** ** Automation *)

Create HintDb medvis.

Ltac invc H := inversion H; subst; clear H.

(** Linear arithmetic with division and modulo by constants. *)
Ltac zdiv_lia := Z.div_mod_to_equations; lia.

(** ** Lemmas on the array operations *)

(** ** The link-key separator

    [AlluvialDiagram.tsx] keys its link map by the string
    [`${sourceId}→${targetId}`].  The key splits back into its two ids when
    the source id does not itself contain the arrow. *)

Definition ARROW : string := "→".

Fixpoint contains_arrow (s : string) : bool :=
  match s with
  | EmptyString => false
  | String _ s' => String.prefix ARROW s || contains_arrow s'
  end.

Section JsArrayFacts.
Context {A : Type} `{EqDecision A}.

Lemma js_includes_spec (l : list A) x : js_includes l x = true <-> x ∈ l.
Proof.
  unfold js_includes. rewrite existsb_exists, list_elem_of_In.
  split; [intros (y & Hy & Hxy); apply bool_decide_eq_true in Hxy; by subst
         | intros Hx; exists x; split; [done | by apply bool_decide_eq_true]].
Qed.

Lemma js_includes_false (l : list A) x : js_includes l x = false <-> x ∉ l.
Proof. rewrite <- js_includes_spec. destruct (js_includes l x); naive_solver. Qed.

Lemma set_insert_all_elem (seen l : list A) x :
  x ∈ set_insert_all seen l <-> x ∈ seen \/ x ∈ l.
Proof.
  revert seen. induction l as [|y l IH]; intros seen; simpl.
  - set_solver.
  - destruct (js_includes seen y) eqn:E.
    + apply js_includes_spec in E. rewrite IH. set_solver.
    + rewrite IH. set_solver.
Qed.

Lemma set_insert_all_NoDup (seen l : list A) :
  NoDup seen -> NoDup (set_insert_all seen l).
Proof.
  revert seen. induction l as [|y l IH]; intros seen Hs; simpl; [done|].
  destruct (js_includes seen y) eqn:E; apply IH; [done|].
  apply js_includes_false in E. apply NoDup_app; repeat split; [done| |].
  - intros z Hz ->%list_elem_of_singleton. done.
  - apply NoDup_singleton.
Qed.

Lemma array_from_set_elem (l : list A) x : x ∈ array_from_set l <-> x ∈ l.
Proof. unfold array_from_set. rewrite set_insert_all_elem. set_solver. Qed.

Lemma array_from_set_NoDup (l : list A) : NoDup (array_from_set l).
Proof. apply set_insert_all_NoDup, NoDup_nil_2. Qed.

Lemma js_indexOf_elem (l : list A) x i :
  js_indexOf l x = Z.of_nat i -> l !! i = Some x.
Proof.
  revert i. induction l as [|y l IH]; intros i; simpl; [lia|].
  case_bool_decide; subst.
  - intros Hi. destruct i; [done | lia].
  - destruct (js_indexOf l x <? 0)%Z eqn:Hlt; [lia|].
    intros Hi. destruct i as [|i]; [lia|]. simpl. apply IH. lia.
Qed.

Lemma js_indexOf_nonneg (l : list A) x : x ∈ l -> (0 <= js_indexOf l x)%Z.
Proof.
  induction l as [|y l IH]; intros Hx; simpl; [set_solver|].
  case_bool_decide; [lia|].
  assert (x ∈ l) as Hl by set_solver.
  specialize (IH Hl). destruct (js_indexOf l x <? 0)%Z eqn:E; lia.
Qed.

Lemma js_indexOf_absent (l : list A) x : x ∉ l -> js_indexOf l x = (-1)%Z.
Proof.
  induction l as [|y l IH]; intros Hx; simpl; [done|].
  case_bool_decide; [set_solver|].
  rewrite IH by set_solver. done.
Qed.
End JsArrayFacts.

#[export] Hint Resolve array_from_set_NoDup : medvis.

(** ** The string order *)

Lemma str_compare_refl s : String_as_OT.compare s s = Eq.
Proof.
  destruct (String_as_OT.compare_spec s s) as [|Hlt|Hlt]; [done| |];
    by apply StrictOrder_Irreflexive in Hlt.
Qed.

Lemma str_compare_Gt a b : String_as_OT.compare a b = Gt -> str_lt b a.
Proof.
  unfold str_lt. destruct (String_as_OT.compare_spec a b); [congruence..|done].
Qed.

Lemma str_compare_Lt a b : String_as_OT.compare a b = Lt -> String_as_OT.compare b a = Gt.
Proof.
  intros H. destruct (String_as_OT.compare_spec b a) as [->|Hlt|]; [| |done].
  - by rewrite str_compare_refl in H.
  - unfold String_as_OT.lt in Hlt. pose proof (@StrictOrder_Transitive _ String_as_OT.lt _ a b a H Hlt) as Hc.
    by apply StrictOrder_Irreflexive in Hc.
Qed.

#[export] Instance str_le_total : Total str_le.
Proof.
  intros a b. unfold str_le. destruct (String_as_OT.compare a b) eqn:E; [by left|by left|].
  right. intros Hba. apply str_compare_Gt in E. unfold str_lt in E. congruence.
Qed.

#[export] Instance str_le_trans : Transitive str_le.
Proof.
  intros a b c. unfold str_le. intros Hab Hbc Hac.
  pose proof (str_compare_Gt _ _ Hac) as Hca. unfold str_lt in Hca.
  destruct (String_as_OT.compare_spec a b) as [<-|Hlt|Hgt]; [congruence| |congruence].
  unfold String_as_OT.lt in Hlt.
  apply Hbc, str_compare_Lt, (@StrictOrder_Transitive _ String_as_OT.lt _ c a b Hca Hlt).
Qed.

#[export] Instance str_le_antisymm : AntiSymm eq str_le.
Proof.
  intros a b Hab Hba. unfold str_le in *.
  destruct (String_as_OT.compare_spec a b) as [|Hlt|Hgt]; [done| |done].
  by apply str_compare_Lt in Hlt.
Qed.

Lemma js_sort_Permutation l : js_sort l ≡ₚ l.
Proof. apply merge_sort_Permutation. Qed.

Lemma js_sort_StronglySorted l : StronglySorted str_le (js_sort l).
Proof. apply StronglySorted_merge_sort; apply _. Qed.

(** The result of [sort()] does not depend on the order of its input: two
    permutations of one list sort to the same array. *)
Lemma js_sort_perm_eq l1 l2 : l1 ≡ₚ l2 -> js_sort l1 = js_sort l2.
Proof.
  intros Hp. apply (StronglySorted_unique str_le); try apply js_sort_StronglySorted.
  by rewrite !js_sort_Permutation.
Qed.

(** A list already in ascending order is left unchanged by [sort()]. *)
Lemma js_sort_id l : StronglySorted str_le l -> js_sort l = l.
Proof.
  intros Hs. apply (StronglySorted_unique str_le); [apply js_sort_StronglySorted|done|].
  apply js_sort_Permutation.
Qed.

#[export] Hint Resolve js_sort_Permutation js_sort_StronglySorted : medvis.

Lemma sort_by_key_Permutation {A} (key : A -> Z) l : sort_by_key key l ≡ₚ l.
Proof. apply merge_sort_Permutation. Qed.

Lemma sort_by_key_StronglySorted {A} (key : A -> Z) l :
  StronglySorted (key_le key) (sort_by_key key l).
Proof. apply StronglySorted_merge_sort; unfold key_le; [intros ???; lia | intros ??; lia]. Qed.

(** Sorting by a key that is injective on the elements forgets the input
    order. *)
Lemma sort_by_key_perm_eq {A} (key : A -> Z) (l1 l2 : list A) :
  (forall x y, x ∈ l1 -> y ∈ l1 -> key x = key y -> x = y) ->
  l1 ≡ₚ l2 -> sort_by_key key l1 = sort_by_key key l2.
Proof.
  intros Hinj Hp.
  apply (StronglySorted_unique_strong (key_le key)); [|apply sort_by_key_StronglySorted..|].
  - intros x y Hx Hy Hxy Hyx. unfold key_le in *. apply Hinj; [| |lia].
    + by rewrite <- (sort_by_key_Permutation key l1).
    + by rewrite Hp, <- (sort_by_key_Permutation key l2).
  - by rewrite !sort_by_key_Permutation.
Qed.

(** A stable sort by an integer key that is injective on the list leaves a
    list already ordered by that key unchanged. *)
Lemma sort_by_key_id {A} (key : A -> Z) (l : list A) :
  (forall x y, x ∈ l -> y ∈ l -> key x = key y -> x = y) ->
  StronglySorted (key_le key) l ->
  sort_by_key key l = l.
Proof.
  intros Hinj Hs.
  apply (StronglySorted_unique_strong (key_le key)); [|apply sort_by_key_StronglySorted|done|].
  - intros x y Hx Hy Hxy Hyx. unfold key_le in *. apply Hinj; [|done|lia].
    by rewrite <- (sort_by_key_Permutation key l).
  - apply sort_by_key_Permutation.
Qed.

(** ** Lemmas on [Map] *)

Section JsMapFacts.
Context {K V : Type} `{EqDecision K}.
Implicit Types (m : @JsMap K V).

Lemma map_get_set_eq m k v : map_get (map_set k v m) k = Some v.
Proof.
  induction m as [|[k' v'] m IH]; simpl; [by rewrite bool_decide_true|].
  case_bool_decide; simpl; [by rewrite bool_decide_true|]. by rewrite bool_decide_false.
Qed.

Lemma map_get_set_ne m k k' v : k <> k' -> map_get (map_set k v m) k' = map_get m k'.
Proof.
  intros Hne. induction m as [|[k0 v0] m IH]; simpl; [by rewrite bool_decide_false|].
  case_bool_decide; simpl; subst.
  - rewrite !(bool_decide_false (k' = k0)) by congruence. done.
  - by case_bool_decide.
Qed.

Lemma map_keys_set m k v :
  map_keys (map_set k v m) = if bool_decide (k ∈ map_keys m) then map_keys m else map_keys m ++ [k].
Proof.
  induction m as [|[k' v'] m IH]; [done|]. unfold map_keys in *; simpl.
  destruct (decide (k = k')) as [->|Hne].
  - rewrite !bool_decide_true by set_solver. done.
  - rewrite bool_decide_false by done. simpl. rewrite IH.
    rewrite (bool_decide_ext (k ∈ k' :: map fst m) (k ∈ map fst m)) by set_solver.
    by case_bool_decide.
Qed.

Lemma map_get_Some m k v : map_get m k = Some v -> (k, v) ∈ m.
Proof.
  induction m as [|[k' v'] m IH]; simpl; [done|].
  case_bool_decide; [intros [= ->]; subst; left|intros Hg; right; auto].
Qed.

Lemma map_get_None m k : map_get m k = None <-> k ∉ map_keys m.
Proof.
  induction m as [|[k' v'] m IH]; simpl; [set_solver|].
  case_bool_decide; [set_solver|]. rewrite IH. unfold map_keys. set_solver.
Qed.

(** [set] changes the sum of a numeric measure of the values by the
    difference between the new value and the one it replaces. *)
Lemma map_set_qsum (val : V -> Q) m k v :
  qsum (map val (map_values (map_set k v m))) ==
  (qsum (map val (map_values m)) - from_option val 0 (map_get m k) + val v)%Q.
Proof.
  induction m as [|[k' v'] m IH]; simpl; [lra|].
  case_bool_decide; simpl; [lra|]. rewrite IH. lra.
Qed.

Lemma map_set_elem m k v kv :
  kv ∈ map_set k v m -> kv = (k, v) \/ kv ∈ m.
Proof.
  induction m as [|[k' v'] m IH]; simpl; [set_solver|].
  case_bool_decide; set_solver.
Qed.

Lemma map_set_other m k k' v v' :
  (k', v') ∈ m -> k' <> k -> (k', v') ∈ map_set k v m.
Proof.
  induction m as [|[k0 v0] m IH]; simpl; [set_solver|].
  intros Hin Hne. case_bool_decide; subst.
  - apply elem_of_cons in Hin as [Heq|Hin]; [injection Heq; congruence|].
    by right.
  - apply elem_of_cons in Hin as [->|Hin]; [left|right; auto].
Qed.

Lemma map_get_elem m k v : NoDup (map_keys m) -> (k, v) ∈ m -> map_get m k = Some v.
Proof.
  induction m as [|[k0 v0] m IH]; simpl; [set_solver|].
  unfold map_keys; simpl. intros Hnd Hin. apply NoDup_cons in Hnd as [Hk0 Hnd].
  apply elem_of_cons in Hin as [[= -> ->]|Hin].
  - by rewrite bool_decide_true.
  - rewrite bool_decide_false; [by apply IH|].
    intros ->. apply Hk0. apply list_elem_of_fmap. by exists (k0, v).
Qed.

(** With distinct keys, [set] replaces exactly the entry of its key. *)
Lemma map_set_elem_NoDup m k v kv :
  NoDup (map_keys m) -> kv ∈ map_set k v m -> kv = (k, v) \/ (kv ∈ m /\ kv.1 <> k).
Proof.
  induction m as [|[k0 v0] m IH]; simpl; [set_solver|].
  unfold map_keys; simpl. intros Hnd Hin. apply NoDup_cons in Hnd as [Hk0 Hnd].
  case_bool_decide; subst.
  - apply elem_of_cons in Hin as [->|Hin]; [by left|right].
    split; [by right|]. intros Heq. apply Hk0, list_elem_of_fmap. by exists kv.
  - apply elem_of_cons in Hin as [->|Hin]; [right; split; [left|done]|].
    destruct (IH Hnd Hin) as [->|[? ?]]; [by left|right; split; [by right|done]].
Qed.

Lemma map_keys_NoDup_set m k v : NoDup (map_keys m) -> NoDup (map_keys (map_set k v m)).
Proof.
  intros Hnd. rewrite map_keys_set. case_bool_decide; [done|].
  apply NoDup_app; repeat split; [done| |apply NoDup_singleton]. set_solver.
Qed.
End JsMapFacts.

Lemma arrow_not_prefix_of x r r' :
  contains_arrow x = false -> x <> EmptyString -> (ARROW ++ r <> x ++ ARROW ++ r')%string.
Proof.
  intros Hx Hne Heq.
  destruct x as [|c1 [|c2 [|c3 x4]]]; [congruence| | |];
  unfold ARROW in Heq; simpl in Heq; injection Heq; intros; subst; simpl in *;
  try discriminate; destruct x4; discriminate.
Qed.

Lemma arrow_split_inj x x' r r' :
  contains_arrow x = false -> contains_arrow x' = false ->
  (x ++ ARROW ++ r = x' ++ ARROW ++ r')%string -> x = x' /\ r = r'.
Proof.
  revert x'. induction x as [|c x IH]; intros x' Hx Hx' Heq; destruct x' as [|c' x'].
  - simpl in Heq. unfold ARROW in Heq. simpl in Heq. injection Heq. auto.
  - exfalso. by apply (arrow_not_prefix_of (String c' x') r r').
  - exfalso. by apply (arrow_not_prefix_of (String c x) r' r).
  - simpl in Heq. injection Heq as <- Heq. simpl in Hx, Hx'.
    apply Bool.orb_false_iff in Hx as [_ Hx]. apply Bool.orb_false_iff in Hx' as [_ Hx'].
    destruct (IH x' Hx Hx' Heq) as [-> ->]. auto.
Qed.

Lemma qcount_cons {A} (p : A -> bool) x l :
  qcount p (x :: l) == (if p x then 1 else 0)%Q + qcount p l.
Proof.
  unfold qcount. simpl. destruct (p x); simpl.
  - rewrite Nat2Z.inj_succ, <- Z.add_1_l, inject_Z_plus. reflexivity.
  - by rewrite Qplus_0_l.
Qed.

Lemma qcount_nonneg {A} (p : A -> bool) l : (0 <= qcount p l)%Q.
Proof. unfold qcount, Qle. simpl. lia. Qed.

Lemma qcount_ext {A} (p q : A -> bool) l :
  (forall x, x ∈ l -> p x = q x) -> qcount p l == qcount q l.
Proof.
  intros H. unfold qcount. rewrite (filter_ext_in p q); [reflexivity|]. intros x Hx. apply H. by apply list_elem_of_In.
Qed.

Lemma string_app_cancel_l (p x x' : string) : (p ++ x = p ++ x')%string -> x = x'.
Proof. induction p as [|c p IH]; simpl; [done|]. intros [= H]. by apply IH. Qed.

Lemma filter_id_in {A} (p : A -> bool) (l : list A) :
  (forall x, x ∈ l -> p x = true) -> List.filter p l = l.
Proof.
  induction l as [|x l IH]; intros H; simpl; [done|].
  rewrite (H x) by by left. f_equal. apply IH. intros y Hy. apply H. by right.
Qed.

Lemma qcount_pos {A} (p : A -> bool) l x : x ∈ l -> p x = true -> (1 <= qcount p l)%Q.
Proof.
  intros Hx Hp. unfold qcount, Qle; simpl.
  assert (x ∈ List.filter p l) as Hf.
  { apply list_elem_of_In, filter_In. split; [by apply list_elem_of_In|done]. }
  destruct (List.filter p l); [set_solver|]. simpl. lia.
Qed.

Lemma qcount_pos_inv {A} (p : A -> bool) l : (1 <= qcount p l)%Q -> exists x, x ∈ l /\ p x = true.
Proof.
  unfold qcount, Qle; simpl. destruct (List.filter p l) as [|x xs] eqn:E; simpl; [lia|]. intros _.
  assert (Hx : x ∈ List.filter p l) by (rewrite E; left).
  apply list_elem_of_In, filter_In in Hx as [Hx Hp]. exists x. split; [by apply list_elem_of_In|done].
Qed.

(** ** Counting by category

    Summing the per-category counts of a list over distinct categories
    counts each element once when its category is listed: the shape of
    every count matrix of the diagrams. *)

Lemma length_filter_cons {A} (p : A -> bool) x l :
  length (List.filter p (x :: l)) = ((if p x then 1 else 0) + length (List.filter p l))%nat.
Proof. simpl. by destruct (p x). Qed.

Lemma sum_list_map_add {B} (f h : B -> nat) (l : list B) :
  sum_list (map (fun c => f c + h c)%nat l) = (sum_list (map f l) + sum_list (map h l))%nat.
Proof. induction l; simpl; lia. Qed.

Lemma sum_list_indicator {B} `{EqDecision B} (x : B) (cats : list B) :
  NoDup cats ->
  sum_list (map (fun c => if bool_decide (x = c) then 1%nat else 0%nat) cats) =
  if bool_decide (x ∈ cats) then 1%nat else 0%nat.
Proof.
  induction 1 as [|c cats Hc Hnd IH]; [done|]. simpl. rewrite IH.
  case_bool_decide as E1; case_bool_decide as E2; case_bool_decide as E3; subst; set_solver.
Qed.

Lemma sum_count_partition {A B} `{EqDecision B} (g : A -> option B) (q : A -> bool) (cats : list B) (l : list A) :
  NoDup cats ->
  sum_list (map (fun c => length (List.filter (fun d => bool_decide (g d = Some c) && q d) l)) cats) =
  length (List.filter (fun d => match g d with Some c => bool_decide (c ∈ cats) | None => false end && q d) l).
Proof.
  intros Hnd. induction l as [|d l IH].
  - simpl. induction cats; simpl; [done|]. inversion Hnd; subst; auto.
  - setoid_rewrite length_filter_cons. rewrite sum_list_map_add, IH. f_equal.
    destruct (q d) eqn:Hq.
    + setoid_rewrite andb_true_r. destruct (g d) as [x|].
      * erewrite map_ext; [apply sum_list_indicator, Hnd|]. intros c. simpl.
        by repeat case_bool_decide; simplify_eq.
      * simpl. clear IH. induction cats; simpl; [done|]. inversion Hnd; subst; auto.
    + setoid_rewrite andb_false_r. simpl. clear IH. induction cats; simpl; [done|].
      inversion Hnd; subst; auto.
Qed.

(** When every element's category is listed, the per-category counts of a
    filtered list add up to the filtered list. *)
Lemma sum_count_cover {A B} `{EqDecision B} (g : A -> option B) (q : A -> bool) (cats : list B) (l : list A) :
  NoDup cats -> (forall d, d ∈ l -> exists c, g d = Some c /\ c ∈ cats) ->
  sum_list (map (fun c => length (List.filter (fun d => bool_decide (g d = Some c) && q d) l)) cats) =
  length (List.filter q l).
Proof.
  intros Hnd Hcov. rewrite sum_count_partition by done.
  f_equal. apply filter_ext_in. intros d Hd%list_elem_of_In.
  destruct (Hcov d Hd) as (c & -> & Hc). by rewrite bool_decide_eq_true_2.
Qed.

Lemma filter_true_length {A} (l : list A) : length (List.filter (fun _ => true) l) = length l.
Proof. induction l; simpl; auto. Qed.

Lemma sum_list_zeros {A} (l : list A) : sum_list (map (fun _ => 0%nat) l) = 0%nat.
Proof. induction l; simpl; auto. Qed.

Lemma map_list_fmap {A B} (f : A -> B) (l : list A) : map f l = f <$> l.
Proof. induction l as [|x l IH]; [done|]. simpl. by rewrite IH. Qed.

(** An indexed map whose function ignores the index on the list's entries
    is a map. *)
Lemma imap_map_in {A B} (f : nat -> A -> B) (g : A -> B) (l : list A) :
  (forall i x, l !! i = Some x -> f i x = g x) -> imap f l = map g l.
Proof. intros H. rewrite (imap_ext f (const g)) by done. apply imap_const. Qed.

Lemma string_app_assoc (a b c : string) : ((a ++ b) ++ c = a ++ (b ++ c))%string.
Proof. induction a as [|x a IH]; [reflexivity|exact (f_equal (String x) IH)]. Qed.

Lemma string_app_nil_r (a : string) : (a ++ "")%string = a.
Proof. induction a as [|x a IH]; [reflexivity|exact (f_equal (String x) IH)]. Qed.

(** Removing the [k]-th element of a list (an awaited call that resolves)
    takes its share out of any count. *)
Lemma length_filter_delete {A} (p : A -> bool) (l : list A) k x :
  l !! k = Some x ->
  length (List.filter p l) = (length (List.filter p (delete k l)) + if p x then 1 else 0)%nat.
Proof.
  revert k. induction l as [|y l IH]; intros [|k] Hk; simplify_eq/=.
  - destruct (p x); simpl; lia.
  - specialize (IH k Hk). destruct (p y); simpl; lia.
Qed.

(** A sum of non-negative numbers one of which is positive is positive. *)
Lemma qsum_pos (l : list Q) q :
  (forall r, r ∈ l -> (0 <= r)%Q) -> q ∈ l -> (0 < q)%Q -> (0 < qsum l)%Q.
Proof.
  induction l as [|r l IH]; intros Hnn Hq Hpos; [set_solver|]. simpl.
  assert (0 <= qsum l)%Q.
  { clear IH Hq. induction l as [|r' l IHl]; simpl; [lra|].
    pose proof (Hnn r' ltac:(set_solver)). assert (0 <= qsum l)%Q by (apply IHl; set_solver). lra. }
  apply elem_of_cons in Hq as [->|Hq]; [lra|].
  pose proof (Hnn r ltac:(set_solver)). assert (0 < qsum l)%Q by (apply IH; set_solver || done). lra.
Qed.

(** ** Lemmas on the remainder *)

Lemma js_trunc_floor q : (0 <= q)%Q -> js_trunc q = Qfloor q.
Proof.
  destruct q as [n d]. unfold js_trunc, Qle. simpl. intros Hn. apply Z.quot_div_nonneg; lia.
Qed.

(** On a non-negative angle the remainder by [b > 0] lies in [[0, b)]. *)
Lemma js_rem_bounds a b : (0 <= a)%Q -> (0 < b)%Q -> (0 <= js_rem a b < b)%Q.
Proof.
  intros Ha Hb. unfold js_rem.
  assert (Hq : (0 <= a / b)%Q) by (apply Qle_shift_div_l; lra).
  rewrite js_trunc_floor by exact Hq.
  pose proof (Qfloor_le (a / b)). pose proof (Qlt_floor (a / b)).
  rewrite inject_Z_plus in *. change (inject_Z 1) with 1%Q in *.
  set (f := inject_Z (Qfloor (a / b))) in *.
  assert (Hab : (a == b * (a / b))%Q) by (field; lra).
  set (x := (a / b)%Q) in *. split.
  - assert (b * f <= b * x)%Q by (apply Qmult_le_l; lra). lra.
  - assert (b * x < b * (f + 1))%Q by (apply Qmult_lt_l; lra). lra.
Qed.

Lemma js_trunc_opp q : js_trunc (- q) = (- js_trunc q)%Z.
Proof. destruct q as [n d]. unfold js_trunc. simpl. apply Z.quot_opp_l. lia. Qed.

(** The truncation reads the rational, not its fraction. *)
#[export] Instance js_trunc_proper : Proper (Qeq ==> eq) js_trunc.
Proof.
  intros p q Hpq. destruct (Qlt_le_dec p 0) as [Hp|Hp].
  - assert (Hn : forall x, js_trunc x = (- js_trunc (- x))%Z) by (intros x; rewrite js_trunc_opp; lia).
    rewrite (Hn p), (Hn q), (js_trunc_floor (- p)), (js_trunc_floor (- q)) by (rewrite <- ?Hpq; lra).
    f_equal. apply Qfloor_comp. by rewrite Hpq.
  - rewrite !js_trunc_floor by (rewrite <- ?Hpq; lra). by apply Qfloor_comp.
Qed.

#[export] Instance js_rem_proper : Proper (Qeq ==> Qeq ==> Qeq) js_rem.
Proof.
  intros a a' Ha b b' Hb. unfold js_rem.
  rewrite (js_trunc_proper (a / b)%Q (a' / b')%Q) by (by rewrite Ha, Hb). by rewrite Ha, Hb.
Qed.

(** Two disjoint record predicates both implying a third count at most
    as many records as it. *)
Lemma qcount_two_le {A} (p q r : A -> bool) l :
  (forall x, p x = true -> r x = true) -> (forall x, q x = true -> r x = true) ->
  (forall x, p x = true -> q x = true -> False) ->
  (qcount p l + qcount q l <= qcount r l)%Q.
Proof.
  intros Hp Hq Hpq. induction l as [|x l IH]; [by vm_compute|].
  rewrite !qcount_cons. destruct (p x) eqn:Ex, (q x) eqn:Ey.
  - exfalso. eauto.
  - rewrite (Hp x Ex). lra.
  - rewrite (Hq x Ey). lra.
  - destruct (r x); lra.
Qed.

(** Two entries of a list on which [f] is injective as a list are equal
    when their images are. *)
Lemma NoDup_fmap_elem_inj {A B} (f : A -> B) (l : list A) x y :
  NoDup (f <$> l) -> x ∈ l -> y ∈ l -> f x = f y -> x = y.
Proof.
  induction l as [|z l IH]; simpl; [set_solver|].
  intros Hnd%NoDup_cons Hx%elem_of_cons Hy%elem_of_cons Hf. destruct Hnd as [Hz Hnd].
  destruct Hx as [->|Hx], Hy as [->|Hy]; auto;
    exfalso; apply Hz; rewrite list_elem_of_fmap; eauto.
Qed.

Lemma string_length_app (a b : string) : String.length (a ++ b) = (String.length a + String.length b)%nat.
Proof. induction a as [|c a IH]; simpl; [done|by rewrite IH]. Qed.

(** A value with the separator and something after it appended is a
    different value. *)
Lemma string_app_arrow_neq (x w : string) : (x ++ ARROW ++ w)%string <> x.
Proof.
  intros E. apply (f_equal String.length) in E. rewrite !string_length_app in E. simpl in E. lia.
Qed.
