(* ===== verification/Survey.v ===== *)
(** * Survey records, selectable fields and the Category Resolver

    The record type of [AlluvialDiagram.tsx] and [ChordDiagram.tsx]
    ([SurveyResponse], a row of the [survey_responses] table), the five
    selectable fields ([availableFields] of both diagrams), and the tenure
    bucketing of [getYearsCategory] ([shared/colorUtils.ts]) and of
    [getValidYearsCategory] ([AlluvialDiagram.tsx]). *)

From S2P Require Import Prelude.

Open Scope string_scope.

(** ** Fields *)

Module Field.
(** The [value]s of [availableFields]. *)
Inductive t :=
| years_at_medtronic
| learning_style
| shaped_by
| peak_performance
| motivation.

#[export] Instance eq_dec : EqDecision t.
Proof. solve_decision. Defined.

(** The field's key in a record and its [value] in the selector. *)
Definition name (f : t) : string :=
  match f with
  | years_at_medtronic => "years_at_medtronic"
  | learning_style => "learning_style"
  | shaped_by => "shaped_by"
  | peak_performance => "peak_performance"
  | motivation => "motivation"
  end.
End Field.

#[export] Existing Instance Field.eq_dec.

(** [availableFields] of [AlluvialDiagram.tsx], in its order. *)
Definition availableFields : list Field.t :=
  [Field.years_at_medtronic; Field.learning_style; Field.shaped_by;
   Field.peak_performance; Field.motivation].

(** [availableFields] of [ChordDiagram.tsx]: the same fields in another order. *)
Definition chordAvailableFields : list Field.t :=
  [Field.years_at_medtronic; Field.peak_performance; Field.learning_style;
   Field.motivation; Field.shaped_by].

(** ** Records *)

(** The JavaScript value of the numeric [years_at_medtronic] column: a number,
    or [null]/[undefined] when the row lacks it. *)
Inductive js_number :=
| JsNull
| JsUndefined
| JsNum (z : Z).

(** [v || 0]: [null], [undefined] and [0] are falsy, so they give [0]. *)
Definition or_zero (v : js_number) : Z :=
  match v with JsNum z => z | _ => 0%Z end.

(** A row of [survey_responses] joined with its attendee.  The string columns
    are [None] when [null] or [undefined]; [updated_at] is the timestamp
    [new Date(updated_at)] denotes; [has_attendee] records whether the joined
    [attendee] object is present. *)
Record SurveyResponse := mkResponse {
  id : string;
  attendee_id : string;
  years_at_medtronic : js_number;
  learning_style : option string;
  shaped_by : option string;
  peak_performance : option string;
  motivation : option string;
  updated_at : Z;
  test_data : bool;
  has_attendee : bool
}.

(** [d[field]] when a string is expected: the numeric tenure column is never a
    string, so the [typeof value === 'string'] filters drop it. *)
Definition string_field (f : Field.t) (d : SurveyResponse) : option string :=
  match f with
  | Field.years_at_medtronic => None
  | Field.learning_style => learning_style d
  | Field.shaped_by => shaped_by d
  | Field.peak_performance => peak_performance d
  | Field.motivation => motivation d
  end.

(** ** Category Resolver *)

Definition YEARS_CATEGORIES : list string := ["0-5"; "6-10"; "11-15"; "16-20"; "20+"].

(** [getYearsCategory] of [colorUtils.ts]. *)
Definition getYearsCategory (years : Z) : string :=
  if (years <=? 5)%Z then "0-5"
  else if (years <=? 10)%Z then "6-10"
  else if (years <=? 15)%Z then "11-15"
  else if (years <=? 20)%Z then "16-20"
  else "20+".

(** [getValidYearsCategory] of [AlluvialDiagram.tsx].  Its first guard
    ([typeof years !== 'number' || isNaN(years) || years < 0]) returns ["0-5"];
    on an integer only [years < 0] can hold. *)
Definition getValidYearsCategory (years : Z) : string :=
  if (years <? 0)%Z then "0-5"
  else if (years <=? 5)%Z then "0-5"
  else if (years <=? 10)%Z then "6-10"
  else if (years <=? 15)%Z then "11-15"
  else if (years <=? 20)%Z then "16-20"
  else "20+".

(** The accessor of the Sankey render ([sourceAccessor]/[targetAccessor]):
    the band of [years_at_medtronic || 0] for tenure, the raw column
    otherwise. *)
Definition accessor (f : Field.t) (d : SurveyResponse) : option string :=
  match f with
  | Field.years_at_medtronic => Some (getYearsCategory (or_zero (years_at_medtronic d)))
  | _ => string_field f d
  end.

(** The same with [getValidYearsCategory], as the [sortedSources] layout of
    the animation computes it. *)
Definition validAccessor (f : Field.t) (d : SurveyResponse) : option string :=
  match f with
  | Field.years_at_medtronic => Some (getValidYearsCategory (or_zero (years_at_medtronic d)))
  | _ => string_field f d
  end.

(** The band's position in [YEARS_CATEGORIES], in closed form. *)
Definition band_index (years : Z) : Z := Z.min 4 (Z.max 0 ((years - 1) / 5)).

(** ** The reference fixture *)

(** A record of the fixtures, which carry only the five answers. *)
Definition fixture (years : Z) (ls sb pp mo : string) : SurveyResponse :=
  mkResponse "" "" (JsNum years) (Some ls) (Some sb) (Some pp) (Some mo) 0 false true.

(** The 20 records of [mockData] in [app/test-chord/page.tsx]. *)
Definition testChordMockData : list SurveyResponse := [
  fixture 10 "kinesthetic" "mentor" "Extrovert, Morning" "autonomy";
  fixture 0 "reading_writing" "other" "Introvert, Morning" "autonomy";
  fixture 6 "auditory" "other" "Extrovert, Evening" "autonomy";
  fixture 22 "kinesthetic" "mentor" "Extrovert, Morning" "autonomy";
  fixture 19 "auditory" "mentor" "Introvert, Evening" "recognition";
  fixture 15 "visual" "mentor" "Ambivert, Morning" "impact";
  fixture 24 "reading_writing" "mentor" "Introvert, Morning" "impact";
  fixture 14 "auditory" "failure" "Extrovert, Evening" "autonomy";
  fixture 5 "auditory" "other" "Introvert, Night" "purpose";
  fixture 15 "visual" "other" "Ambivert, Night" "purpose";
  fixture 24 "visual" "failure" "Extrovert, Morning" "recognition";
  fixture 8 "auditory" "failure" "Extrovert, Evening" "autonomy";
  fixture 13 "reading_writing" "other" "Introvert, Morning" "autonomy";
  fixture 4 "kinesthetic" "other" "Extrovert, Morning" "autonomy";
  fixture 18 "visual" "challenge" "Introvert, Evening" "growth";
  fixture 7 "reading_writing" "success" "Ambivert, Morning" "impact";
  fixture 12 "kinesthetic" "team" "Extrovert, Evening" "recognition";
  fixture 3 "auditory" "mentor" "Introvert, Night" "purpose";
  fixture 20 "visual" "challenge" "Extrovert, Morning" "growth";
  fixture 9 "reading_writing" "failure" "Ambivert, Night" "autonomy"
].

(** ** Lemmas *)

Lemma getValidYearsCategory_eq y : getValidYearsCategory y = getYearsCategory y.
Proof.
  unfold getValidYearsCategory, getYearsCategory.
  destruct (y <? 0)%Z eqn:E; [|done]. rewrite (proj2 (Z.leb_le y 5)); [done|lia].
Qed.

Lemma validAccessor_eq f d : validAccessor f d = accessor f d.
Proof. destruct f; simpl; rewrite ?getValidYearsCategory_eq; done. Qed.

Lemma getYearsCategory_elem y : getYearsCategory y ∈ YEARS_CATEGORIES.
Proof.
  unfold getYearsCategory, YEARS_CATEGORIES.
  repeat case_match; set_solver.
Qed.

#[export] Hint Resolve getYearsCategory_elem : medvis.

Lemma YEARS_CATEGORIES_NoDup : NoDup YEARS_CATEGORIES.
Proof. unfold YEARS_CATEGORIES. repeat constructor; set_solver. Qed.

(** [band_index] is monotone: a longer tenure never falls in an earlier band. *)
Lemma band_index_mono y1 y2 : (y1 <= y2)%Z -> (band_index y1 <= band_index y2)%Z.
Proof.
  intros Hle. unfold band_index.
  pose proof (Z.div_le_mono (y1 - 1) (y2 - 1) 5 ltac:(lia) ltac:(lia)). lia.
Qed.

Lemma band_index_of y k :
  (0 <= k <= 4)%Z -> (k = 0 \/ 5 * k < y)%Z -> (k = 4 \/ y <= 5 * k + 5)%Z ->
  band_index y = k.
Proof. unfold band_index. zdiv_lia. Qed.

Lemma band_index_range y : (0 <= band_index y <= 4)%Z.
Proof. unfold band_index. lia. Qed.

(** The tenure bands are the five fixed bands, contiguous and in order:
    [getYearsCategory y] is the entry of [YEARS_CATEGORIES] at position
    [min 4 (max 0 ((y - 1) / 5))], so the bands have inclusive upper bounds
    5, 10, 15, 20, every integer (negatives included) lands in exactly one
    band, and a longer tenure never lands in an earlier band. *)
Theorem getYearsCategory_band y :
  YEARS_CATEGORIES !! Z.to_nat (band_index y) = Some (getYearsCategory y).
Proof.
  unfold getYearsCategory.
  destruct (Z.leb_spec y 5); [rewrite (band_index_of y 0) by lia; done|].
  destruct (Z.leb_spec y 10); [rewrite (band_index_of y 1) by lia; done|].
  destruct (Z.leb_spec y 15); [rewrite (band_index_of y 2) by lia; done|].
  destruct (Z.leb_spec y 20); [rewrite (band_index_of y 3) by lia; done|].
  rewrite (band_index_of y 4) by lia; done.
Qed.

(** The spec's example: tenures [10, 0, 6, 22, 19] fall in the bands
    [6-10, 0-5, 6-10, 20+, 16-20]. *)
Example getYearsCategory_example :
  map getYearsCategory [10; 0; 6; 22; 19]%Z = ["6-10"; "0-5"; "6-10"; "20+"; "16-20"].
Proof. reflexivity. Qed.

(** The field names are distinct. *)
Lemma Field_name_inj f f' : Field.name f = Field.name f' -> f = f'.
Proof. destruct f, f'; simpl; congruence. Qed.
