(* ===== verification/Categories.v ===== *)
(** * The category lists of the Sankey diagram

    The [sources] and [targets] memos of [AlluvialDiagram.tsx] (the distinct
    values of the chosen source and target fields) and the [sortedSources] /
    [sortedTargets] orders of its render effect: tenure bands in band order,
    other values sorted as strings. *)

From S2P Require Import Prelude Survey.

Open Scope string_scope.

(** [.filter((value): value is string => typeof value === 'string' && value.length > 0)] *)
Definition keep_strings (l : list (option string)) : list string :=
  omap (fun v => match v with Some s => if String.eqb s "" then None else Some s | None => None end) l.

(** [YEARS_CATEGORIES.filter(cat => data.some(d => getValidYearsCategory(d.years_at_medtronic || 0) === cat))] *)
Definition present_bands (data : list SurveyResponse) : list string :=
  List.filter (fun cat =>
    existsb (fun d => String.eqb (getValidYearsCategory (or_zero (years_at_medtronic d))) cat) data)
    YEARS_CATEGORIES.

(** [Array.from(new Set(data.map(d => d[field]))).filter(...)] *)
Definition distinct_values (data : list SurveyResponse) (f : Field.t) : list string :=
  keep_strings (array_from_set (map (string_field f) data)).

(** The [sources] memo (lines 152-165). *)
Definition sources (data : list SurveyResponse) (currentSource : Field.t) : list string :=
  match data with
  | [] => []
  | _ =>
      match currentSource with
      | Field.years_at_medtronic => present_bands data
      | _ => distinct_values data currentSource
      end
  end.

(** The [targets] memo (lines 167-185): the same, sorted for other fields. *)
Definition targets (data : list SurveyResponse) (currentTarget : Field.t) : list string :=
  match data with
  | [] => []
  | _ =>
      match currentTarget with
      | Field.years_at_medtronic => present_bands data
      | _ => js_sort (distinct_values data currentTarget)
      end
  end.

(** [(a, b) => YEARS_CATEGORIES.indexOf(a) - YEARS_CATEGORIES.indexOf(b)] *)
Definition yearsIndex (s : string) : Z := js_indexOf YEARS_CATEGORIES s.

(** The copy-and-sort of the render effect: by band for tenure, [sort()]
    otherwise. *)
Definition sortFor (f : Field.t) (l : list string) : list string :=
  match f with
  | Field.years_at_medtronic => sort_by_key yearsIndex l
  | _ => js_sort l
  end.

(** [sortedSources] and [sortedTargets] of the render effect (lines 564-577). *)
Definition sortedSources (data : list SurveyResponse) (currentSource : Field.t) : list string :=
  sortFor currentSource (sources data currentSource).

Definition sortedTargets (data : list SurveyResponse) (currentTarget : Field.t) : list string :=
  sortFor currentTarget (targets data currentTarget).

(** The order a field's values are laid out in. *)
Definition field_order (f : Field.t) : string -> string -> Prop :=
  match f with
  | Field.years_at_medtronic => key_le yearsIndex
  | _ => str_le
  end.

(** ** Lemmas *)

Lemma keep_strings_elem l x : x ∈ keep_strings l <-> Some x ∈ l /\ x <> "".
Proof.
  unfold keep_strings. rewrite list_elem_of_omap. split.
  - intros ([s|] & Hs & Hx); [|done].
    destruct (String.eqb_spec s ""); [done|]. injection Hx as <-. done.
  - intros [Hx Hne]. exists (Some x). split; [done|].
    by destruct (String.eqb_spec x "").
Qed.

Lemma keep_strings_NoDup l : NoDup l -> NoDup (keep_strings l).
Proof.
  induction 1 as [|v l Hv Hl IH]; [constructor|].
  unfold keep_strings; simpl. fold (keep_strings l).
  destruct v as [s|]; [|done]. destruct (String.eqb s ""); [done|].
  constructor; [|done]. rewrite keep_strings_elem. naive_solver.
Qed.

Lemma distinct_values_elem data f x :
  x ∈ distinct_values data f <-> (exists d, d ∈ data /\ string_field f d = Some x) /\ x <> "".
Proof.
  unfold distinct_values. rewrite keep_strings_elem, array_from_set_elem, list_elem_of_fmap.
  naive_solver.
Qed.

Lemma distinct_values_NoDup data f : NoDup (distinct_values data f).
Proof. apply keep_strings_NoDup, array_from_set_NoDup. Qed.

Lemma present_bands_elem data x :
  x ∈ present_bands data <-> x ∈ YEARS_CATEGORIES /\ exists d, d ∈ data /\ accessor Field.years_at_medtronic d = Some x.
Proof.
  unfold present_bands. rewrite list_elem_of_In, filter_In, existsb_exists, <- list_elem_of_In. simpl.
  setoid_rewrite <- list_elem_of_In. setoid_rewrite String.eqb_eq.
  setoid_rewrite getValidYearsCategory_eq. naive_solver.
Qed.

Lemma present_bands_NoDup data : NoDup (present_bands data).
Proof. apply NoDup_ListNoDup, List.NoDup_filter, NoDup_ListNoDup, YEARS_CATEGORIES_NoDup. Qed.

Lemma years_band_not_empty s : s ∈ YEARS_CATEGORIES -> s <> "".
Proof. unfold YEARS_CATEGORIES. set_solver. Qed.

#[export] Hint Resolve distinct_values_NoDup present_bands_NoDup : medvis.

Lemma yearsIndex_inj x y :
  x ∈ YEARS_CATEGORIES -> y ∈ YEARS_CATEGORIES -> yearsIndex x = yearsIndex y -> x = y.
Proof.
  intros Hx Hy Hxy. unfold yearsIndex in *.
  pose proof (js_indexOf_nonneg _ _ Hx) as Hnx.
  destruct (Z_of_nat_complete _ Hnx) as [i Hi].
  apply js_indexOf_elem in Hi as Hix. rewrite Hxy in Hi. apply js_indexOf_elem in Hi.
  congruence.
Qed.

Lemma sources_elem data f x :
  x ∈ sources data f <-> (exists d, d ∈ data /\ accessor f d = Some x) /\ x <> "".
Proof.
  destruct data as [|d0 data']; [set_solver|].
  unfold sources. remember (d0 :: data') as data.
  destruct f; [|by rewrite distinct_values_elem..].
  rewrite present_bands_elem. split.
  - intros [Hy Hd]. split; [done|]. by apply years_band_not_empty.
  - intros [(d & Hd & Hacc) _]. split; [|eauto].
    simpl in Hacc. injection Hacc as <-. apply getYearsCategory_elem.
Qed.

Lemma targets_elem data f x :
  x ∈ targets data f <-> (exists d, d ∈ data /\ accessor f d = Some x) /\ x <> "".
Proof.
  rewrite <- sources_elem. destruct data as [|d0 data']; [done|].
  unfold targets, sources. destruct f; [done|by rewrite js_sort_Permutation..].
Qed.

Lemma sources_NoDup data f : NoDup (sources data f).
Proof. destruct data, f; simpl; auto using NoDup_nil_2 with medvis. Qed.

Lemma targets_NoDup data f : NoDup (targets data f).
Proof.
  destruct data, f; simpl; try rewrite js_sort_Permutation; auto using NoDup_nil_2 with medvis.
Qed.

Lemma accessor_years_elem d x :
  accessor Field.years_at_medtronic d = Some x -> x ∈ YEARS_CATEGORIES.
Proof. simpl. intros [= <-]. apply getYearsCategory_elem. Qed.

Lemma sortFor_Permutation f l : sortFor f l ≡ₚ l.
Proof. destruct f; simpl; auto using sort_by_key_Permutation with medvis. Qed.

Lemma sortFor_StronglySorted f l : StronglySorted (field_order f) (sortFor f l).
Proof. destruct f; simpl; auto using sort_by_key_StronglySorted with medvis. Qed.

Lemma sortFor_perm_eq f l1 l2 :
  (f = Field.years_at_medtronic -> forall x, x ∈ l1 -> x ∈ YEARS_CATEGORIES) ->
  l1 ≡ₚ l2 -> sortFor f l1 = sortFor f l2.
Proof.
  intros Hy Hp. destruct f; simpl; try by apply js_sort_perm_eq.
  apply sort_by_key_perm_eq; [|done]. intros x y Hx Hy'. apply yearsIndex_inj; auto.
Qed.

Lemma sources_perm data1 data2 f : data1 ≡ₚ data2 -> sources data1 f ≡ₚ sources data2 f.
Proof.
  intros Hp. apply NoDup_Permutation; [apply sources_NoDup..|].
  intros x. rewrite !sources_elem. by setoid_rewrite Hp.
Qed.

Lemma targets_perm data1 data2 f : data1 ≡ₚ data2 -> targets data1 f ≡ₚ targets data2 f.
Proof.
  intros Hp. apply NoDup_Permutation; [apply targets_NoDup..|].
  intros x. rewrite !targets_elem. by setoid_rewrite Hp.
Qed.

Lemma sources_years data x :
  x ∈ sources data Field.years_at_medtronic -> x ∈ YEARS_CATEGORIES.
Proof. rewrite sources_elem. intros [(d & _ & Hd) _]. by eapply accessor_years_elem. Qed.

Lemma targets_years data x :
  x ∈ targets data Field.years_at_medtronic -> x ∈ YEARS_CATEGORIES.
Proof. rewrite targets_elem. intros [(d & _ & Hd) _]. by eapply accessor_years_elem. Qed.

Lemma sortedSources_elem data f x :
  x ∈ sortedSources data f <-> (exists d, d ∈ data /\ accessor f d = Some x) /\ x <> "".
Proof. unfold sortedSources. by rewrite sortFor_Permutation, sources_elem. Qed.

Lemma sortedTargets_elem data f x :
  x ∈ sortedTargets data f <-> (exists d, d ∈ data /\ accessor f d = Some x) /\ x <> "".
Proof. unfold sortedTargets. by rewrite sortFor_Permutation, targets_elem. Qed.

Lemma sortedSources_NoDup data f : NoDup (sortedSources data f).
Proof. unfold sortedSources. rewrite sortFor_Permutation. apply sources_NoDup. Qed.

Lemma sortedTargets_NoDup data f : NoDup (sortedTargets data f).
Proof. unfold sortedTargets. rewrite sortFor_Permutation. apply targets_NoDup. Qed.

(** The node order of a Sankey column does not depend on the order of
    the records: permuting the data gives the same [sortedSources] and
    [sortedTargets] arrays, although [sources] itself follows the order in
    which values first occur. *)
Theorem sorted_nodes_order_independent data1 data2 f :
  data1 ≡ₚ data2 ->
  sortedSources data1 f = sortedSources data2 f /\ sortedTargets data1 f = sortedTargets data2 f.
Proof.
  intros Hp. unfold sortedSources, sortedTargets. split; apply sortFor_perm_eq.
  - intros ->. apply sources_years.
  - by apply sources_perm.
  - intros ->. apply targets_years.
  - by apply targets_perm.
Qed.

(** C16: a Sankey column lists every distinct non-empty value the field's
    accessor yields on the records, once each, in the field's order (band
    order for tenure, string order otherwise). *)
Theorem sortedSources_spec data f :
  NoDup (sortedSources data f) /\ StronglySorted (field_order f) (sortedSources data f) /\
  forall x, x ∈ sortedSources data f <-> (exists d, d ∈ data /\ accessor f d = Some x) /\ x <> "".
Proof.
  split_and!; [apply sortedSources_NoDup|apply sortFor_StronglySorted|apply sortedSources_elem].
Qed.

Lemma sorted_nodes_order_independent_witness :
  rev testChordMockData ≡ₚ testChordMockData /\
  sortedSources (rev testChordMockData) Field.motivation = sortedSources testChordMockData Field.motivation.
Proof.
  split; [symmetry; apply Permutation_rev|].
  apply (sorted_nodes_order_independent (rev testChordMockData) testChordMockData Field.motivation).
  symmetry; apply Permutation_rev.
Defined.
