(* ===== verification/Sankey.v ===== *)
(** * The Sankey graph builder

    The node and link arrays the render effect of [AlluvialDiagram.tsx]
    (lines 579-647) hands to the d3-sankey layout: one node per value of each
    column, one link per (source value, target value) pair weighted by its
    number of records, aggregated in a JavaScript [Map] keyed by the string
    [`${sourceId}→${targetId}`], and the hidden dummy nodes and links that
    give an unconnected node a non-zero height.  Then the arrays the render
    draws once the dummies are filtered out (lines 683 and 822) and the
    "Most Common Flow" insight (line 966).

    The theorems: when no source value contains the separator, the drawn
    links are exactly one per occurring pair, with its count, and every
    node carries flow; without that hypothesis the string keys collide,
    and the aggregation merges the records of two pairs into one link. *)

From S2P Require Import Prelude Survey Categories.

Open Scope string_scope.

Record SNode := mkNode {
  node_id : string;
  node_name : string;
  node_category : string
}.

(** A link of [linksMap]: [isDummy] is [undefined] (false) on real links. *)
Record SLink := mkLink {
  link_source : string;
  link_target : string;
  link_value : Q;
  isDummy : bool
}.

Definition DUMMY_SOURCE_ID : string := "__dummy_source__".
Definition DUMMY_TARGET_ID : string := "__dummy_target__".

(** The weight [0.0001] of a dummy link. *)
Definition DUMMY_WEIGHT : Q := 1 # 10000.

Definition DUMMY_SOURCE_NODE : SNode := mkNode DUMMY_SOURCE_ID "" "__dummy__".
Definition DUMMY_TARGET_NODE : SNode := mkNode DUMMY_TARGET_ID "" "__dummy__".

(** [`${field}:${name}`] *)
Definition nodeId (f : Field.t) (name : string) : string := Field.name f ++ ":" ++ name.

(** [`${sourceId}→${targetId}`] *)
Definition linkKey (sourceId targetId : string) : string := sourceId ++ ARROW ++ targetId.

Definition is_years (f : Field.t) : bool :=
  match f with Field.years_at_medtronic => true | _ => false end.

Definition years_not_null (d : SurveyResponse) : bool :=
  match years_at_medtronic d with JsNull => false | _ => true end.

(** [filteredData] (lines 580-583): a record whose tenure is [null] is
    dropped when tenure is one of the two columns ([undefined] is kept). *)
Definition filteredData (data : list SurveyResponse) (cs ct : Field.t) : list SurveyResponse :=
  List.filter (fun d => (negb (is_years cs) || years_not_null d) && (negb (is_years ct) || years_not_null d)) data.

(** One column of [nodes] (lines 586-589). *)
Definition column_nodes (f : Field.t) (names : list string) : list SNode :=
  map (fun name => mkNode (nodeId f name) name (Field.name f)) names.

(** Whether a record is counted: both accessor values are listed nodes. *)
Definition counted (cs ct : Field.t) (ss st : list string) (d : SurveyResponse) : bool :=
  match accessor cs d, accessor ct d with
  | Some source, Some target => js_includes ss source && js_includes st target
  | _, _ => false
  end.

(** The key a counted record increments. *)
Definition record_key (cs ct : Field.t) (d : SurveyResponse) : string :=
  linkKey (nodeId cs (default "" (accessor cs d))) (nodeId ct (default "" (accessor ct d))).

Definition incr (l : SLink) : SLink :=
  mkLink (link_source l) (link_target l) (link_value l + 1) (isDummy l).

(** The body of [filteredData.forEach] (lines 593-604). *)
Definition count_record (cs ct : Field.t) (ss st : list string)
    (linksMap : JsMap) (d : SurveyResponse) : @JsMap string SLink :=
  match accessor cs d, accessor ct d with
  | Some source, Some target =>
      if js_includes ss source && js_includes st target then
        let sourceId := nodeId cs source in
        let targetId := nodeId ct target in
        let key := linkKey sourceId targetId in
        let m1 := if map_has linksMap key then linksMap
                  else map_set key (mkLink sourceId targetId 0 false) linksMap in
        match map_get m1 key with
        | Some l => map_set key (incr l) m1
        | None => m1
        end
      else linksMap
  | _, _ => linksMap
  end.

Definition aggregate (cs ct : Field.t) (ss st : list string)
    (data : list SurveyResponse) : @JsMap string SLink :=
  fold_left (count_record cs ct ss st) data [].

(** [targetNodeIds.forEach] (lines 613-623): a target with no incoming link
    gets one from the dummy source, added in front of [nodes] once. *)
Definition dummy_source_step (acc : list SNode * @JsMap string SLink * bool)
    (targetId : string) : list SNode * @JsMap string SLink * bool :=
  let '(nodes, linksMap, added) := acc in
  if existsb (fun l => String.eqb (link_target l) targetId) (map_values linksMap)
  then acc
  else (if added then nodes else DUMMY_SOURCE_NODE :: nodes,
        map_set (linkKey DUMMY_SOURCE_ID targetId)
                (mkLink DUMMY_SOURCE_ID targetId DUMMY_WEIGHT true) linksMap,
        true).

(** [sourceNodeIds.forEach] (lines 625-635): a source with no outgoing link
    gets one to the dummy target, appended to [nodes] once. *)
Definition dummy_target_step (acc : list SNode * @JsMap string SLink * bool)
    (sourceId : string) : list SNode * @JsMap string SLink * bool :=
  let '(nodes, linksMap, added) := acc in
  if existsb (fun l => String.eqb (link_source l) sourceId) (map_values linksMap)
  then acc
  else (if added then nodes else (nodes ++ [DUMMY_TARGET_NODE])%list,
        map_set (linkKey sourceId DUMMY_TARGET_ID)
                (mkLink sourceId DUMMY_TARGET_ID DUMMY_WEIGHT true) linksMap,
        true).

Record SankeyGraph := mkGraph {
  graph_nodes : list SNode;
  graph_links : list SLink
}.

(** The [nodes] and [links] arrays of the render effect (lines 563-636). *)
Definition sankey_graph (data : list SurveyResponse) (cs ct : Field.t) : SankeyGraph :=
  let ss := sortedSources data cs in
  let st := sortedTargets data ct in
  let nodes := (column_nodes cs ss ++ column_nodes ct st)%list in
  let linksMap := aggregate cs ct ss st (filteredData data cs ct) in
  let targetNodeIds := map (nodeId ct) st in
  let sourceNodeIds := map (nodeId cs) ss in
  let '(nodes1, m1, _) := fold_left dummy_source_step targetNodeIds (nodes, linksMap, false) in
  let '(nodes2, m2, _) := fold_left dummy_target_step sourceNodeIds (nodes1, m1, false) in
  mkGraph nodes2 (map_values m2).

(** [d.source.id !== DUMMY_SOURCE_ID && d.target.id !== DUMMY_TARGET_ID] *)
Definition not_dummy (l : SLink) : bool :=
  negb (String.eqb (link_source l) DUMMY_SOURCE_ID) && negb (String.eqb (link_target l) DUMMY_TARGET_ID).

(** [filteredLinks] (line 683): the links drawn. *)
Definition filteredLinks (g : SankeyGraph) : list SLink := List.filter not_dummy (graph_links g).

(** [filteredNodes] (line 822): the nodes drawn. *)
Definition filteredNodes (g : SankeyGraph) : list SNode :=
  List.filter (fun n => negb (String.eqb (node_id n) DUMMY_SOURCE_ID) &&
                        negb (String.eqb (node_id n) DUMMY_TARGET_ID)) (graph_nodes g).

(** [links.reduce((a, b) => (b.value > a.value ? b : a), links[0])] *)
Definition mostCommon (links : list SLink) : option SLink :=
  match links with
  | [] => None
  | l0 :: _ => Some (fold_left (fun a b => if Qlt_le_dec (link_value a) (link_value b) then b else a) links l0)
  end.

(** ** The aggregation loop *)

(** The weight the map holds under a key, [0] when absent. *)
Definition link_count (m : @JsMap string SLink) (k : string) : Q :=
  from_option link_value 0%Q (map_get m k).

(** An entry of the aggregation map: a link stored under the key of its
    two ids, between a listed source and a listed target, not a dummy, of
    weight at least [lo]. *)
Definition agg_entry (cs ct : Field.t) (ss st : list string) (lo : Q) (kl : string * SLink) : Prop :=
  let '(k, l) := kl in
  k = linkKey (link_source l) (link_target l) /\
  (exists x y, link_source l = nodeId cs x /\ link_target l = nodeId ct y /\ x ∈ ss /\ y ∈ st) /\
  isDummy l = false /\ (lo <= link_value l)%Q.

Definition agg_inv (cs ct : Field.t) (ss st : list string) (m : @JsMap string SLink) : Prop :=
  NoDup (map_keys m) /\ forall kl, kl ∈ m -> agg_entry cs ct ss st 1 kl.

(** A key a real link can be stored under when its source value does not
    contain the separator. *)
Definition real_key (cs ct : Field.t) (k : string) : Prop :=
  exists x y, k = linkKey (nodeId cs x) (nodeId ct y) /\ contains_arrow x = false.

(** Every link the render keeps is stored under a real key. *)
Definition dummy_inv (cs ct : Field.t) (m : @JsMap string SLink) : Prop :=
  forall k l, (k, l) ∈ m -> not_dummy l = true -> real_key cs ct k.

(** No value of the field contains the separator [→]. *)
Definition arrow_free (f : Field.t) (data : list SurveyResponse) : bool :=
  forallb (fun d => match accessor f d with Some x => negb (contains_arrow x) | None => true end) data.

(** Two records whose pairs differ, once a value contains the separator. *)
Definition collision_data : list SurveyResponse :=
  [mkResponse "1" "1" (JsNum 1) (Some ("a" ++ ARROW ++ "shaped_by:b")) (Some "c") None None 0 false true;
   mkResponse "2" "2" (JsNum 1) (Some "a") (Some ("b" ++ ARROW ++ "shaped_by:c")) None None 0 false true].

(** The pairs of values of the records [d] with [cs = x] and [ct = y]. *)
Definition has_pair (cs ct : Field.t) (x y : string) (d : SurveyResponse) : bool :=
  bool_decide (accessor cs d = Some x /\ accessor ct d = Some y).

(** Both columns resolve to a non-empty value. *)
Definition resolvable (cs ct : Field.t) (d : SurveyResponse) : bool :=
  match accessor cs d, accessor ct d with
  | Some x, Some y => negb (String.eqb x "") && negb (String.eqb y "")
  | _, _ => false
  end.

(** The source id of a stored link: the dummy source or a node id whose
    value does not contain the separator. *)
Definition src_ok (cs : Field.t) (s : string) : Prop :=
  s = DUMMY_SOURCE_ID \/ exists x, s = nodeId cs x /\ contains_arrow x = false.

(** Every link of the map is stored under the key of its ids and weighs
    more than zero. *)
Definition key_inv (cs : Field.t) (m : @JsMap string SLink) : Prop :=
  forall k l, (k, l) ∈ m ->
    k = linkKey (link_source l) (link_target l) /\ src_ok cs (link_source l) /\ (0 < link_value l)%Q.

(** Some link of positive weight has ids satisfying [P]. *)
Definition has_link (P : string -> string -> Prop) (m : @JsMap string SLink) : Prop :=
  exists l, l ∈ map_values m /\ P (link_source l) (link_target l) /\ (0 < link_value l)%Q.

Section Aggregation.
Context (cs ct : Field.t) (ss st : list string).

Lemma count_record_count m d k :
  link_count (count_record cs ct ss st m d) k ==
  link_count m k + (if counted cs ct ss st d && bool_decide (record_key cs ct d = k) then 1 else 0).
Proof.
  unfold count_record, counted, record_key, link_count.
  destruct (accessor cs d) as [x|], (accessor ct d) as [y|]; simpl; try lra.
  destruct (js_includes ss x && js_includes st y); simpl; [|lra].
  set (key := linkKey (nodeId cs x) (nodeId ct y)).
  unfold map_has. destruct (map_get m key) as [l|] eqn:E.
  - rewrite E. destruct (decide (key = k)) as [<-|Hne].
    + rewrite map_get_set_eq, E, bool_decide_true by done. simpl. lra.
    + rewrite map_get_set_ne, bool_decide_false by done. lra.
  - rewrite map_get_set_eq. destruct (decide (key = k)) as [<-|Hne].
    + rewrite map_get_set_eq, E, bool_decide_true by done. simpl. lra.
    + rewrite !map_get_set_ne, bool_decide_false by done. lra.
Qed.

Lemma count_record_qsum m d :
  qsum (map link_value (map_values (count_record cs ct ss st m d))) ==
  qsum (map link_value (map_values m)) + (if counted cs ct ss st d then 1 else 0).
Proof.
  unfold count_record, counted.
  destruct (accessor cs d) as [x|], (accessor ct d) as [y|]; simpl; try lra.
  destruct (js_includes ss x && js_includes st y); simpl; [|lra].
  set (key := linkKey (nodeId cs x) (nodeId ct y)).
  unfold map_has. destruct (map_get m key) as [l|] eqn:E.
  - rewrite E, map_set_qsum, E. simpl. lra.
  - rewrite map_get_set_eq, map_set_qsum, map_get_set_eq, map_set_qsum, E. simpl. lra.
Qed.

Lemma agg_entry_weaken kl : agg_entry cs ct ss st 1 kl -> agg_entry cs ct ss st 0 kl.
Proof. destruct kl as [k l]. intros (? & ? & ? & ?). split_and!; auto. lra. Qed.

(** The map after the [if (!linksMap.has(key))] initialisation. *)
Lemma init_entry_inv m x y :
  agg_inv cs ct ss st m -> x ∈ ss -> y ∈ st ->
  let key := linkKey (nodeId cs x) (nodeId ct y) in
  let m1 := if map_has m key then m else map_set key (mkLink (nodeId cs x) (nodeId ct y) 0 false) m in
  NoDup (map_keys m1) /\ forall kl, kl ∈ m1 -> agg_entry cs ct ss st 0 kl /\ (kl ∈ m \/ kl.1 = key).
Proof.
  intros [Hnd Hm] Hx Hy key m1. subst m1. destruct (map_has m key).
  - split; [done|]. intros kl Hkl. split; [by apply agg_entry_weaken, Hm|by left].
  - split; [by apply map_keys_NoDup_set|]. intros kl Hkl.
    destruct (map_set_elem _ _ _ _ Hkl) as [->|Hin].
    + split; [|by right]. simpl. split_and!; [done| |done|lra]. eauto 10.
    + split; [by apply agg_entry_weaken, Hm|by left].
Qed.

Lemma count_record_inv m d : agg_inv cs ct ss st m -> agg_inv cs ct ss st (count_record cs ct ss st m d).
Proof.
  intros Hinv. unfold count_record.
  destruct (accessor cs d) as [x|], (accessor ct d) as [y|]; try done.
  destruct (js_includes ss x) eqn:Hx, (js_includes st y) eqn:Hy; try done; simpl.
  apply js_includes_spec in Hx, Hy.
  destruct (init_entry_inv m x y Hinv Hx Hy) as [Hnd1 Hm1]. revert Hnd1 Hm1.
  set (key := linkKey (nodeId cs x) (nodeId ct y)).
  set (m1 := if map_has m key then m else _). intros Hnd1 Hm1.
  destruct (map_get m1 key) as [l|] eqn:El.
  2:{ exfalso. revert El. subst m1. unfold map_has.
      destruct (map_get m key) eqn:E; [by rewrite E|by rewrite map_get_set_eq]. }
  split; [by apply map_keys_NoDup_set|].
  intros kl Hin. destruct (map_set_elem_NoDup _ _ _ _ Hnd1 Hin) as [->|[Hin' Hk]].
  - destruct (Hm1 _ (map_get_Some _ _ _ El)) as [(Hk & Hxy & Hd & Hv) _].
    unfold incr; simpl. split_and!; [done|done|done|lra].
  - destruct (Hm1 _ Hin') as [_ [Hin''|Hk']]; [by apply Hinv|done].
Qed.

Lemma aggregate_inv data : agg_inv cs ct ss st (aggregate cs ct ss st data).
Proof.
  unfold aggregate. cut (forall m, agg_inv cs ct ss st m -> agg_inv cs ct ss st (fold_left (count_record cs ct ss st) data m)).
  { intros H. apply H. split; [constructor|set_solver]. }
  induction data as [|d data IH]; intros m Hm; simpl; [done|]. by apply IH, count_record_inv.
Qed.

Lemma aggregate_count data k :
  link_count (aggregate cs ct ss st data) k ==
  qcount (fun d => counted cs ct ss st d && bool_decide (record_key cs ct d = k)) data.
Proof.
  unfold aggregate. cut (forall m, link_count (fold_left (count_record cs ct ss st) data m) k ==
    link_count m k + qcount (fun d => counted cs ct ss st d && bool_decide (record_key cs ct d = k)) data).
  { intros ->. apply Qplus_0_l. }
  induction data as [|d data IH]; intros m; simpl.
  - symmetry. apply Qplus_0_r.
  - rewrite IH, count_record_count, qcount_cons. destruct (_ && _); lra.
Qed.

Lemma aggregate_qsum data :
  qsum (map link_value (map_values (aggregate cs ct ss st data))) == qcount (counted cs ct ss st) data.
Proof.
  unfold aggregate. cut (forall m, qsum (map link_value (map_values (fold_left (count_record cs ct ss st) data m))) ==
    qsum (map link_value (map_values m)) + qcount (counted cs ct ss st) data).
  { intros ->. apply Qplus_0_l. }
  induction data as [|d data IH]; intros m; simpl.
  - symmetry. apply Qplus_0_r.
  - rewrite IH, count_record_qsum, qcount_cons. destruct (counted _ _ _ _ d); lra.
Qed.
End Aggregation.

(** ** The dummy phases *)

Lemma nodeId_contains_arrow f x : contains_arrow (nodeId f x) = contains_arrow x.
Proof. by destruct f. Qed.

Lemma nodeId_inj f x x' : nodeId f x = nodeId f x' -> x = x'.
Proof. unfold nodeId. intros H. apply string_app_cancel_l in H. by injection H. Qed.

Lemma nodeId_not_dummy_source f x : nodeId f x <> DUMMY_SOURCE_ID.
Proof. unfold nodeId, DUMMY_SOURCE_ID. destruct f; discriminate. Qed.

Lemma nodeId_not_dummy_target f x : nodeId f x <> DUMMY_TARGET_ID.
Proof. unfold nodeId, DUMMY_TARGET_ID. destruct f; discriminate. Qed.

Lemma real_key_not_dummy_source cs ct x y t :
  linkKey (nodeId cs x) (nodeId ct y) <> linkKey DUMMY_SOURCE_ID t.
Proof. unfold linkKey, nodeId, DUMMY_SOURCE_ID. destruct cs; simpl; discriminate. Qed.

Lemma real_key_not_dummy_target cs ct x y x' :
  contains_arrow x = false -> contains_arrow x' = false ->
  linkKey (nodeId cs x) (nodeId ct y) <> linkKey (nodeId cs x') DUMMY_TARGET_ID.
Proof.
  intros Hx Hx' Heq. unfold linkKey in Heq.
  apply arrow_split_inj in Heq as [_ Ht]; [|by rewrite nodeId_contains_arrow..].
  by apply (nodeId_not_dummy_target ct y).
Qed.

Lemma linkKey_inj s s' t t' :
  contains_arrow s = false -> contains_arrow s' = false ->
  linkKey s t = linkKey s' t' -> s = s' /\ t = t'.
Proof. apply arrow_split_inj. Qed.

(** Setting a dummy link under a key no kept link uses leaves the kept links
    as they were. *)
Lemma filter_set_dummy (m : @JsMap string SLink) k v :
  not_dummy v = false -> (forall l, (k, l) ∈ m -> not_dummy l = false) ->
  List.filter not_dummy (map_values (map_set k v m)) = List.filter not_dummy (map_values m).
Proof.
  intros Hv. induction m as [|[k0 l0] m IH]; intros Hm; simpl.
  - by rewrite Hv.
  - case_bool_decide; simpl; subst.
    + rewrite Hv, (Hm l0) by by left. done.
    + destruct (not_dummy l0); [f_equal|]; apply IH; intros l Hl; apply Hm; by right.
Qed.

Lemma set_dummy_inv cs ct (m : @JsMap string SLink) k v :
  dummy_inv cs ct m -> not_dummy v = false -> dummy_inv cs ct (map_set k v m).
Proof.
  intros Hm Hv k' l Hin Hl. destruct (map_set_elem _ _ _ _ Hin) as [[= -> ->]|Hin'].
  - congruence.
  - by apply (Hm k' l).
Qed.

Section DummyPhases.
Context (cs ct : Field.t).

Lemma dummy_source_step_spec acc t :
  dummy_inv cs ct acc.1.2 ->
  dummy_inv cs ct (dummy_source_step acc t).1.2 /\
  List.filter not_dummy (map_values (dummy_source_step acc t).1.2) = List.filter not_dummy (map_values acc.1.2).
Proof.
  destruct acc as [[nodes m] added]; simpl. intros Hm.
  destruct (existsb _ _); [done|]; simpl.
  assert (Hv : not_dummy (mkLink DUMMY_SOURCE_ID t DUMMY_WEIGHT true) = false) by done.
  split; [by apply set_dummy_inv|].
  apply filter_set_dummy; [done|]. intros l Hl.
  destruct (not_dummy l) eqn:E; [|done].
  destruct (Hm _ _ Hl E) as (x & y & Hk & _). by destruct (real_key_not_dummy_source cs ct x y t).
Qed.

Lemma dummy_target_step_spec acc x :
  contains_arrow x = false ->
  dummy_inv cs ct acc.1.2 ->
  dummy_inv cs ct (dummy_target_step acc (nodeId cs x)).1.2 /\
  List.filter not_dummy (map_values (dummy_target_step acc (nodeId cs x)).1.2) =
  List.filter not_dummy (map_values acc.1.2).
Proof.
  destruct acc as [[nodes m] added]; simpl. intros Hx Hm.
  destruct (existsb _ _); [done|]; simpl.
  assert (Hv : not_dummy (mkLink (nodeId cs x) DUMMY_TARGET_ID DUMMY_WEIGHT true) = false).
  { unfold not_dummy; cbn [link_target]. rewrite String.eqb_refl. apply andb_false_r. }
  split; [by apply set_dummy_inv|].
  apply filter_set_dummy; [done|]. intros l Hl.
  destruct (not_dummy l) eqn:E; [|done].
  destruct (Hm _ _ Hl E) as (x' & y & Hk & Hx'). by destruct (real_key_not_dummy_target cs ct x' y x).
Qed.

Lemma dummy_source_fold tids acc :
  dummy_inv cs ct acc.1.2 ->
  dummy_inv cs ct (fold_left dummy_source_step tids acc).1.2 /\
  List.filter not_dummy (map_values (fold_left dummy_source_step tids acc).1.2) =
  List.filter not_dummy (map_values acc.1.2).
Proof.
  revert acc. induction tids as [|t tids IH]; intros acc Hacc; simpl; [done|].
  destruct (dummy_source_step_spec acc t Hacc) as [H1 H2].
  destruct (IH _ H1) as [H3 H4]. split; [done|]. by rewrite H4, H2.
Qed.

Lemma dummy_target_fold xs acc :
  Forall (fun x => contains_arrow x = false) xs ->
  dummy_inv cs ct acc.1.2 ->
  dummy_inv cs ct (fold_left dummy_target_step (map (nodeId cs) xs) acc).1.2 /\
  List.filter not_dummy (map_values (fold_left dummy_target_step (map (nodeId cs) xs) acc).1.2) =
  List.filter not_dummy (map_values acc.1.2).
Proof.
  intros Hxs. revert acc. induction Hxs as [|x xs Hx Hxs IH]; intros acc Hacc; simpl; [done|].
  destruct (dummy_target_step_spec acc x Hx Hacc) as [H1 H2].
  destruct (IH _ H1) as [H3 H4]. split; [done|]. by rewrite H4, H2.
Qed.
End DummyPhases.

(** ** The drawn links *)

Lemma sankey_graph_unfold data cs ct :
  let ss := sortedSources data cs in
  let st := sortedTargets data ct in
  let agg := aggregate cs ct ss st (filteredData data cs ct) in
  let acc1 := fold_left dummy_source_step (map (nodeId ct) st)
                ((column_nodes cs ss ++ column_nodes ct st)%list, agg, false) in
  let acc2 := fold_left dummy_target_step (map (nodeId cs) ss) (acc1.1.1, acc1.1.2, false) in
  sankey_graph data cs ct = mkGraph acc2.1.1 (map_values acc2.1.2).
Proof.
  unfold sankey_graph. simpl.
  destruct (fold_left dummy_source_step _ _) as [[n1 m1] b1]. simpl.
  by destruct (fold_left dummy_target_step _ _) as [[n2 m2] b2].
Qed.

Lemma arrow_free_elem f data x :
  arrow_free f data = true -> x ∈ sortedSources data f -> contains_arrow x = false.
Proof.
  intros Ha Hx. apply sortedSources_elem in Hx as [(d & Hd & Hacc) _].
  unfold arrow_free in Ha. rewrite forallb_forall in Ha.
  specialize (Ha d (proj1 (list_elem_of_In _ _) Hd)). rewrite Hacc in Ha. by apply negb_true_iff.
Qed.

Lemma filteredData_elem data cs ct d : d ∈ filteredData data cs ct -> d ∈ data.
Proof. unfold filteredData. rewrite !list_elem_of_In, filter_In. tauto. Qed.

Section Links.
Context (cs ct : Field.t) (ss st : list string).
Hypothesis Hss : forall x, x ∈ ss -> contains_arrow x = false.

Lemma nodeId_arrow_free z : z ∈ ss -> contains_arrow (nodeId cs z) = false.
Proof. intros Hz. rewrite nodeId_contains_arrow. auto. Qed.

Lemma agg_dummy_inv data : dummy_inv cs ct (aggregate cs ct ss st data).
Proof.
  intros k l Hin _. destruct (proj2 (aggregate_inv cs ct ss st data) _ Hin)
    as (Hk & (x & y & Hs & Ht & Hx & Hy) & _).
  exists x, y. rewrite Hk, Hs, Ht. auto.
Qed.

Lemma agg_not_dummy data l : l ∈ map_values (aggregate cs ct ss st data) -> not_dummy l = true.
Proof.
  intros ([k l'] & -> & Hin)%list_elem_of_fmap.
  destruct (proj2 (aggregate_inv cs ct ss st data) _ Hin) as (_ & (x & y & Hs & Ht & _) & _).
  unfold not_dummy. simpl. rewrite Hs, Ht.
  destruct (String.eqb_spec (nodeId cs x) DUMMY_SOURCE_ID) as [E|_]; [by apply nodeId_not_dummy_source in E|].
  destruct (String.eqb_spec (nodeId ct y) DUMMY_TARGET_ID) as [E|_]; [by apply nodeId_not_dummy_target in E|].
  done.
Qed.

Lemma agg_value_count data k l :
  (k, l) ∈ aggregate cs ct ss st data ->
  link_value l == qcount (fun d => counted cs ct ss st d && bool_decide (record_key cs ct d = k)) data.
Proof.
  intros Hin. rewrite <- aggregate_count. unfold link_count.
  by rewrite (map_get_elem _ _ _ (proj1 (aggregate_inv cs ct ss st data)) Hin).
Qed.

Lemma record_key_pair d x y :
  x ∈ ss -> y ∈ st ->
  counted cs ct ss st d && bool_decide (record_key cs ct d = linkKey (nodeId cs x) (nodeId ct y)) =
  bool_decide (accessor cs d = Some x /\ accessor ct d = Some y).
Proof.
  intros Hx Hy. unfold counted, record_key.
  destruct (accessor cs d) as [x'|], (accessor ct d) as [y'|]; simpl;
    try reflexivity; try (symmetry; apply bool_decide_eq_false; intros [? ?]; congruence).
  destruct (js_includes ss x') eqn:Hx', (js_includes st y') eqn:Hy'; simpl;
    rewrite ?js_includes_spec, ?js_includes_false in Hx';
    rewrite ?js_includes_spec, ?js_includes_false in Hy';
    try (symmetry; apply bool_decide_eq_false; intros [[= <-] [= <-]]; set_solver).
  apply bool_decide_ext. split; [|by intros [[= ->] [= ->]]].
  intros Heq.
  destruct (linkKey_inj _ _ _ _ (nodeId_arrow_free x' Hx') (nodeId_arrow_free x Hx) Heq) as [Hs Ht].
  apply nodeId_inj in Hs, Ht. subst. auto.
Qed.

(** The key of an entry names its two ids. *)
Lemma agg_entry_ids data k l :
  (k, l) ∈ aggregate cs ct ss st data ->
  exists x y, k = linkKey (nodeId cs x) (nodeId ct y) /\ link_source l = nodeId cs x /\
    link_target l = nodeId ct y /\ x ∈ ss /\ y ∈ st.
Proof.
  intros Hin. destruct (proj2 (aggregate_inv cs ct ss st data) _ Hin)
    as (Hk & (x & y & Hs & Ht & Hx & Hy) & _).
  exists x, y. rewrite Hk, Hs, Ht. auto.
Qed.
End Links.

(** The drawn links are the aggregated links: the dummy phases add only
    links the render filters out, and never overwrite a real link, when no
    source value contains the separator. *)
Lemma filteredLinks_aggregate data cs ct :
  arrow_free cs data = true ->
  filteredLinks (sankey_graph data cs ct) =
  map_values (aggregate cs ct (sortedSources data cs) (sortedTargets data ct) (filteredData data cs ct)).
Proof.
  intros Ha. rewrite sankey_graph_unfold. unfold filteredLinks. simpl.
  set (ss := sortedSources data cs). set (st := sortedTargets data ct).
  assert (Hss : forall x, x ∈ ss -> contains_arrow x = false) by (intros x; by apply arrow_free_elem).
  set (agg := aggregate cs ct ss st (filteredData data cs ct)).
  destruct (dummy_source_fold cs ct (map (nodeId ct) st)
              ((column_nodes cs ss ++ column_nodes ct st)%list, agg, false) (agg_dummy_inv cs ct ss st Hss _))
    as [H1 H2].
  set (acc1 := fold_left dummy_source_step _ _) in H1, H2 |- *.
  destruct (dummy_target_fold cs ct ss (acc1.1.1, acc1.1.2, false) (proj2 (Forall_forall _ _) Hss) H1) as [_ H4].
  simpl in *. rewrite H4, H2. apply filter_id_in. intros l. apply (agg_not_dummy cs ct ss st).
Qed.

Lemma counted_resolvable data cs ct d :
  d ∈ data -> counted cs ct (sortedSources data cs) (sortedTargets data ct) d = resolvable cs ct d.
Proof.
  intros Hd. unfold counted, resolvable.
  destruct (accessor cs d) as [x|] eqn:Ex, (accessor ct d) as [y|] eqn:Ey; try done.
  destruct (String.eqb_spec x ""), (String.eqb_spec y ""); simpl;
  destruct (js_includes (sortedSources data cs) x) eqn:Hx,
           (js_includes (sortedTargets data ct) y) eqn:Hy; simpl; try done;
  rewrite ?js_includes_spec, ?js_includes_false, ?sortedSources_elem in Hx;
  rewrite ?js_includes_spec, ?js_includes_false, ?sortedTargets_elem in Hy;
  naive_solver.
Qed.

(** Each drawn link joins a listed source value to a listed target value
    and weighs the (positive) number of records with that pair. *)
Lemma filteredLinks_pair data cs ct l :
  arrow_free cs data = true -> l ∈ filteredLinks (sankey_graph data cs ct) ->
  exists x y, link_source l = nodeId cs x /\ link_target l = nodeId ct y /\
    x ∈ sortedSources data cs /\ y ∈ sortedTargets data ct /\ (1 <= link_value l)%Q /\
    link_value l == qcount (fun d => bool_decide (accessor cs d = Some x /\ accessor ct d = Some y))
                      (filteredData data cs ct).
Proof.
  intros Ha. rewrite filteredLinks_aggregate by done.
  set (ss := sortedSources data cs). set (st := sortedTargets data ct).
  assert (Hss : forall x, x ∈ ss -> contains_arrow x = false) by (intros x; by apply arrow_free_elem).
  intros ([k l'] & -> & Hin)%list_elem_of_fmap. simpl.
  destruct (agg_entry_ids cs ct ss st _ k l' Hin) as (x & y & -> & Hs & Ht & Hx & Hy).
  destruct (proj2 (aggregate_inv cs ct ss st (filteredData data cs ct)) _ Hin) as (_ & _ & _ & Hlo).
  exists x, y. split_and!; [done|done|done|done|exact Hlo|].
  rewrite (agg_value_count cs ct ss st _ _ _ Hin). apply qcount_ext. intros d _.
  by apply record_key_pair.
Qed.

(** Every record whose two values resolve is carried by a drawn link. *)
Lemma filteredLinks_cover data cs ct d x y :
  arrow_free cs data = true -> d ∈ filteredData data cs ct ->
  accessor cs d = Some x -> accessor ct d = Some y -> x <> "" -> y <> "" ->
  exists l, l ∈ filteredLinks (sankey_graph data cs ct) /\
    link_source l = nodeId cs x /\ link_target l = nodeId ct y.
Proof.
  intros Ha Hd Hx Hy Hxe Hye. rewrite filteredLinks_aggregate by done.
  set (ss := sortedSources data cs). set (st := sortedTargets data ct). set (fd := filteredData data cs ct).
  assert (Hss : forall x, x ∈ ss -> contains_arrow x = false) by (intros x'; by apply arrow_free_elem).
  assert (Hxs : x ∈ ss) by (apply sortedSources_elem; split; [exists d; split; [by eapply filteredData_elem|]|]; done).
  assert (Hyt : y ∈ st) by (apply sortedTargets_elem; split; [exists d; split; [by eapply filteredData_elem|]|]; done).
  set (key := linkKey (nodeId cs x) (nodeId ct y)).
  assert (Hc : (1 <= link_count (aggregate cs ct ss st fd) key)%Q).
  { rewrite aggregate_count. apply (qcount_pos _ _ d Hd). subst key.
    rewrite record_key_pair by done. by apply bool_decide_eq_true. }
  unfold link_count in Hc. destruct (map_get _ key) as [l|] eqn:El; simpl in Hc; [|lra].
  apply map_get_Some in El.
  destruct (agg_entry_ids cs ct ss st fd key l El) as (x' & y' & Hk & Hs & Ht & Hx' & Hy').
  destruct (linkKey_inj _ _ _ _ (nodeId_arrow_free cs ss Hss x Hxs)
              (nodeId_arrow_free cs ss Hss x' Hx') Hk) as [Hs' Ht'].
  exists l. split; [apply list_elem_of_fmap; by exists (key, l)|]. by rewrite Hs, Ht, <- Hs', <- Ht'.
Qed.

(** C4: no double counting: the weights of the drawn links add up to the
    number of records (after the [null]-tenure filter) whose two columns
    both resolve to a non-empty value. *)
Theorem sankey_total_weight data cs ct :
  arrow_free cs data = true ->
  qsum (map link_value (filteredLinks (sankey_graph data cs ct))) ==
  qcount (resolvable cs ct) (filteredData data cs ct).
Proof.
  intros Ha. rewrite filteredLinks_aggregate, aggregate_qsum by done.
  apply qcount_ext. intros d Hd. apply counted_resolvable. by eapply filteredData_elem.
Qed.

(** C5: the drawn links are one link per pair of values that occurs: no
    pair is drawn twice, each drawn link weighs exactly the number of
    records with its pair of values, and every record whose two values
    resolve is carried by the link of its pair. *)
Theorem sankey_links_exact data cs ct :
  arrow_free cs data = true ->
  let g := sankey_graph data cs ct in
  let fd := filteredData data cs ct in
  NoDup (map (fun l => (link_source l, link_target l)) (filteredLinks g)) /\
  (forall l, l ∈ filteredLinks g -> exists x y,
     link_source l = nodeId cs x /\ link_target l = nodeId ct y /\
     link_value l == qcount (fun d => bool_decide (accessor cs d = Some x /\ accessor ct d = Some y)) fd) /\
  (forall d x y, d ∈ fd -> accessor cs d = Some x -> accessor ct d = Some y -> x <> "" -> y <> "" ->
     exists l, l ∈ filteredLinks g /\ link_source l = nodeId cs x /\ link_target l = nodeId ct y).
Proof.
  intros Ha g fd. split_and!.
  - subst g. rewrite filteredLinks_aggregate by done.
    destruct (aggregate_inv cs ct (sortedSources data cs) (sortedTargets data ct) fd) as [Hnd Hent].
    apply (NoDup_fmap_1 (fun p => linkKey p.1 p.2)).
    rewrite <- list_fmap_compose. unfold map_values. rewrite <- list_fmap_compose.
    erewrite list_fmap_ext; [exact Hnd|]. intros i [k l] Hi. simpl.
    apply list_elem_of_lookup_2 in Hi. by destruct (Hent _ Hi) as [-> _].
  - intros l Hl. destruct (filteredLinks_pair data cs ct l Ha Hl) as (x & y & ? & ? & _ & _ & _ & ?). eauto.
  - intros d x y Hd Hx Hy Hxe Hye. by apply (filteredLinks_cover data cs ct d x y).
Qed.

(** ** Every node gets a link *)

Lemma src_ok_arrow_free cs s : src_ok cs s -> contains_arrow s = false.
Proof. intros [->|(x & -> & Hx)]; [done|by rewrite nodeId_contains_arrow]. Qed.

Lemma key_inv_set cs m l :
  key_inv cs m -> src_ok cs (link_source l) -> (0 < link_value l)%Q ->
  key_inv cs (map_set (linkKey (link_source l) (link_target l)) l m).
Proof.
  intros Hm Hs Hv k l' Hin. destruct (map_set_elem _ _ _ _ Hin) as [[= -> ->]|Hin']; [done|].
  by apply Hm.
Qed.

Lemma has_link_set cs (P : string -> string -> Prop) m l :
  key_inv cs m -> src_ok cs (link_source l) -> (0 < link_value l)%Q ->
  has_link P m -> has_link P (map_set (linkKey (link_source l) (link_target l)) l m).
Proof.
  intros Hm Hs Hv (l' & Hl' & HP & Hv').
  apply list_elem_of_fmap in Hl' as [[k' l''] [-> Hin]]. simpl in *.
  destruct (Hm _ _ Hin) as (Hk' & Hs' & _).
  destruct (decide (k' = linkKey (link_source l) (link_target l))) as [Heq|Hne].
  - rewrite Hk' in Heq.
    destruct (linkKey_inj _ _ _ _ (src_ok_arrow_free _ _ Hs') (src_ok_arrow_free _ _ Hs) Heq) as [E1 E2].
    exists l. split_and!; [|by rewrite <- E1, <- E2|done].
    apply list_elem_of_fmap. exists (linkKey (link_source l) (link_target l), l).
    split; [done|]. apply map_get_Some, map_get_set_eq.
  - exists l''. split_and!; [|done|done].
    apply list_elem_of_fmap. exists (k', l''). split; [done|]. by apply map_set_other.
Qed.

Lemma has_link_here cs (P : string -> string -> Prop) m l :
  key_inv cs m -> P (link_source l) (link_target l) -> (0 < link_value l)%Q ->
  has_link P (map_set (linkKey (link_source l) (link_target l)) l m).
Proof.
  intros _ HP Hv. exists l. split_and!; [|done|done].
  apply list_elem_of_fmap. exists (linkKey (link_source l) (link_target l), l).
  split; [done|]. apply map_get_Some, map_get_set_eq.
Qed.

Lemma has_link_existsb cs (P : string -> string -> Prop) (f : SLink -> bool) m :
  key_inv cs m -> (forall l, f l = true -> P (link_source l) (link_target l)) ->
  existsb f (map_values m) = true -> has_link P m.
Proof.
  intros Hm Hf (l & Hl & Hfl)%existsb_exists. apply list_elem_of_In in Hl.
  exists l. split_and!; [done|by apply Hf|].
  apply list_elem_of_fmap in Hl as [[k l'] [-> Hin]]. by apply (Hm k).
Qed.

Section Span.
Context (cs ct : Field.t).

Lemma dummy_source_fold_span tids acc :
  key_inv cs acc.1.2 ->
  let m := (fold_left dummy_source_step tids acc).1.2 in
  key_inv cs m /\
  (forall t, t ∈ tids -> has_link (fun _ t' => t' = t) m) /\
  (forall P, has_link P acc.1.2 -> has_link P m).
Proof.
  revert acc. induction tids as [|t tids IH]; intros [[nodes m] added] Hm; simpl; [set_solver|].
  set (acc' := dummy_source_step (nodes, m, added) t).
  assert (Hstep : key_inv cs acc'.1.2 /\ has_link (fun _ t' => t' = t) acc'.1.2 /\
                  forall P, has_link P m -> has_link P acc'.1.2).
  { subst acc'. unfold dummy_source_step.
    destruct (existsb _ _) eqn:E; simpl.
    - split_and!; [done| |done].
      apply (has_link_existsb cs _ (fun l => String.eqb (link_target l) t) m Hm); [|done].
      intros l Hl. by apply String.eqb_eq in Hl.
    - assert (Hs : src_ok cs DUMMY_SOURCE_ID) by by left.
      assert (Hv : (0 < DUMMY_WEIGHT)%Q) by (unfold DUMMY_WEIGHT, Qlt; simpl; lia).
      split_and!.
      + by apply (key_inv_set cs m (mkLink DUMMY_SOURCE_ID t DUMMY_WEIGHT true)).
      + by apply (has_link_here cs _ m (mkLink DUMMY_SOURCE_ID t DUMMY_WEIGHT true)).
      + intros P HP. by apply (has_link_set cs P m (mkLink DUMMY_SOURCE_ID t DUMMY_WEIGHT true)). }
  destruct Hstep as (H1 & H2 & H3). destruct (IH acc' H1) as (H4 & H5 & H6).
  split_and!; [done| |by auto].
  intros t' [->|Ht']%elem_of_cons; auto.
Qed.

Lemma dummy_target_fold_span xs acc :
  Forall (fun x => contains_arrow x = false) xs ->
  key_inv cs acc.1.2 ->
  let m := (fold_left dummy_target_step (map (nodeId cs) xs) acc).1.2 in
  key_inv cs m /\
  (forall x, x ∈ xs -> has_link (fun s _ => s = nodeId cs x) m) /\
  (forall P, has_link P acc.1.2 -> has_link P m).
Proof.
  intros Hxs. revert acc. induction Hxs as [|x xs Hx Hxs IH]; intros [[nodes m] added] Hm; simpl;
    [set_solver|].
  set (acc' := dummy_target_step (nodes, m, added) (nodeId cs x)).
  assert (Hstep : key_inv cs acc'.1.2 /\ has_link (fun s _ => s = nodeId cs x) acc'.1.2 /\
                  forall P, has_link P m -> has_link P acc'.1.2).
  { subst acc'. unfold dummy_target_step.
    destruct (existsb _ _) eqn:E; simpl.
    - split_and!; [done| |done].
      apply (has_link_existsb cs _ (fun l => String.eqb (link_source l) (nodeId cs x)) m Hm); [|done].
      intros l Hl. by apply String.eqb_eq in Hl.
    - assert (Hs : src_ok cs (nodeId cs x)) by (right; eauto).
      assert (Hv : (0 < DUMMY_WEIGHT)%Q) by (unfold DUMMY_WEIGHT, Qlt; simpl; lia).
      split_and!.
      + by apply (key_inv_set cs m (mkLink (nodeId cs x) DUMMY_TARGET_ID DUMMY_WEIGHT true)).
      + by apply (has_link_here cs _ m (mkLink (nodeId cs x) DUMMY_TARGET_ID DUMMY_WEIGHT true)).
      + intros P HP. by apply (has_link_set cs P m (mkLink (nodeId cs x) DUMMY_TARGET_ID DUMMY_WEIGHT true)). }
  destruct Hstep as (H1 & H2 & H3). destruct (IH acc' H1) as (H4 & H5 & H6).
  split_and!; [done| |by auto].
  intros x' [->|Hx']%elem_of_cons; auto.
Qed.
End Span.

Lemma aggregate_key_inv cs ct ss st data :
  (forall x, x ∈ ss -> contains_arrow x = false) -> key_inv cs (aggregate cs ct ss st data).
Proof.
  intros Hss k l Hin. destruct (proj2 (aggregate_inv cs ct ss st data) _ Hin)
    as (Hk & (x & y & Hs & Ht & Hx & Hy) & _ & Hv).
  split_and!; [done| |lra]. right. exists x. auto.
Qed.

(** Every link handed to d3-sankey weighs more than zero, and every node of
    both columns has one. *)
Lemma sankey_graph_flow data cs ct :
  arrow_free cs data = true ->
  let g := sankey_graph data cs ct in
  (forall l, l ∈ graph_links g -> (0 < link_value l)%Q) /\
  (forall x, x ∈ sortedSources data cs ->
     exists l, l ∈ graph_links g /\ link_source l = nodeId cs x /\ (0 < link_value l)%Q) /\
  (forall y, y ∈ sortedTargets data ct ->
     exists l, l ∈ graph_links g /\ link_target l = nodeId ct y /\ (0 < link_value l)%Q).
Proof.
  intros Ha g. subst g. rewrite sankey_graph_unfold. simpl.
  set (ss := sortedSources data cs). set (st := sortedTargets data ct).
  assert (Hss : forall x, x ∈ ss -> contains_arrow x = false) by (intros x; by apply arrow_free_elem).
  set (agg := aggregate cs ct ss st (filteredData data cs ct)).
  destruct (dummy_source_fold_span cs (map (nodeId ct) st)
              ((column_nodes cs ss ++ column_nodes ct st)%list, agg, false) (aggregate_key_inv cs ct ss st _ Hss))
    as (H1 & H2 & _).
  set (acc1 := fold_left dummy_source_step _ _) in H1, H2 |- *.
  destruct (dummy_target_fold_span cs ss (acc1.1.1, acc1.1.2, false) (proj2 (Forall_forall _ _) Hss) H1)
    as (H4 & H5 & H6).
  split_and!.
  - intros l Hl. apply list_elem_of_fmap in Hl as ([k l'] & -> & Hkl). by destruct (H4 k l' Hkl) as (_ & _ & ?).
  - intros x Hx. destruct (H5 x Hx) as (l & Hl & Hs & Hv). eauto.
  - intros y Hy. destruct (H6 _ (H2 (nodeId ct y) ltac:(apply list_elem_of_fmap; eauto)))
      as (l & Hl & Ht & Hv). eauto.
Qed.

(** C6: every node of both columns gets a link of positive weight in the
    graph handed to the layout (a dummy one when it has no real link), so
    d3-sankey gives every category a non-zero height. *)
Theorem sankey_every_node_has_flow data cs ct :
  arrow_free cs data = true ->
  let g := sankey_graph data cs ct in
  (forall x, x ∈ sortedSources data cs ->
     exists l, l ∈ graph_links g /\ link_source l = nodeId cs x /\ (0 < link_value l)%Q) /\
  (forall y, y ∈ sortedTargets data ct ->
     exists l, l ∈ graph_links g /\ link_target l = nodeId ct y /\ (0 < link_value l)%Q).
Proof. intros Ha. apply (sankey_graph_flow data cs ct Ha). Qed.

(** ** Witnesses and the separator collision *)

Lemma sankey_total_weight_witness :
  arrow_free Field.years_at_medtronic testChordMockData = true /\
  qsum (map link_value (filteredLinks (sankey_graph testChordMockData Field.years_at_medtronic Field.learning_style))) ==
  qcount (resolvable Field.years_at_medtronic Field.learning_style)
    (filteredData testChordMockData Field.years_at_medtronic Field.learning_style).
Proof. split; [reflexivity|apply sankey_total_weight; reflexivity]. Defined.

Lemma sankey_links_exact_witness :
  arrow_free Field.learning_style testChordMockData = true /\
  NoDup (map (fun l => (link_source l, link_target l))
    (filteredLinks (sankey_graph testChordMockData Field.learning_style Field.motivation))).
Proof.
  split; [reflexivity|].
  apply (sankey_links_exact testChordMockData Field.learning_style Field.motivation). reflexivity.
Defined.

Lemma sankey_every_node_has_flow_witness :
  arrow_free Field.shaped_by testChordMockData = true /\
  exists l, l ∈ graph_links (sankey_graph testChordMockData Field.shaped_by Field.years_at_medtronic) /\
    link_source l = nodeId Field.shaped_by "success" /\ (0 < link_value l)%Q.
Proof.
  split; [reflexivity|].
  apply (sankey_every_node_has_flow testChordMockData Field.shaped_by Field.years_at_medtronic); [reflexivity|].
  apply sortedSources_elem. split; [|discriminate].
  exists (fixture 7 "reading_writing" "success" "Ambivert, Morning" "impact"). split; [|reflexivity].
  unfold testChordMockData. set_solver.
Defined.

(** C9: the link keys are not injective: for any values [x], [y], [z], the
    pairs [(x→ct:y, z)] and [(x, y→ct:z)] get the same key.  When both
    pairs are listed, the aggregation of lines 593-604 never holds a link
    for each of them: it keeps one entry, under the ids of whichever pair
    came first, and that entry counts the records of both pairs. *)
Theorem sankey_key_collision cs ct ss st data x y z :
  let x' := (x ++ ARROW ++ nodeId ct y)%string in
  let y' := (y ++ ARROW ++ nodeId ct z)%string in
  let m := aggregate cs ct ss st data in
  js_includes ss x' = true -> js_includes st z = true -> js_includes ss x = true -> js_includes st y' = true ->
  linkKey (nodeId cs x') (nodeId ct z) = linkKey (nodeId cs x) (nodeId ct y') /\
  (forall l1 l2, l1 ∈ map_values m -> l2 ∈ map_values m ->
     link_source l1 = nodeId cs x' -> link_target l1 = nodeId ct z ->
     link_source l2 = nodeId cs x -> link_target l2 = nodeId ct y' -> False) /\
  (qcount (has_pair cs ct x' z) data + qcount (has_pair cs ct x y') data <=
     link_count m (linkKey (nodeId cs x') (nodeId ct z)))%Q.
Proof.
  intros x' y' m Hx' Hz Hx Hy'.
  assert (Hkey : linkKey (nodeId cs x') (nodeId ct z) = linkKey (nodeId cs x) (nodeId ct y')).
  { subst x' y'. unfold linkKey, nodeId. by rewrite !string_app_assoc. }
  destruct (aggregate_inv cs ct ss st data) as [Hnd Hent]. split_and!; [done| |].
  - intros l1 l2 (kl1 & Hl1 & Hkl1)%list_elem_of_fmap (kl2 & Hl2 & Hkl2)%list_elem_of_fmap Hs1 Ht1 Hs2 Ht2.
    destruct kl1 as [k1 v1], kl2 as [k2 v2]. simpl in *. subst v1 v2.
    destruct (Hent _ Hkl1) as [Hk1 _]. destruct (Hent _ Hkl2) as [Hk2 _].
    rewrite Hs1, Ht1 in Hk1. rewrite Hs2, Ht2 in Hk2.
    assert (Heq : (k1, l1) = (k2, l2)).
    { apply (NoDup_fmap_elem_inj fst m); [done|done|done|simpl; congruence]. }
    injection Heq as _ <-. rewrite Hs1 in Hs2. apply nodeId_inj in Hs2. by apply (string_app_arrow_neq x (nodeId ct y)).
  - subst m. rewrite aggregate_count. apply qcount_two_le.
    + intros d Hd. unfold has_pair in Hd. apply bool_decide_eq_true in Hd as [Hs Ht].
      unfold counted, record_key. rewrite Hs, Ht, Hx', Hz. simpl. by rewrite bool_decide_eq_true_2.
    + intros d Hd. unfold has_pair in Hd. apply bool_decide_eq_true in Hd as [Hs Ht].
      unfold counted, record_key. rewrite Hs, Ht, Hx, Hy'. simpl. by rewrite bool_decide_eq_true_2.
    + intros d H1 H2. unfold has_pair in H1, H2.
      apply bool_decide_eq_true in H1 as [H1 _], H2 as [H2 _]. rewrite H1 in H2. injection H2 as H2.
      by apply (string_app_arrow_neq x (nodeId ct y)).
Qed.

Lemma sankey_key_collision_witness :
  let ss := sortedSources collision_data Field.learning_style in
  let st := sortedTargets collision_data Field.shaped_by in
  (qcount (has_pair Field.learning_style Field.shaped_by ("a" ++ ARROW ++ nodeId Field.shaped_by "b") "c") collision_data +
   qcount (has_pair Field.learning_style Field.shaped_by "a" ("b" ++ ARROW ++ nodeId Field.shaped_by "c")) collision_data <=
   link_count (aggregate Field.learning_style Field.shaped_by ss st collision_data)
     (linkKey (nodeId Field.learning_style ("a" ++ ARROW ++ nodeId Field.shaped_by "b")) (nodeId Field.shaped_by "c")))%Q.
Proof.
  apply (proj2 (proj2 (sankey_key_collision Field.learning_style Field.shaped_by
                         (sortedSources collision_data Field.learning_style)
                         (sortedTargets collision_data Field.shaped_by) collision_data "a" "b" "c"
                         eq_refl eq_refl eq_refl eq_refl))).
Defined.

(** The nodes of a column. *)
Lemma column_nodes_elem f names n :
  n ∈ column_nodes f names <-> exists x, n = mkNode (nodeId f x) x (Field.name f) /\ x ∈ names.
Proof.
  unfold column_nodes. rewrite list_elem_of_In, in_map_iff.
  setoid_rewrite list_elem_of_In. naive_solver.
Qed.
