(* ===== verification/Layout.v ===== *)
(** * The Sankey layout interface and the animation timings

    The d3-sankey layout is a library the code only calls; what the rest of
    [AlluvialDiagram.tsx] relies on is the order in which it stacks the
    source nodes ([sortedSources] of the animation, lines 230-285: the source
    nodes sorted by their [y0]).  [SankeyLayout] states that contract: the
    visual order is a permutation of the [sources] memo.  The instance
    [sortedLayout] takes the render's own sorted order, which d3-sankey keeps
    when it does not reorder the column.

    Also the [animationDurations] memo (lines 194-203). *)

From S2P Require Import Prelude Survey Categories.

(** What the animation needs from the layout: the top-to-bottom order of the
    source column, a permutation of the source values. *)
Class SankeyLayout := {
  visual_order : list SurveyResponse -> Field.t -> Field.t -> list string;
  visual_order_perm : forall data cs ct, visual_order data cs ct ≡ₚ sources data cs
}.

#[export] Instance sortedLayout : SankeyLayout.
Proof.
  refine {| visual_order := fun data cs _ => sortedSources data cs |}.
  intros data cs _. apply sortFor_Permutation.
Defined.

(** ** Timings *)

Record Durations := mkDurations {
  stepDuration : Q;
  pauseDuration : Q;
  categoryPauseDuration : Q;
  linkTransitionDuration : Q
}.

(** [animationDurations]: [settings.autoPlaySpeed || 3000] scaled by one half
    under [prefers-reduced-motion], each duration floored. *)
Definition animationDurations (autoPlaySpeed : Q) (prefersReducedMotion : bool) : Durations :=
  let baseSpeed := if Qeq_bool autoPlaySpeed 0 then 3000%Q else autoPlaySpeed in
  let reductionFactor := if prefersReducedMotion then (1 # 2)%Q else 1%Q in
  mkDurations
    (Qmax 800 (baseSpeed / 8 * reductionFactor))
    (Qmax 400 (baseSpeed / 12 * reductionFactor))
    (Qmax 1500 (baseSpeed / 3 * reductionFactor))
    (if prefersReducedMotion then 400 else 750).

(** The delay between two highlighted sources. *)
Definition tickDuration (d : Durations) : Q := stepDuration d + pauseDuration d.

Lemma visual_order_length `{SankeyLayout} data cs ct :
  length (visual_order data cs ct) = length (sources data cs).
Proof. apply Permutation_length, visual_order_perm. Qed.

(** The floors keep every tick at least 1.2 s apart and every category
    pause at least 1.5 s, whatever the speed setting. *)
Lemma animationDurations_bounds speed reduced :
  let d := animationDurations speed reduced in
  (1200 <= tickDuration d)%Q /\ (1500 <= categoryPauseDuration d)%Q.
Proof.
  unfold tickDuration; simpl.
  set (b := if Qeq_bool speed 0 then 3000%Q else speed).
  set (f := if reduced then (1 # 2)%Q else 1%Q).
  pose proof (Q.le_max_l 800 (b / 8 * f)). pose proof (Q.le_max_l 400 (b / 12 * f)).
  pose proof (Q.le_max_l 1500 (b / 3 * f)). split; lra.
Qed.
