(* ===== verification/Sequencer.v ===== *)
(** * The Animation Sequencer of the Sankey diagram

    The auto-play of [AlluvialDiagram.tsx]: the [animate] callback (lines
    288-444), the animation effect that starts and tears it down (lines
    449-526), [pauseAnimation] / [resumeAnimation] (lines 1196-1229), the
    hover handlers that call them (lines 1232-1313) and the question
    selector's [onChange] (lines 1334-1338).

    The state is the mutable [animationRef.current] ([AnimRef]), the React
    state the sequencer reads and writes ([View]), the global settings it
    reads, and the runtime around them: the browser's pending [setTimeout]
    callbacks, the clock, the animation effect's last dependency array and
    whether its last run registered a cleanup, the pointer, and the
    [onQuestionChange] notifications sent.

    Scheduling: every event (a timer firing, a pointer event, a selector
    change, a settings toggle) runs its handler, then React commits: the
    [currentSourceRef]/[currentTargetRef] effects copy the state into the
    refs, and the animation effect re-runs when one of its dependencies
    [autoPlay, isAutoPlayEnabled, isAnimating, data.length, currentSource]
    changed, first running the cleanup its previous run returned (an early
    [return;] returns none).  This is React 18's behaviour for discrete
    events, which flush before the next event is handled.  The handlers read
    only refs, never the state they set, so applying their [setState] calls
    at once is equivalent to React's batching. *)

From S2P Require Import Prelude Survey Categories Layout.

Open Scope Z_scope.

Inductive Phase := full | highlighting | transitioning.

#[export] Instance Phase_eq_dec : EqDecision Phase.
Proof. solve_decision. Defined.

(** The [animate] closure a timer callback calls: a [useCallback] of one
    render, with the [sortedSources.length], [data.length] and
    [animationDurations] of that render. *)
Record Closure := mkClosure {
  c_nsrc : Z;
  c_dlen : Z;
  c_dur : Durations
}.

(** The four callbacks [animate] schedules: advance the highlighted source
    (line 350), move to the next target field (line 368) with the
    [targetOptions] it computed, move to the next source field (line 399),
    and restart [animate] after a category pause (lines 390 and 429). *)
Inductive Callback :=
| CbStep
| CbTarget (targetOptions : list Field.t)
| CbSource
| CbResume.

Record Timer := mkTimer {
  t_handle : nat;
  t_delay : Q;
  t_clo : Closure;
  t_cb : Callback
}.

(** [animationRef.current] *)
Record AnimRef := mkAnim {
  timer : option nat;
  running : bool;
  currentSourceIndex : Z;
  currentTargetIndex : Z;
  isPaused : bool;
  pausedAt : Q;
  resumeFrom : bool
}.

(** The React state of the component the sequencer reads or writes. *)
Record View := mkView {
  currentSource : Field.t;
  currentTarget : Field.t;
  lastCategoryChange : Field.t * Field.t;
  isAnimating : bool;
  animationPhase : Phase;
  isInFullOpacityState : bool;
  hoveredSourceIndex : option Z;
  hoveredTargetIndex : option Z;
  hoveredLink : option (string * string)
}.

(** The animation effect's dependency array. *)
Record Deps := mkDeps {
  dep_autoPlay : bool;
  dep_enabled : bool;
  dep_isAnimating : bool;
  dep_dlen : Z;
  dep_source : Field.t
}.

#[export] Instance Deps_eq_dec : EqDecision Deps.
Proof. solve_decision. Defined.

Record State := mkState {
  anim : AnimRef;
  view : View;
  isAutoPlayEnabled : bool;
  autoPlaySpeed : Q;
  pending : list Timer;
  next_handle : nat;
  clock : Q;
  effect_deps : option Deps;
  effect_cleanup : bool;
  hovering : bool;
  notified : list (Field.t * Field.t)
}.

(** The environment of one mounted component: the records, its [autoPlay]
    prop and the user's motion preference. *)
Record Env := mkEnv {
  env_data : list SurveyResponse;
  env_autoPlay : bool;
  env_reducedMotion : bool
}.

(** ** Updates *)

Definition set_anim (a : AnimRef) (s : State) : State :=
  mkState a (view s) (isAutoPlayEnabled s) (autoPlaySpeed s) (pending s) (next_handle s)
    (clock s) (effect_deps s) (effect_cleanup s) (hovering s) (notified s).

Definition set_view (v : View) (s : State) : State :=
  mkState (anim s) v (isAutoPlayEnabled s) (autoPlaySpeed s) (pending s) (next_handle s)
    (clock s) (effect_deps s) (effect_cleanup s) (hovering s) (notified s).

Definition set_pending (p : list Timer) (s : State) : State :=
  mkState (anim s) (view s) (isAutoPlayEnabled s) (autoPlaySpeed s) p (next_handle s)
    (clock s) (effect_deps s) (effect_cleanup s) (hovering s) (notified s).

Definition set_effect (deps : option Deps) (cleanup : bool) (s : State) : State :=
  mkState (anim s) (view s) (isAutoPlayEnabled s) (autoPlaySpeed s) (pending s) (next_handle s)
    (clock s) deps cleanup (hovering s) (notified s).

Definition set_hovering (b : bool) (s : State) : State :=
  mkState (anim s) (view s) (isAutoPlayEnabled s) (autoPlaySpeed s) (pending s) (next_handle s)
    (clock s) (effect_deps s) (effect_cleanup s) b (notified s).

Definition set_enabled (b : bool) (s : State) : State :=
  mkState (anim s) (view s) b (autoPlaySpeed s) (pending s) (next_handle s)
    (clock s) (effect_deps s) (effect_cleanup s) (hovering s) (notified s).

Definition notify (p : Field.t * Field.t) (s : State) : State :=
  mkState (anim s) (view s) (isAutoPlayEnabled s) (autoPlaySpeed s) (pending s) (next_handle s)
    (clock s) (effect_deps s) (effect_cleanup s) (hovering s) (notified s ++ [p]).

Definition advance_clock (dt : Q) (s : State) : State :=
  mkState (anim s) (view s) (isAutoPlayEnabled s) (autoPlaySpeed s) (pending s) (next_handle s)
    (clock s + dt)%Q (effect_deps s) (effect_cleanup s) (hovering s) (notified s).

Definition upd_anim (f : AnimRef -> AnimRef) (s : State) : State := set_anim (f (anim s)) s.
Definition upd_view (f : View -> View) (s : State) : State := set_view (f (view s)) s.

Definition with_timer (t : option nat) (a : AnimRef) : AnimRef :=
  mkAnim t (running a) (currentSourceIndex a) (currentTargetIndex a) (isPaused a) (pausedAt a) (resumeFrom a).
Definition with_running (b : bool) (a : AnimRef) : AnimRef :=
  mkAnim (timer a) b (currentSourceIndex a) (currentTargetIndex a) (isPaused a) (pausedAt a) (resumeFrom a).
Definition with_indices (i j : Z) (a : AnimRef) : AnimRef :=
  mkAnim (timer a) (running a) i j (isPaused a) (pausedAt a) (resumeFrom a).
Definition with_paused (b : bool) (at_ : Q) (a : AnimRef) : AnimRef :=
  mkAnim (timer a) (running a) (currentSourceIndex a) (currentTargetIndex a) b at_ (resumeFrom a).
Definition with_resumed (a : AnimRef) : AnimRef :=
  mkAnim (timer a) (running a) (currentSourceIndex a) (currentTargetIndex a) false (pausedAt a) true.

Definition with_phase (p : Phase) (v : View) : View :=
  mkView (currentSource v) (currentTarget v) (lastCategoryChange v) (isAnimating v) p
    (isInFullOpacityState v) (hoveredSourceIndex v) (hoveredTargetIndex v) (hoveredLink v).
Definition with_fullOpacity (b : bool) (v : View) : View :=
  mkView (currentSource v) (currentTarget v) (lastCategoryChange v) (isAnimating v) (animationPhase v)
    b (hoveredSourceIndex v) (hoveredTargetIndex v) (hoveredLink v).
Definition with_hovered (si ti : option Z) (v : View) : View :=
  mkView (currentSource v) (currentTarget v) (lastCategoryChange v) (isAnimating v) (animationPhase v)
    (isInFullOpacityState v) si ti (hoveredLink v).
Definition with_hoveredSource (si : option Z) (v : View) : View :=
  with_hovered si (hoveredTargetIndex v) v.
Definition with_link (l : option (string * string)) (v : View) : View :=
  mkView (currentSource v) (currentTarget v) (lastCategoryChange v) (isAnimating v) (animationPhase v)
    (isInFullOpacityState v) (hoveredSourceIndex v) (hoveredTargetIndex v) l.
Definition with_isAnimating (b : bool) (v : View) : View :=
  mkView (currentSource v) (currentTarget v) (lastCategoryChange v) b (animationPhase v)
    (isInFullOpacityState v) (hoveredSourceIndex v) (hoveredTargetIndex v) (hoveredLink v).
(** [setCurrentSource], [setCurrentTarget] and [setLastCategoryChange]
    together, as every caller does. *)
Definition with_fields (src tgt : Field.t) (v : View) : View :=
  mkView src tgt (src, tgt) (isAnimating v) (animationPhase v)
    (isInFullOpacityState v) (hoveredSourceIndex v) (hoveredTargetIndex v) (hoveredLink v).

(** ** Timers *)

(** [ref.timer = setTimeout(cb, delay)]: the handle is overwritten, the old
    callback (if any) is not cancelled. *)
Definition setTimeout (delay : Q) (clo : Closure) (cb : Callback) (s : State) : State :=
  let h := next_handle s in
  let s1 := mkState (anim s) (view s) (isAutoPlayEnabled s) (autoPlaySpeed s)
              (pending s ++ [mkTimer h delay clo cb]) (S h) (clock s) (effect_deps s)
              (effect_cleanup s) (hovering s) (notified s) in
  upd_anim (with_timer (Some h)) s1.

(** [if (ref.timer) { clearTimeout(ref.timer); ref.timer = null; }] *)
Definition clearTimer (s : State) : State :=
  match timer (anim s) with
  | Some h => upd_anim (with_timer None)
                (set_pending (List.filter (fun t => negb (Nat.eqb (t_handle t) h)) (pending s)) s)
  | None => s
  end.

(** ** [animate] *)

(** [availableFields.filter(f => f.value !== currentSourceRef.current)] *)
Definition targetOptionsFor (src : Field.t) : list Field.t :=
  List.filter (fun f => negb (bool_decide (f = src))) availableFields.

Definition animate (clo : Closure) (s : State) : State :=
  let a := anim s in
  if isPaused a then s
  else if negb (running a) || (c_dlen clo =? 0) then s
  else
    let s1 := upd_view (fun v => with_hoveredSource (Some (currentSourceIndex a))
                                   (with_fullOpacity false (with_phase highlighting v))) s in
    let targetOptions := targetOptionsFor (currentSource (view s)) in
    let d := c_dur clo in
    if currentSourceIndex a <? c_nsrc clo - 1 then
      setTimeout (tickDuration d) clo CbStep s1
    else if currentTargetIndex a <? Z.of_nat (length targetOptions) - 1 then
      setTimeout (categoryPauseDuration d) clo (CbTarget targetOptions) s1
    else
      setTimeout (categoryPauseDuration d) clo CbSource s1.

(** The next source field: [sourceOptions[(indexOf(current) + 1) % length]]. *)
Definition nextSourceField (src : Field.t) : Field.t :=
  let i := js_indexOf availableFields src in
  default src (availableFields !! Z.to_nat ((i + 1) mod Z.of_nat (length availableFields))).

(** The body of a timer callback. *)
Definition run_callback (t : Timer) (s : State) : State :=
  let a := anim s in
  let live := running a && negb (isPaused a) in
  let clo := t_clo t in
  match t_cb t with
  | CbStep =>
      if negb live then s
      else animate clo (upd_anim (with_indices (currentSourceIndex a + 1) (currentTargetIndex a)) s)
  | CbTarget targetOptions =>
      if negb live then s
      else
        let j := currentTargetIndex a + 1 in
        let src := currentSource (view s) in
        let tgt := default (currentTarget (view s)) (targetOptions !! Z.to_nat j) in
        let s1 := upd_view (fun v => with_fields src tgt (with_phase transitioning v)) s in
        let s2 := notify (src, tgt) s1 in
        let s3 := upd_anim (with_indices 0 j) s2 in
        setTimeout (categoryPauseDuration (c_dur clo)) clo CbResume s3
  | CbSource =>
      if negb live then s
      else
        let next := nextSourceField (currentSource (view s)) in
        let firstTarget := default next (head (targetOptionsFor next)) in
        let s1 := upd_view (fun v => with_fields next firstTarget (with_phase transitioning v)) s in
        let s2 := upd_anim (with_indices 0 0) s1 in
        let s3 := notify (next, firstTarget) s2 in
        setTimeout (categoryPauseDuration (c_dur clo) * (3 # 2)) clo CbResume s3
  | CbResume =>
      if live then animate clo s else s
  end.

(** ** Invariants *)

(** What the sequencer's own operations leave alone: the React state and
    settings that the effect's dependencies and the render's closure read,
    and the notifications sent. *)
Definition core (s : State) :=
  (currentSource (view s), currentTarget (view s), isAnimating (view s), isAutoPlayEnabled s,
   autoPlaySpeed s, hovering s, effect_deps s, effect_cleanup s, notified s).

(** A scheduled [CbTarget] carries the target options of source [src]. *)
Definition cb_ok (src : Field.t) (cb : Callback) : Prop :=
  forall opts, cb = CbTarget opts -> opts = targetOptionsFor src.

(** ** The render-time values *)

Section WithEnv.
Context `{SankeyLayout} (env : Env).

Definition dlen : Z := Z.of_nat (length (env_data env)).

(** The [animate] of the current render. *)
Definition current_closure (s : State) : Closure :=
  mkClosure (Z.of_nat (length (visual_order (env_data env) (currentSource (view s)) (currentTarget (view s)))))
    dlen (animationDurations (autoPlaySpeed s) (env_reducedMotion env)).

Definition deps_of (s : State) : Deps :=
  mkDeps (env_autoPlay env) (isAutoPlayEnabled s) (isAnimating (view s)) dlen (currentSource (view s)).

(** The cleanup the animation effect returns. *)
Definition effect_teardown (s : State) : State :=
  upd_view (fun v => with_fullOpacity true (with_phase full v))
    (upd_anim (with_running false) (clearTimer s)).

(** The body of the animation effect: the state after it, and whether it
    returned its cleanup. *)
Definition effect_body (s : State) : State * bool :=
  if negb (env_autoPlay env) || negb (isAutoPlayEnabled s) then (effect_teardown s, false)
  else if negb (isAnimating (view s)) then (effect_teardown s, false)
  else if dlen =? 0 then (s, false)
  else if running (anim s) then (s, true)
  else (animate (current_closure s) (upd_anim (fun a => with_indices 0 0 (with_running true a)) s), true).

(** React's commit after an event: re-run the effect when its
    dependencies changed, after the previous run's cleanup. *)
Definition commit (s : State) : State :=
  if bool_decide (effect_deps s = Some (deps_of s)) then s
  else
    let s1 := if effect_cleanup s then effect_teardown s else s in
    let '(s2, cleanup) := effect_body s1 in
    set_effect (Some (deps_of s)) cleanup s2.

(** [pauseAnimation] *)
Definition pauseAnimation (s : State) : State :=
  let a := anim s in
  if running a && negb (isPaused a) then
    clearTimer (upd_anim (with_paused true (clock s)) s)
  else s.

(** [resumeAnimation] *)
Definition resumeAnimation (s : State) : State :=
  let a := anim s in
  if running a && isPaused a then animate (current_closure s) (upd_anim with_resumed s)
  else s.

(** [sortedTargetsForHighlight] *)
Definition targetsForHighlight (s : State) : list string :=
  sortFor (currentTarget (view s)) (targets (env_data env) (currentTarget (view s))).

(** The hover effect's [mouseenter] on a link from [src] (a node of
    column [sf]) to [tgt] (a node of column [tf]). *)
Definition enterLink (sf : Field.t) (src : string) (tf : Field.t) (tgt : string) (s : State) : State :=
  let s1 := pauseAnimation s in
  let v := view s in
  let si := if bool_decide (sf = currentSource v)
            then Some (js_indexOf (visual_order (env_data env) (currentSource v) (currentTarget v)) src)
            else hoveredSourceIndex v in
  let ti := if bool_decide (tf = currentTarget v) then Some (js_indexOf (targetsForHighlight s) tgt)
            else hoveredTargetIndex v in
  upd_view (fun v => with_hovered si ti
                       (with_phase highlighting (with_link (Some (src, tgt)) (with_isAnimating false v)))) s1.

(** The hover effect's [mouseenter] on a node of column [f]. *)
Definition enterNode (f : Field.t) (name : string) (s : State) : State :=
  let s1 := pauseAnimation s in
  let v := view s in
  let si := if bool_decide (f = currentSource v)
            then Some (js_indexOf (visual_order (env_data env) (currentSource v) (currentTarget v)) name)
            else hoveredSourceIndex v in
  let ti := if bool_decide (f = currentTarget v) then Some (js_indexOf (targetsForHighlight s) name)
            else hoveredTargetIndex v in
  upd_view (fun v => with_hovered si ti (with_phase highlighting (with_isAnimating false v))) s1.

(** The hover effect's [mouseleave] (a link's also clears [hoveredLink]). *)
Definition leave (isLink : bool) (s : State) : State :=
  let s1 := resumeAnimation s in
  upd_view (fun v => with_phase full (with_hovered None None
                       ((if isLink then with_link None else (fun v => v)) (with_isAnimating true v)))) s1.

(** ** Events *)

Inductive Event :=
| EvTimer                          (** the oldest pending timer fires *)
| EvEnterLink (sf : Field.t) (src : string) (tf : Field.t) (tgt : string)  (** the pointer enters a link *)
| EvEnterNode (f : Field.t) (name : string)  (** the pointer enters a node *)
| EvLeave (isLink : bool)          (** the pointer leaves what it entered *)
| EvSelectSource (f : Field.t)     (** the source dropdown changes *)
| EvSelectTarget (f : Field.t)     (** the target dropdown changes *)
| EvToggleAutoPlay.                (** the admin panel's [toggleAutoPlay] *)

(** The pointer enters a link or a node. *)
Definition pointer_enter (ev : Event) : bool :=
  match ev with EvEnterLink _ _ _ _ | EvEnterNode _ _ => true | _ => false end.

(** The render effect (lines 531-987) re-runs when [currentSource],
    [currentTarget] or [lastCategoryChange] change, and after every render
    of the settings provider, whose [getCurrentThemeColors] (AppContext
    line 191) is a new closure each time: its [svg.selectAll('*').remove()]
    (line 540) destroys the element under the pointer, whose [mouseleave]
    then never fires.  Timer callbacks change the fields only while no
    element is hovered ([seq_inv_hovering]). *)
Definition svg_rebuilt (s : State) : State := set_hovering false s.

(** The handler of an event, [None] when the event cannot occur: no timer
    is pending, the pointer leaves nothing, or the dropdown option is the
    one disabled ([disabled={field.value === currentTarget}]) or already
    selected. *)
Definition handler (ev : Event) (s : State) : option State :=
  match ev with
  | EvTimer =>
      match pending s with
      | [] => None
      | t :: rest => Some (run_callback t (advance_clock (t_delay t) (set_pending rest s)))
      end
  | EvEnterLink sf src tf tgt => Some (set_hovering true (enterLink sf src tf tgt s))
  | EvEnterNode f name => Some (set_hovering true (enterNode f name s))
  | EvLeave isLink => if hovering s then Some (set_hovering false (leave isLink s)) else None
  | EvSelectSource f =>
      let v := view s in
      if bool_decide (f = currentTarget v) || bool_decide (f = currentSource v) then None
      else Some (svg_rebuilt (upd_view (with_fields f (currentTarget v)) s))
  | EvSelectTarget f =>
      let v := view s in
      if bool_decide (f = currentSource v) || bool_decide (f = currentTarget v) then None
      else Some (svg_rebuilt (upd_view (with_fields (currentSource v) f) s))
  | EvToggleAutoPlay => Some (svg_rebuilt (set_enabled (negb (isAutoPlayEnabled s)) s))
  end.

(** One event and the commit that follows it. *)
Definition step (ev : Event) (s : State) : option State :=
  match handler ev s with
  | Some s' => Some (commit s')
  | None => None
  end.

(** A run of events. *)
Fixpoint run (evs : list Event) (s : State) : option State :=
  match evs with
  | [] => Some s
  | ev :: evs' => match step ev s with Some s' => run evs' s' | None => None end
  end.

(** The state the component mounts with ([useState] and [useRef]
    initial values), before the first commit.  Browser timer handles are
    positive, so [if (ref.timer)] tests whether a handle is stored. *)
Definition initial (enabled : bool) (speed : Q) : State :=
  mkState (mkAnim None false 0 0 false 0 false)
    (mkView Field.years_at_medtronic Field.learning_style
       (Field.years_at_medtronic, Field.learning_style) true full false None None None)
    enabled speed [] 1 0 None false false [].

(** The states a mounted component reaches. *)
Inductive reachable : State -> Prop :=
| reach_mount enabled speed : reachable (commit (initial enabled speed))
| reach_step s ev s' : reachable s -> step ev s = Some s' -> reachable s'.

(** ** Invariants *)

(** The effect's dependencies changed since its last run: the next commit
    re-runs it. *)
Definition stale (s : State) : Prop := effect_deps s <> Some (deps_of s).

(** The recorded dependencies passed the effect's guards. *)
Definition armed (d : option Deps) : bool :=
  match d with
  | Some d => dep_autoPlay d && dep_enabled d && dep_isAnimating d && negb (dep_dlen d =? 0)
  | None => false
  end.

(** The invariant of a state a handler returns, before React commits. *)
Record pinv (s : State) : Prop := {
  p_one : pending s = [] \/ exists t, pending s = [t] /\ timer (anim s) = Some (t_handle t);
  p_live : pending s <> [] -> running (anim s) = true /\ isPaused (anim s) = false;
  p_progress : running (anim s) = true -> isPaused (anim s) = false -> pending s <> [];
  p_cleanup : running (anim s) = true -> effect_cleanup s = true;
  p_dlen : running (anim s) = true -> dlen <> 0;
  p_hover : hovering s = true -> isAnimating (view s) = false;
  p_fields : currentSource (view s) <> currentTarget (view s);
  p_closures : Forall (fun t => c_dlen (t_clo t) = dlen) (pending s);
  p_armed : effect_cleanup s = true -> armed (effect_deps s) = true;
  p_fresh : stale s \/ ((running (anim s) = true -> isAnimating (view s) = true) /\
                        Forall (fun t => cb_ok (currentSource (view s)) (t_cb t)) (pending s))
}.

(** The invariant of a committed state: the above, and the effect has run
    with the current dependencies. *)
Definition seq_inv (s : State) : Prop := pinv s /\ effect_deps s = Some (deps_of s).
End WithEnv.

(** The mock data of [app/test-chord/page.tsx] shown with auto-play on, no
    reduced-motion preference, and the render's source order. *)
Definition demoEnv : Env := mkEnv testChordMockData true false.

(** The component right after mounting, global auto-play on at 5 s. *)
Definition demoMounted : State := @commit sortedLayout demoEnv (initial true 5000).

(** ** Lemmas on the operations *)

Lemma targetOptionsFor_ne src f : f ∈ targetOptionsFor src -> f <> src.
Proof.
  unfold targetOptionsFor. rewrite list_elem_of_In, filter_In.
  intros [_ Hf]. apply negb_true_iff, bool_decide_eq_false in Hf. exact Hf.
Qed.

Lemma targetOptionsFor_lookup src tgt j :
  tgt <> src -> default tgt (targetOptionsFor src !! j) <> src.
Proof.
  intros Hne. destruct (targetOptionsFor src !! j) eqn:E; simpl; [|done].
  apply targetOptionsFor_ne, list_elem_of_lookup_2 with j, E.
Qed.

Lemma first_target_ne next : default next (head (targetOptionsFor next)) <> next.
Proof. destruct next; discriminate. Qed.

Lemma setTimeout_core d clo cb s : core (setTimeout d clo cb s) = core s.
Proof. reflexivity. Qed.

Lemma animate_spec clo s :
  core (animate clo s) = core s /\
  running (anim (animate clo s)) = running (anim s) /\
  isPaused (anim (animate clo s)) = isPaused (anim s) /\
  (animate clo s = s /\ (isPaused (anim s) || negb (running (anim s)) || (c_dlen clo =? 0)) = true
   \/ isPaused (anim s) = false /\ running (anim s) = true /\ c_dlen clo <> 0 /\
      animationPhase (view (animate clo s)) = highlighting /\
      exists d cb, pending (animate clo s) = (pending s ++ [mkTimer (next_handle s) d clo cb])%list /\
        timer (anim (animate clo s)) = Some (next_handle s) /\
        cb_ok (currentSource (view s)) cb /\ cb <> CbResume).
Proof.
  unfold animate. cbv zeta.
  destruct (isPaused (anim s)) eqn:Hp.
  { split_and!; try done. left. split; reflexivity. }
  destruct (negb (running (anim s)) || (c_dlen clo =? 0)) eqn:Hr.
  { split_and!; try done. left. split; [reflexivity|exact Hr]. }
  apply orb_false_iff in Hr as [Hr Hd]. apply negb_false_iff in Hr. apply Z.eqb_neq in Hd.
  repeat case_match; (split_and!; [reflexivity|simpl; congruence|simpl; congruence|right; split_and!; auto]);
    eexists _, _; (split_and!; [reflexivity|reflexivity| |discriminate]);
    intros opts Hopts; simplify_eq; done.
Qed.

Lemma clearTimer_spec s :
  (pending s = [] \/ exists t, pending s = [t] /\ timer (anim s) = Some (t_handle t)) ->
  core (clearTimer s) = core s /\ pending (clearTimer s) = [] /\
  running (anim (clearTimer s)) = running (anim s) /\ isPaused (anim (clearTimer s)) = isPaused (anim s).
Proof.
  unfold clearTimer. intros [Hp | (t & Hp & Ht)].
  - destruct (timer (anim s)); simpl; rewrite ?Hp; done.
  - rewrite Ht, Hp. simpl. rewrite Nat.eqb_refl. done.
Qed.

Section Proofs.
Context `{SankeyLayout} (env : Env).

Lemma deps_of_core s s' : core s = core s' -> deps_of env s = deps_of env s'.
Proof. unfold core, deps_of. intros Hc. simplify_eq. congruence. Qed.

Lemma current_closure_core s s' : core s = core s' -> current_closure env s = current_closure env s'.
Proof. unfold core, current_closure. intros Hc. simplify_eq. congruence. Qed.

(** A state with no animation running and no timer pending. *)
Lemma pinv_quiet s :
  running (anim s) = false -> pending s = [] ->
  (hovering s = true -> isAnimating (view s) = false) ->
  currentSource (view s) <> currentTarget (view s) ->
  (effect_cleanup s = true -> armed (effect_deps s) = true) -> pinv env s.
Proof.
  intros Hr Hp Hh Hf Ha.
  split; rewrite ?Hp, ?Hr; try done; auto. right. split; [done|constructor].
Qed.

Lemma teardown_spec s :
  (pending s = [] \/ exists t, pending s = [t] /\ timer (anim s) = Some (t_handle t)) ->
  core (effect_teardown s) = core s /\ pending (effect_teardown s) = [] /\
  running (anim (effect_teardown s)) = false /\ isPaused (anim (effect_teardown s)) = isPaused (anim s).
Proof. intros Hone. destruct (clearTimer_spec s Hone) as (? & ? & ? & ?). done. Qed.

(** Before the effect body runs, the cleanup (or the absence of one)
    leaves nothing running. *)
Lemma cleanup_quiet s (s1 := if effect_cleanup s then effect_teardown s else s) :
  pinv env s ->
  core s1 = core s /\ pending s1 = [] /\ running (anim s1) = false /\ isPaused (anim s1) = isPaused (anim s).
Proof.
  intros Hi. subst s1. destruct (effect_cleanup s) eqn:Hc.
  - apply teardown_spec, (p_one env s Hi).
  - destruct (running (anim s)) eqn:Hr; [rewrite (p_cleanup env s Hi Hr) in Hc; done|].
    destruct (pending s) eqn:Hp; [done|].
    destruct (p_live env s Hi ltac:(by rewrite Hp)) as [? _]; congruence.
Qed.

Lemma core_transfer s s' :
  pinv env s -> core s' = core s ->
  (hovering s' = true -> isAnimating (view s') = false) /\
  currentSource (view s') <> currentTarget (view s').
Proof.
  intros Hi Hc. unfold core in Hc. injection Hc as Hsrc Htgt Hanim _ _ Hhov _ _ _.
  rewrite Hsrc, Htgt, Hanim, Hhov. split; [apply (p_hover env s Hi)|apply (p_fields env s Hi)].
Qed.

(** The state the effect leaves, with the dependencies recorded. *)
Lemma seq_inv_set_effect s2 c :
  (pending s2 = [] \/ exists t, pending s2 = [t] /\ timer (anim s2) = Some (t_handle t)) ->
  (pending s2 <> [] -> running (anim s2) = true /\ isPaused (anim s2) = false) ->
  (running (anim s2) = true -> isPaused (anim s2) = false -> pending s2 <> []) ->
  (running (anim s2) = true -> c = true /\ dlen env <> 0 /\ isAnimating (view s2) = true) ->
  (hovering s2 = true -> isAnimating (view s2) = false) ->
  currentSource (view s2) <> currentTarget (view s2) ->
  Forall (fun t => c_dlen (t_clo t) = dlen env /\ cb_ok (currentSource (view s2)) (t_cb t)) (pending s2) ->
  (c = true -> armed (Some (deps_of env s2)) = true) ->
  seq_inv env (set_effect (Some (deps_of env s2)) c s2).
Proof.
  intros Hone Hlive Hprog Hrun Hhov Hf Hall Harm. split; [|reflexivity].
  split; simpl; try done.
  - intros Hr. apply Hrun, Hr.
  - intros Hr. apply Hrun, Hr.
  - eapply Forall_impl; [exact Hall|]. intros t [? _]. done.
  - right. split; [intros Hr; apply Hrun, Hr|].
    eapply Forall_impl; [exact Hall|]. intros t [_ ?]. done.
Qed.

(** A quiet state: nothing running, no timer. *)
Lemma seq_inv_set_effect_quiet s s2 :
  pinv env s -> core s2 = core s -> running (anim s2) = false -> pending s2 = [] ->
  seq_inv env (set_effect (Some (deps_of env s2)) false s2).
Proof.
  intros Hi Hc Hr Hp. destruct (core_transfer s s2 Hi Hc) as [Hh Hf].
  apply seq_inv_set_effect; rewrite ?Hp, ?Hr; auto; done.
Qed.

(** React's commit re-establishes the invariant. *)
Lemma commit_inv s : pinv env s -> seq_inv env (commit env s).
Proof.
  intros Hi. unfold commit. case_bool_decide as Hd; [by split|].
  destruct (cleanup_quiet s Hi) as (Hc & Hp & Hr & Hpa).
  set (s1 := if effect_cleanup s then effect_teardown s else s) in *.
  rewrite (deps_of_core s s1) by done.
  unfold effect_body.
  destruct (negb (env_autoPlay env) || negb (isAutoPlayEnabled s1)) eqn:E1;
    [|destruct (negb (isAnimating (view s1))) eqn:E2;
      [|destruct (dlen env =? 0) eqn:E3; [|rewrite Hr]]].
  - destruct (teardown_spec s1 (or_introl Hp)) as (Hc' & Hp' & Hr' & _).
    rewrite (deps_of_core s1 (effect_teardown s1)) by done.
    apply (seq_inv_set_effect_quiet s); congruence.
  - destruct (teardown_spec s1 (or_introl Hp)) as (Hc' & Hp' & Hr' & _).
    rewrite (deps_of_core s1 (effect_teardown s1)) by done.
    apply (seq_inv_set_effect_quiet s); congruence.
  - apply (seq_inv_set_effect_quiet s); congruence.
  - set (sa := upd_anim (fun a => with_indices 0 0 (with_running true a)) s1).
    apply negb_false_iff in E2.
    assert (Harm : armed (Some (deps_of env s1)) = true).
    { unfold armed, deps_of. simpl. apply orb_false_iff in E1 as [E1 E1'].
      apply negb_false_iff in E1, E1'. rewrite E1, E1', E2, E3. done. }
    apply Z.eqb_neq in E3.
    assert (Hca : core sa = core s) by done.
    destruct (animate_spec (current_closure env s1) sa) as (Hc2 & Hr2 & Hpa2 & Hcase).
    rewrite (deps_of_core s1 (animate (current_closure env s1) sa)) in Harm |- * by (rewrite Hc2; done).
    destruct (core_transfer s (animate (current_closure env s1) sa) Hi ltac:(rewrite Hc2; exact Hca)) as [Hh Hf].
    destruct Hcase as [[Heq Hb] | (Hpf & _ & _ & _ & d & cb & Hpend & Ht & Hok & _)].
    + rewrite Heq in *. simpl in Hb. assert (Hps : isPaused (anim s1) = true).
      { destruct (isPaused (anim s1)); [done|]. simpl in Hb. apply Z.eqb_eq in Hb. done. }
      apply seq_inv_set_effect; simpl; rewrite ?Hp; auto; try done.
      intros _ Habs. congruence.
    + apply seq_inv_set_effect; rewrite ?Hpend; simpl; rewrite ?Hp; simpl.
      * right. eexists. split; [reflexivity|exact Ht].
      * intros _. rewrite Hr2, Hpa2. done.
      * done.
      * intros _. split_and!; [done|done|]. rewrite <- E2. injection Hc2 as _ _ Hanim _. exact Hanim.
      * exact Hh.
      * exact Hf.
      * constructor; [|constructor]. split; [done|]. simpl.
        unfold core in Hc2. injection Hc2 as Hsrc _. rewrite Hsrc. exact Hok.
      * intros _. exact Harm.
Qed.

Lemma pause_spec s :
  pinv env s ->
  core (pauseAnimation s) = core s /\ pending (pauseAnimation s) = [] /\
  running (anim (pauseAnimation s)) = running (anim s) /\
  (running (anim s) = true -> isPaused (anim (pauseAnimation s)) = true).
Proof.
  intros Hi. unfold pauseAnimation.
  destruct (running (anim s) && negb (isPaused (anim s))) eqn:E.
  - apply andb_true_iff in E as [Hr _].
    destruct (clearTimer_spec (upd_anim (with_paused true (clock s)) s)) as (Hc & Hp & Hr' & Hpa');
      [apply (p_one env s Hi)|].
    split_and!; try done.
  - destruct (pending s) eqn:Hp.
    + split_and!; try done. intros Hr. rewrite Hr in E. destruct (isPaused (anim s)); done.
    + destruct (p_live env s Hi ltac:(by rewrite Hp)) as [Hr Hpa].
      rewrite Hr, Hpa in E. done.
Qed.

(** The running animation is live only while the effect has seen the
    current dependencies with [isAnimating] set. *)
Lemma seq_inv_running s :
  seq_inv env s -> running (anim s) = true -> isAnimating (view s) = true.
Proof.
  intros [Hi Hd] Hr. destruct (p_fresh env s Hi) as [Hs|[Ha _]]; [done|]. apply Ha, Hr.
Qed.

Lemma seq_inv_cb_ok s :
  seq_inv env s -> Forall (fun t => cb_ok (currentSource (view s)) (t_cb t)) (pending s).
Proof. intros [Hi Hd]. destruct (p_fresh env s Hi) as [Hs|[_ Ha]]; done. Qed.

(** A handler that leaves the animation, the timers and the effect's
    bookkeeping alone. *)
Lemma pinv_frame s s' :
  seq_inv env s -> anim s' = anim s -> pending s' = pending s ->
  effect_cleanup s' = effect_cleanup s -> effect_deps s' = effect_deps s ->
  (hovering s' = true -> hovering s = true) -> isAnimating (view s') = isAnimating (view s) ->
  currentSource (view s') <> currentTarget (view s') ->
  stale env s' \/ currentSource (view s') = currentSource (view s) ->
  pinv env s'.
Proof.
  intros Hs Ha Hp Hc Hd Hh Hia Hf Hst. pose proof (proj1 Hs) as Hi.
  split; rewrite ?Ha, ?Hp, ?Hc, ?Hd, ?Hia; try apply Hi; try done.
  - intros Hh'. apply (p_hover env s Hi), Hh, Hh'.
  - destruct Hst as [?|Hsrc]; [by left|right].
    rewrite Hsrc. split; [apply seq_inv_running, Hs|apply seq_inv_cb_ok, Hs].
Qed.

(** A state with exactly one timer pending, of a live animation. *)
Lemma pinv_scheduled s' t' :
  pending s' = [t'] -> timer (anim s') = Some (t_handle t') ->
  running (anim s') = true -> isPaused (anim s') = false ->
  effect_cleanup s' = true -> armed (effect_deps s') = true ->
  dlen env <> 0 -> c_dlen (t_clo t') = dlen env ->
  (hovering s' = true -> isAnimating (view s') = false) ->
  currentSource (view s') <> currentTarget (view s') ->
  isAnimating (view s') = true -> cb_ok (currentSource (view s')) (t_cb t') ->
  pinv env s'.
Proof.
  intros Hp Ht Hr Hpa Hc Harm Hd Hcd Hh Hf Ha Hok.
  split; rewrite ?Hp; try done; eauto.
Qed.

(** Facts of a committed state with a timer pending. *)
Lemma seq_inv_pending s t rest :
  seq_inv env s -> pending s = t :: rest ->
  rest = [] /\ timer (anim s) = Some (t_handle t) /\ running (anim s) = true /\
  isPaused (anim s) = false /\ effect_cleanup s = true /\ dlen env <> 0 /\
  c_dlen (t_clo t) = dlen env /\ isAnimating (view s) = true /\
  cb_ok (currentSource (view s)) (t_cb t).
Proof.
  intros Hs Hp. pose proof (proj1 Hs) as Hi.
  destruct (p_live env s Hi ltac:(by rewrite Hp)) as [Hr Hpa].
  destruct (p_one env s Hi) as [?|(t0 & Hp0 & Ht)]; [congruence|].
  rewrite Hp in Hp0. injection Hp0 as -> ->.
  pose proof (p_closures env s Hi) as Hcl. pose proof (seq_inv_cb_ok s Hs) as Hok.
  rewrite Hp in Hcl, Hok. apply Forall_cons in Hcl as [? _]. apply Forall_cons in Hok as [? _].
  split_and!; try done; [apply (p_cleanup env s Hi), Hr|apply (p_dlen env s Hi), Hr|
                         apply seq_inv_running; done].
Qed.

(** [animate] from a live state with no timer schedules exactly one. *)
Lemma animate_pinv s sb clo :
  seq_inv env s -> running (anim s) = true -> core sb = core s -> pending sb = [] ->
  running (anim sb) = true -> isPaused (anim sb) = false -> c_dlen clo = dlen env ->
  pinv env (animate clo sb).
Proof.
  intros Hs Hr0 Hc Hp Hr Hpa Hcd. pose proof (proj1 Hs) as Hi.
  destruct (animate_spec clo sb) as (Hc2 & Hr2 & Hpa2 & [[_ Hb] | (_ & _ & _ & _ & d & cb & Hpend & Ht & Hok & _)]).
  - rewrite Hr, Hpa, Hcd in Hb. apply Z.eqb_eq in Hb. destruct (p_dlen env s Hi Hr0 Hb).
  - rewrite Hp in Hpend. simpl in Hpend.
    destruct (core_transfer s (animate clo sb) Hi ltac:(congruence)) as [Hh Hf].
    pose proof Hc2 as Hc3. rewrite Hc in Hc3.
    unfold core in Hc3. injection Hc3 as Hsrc _ Hanim _ _ _ Hdeps Hcl _.
    eapply pinv_scheduled; [exact Hpend|exact Ht|congruence|congruence| | |apply (p_dlen env s Hi Hr0)
                           |exact Hcd|exact Hh|exact Hf| |].
    + rewrite Hcl. apply (p_cleanup env s Hi Hr0).
    + rewrite Hdeps. apply (p_armed env s Hi), (p_cleanup env s Hi Hr0).
    + rewrite Hanim. apply seq_inv_running; done.
    + simpl. unfold core in Hc2. injection Hc2 as Hsrc2 _. rewrite Hsrc2. exact Hok.
Qed.

(** The oldest pending timer fires. *)
Lemma timer_inv s t rest :
  seq_inv env s -> pending s = t :: rest ->
  pinv env (run_callback t (advance_clock (t_delay t) (set_pending rest s))).
Proof.
  intros Hs Hp. pose proof (proj1 Hs) as Hi.
  destruct (seq_inv_pending s t rest Hs Hp) as (-> & Ht & Hr & Hpa & Hcl & Hd & Hcd & Ha & Hok).
  pose proof (p_armed env s Hi Hcl) as Harm.
  unfold run_callback. cbv zeta. simpl. rewrite Hr, Hpa. simpl.
  destruct (core_transfer s s Hi eq_refl) as [Hh Hf].
  destruct (t_cb t) as [|opts| |] eqn:Hcb.
  - apply animate_pinv with s; done.
  - rewrite (Hok opts eq_refl).
    eapply pinv_scheduled; simpl; try reflexivity; try done.
    apply not_eq_sym, targetOptionsFor_lookup, not_eq_sym, Hf.
  - eapply pinv_scheduled; simpl; try reflexivity; try done.
    apply not_eq_sym, first_target_ne.
  - apply animate_pinv with s; done.
Qed.

(** The pointer enters a link or a node: [pauseAnimation], then
    [setIsAnimating(false)] and the hover state. *)
Lemma enter_pinv s f :
  seq_inv env s ->
  (forall v, currentSource (f v) = currentSource v /\ currentTarget (f v) = currentTarget v /\
             isAnimating (f v) = false) ->
  pinv env (set_hovering true (upd_view f (pauseAnimation s))).
Proof.
  intros Hs Hfv. pose proof (proj1 Hs) as Hi.
  destruct (pause_spec s Hi) as (Hc & Hp & Hr & Hpa).
  destruct (core_transfer s (pauseAnimation s) Hi Hc) as [_ Hf].
  destruct (Hfv (view (pauseAnimation s))) as (Hsrc & Htgt & Ha).
  unfold core in Hc. injection Hc as _ _ Hanim _ _ _ Hdeps Hcl _.
  split; simpl; rewrite ?Hp, ?Hr, ?Hsrc, ?Htgt, ?Ha; try done.
  - by left.
  - intros Hr1. rewrite Hpa by done. done.
  - rewrite Hcl. apply (p_cleanup env s Hi).
  - apply (p_dlen env s Hi).
  - rewrite Hcl, Hdeps. apply (p_armed env s Hi).
  - destruct (isAnimating (view s)) eqn:Hanim0.
    + left. unfold stale. simpl. rewrite Hdeps, (proj2 Hs). unfold deps_of. simpl.
      rewrite Ha, Hanim0. congruence.
    + right. split; [|constructor]. intros Hr1. rewrite Hr1 in *.
      rewrite <- Hanim0. apply seq_inv_running; done.
Qed.

(** While the pointer is over the diagram, nothing runs. *)
Lemma seq_inv_hovering s :
  seq_inv env s -> hovering s = true -> running (anim s) = false /\ pending s = [].
Proof.
  intros Hs Hh. pose proof (proj1 Hs) as Hi.
  assert (Hr : running (anim s) = false).
  { destruct (running (anim s)) eqn:Hr; [|done].
    pose proof (seq_inv_running s Hs Hr). rewrite (p_hover env s Hi Hh) in *. done. }
  split; [done|]. destruct (pending s) eqn:Hp; [done|].
  destruct (p_live env s Hi ltac:(by rewrite Hp)). congruence.
Qed.

(** [resumeAnimation] finds the animation stopped: the commit after
    [mouseenter] tore it down. *)
Lemma resume_noop s : seq_inv env s -> hovering s = true -> resumeAnimation env s = s.
Proof.
  intros Hs Hh. unfold resumeAnimation. cbv zeta.
  rewrite (proj1 (seq_inv_hovering s Hs Hh)). done.
Qed.

Lemma handler_inv ev s s' : seq_inv env s -> handler env ev s = Some s' -> pinv env s'.
Proof.
  intros Hs. pose proof (proj1 Hs) as Hi. destruct ev as [|sf src tf tgt|f name|isLink|f|f|]; simpl.
  - destruct (pending s) as [|t rest] eqn:Hp; [done|]. intros [= <-]. apply timer_inv; done.
  - intros [= <-]. unfold enterLink. cbv zeta. apply enter_pinv; [done|]. intros v. done.
  - intros [= <-]. unfold enterNode. cbv zeta. apply enter_pinv; [done|]. intros v. done.
  - destruct (hovering s) eqn:Hh; [intros [= <-]|done].
    unfold leave. cbv zeta. rewrite resume_noop by done.
    destruct (seq_inv_hovering s Hs Hh) as [Hr Hp].
    apply pinv_quiet; simpl; try done; [destruct isLink; apply (p_fields env s Hi)|apply (p_armed env s Hi)].
  - destruct (bool_decide (f = currentTarget (view s)) || bool_decide (f = currentSource (view s))) eqn:E;
      [done|intros [= <-]].
    apply orb_false_iff in E as [E1 E2]. apply bool_decide_eq_false in E1, E2.
    apply (pinv_frame s); try done. left. unfold stale. simpl. rewrite (proj2 Hs).
    unfold deps_of. simpl. congruence.
  - destruct (bool_decide (f = currentSource (view s)) || bool_decide (f = currentTarget (view s))) eqn:E;
      [done|intros [= <-]].
    apply orb_false_iff in E as [E1 E2]. apply bool_decide_eq_false in E1, E2.
    apply (pinv_frame s); try done; try (by right); simpl; congruence.
  - intros [= <-]. apply (pinv_frame s); try done; [apply (p_fields env s Hi)|].
    left. unfold stale. simpl. rewrite (proj2 Hs). unfold deps_of. simpl.
    intros [= Heq]. destruct (isAutoPlayEnabled s); discriminate.
Qed.

Lemma step_inv ev s s' : seq_inv env s -> step env ev s = Some s' -> seq_inv env s'.
Proof.
  intros Hs. unfold step. destruct (handler env ev s) eqn:Eh; [|done].
  intros [= <-]. apply commit_inv, (handler_inv ev s); done.
Qed.

Lemma reachable_inv s : reachable env s -> seq_inv env s.
Proof.
  induction 1 as [enabled speed|s ev s' _ IH Hstep].
  - apply commit_inv, pinv_quiet; done.
  - apply (step_inv ev s); done.
Qed.

Lemma pending_paused s : pinv env s -> isPaused (anim s) = true -> pending s = [].
Proof.
  intros Hi Hp. destruct (pending s) eqn:E; [done|].
  destruct (p_live env s Hi ltac:(by rewrite E)). congruence.
Qed.

(** A commit never clears [isPaused], and [animate] does nothing while it
    is set. *)
Lemma commit_paused s :
  pinv env s -> isPaused (anim s) = true ->
  isPaused (anim (commit env s)) = true /\ pending (commit env s) = [] /\
  notified (commit env s) = notified s.
Proof.
  intros Hi Hpa. unfold commit.
  case_bool_decide; [split_and!; [done|apply pending_paused; done|done]|].
  destruct (cleanup_quiet s Hi) as (Hc & Hp & Hr & Hpa1).
  set (s1 := if effect_cleanup s then effect_teardown s else s) in *.
  assert (Hn : notified s1 = notified s) by (unfold core in Hc; injection Hc; done).
  unfold effect_body. repeat case_match; simplify_eq/=.
  all: try (destruct (teardown_spec _ (or_introl Hp)) as (Hc' & ? & _ & ?);
            unfold core in Hc'; injection Hc'; intros; simpl in *; split_and!; congruence).
  all: try (split_and!; congruence).
  match goal with |- context [animate ?c ?x] =>
    destruct (animate_spec c x) as (Hc2 & _ & Hpa2 & [[Heq _]|(Hf & _)]) end.
  - rewrite Heq. simpl in *. split_and!; congruence.
  - simpl in *. congruence.
Qed.

Lemma handler_paused ev s s' :
  seq_inv env s -> isPaused (anim s) = true -> handler env ev s = Some s' ->
  isPaused (anim s') = true /\ notified s' = notified s.
Proof.
  intros Hs Hpa. pose proof (proj1 Hs) as Hi.
  assert (Hpause : pauseAnimation s = s) by (unfold pauseAnimation; cbv zeta; rewrite Hpa, andb_false_r; done).
  destruct ev; simpl.
  - rewrite (pending_paused s Hi Hpa). done.
  - intros [= <-]. unfold enterLink. rewrite Hpause. done.
  - intros [= <-]. unfold enterNode. rewrite Hpause. done.
  - destruct (hovering s) eqn:Hh; [intros [= <-]|done].
    unfold leave. rewrite resume_noop by done. done.
  - case_match; [done|]. intros [= <-]. done.
  - case_match; [done|]. intros [= <-]. done.
  - intros [= <-]. done.
Qed.

(** Once paused, a reachable state stays paused with no timer, whatever
    happens next. *)
Lemma run_paused evs s s' :
  reachable env s -> isPaused (anim s) = true -> run env evs s = Some s' ->
  isPaused (anim s') = true /\ pending s' = [] /\ notified s' = notified s.
Proof.
  revert s. induction evs as [|ev evs IH]; intros s Hreach Hpa; simpl.
  - intros [= <-]. split_and!; [done|apply pending_paused; [apply reachable_inv|]; done|done].
  - destruct (step env ev s) as [s1|] eqn:Hstep; [|done]. intros Hrun.
    pose proof (reachable_inv s Hreach) as Hs.
    unfold step in Hstep. destruct (handler env ev s) as [s0|] eqn:Eh; [|done].
    injection Hstep as <-.
    destruct (handler_paused ev s s0 Hs Hpa Eh) as [Hpa0 Hn0].
    destruct (commit_paused s0 (handler_inv ev s s0 Hs Eh) Hpa0) as (Hpa1 & _ & Hn1).
    destruct (IH (commit env s0)) as (? & ? & Hn2); try done.
    + eapply reach_step; [exact Hreach|]. unfold step. rewrite Eh. done.
    + split_and!; try done. congruence.
Qed.

Lemma animate_indices clo s :
  currentSourceIndex (anim (animate clo s)) = currentSourceIndex (anim s) /\
  currentTargetIndex (anim (animate clo s)) = currentTargetIndex (anim s) /\
  currentSource (view (animate clo s)) = currentSource (view s) /\
  currentTarget (view (animate clo s)) = currentTarget (view s).
Proof. unfold animate. repeat case_match; done. Qed.

(** When the effect's dependencies change while the animation is live,
    the commit tears it down and starts a new cycle at once: the pending
    timer is dropped and [animate] runs from index 0. *)
Lemma commit_restart s :
  pinv env s -> stale env s -> env_autoPlay env = true -> isAutoPlayEnabled s = true ->
  isAnimating (view s) = true -> dlen env <> 0 -> isPaused (anim s) = false ->
  exists t', pending (commit env s) = [t'] /\ t_cb t' <> CbResume /\
    running (anim (commit env s)) = true /\ isPaused (anim (commit env s)) = false /\
    currentSourceIndex (anim (commit env s)) = 0 /\ currentTargetIndex (anim (commit env s)) = 0 /\
    animationPhase (view (commit env s)) = highlighting /\
    currentSource (view (commit env s)) = currentSource (view s) /\
    currentTarget (view (commit env s)) = currentTarget (view s) /\
    notified (commit env s) = notified s.
Proof.
  intros Hi Hst Hap Hen Han Hd Hpa. unfold commit.
  case_bool_decide as Hdeps; [contradiction|].
  destruct (cleanup_quiet s Hi) as (Hc & Hp & Hr & Hpa1).
  set (s1 := if effect_cleanup s then effect_teardown s else s) in *.
  unfold core in Hc. injection Hc as Hsrc Htgt Hanim Hen1 _ _ _ _ Hn.
  unfold effect_body. rewrite Hen1, Hanim, Hap, Hen, Han, Hr. simpl.
  destruct (Z.eqb_spec (dlen env) 0); [contradiction|]. simpl.
  set (sa := upd_anim (fun a => with_indices 0 0 (with_running true a)) s1).
  destruct (animate_spec (current_closure env s1) sa)
    as (Hc2 & Hr2 & Hpa2 & [[_ Hb] | (_ & _ & _ & Hph & d & cb & Hpend & _ & _ & Hcb)]).
  - simpl in Hb. rewrite Hpa1, Hpa in Hb. simpl in Hb. apply Z.eqb_eq in Hb. contradiction.
  - destruct (animate_indices (current_closure env s1) sa) as (Hi1 & Hi2 & Hs2 & Ht2).
    unfold core in Hc2. injection Hc2 as _ _ _ _ _ _ _ _ Hn2.
    exists (mkTimer (next_handle sa) d (current_closure env s1) cb).
    simpl in *. rewrite Hpend, Hp. split_and!; try done; congruence.
Qed.

Lemma run_reachable evs s s' : reachable env s -> run env evs s = Some s' -> reachable env s'.
Proof.
  revert s. induction evs as [|ev evs IH]; intros s Hr; simpl; [by intros [= <-]|].
  destruct (step env ev s) eqn:E; [|done]. apply IH. eapply reach_step; done.
Qed.

Lemma commit_fresh s : effect_deps s = Some (deps_of env s) -> commit env s = s.
Proof. intros Hd. unfold commit. case_bool_decide; done. Qed.

(** What a committed state with a live timer says about the effect's
    guards. *)
Lemma seq_inv_armed s :
  seq_inv env s -> effect_cleanup s = true ->
  env_autoPlay env = true /\ isAutoPlayEnabled s = true.
Proof.
  intros [Hi Hd] Hc. pose proof (p_armed env s Hi Hc) as Ha. rewrite Hd in Ha.
  unfold armed, deps_of in Ha. simpl in Ha. apply andb_true_iff in Ha as [Ha _].
  apply andb_true_iff in Ha as [Ha _]. apply andb_true_iff in Ha. done.
Qed.
End Proofs.

Lemma nextSourceField_ne f : nextSourceField f <> f.
Proof. destruct f; vm_compute; discriminate. Qed.

Section Claims.
Context `{SankeyLayout} (env : Env).

(** The firing of the single pending timer. *)
Lemma step_timer s t :
  pending s = [t] ->
  step env EvTimer s = Some (commit env (run_callback t (advance_clock (t_delay t) (set_pending [] s)))).
Proof. intros Hp. unfold step. simpl. rewrite Hp. done. Qed.

(** C1: hovering stops the auto-play for good.  From any reachable state
    with the animation running, once the pointer enters a link or a node,
    whatever events follow (the pointer leaving, hovering again, toggling
    auto-play, choosing another question), [isPaused] stays set, no timer
    is ever pending again and no further question change is announced:
    [resumeAnimation] on [mouseleave] always finds [running] cleared by the
    commit that followed [setIsAnimating(false)], and nothing else clears
    [isPaused]. *)
Theorem hover_never_resumes s ev evs s' :
  reachable env s -> running (anim s) = true -> pointer_enter ev = true ->
  run env (ev :: evs) s = Some s' ->
  isPaused (anim s') = true /\ pending s' = [] /\ notified s' = notified s.
Proof.
  intros Hreach Hr Hev. simpl.
  destruct (step env ev s) as [s1|] eqn:Hstep; [|done]. intros Hrun.
  pose proof (reachable_inv env s Hreach) as Hs.
  unfold step in Hstep. destruct (handler env ev s) as [s0|] eqn:Eh; [|done].
  injection Hstep as <-.
  destruct (pause_spec env s (proj1 Hs)) as (Hc & _ & _ & Hpa).
  unfold core in Hc. injection Hc as _ _ _ _ _ _ _ _ Hn.
  assert (Hpa0 : isPaused (anim s0) = true /\ notified s0 = notified s).
  { destruct ev; try discriminate; simpl in Eh; injection Eh as <-;
      unfold enterLink, enterNode; simpl; rewrite Hpa by done; done. }
  destruct Hpa0 as [Hpa0 Hn0].
  destruct (commit_paused env s0 (handler_inv env ev s s0 Hs Eh) Hpa0) as (Hpa1 & _ & Hn1).
  destruct (run_paused env evs (commit env s0) s') as (? & ? & Hn2); try done.
  - eapply reach_step; [exact Hreach|]. unfold step. rewrite Eh. done.
  - split_and!; try done. congruence.
Qed.

(** C2: at most one timer is ever pending, and it is the one
    [animationRef.current.timer] holds; a pending timer belongs to a
    running, unpaused animation.  So two tick chains never run at once. *)
Theorem at_most_one_timer s :
  reachable env s ->
  (pending s = [] \/ exists t, pending s = [t] /\ timer (anim s) = Some (t_handle t)) /\
  (pending s <> [] -> running (anim s) = true /\ isPaused (anim s) = false).
Proof.
  intros Hr. destruct (reachable_inv env s Hr) as [Hi _].
  split; [apply (p_one env s Hi)|apply (p_live env s Hi)].
Qed.

(** C3: the sequencer never stops by itself: while the animation runs
    unpaused, exactly one timer is pending. *)
Theorem running_has_timer s :
  reachable env s -> running (anim s) = true -> isPaused (anim s) = false ->
  exists t, pending s = [t].
Proof.
  intros Hr Hrun Hpa. destruct (reachable_inv env s Hr) as [Hi _].
  destruct (p_one env s Hi) as [Hp|(t & Hp & _)]; [|by exists t].
  destruct (p_progress env s Hi Hrun Hpa Hp).
Qed.

(** The diagram always shows two different questions: the source and
    target fields differ in every reachable state. *)
Theorem fields_distinct s :
  reachable env s -> currentSource (view s) <> currentTarget (view s).
Proof. intros Hr. apply (p_fields env s), (reachable_inv env s Hr). Qed.

(** C7: when the last target field of a source field is done, the source
    field advances (wrapping around [availableFields]) with the first
    other field as target, the change is announced, and the new cycle
    starts at once: [setCurrentSource] changes a dependency of the
    animation effect, whose cleanup cancels the [categoryPauseDuration *
    1.5] timer, and whose next run restarts [animate] at index 0.  The
    pending timer is never the delayed restart. *)
Theorem source_change_restarts s t s' :
  reachable env s -> pending s = [t] -> t_cb t = CbSource -> step env EvTimer s = Some s' ->
  currentSource (view s') = nextSourceField (currentSource (view s)) /\
  currentTarget (view s') =
    default (nextSourceField (currentSource (view s)))
      (head (targetOptionsFor (nextSourceField (currentSource (view s))))) /\
  notified s' = (notified s ++ [(currentSource (view s'), currentTarget (view s'))])%list /\
  currentSourceIndex (anim s') = 0 /\ animationPhase (view s') = highlighting /\
  exists t', pending s' = [t'] /\ t_cb t' <> CbResume.
Proof.
  intros Hr Hp Hcb Hstep. pose proof (reachable_inv env s Hr) as Hs.
  destruct (seq_inv_pending env s t [] Hs Hp) as (_ & _ & Hrun & Hpa & Hcl & Hd & _ & Ha & _).
  destruct (seq_inv_armed env s Hs Hcl) as [Hap Hen].
  pose proof (timer_inv env s t [] Hs Hp) as Hi2.
  rewrite (step_timer s t) in Hstep by done. injection Hstep as <-.
  unfold run_callback in *. rewrite Hcb in *. cbv zeta in *. simpl in *. rewrite ?Hrun, ?Hpa in *. simpl in *.
  destruct (commit_restart env _ Hi2) as (t' & Hp' & Hcb' & _ & _ & Hi0 & _ & Hph & Hsrc & Htgt & Hn);
    simpl; try done.
  - unfold stale. simpl. rewrite (proj2 Hs). intros [= Hdeps].
    apply (nextSourceField_ne (currentSource (view s))). done.
  - rewrite Hsrc, Htgt, Hn. split_and!; try done. by exists t'.
Qed.

(** C8: when the source values of a target field are done, the target
    advances to the next entry of the target options, the source index
    resets, the change is announced, and [animate] resumes after one
    [categoryPauseDuration]; the source field and the running effect are
    unchanged. *)
Theorem target_change_pauses s t opts s' :
  reachable env s -> pending s = [t] -> t_cb t = CbTarget opts -> step env EvTimer s = Some s' ->
  currentSource (view s') = currentSource (view s) /\
  currentTarget (view s') =
    default (currentTarget (view s))
      (targetOptionsFor (currentSource (view s)) !! Z.to_nat (currentTargetIndex (anim s) + 1)) /\
  notified s' = (notified s ++ [(currentSource (view s'), currentTarget (view s'))])%list /\
  currentSourceIndex (anim s') = 0 /\ currentTargetIndex (anim s') = currentTargetIndex (anim s) + 1 /\
  animationPhase (view s') = transitioning /\
  exists t', pending s' = [t'] /\ t_cb t' = CbResume /\ t_delay t' = categoryPauseDuration (c_dur (t_clo t)).
Proof.
  intros Hr Hp Hcb Hstep. pose proof (reachable_inv env s Hr) as Hs.
  destruct (seq_inv_pending env s t [] Hs Hp) as (_ & _ & Hrun & Hpa & _ & _ & _ & _ & Hok).
  rewrite Hcb in Hok. rewrite (Hok opts eq_refl) in Hcb.
  rewrite (step_timer s t) in Hstep by done. injection Hstep as <-.
  unfold run_callback. rewrite Hcb. cbv zeta. simpl. rewrite Hrun, Hpa. simpl.
  rewrite commit_fresh; [simpl; split_and!; try done; by eexists|].
  simpl. rewrite (proj2 Hs). done.
Qed.
End Claims.

(** A witness: on the mock data, after the first tick the pointer enters
    the link [0-5 -> visual], leaves, hovers a node, leaves, toggles
    auto-play off and on and picks another source question; the animation
    is still paused with no timer. *)
Lemma at_most_one_timer_witness :
  match run demoEnv [EvTimer; EvTimer] demoMounted with
  | Some s => (pending s = [] \/ exists t, pending s = [t] /\ timer (anim s) = Some (t_handle t)) /\
              (pending s <> [] -> running (anim s) = true /\ isPaused (anim s) = false)
  | None => False
  end.
Proof.
  destruct (run demoEnv [EvTimer; EvTimer] demoMounted) as [s|] eqn:E; [|vm_compute in E; discriminate].
  apply (at_most_one_timer demoEnv s), (run_reachable demoEnv [EvTimer; EvTimer] demoMounted); [apply reach_mount|exact E].
Defined.

Lemma running_has_timer_witness :
  match run demoEnv [EvTimer; EvTimer] demoMounted with
  | Some s => exists t, pending s = [t]
  | None => False
  end.
Proof.
  destruct (run demoEnv [EvTimer; EvTimer] demoMounted) as [s|] eqn:E; [|vm_compute in E; discriminate].
  apply (running_has_timer demoEnv s).
  - apply (run_reachable demoEnv [EvTimer; EvTimer] demoMounted); [apply reach_mount|exact E].
  - vm_compute in E. injection E as <-. vm_compute. reflexivity.
  - vm_compute in E. injection E as <-. vm_compute. reflexivity.
Defined.

Lemma fields_distinct_witness :
  match run demoEnv (repeat EvTimer 6) demoMounted with
  | Some s => currentSource (view s) <> currentTarget (view s)
  | None => False
  end.
Proof.
  destruct (run demoEnv (repeat EvTimer 6) demoMounted) as [s|] eqn:E; [|vm_compute in E; discriminate].
  apply (fields_distinct demoEnv s), (run_reachable demoEnv (repeat EvTimer 6) demoMounted); [apply reach_mount|exact E].
Defined.

Lemma source_change_restarts_witness :
  match run demoEnv (repeat EvTimer 22) demoMounted with
  | Some s =>
      match pending s, step demoEnv EvTimer s with
      | [t], Some s' => t_cb t = CbSource /\ currentSourceIndex (anim s') = 0 /\
                        exists t', pending s' = [t'] /\ t_cb t' <> CbResume
      | _, _ => False
      end
  | None => False
  end.
Proof.
  destruct (run demoEnv (repeat EvTimer 22) demoMounted) as [s|] eqn:E; [|vm_compute in E; discriminate].
  assert (Hs : s = (fun o => match o with Some s => s | None => s end) (run demoEnv (repeat EvTimer 22) demoMounted))
    by (rewrite E; reflexivity).
  destruct (pending s) as [|t [|]] eqn:Hp; [rewrite Hs in Hp; vm_compute in Hp; discriminate| |
                                             rewrite Hs in Hp; vm_compute in Hp; discriminate].
  destruct (step demoEnv EvTimer s) as [s'|] eqn:Hst; [|rewrite Hs in Hst; vm_compute in Hst; discriminate].
  assert (Hcb : t_cb t = CbSource).
  { rewrite Hs in Hp. vm_compute in Hp. injection Hp as <-. reflexivity. }
  split; [exact Hcb|].
  destruct (source_change_restarts demoEnv s t s') as (_ & _ & _ & ? & _ & ?);
    [|exact Hp|exact Hcb|exact Hst|split; assumption].
  apply (run_reachable demoEnv (repeat EvTimer 22) demoMounted); [apply reach_mount|exact E].
Defined.

Lemma target_change_pauses_witness :
  match run demoEnv (repeat EvTimer 4) demoMounted with
  | Some s =>
      match pending s, step demoEnv EvTimer s with
      | [t], Some s' => (exists opts, t_cb t = CbTarget opts) /\
                        currentTarget (view s') = Field.shaped_by /\
                        exists t', pending s' = [t'] /\ t_cb t' = CbResume
      | _, _ => False
      end
  | None => False
  end.
Proof.
  destruct (run demoEnv (repeat EvTimer 4) demoMounted) as [s|] eqn:E; [|vm_compute in E; discriminate].
  assert (Hs : s = (fun o => match o with Some s => s | None => s end) (run demoEnv (repeat EvTimer 4) demoMounted))
    by (rewrite E; reflexivity).
  destruct (pending s) as [|t [|]] eqn:Hp; [rewrite Hs in Hp; vm_compute in Hp; discriminate| |
                                             rewrite Hs in Hp; vm_compute in Hp; discriminate].
  destruct (step demoEnv EvTimer s) as [s'|] eqn:Hst; [|rewrite Hs in Hst; vm_compute in Hst; discriminate].
  assert (Hcb : t_cb t = CbTarget (targetOptionsFor Field.years_at_medtronic)).
  { rewrite Hs in Hp. vm_compute in Hp. injection Hp as <-. reflexivity. }
  split; [by eexists|].
  destruct (target_change_pauses demoEnv s t (targetOptionsFor Field.years_at_medtronic) s') as (Hsrc & Htgt & _ & _ & _ & _ & t' & ? & ? & _);
    [|exact Hp|exact Hcb|exact Hst|].
  - apply (run_reachable demoEnv (repeat EvTimer 4) demoMounted); [apply reach_mount|exact E].
  - split; [|exists t'; split; assumption]. rewrite Htgt, Hs. vm_compute. reflexivity.
Defined.

Lemma hover_never_resumes_witness :
  match run demoEnv [EvTimer] demoMounted with
  | Some s =>
      match run demoEnv
              (EvEnterLink Field.years_at_medtronic "0-5" Field.learning_style "visual" ::
               [EvLeave true; EvEnterNode Field.learning_style "visual"; EvLeave false;
                EvToggleAutoPlay; EvToggleAutoPlay; EvSelectSource Field.motivation]) s with
      | Some s' => isPaused (anim s') = true /\ pending s' = [] /\ notified s' = notified s
      | None => False
      end
  | None => False
  end.
Proof.
  destruct (run demoEnv [EvTimer] demoMounted) as [s|] eqn:E1; [|vm_compute in E1; discriminate].
  destruct (run demoEnv _ s) as [s'|] eqn:E2.
  - eapply (hover_never_resumes demoEnv s); [| | |exact E2].
    + apply (run_reachable demoEnv [EvTimer] demoMounted); [apply reach_mount|exact E1].
    + vm_compute in E1. injection E1 as <-. vm_compute. reflexivity.
    + reflexivity.
  - vm_compute in E1. injection E1 as <-. vm_compute in E2. discriminate.
Defined.
