(* ===== verification/Settings.v ===== *)
(** * Global settings: [lib/context/AppContext.tsx]

    The settings object every visualization reads ([VisualizationSettings]),
    its defaults, and the setters [AppProvider] exposes.  Each setter is a
    functional [setSettings(prev => ...)] update; [updateCategoryColor]
    also reads the [settings] of the render that created it to choose the
    theme.  JavaScript objects keyed by strings are [JsMap]s: a spread
    followed by [[key]: value] keeps an existing key in place and appends a
    new one, which is [map_set].  The theorems are the colour picker's
    round trip and frame: after [updateCategoryColor] the chosen theme maps
    the category's answer to the new colour and every other entry is
    unchanged. *)

From S2P Require Import Prelude Survey.

Open Scope string_scope.

(** [CategoryColors]: category -> answer -> colour. *)
Definition CategoryColors := @JsMap string (@JsMap string string).

Record ThemeAwareColors := mkThemeColors {
  light : CategoryColors;
  dark : CategoryColors
}.

(** The [theme?: 'light' | 'dark'] argument. *)
Inductive Theme := ThemeLight | ThemeDark.

#[export] Instance Theme_eq_dec : EqDecision Theme.
Proof. solve_decision. Defined.

Record VisualizationSettings := mkSettings {
  categoryColors : ThemeAwareColors;
  isDarkMode : bool;
  useTestData : bool;
  autoPlaySpeed : Q;
  isAutoPlayEnabled : bool
}.

Definition palette (a b c d e : string) (keys : list string) : @JsMap string string :=
  zip keys [a; b; c; d; e].

Definition years_keys : list string := ["0-5"; "6-10"; "11-15"; "16-20"; "20+"].
Definition peak_keys : list string := ["individual"; "innovation"; "leadership"; "crisis"; "team"].
Definition learning_keys : list string := ["visual"; "auditory"; "kinesthetic"; "reading_writing"].
Definition motivation_keys : list string := ["autonomy"; "recognition"; "impact"; "purpose"; "growth"].
Definition shaped_keys : list string := ["mentor"; "other"; "failure"; "education"; "challenge"].

(** [defaultLightColors]: every category uses the same five colours in
    order ([learning_style] has four answers, so [zip] drops the fifth). *)
Definition defaultLightColors : CategoryColors :=
  let p := palette "#FF6B6B" "#4ECDC4" "#45B7D1" "#96CEB4" "#FFEAA7" in
  [("years_at_medtronic", p years_keys); ("peak_performance", p peak_keys);
   ("learning_style", p learning_keys); ("motivation", p motivation_keys);
   ("shaped_by", p shaped_keys)].

Definition defaultDarkColors : CategoryColors :=
  let p := palette "#FF8A8A" "#6EDCD4" "#65C7F1" "#B6DEC4" "#FFED87" in
  [("years_at_medtronic", p years_keys); ("peak_performance", p peak_keys);
   ("learning_style", p learning_keys); ("motivation", p motivation_keys);
   ("shaped_by", p shaped_keys)].

Definition defaultSettings : VisualizationSettings :=
  mkSettings (mkThemeColors defaultLightColors defaultDarkColors) false true 5000 true.

(** [prev.categoryColors[theme]] and its update. *)
Definition theme_colors (t : Theme) (c : ThemeAwareColors) : CategoryColors :=
  match t with ThemeLight => light c | ThemeDark => dark c end.

Definition set_theme_colors (t : Theme) (m : CategoryColors) (c : ThemeAwareColors) : ThemeAwareColors :=
  match t with
  | ThemeLight => mkThemeColors m (dark c)
  | ThemeDark => mkThemeColors (light c) m
  end.

Definition with_colors (c : ThemeAwareColors) (s : VisualizationSettings) : VisualizationSettings :=
  mkSettings c (isDarkMode s) (useTestData s) (autoPlaySpeed s) (isAutoPlayEnabled s).

(** [theme || (settings.isDarkMode ? 'dark' : 'light')] *)
Definition targetTheme (settings : VisualizationSettings) (theme : option Theme) : Theme :=
  match theme with
  | Some t => t
  | None => if isDarkMode settings then ThemeDark else ThemeLight
  end.

(** [{...cur, [category]: {...cur[category], [answer]: color}}]: the
    spread of an undefined category gives the empty object. *)
Definition set_color (cur : CategoryColors) (category answer color : string) : CategoryColors :=
  let inner := default [] (map_get cur category) in
  map_set category (map_set answer color inner) cur.

(** [updateCategoryColor]: [settings] is the render's value the closure
    captured, [prev] the state [setSettings] passes. *)
Definition updateCategoryColor (settings : VisualizationSettings) (category answer color : string)
    (theme : option Theme) (prev : VisualizationSettings) : VisualizationSettings :=
  let t := targetTheme settings theme in
  let cur := theme_colors t (categoryColors prev) in
  with_colors (set_theme_colors t (set_color cur category answer color) (categoryColors prev)) prev.

Definition toggleDarkMode (prev : VisualizationSettings) : VisualizationSettings :=
  mkSettings (categoryColors prev) (negb (isDarkMode prev)) (useTestData prev) (autoPlaySpeed prev)
    (isAutoPlayEnabled prev).

Definition toggleTestData (prev : VisualizationSettings) : VisualizationSettings :=
  mkSettings (categoryColors prev) (isDarkMode prev) (negb (useTestData prev)) (autoPlaySpeed prev)
    (isAutoPlayEnabled prev).

Definition updateAutoPlaySpeed (speed : Q) (prev : VisualizationSettings) : VisualizationSettings :=
  mkSettings (categoryColors prev) (isDarkMode prev) (useTestData prev) speed (isAutoPlayEnabled prev).

Definition toggleAutoPlay (prev : VisualizationSettings) : VisualizationSettings :=
  mkSettings (categoryColors prev) (isDarkMode prev) (useTestData prev) (autoPlaySpeed prev)
    (negb (isAutoPlayEnabled prev)).

Definition resetToDefaults (prev : VisualizationSettings) : VisualizationSettings := defaultSettings.

Definition getCurrentThemeColors (settings : VisualizationSettings) : CategoryColors :=
  if isDarkMode settings then dark (categoryColors settings) else light (categoryColors settings).

(** [globalColors[category]?.[answer]] *)
Definition color_of (m : CategoryColors) (category answer : string) : option string :=
  map_get m category ≫= fun inner => map_get inner answer.

(** The setters as the actions the admin panel dispatches, each from an
    event handler of a render whose [settings] is the current state. *)
Inductive SettingsAction :=
| UpdateCategoryColor (category answer color : string) (theme : option Theme)
| ToggleDarkMode
| ToggleTestData
| UpdateAutoPlaySpeed (speed : Q)
| ToggleAutoPlay
| ResetToDefaults.

Definition dispatch (a : SettingsAction) (s : VisualizationSettings) : VisualizationSettings :=
  match a with
  | UpdateCategoryColor c ans col t => updateCategoryColor s c ans col t s
  | ToggleDarkMode => toggleDarkMode s
  | ToggleTestData => toggleTestData s
  | UpdateAutoPlaySpeed q => updateAutoPlaySpeed q s
  | ToggleAutoPlay => toggleAutoPlay s
  | ResetToDefaults => resetToDefaults s
  end.

(** ** Lemmas *)

Lemma theme_colors_set t t' m c :
  theme_colors t' (set_theme_colors t m c) = if bool_decide (t = t') then m else theme_colors t' c.
Proof. destruct t, t'; done. Qed.

Lemma getCurrentThemeColors_theme s :
  getCurrentThemeColors s = theme_colors (targetTheme s None) (categoryColors s).
Proof. unfold getCurrentThemeColors, targetTheme. by destruct (isDarkMode s). Qed.

Lemma color_of_set_eq m category answer color :
  color_of (set_color m category answer color) category answer = Some color.
Proof. unfold color_of, set_color. rewrite map_get_set_eq. simpl. apply map_get_set_eq. Qed.

Lemma color_of_set_ne m category answer color c a :
  (c, a) <> (category, answer) ->
  color_of (set_color m category answer color) c a = color_of m c a.
Proof.
  intros Hne. unfold color_of, set_color. destruct (decide (c = category)) as [->|Hc].
  - rewrite map_get_set_eq. simpl. rewrite map_get_set_ne by congruence.
    destruct (map_get m category); reflexivity.
  - by rewrite map_get_set_ne by congruence.
Qed.

(** The colour picker's round trip: after [updateCategoryColor] on the
    theme it targets, that theme maps the category's answer to the new
    colour, and every other (theme, category, answer) keeps its colour. *)
Theorem updateCategoryColor_spec settings prev category answer color theme t c a :
  let s' := updateCategoryColor settings category answer color theme prev in
  color_of (theme_colors t (categoryColors s')) c a =
  if bool_decide ((t, c, a) = (targetTheme settings theme, category, answer)) then Some color
  else color_of (theme_colors t (categoryColors prev)) c a.
Proof.
  simpl. rewrite theme_colors_set.
  case_bool_decide as Ht; case_bool_decide as Heq.
  - injection Heq as -> -> ->. apply color_of_set_eq.
  - subst t. apply color_of_set_ne. intros [= -> ->]. by apply Heq.
  - injection Heq as -> _ _. done.
  - done.
Qed.
