(* ===== verification/Pages.v ===== *)
(** * The pages: [app/page.tsx], [app/visualization/...], [app/test-context/page.tsx]

    The App Router serves one route per [page.tsx] under [src/app]
    ([app_routes]); a navigation to any other path renders Next's
    not-found page.  The links of the home page, of the two visualization
    pages and of the AppContext test page are listed with the lines that
    write them.

    [visualization/dark/page.tsx] forces the global dark mode: its first
    effect toggles [isDarkMode] when it is off, and since the provider's
    [toggleDarkMode] is a fresh closure on every render, the effect runs
    after every commit of the page ([dark_commit]).

    [test-context/page.tsx] shows the settings of [AppContext] in a card,
    flips them with three buttons that call the provider's toggles, and
    previews the colours with [Object.entries(settings.categoryColors)]
    ([colorPreview]).  [settings.categoryColors] is the [ThemeAwareColors]
    object [{light, dark}], not a map of categories: the preview's headings
    are the two theme names, its swatch titles are category names, and the
    value it passes as [backgroundColor] is an object.

    The theorems: one link of the pages leads nowhere; the dark page turns
    dark mode back on after any change of the settings. *)

From S2P Require Import Prelude Settings.

Open Scope string_scope.

(** ** Routes and links *)

(** The routes of the App Router: the directories of [src/app] holding a
    [page.tsx]. *)
Definition app_routes : list string :=
  ["/"; "/admin/controls"; "/constellation"; "/login"; "/test"; "/test-chord";
   "/test-context"; "/test-supabase"; "/visualization"; "/visualization/dark"].

(** What a navigation renders. *)
Inductive Rendered := PageAt (route : string) | NotFound.

Definition resolve_route (r : string) : Rendered :=
  if bool_decide (r ∈ app_routes) then PageAt r else NotFound.

(** The [href]s of the home page's three cards (page.tsx lines 16-38). *)
Definition home_links : list string := ["/visualization"; "/survey"; "/admin/controls"].

(** The indicator's anchor of [visualization/page.tsx] (line 16) and of
    [visualization/dark/page.tsx] (line 40). *)
Definition visualization_links : list string := ["/visualization/dark"].
Definition dark_links : list string := ["/visualization"].

(** The two [Link]s of [test-context/page.tsx] (lines 81-92). *)
Definition testContext_links : list string := ["/admin/controls"; "/"].

Definition page_links : list string :=
  home_links ++ visualization_links ++ dark_links ++ testContext_links.

(** ** The dark visualization page *)

(** The effect of lines 12-16: [if (!settings.isDarkMode) toggleDarkMode()]. *)
Definition forceDarkEffect (s : VisualizationSettings) : VisualizationSettings :=
  if negb (isDarkMode s) then toggleDarkMode s else s.

(** A commit of the page: the provider re-rendered, so [toggleDarkMode] is
    a new closure and the effect runs; if it toggled, the provider renders
    again and the effect runs once more. *)
Definition dark_commit (s : VisualizationSettings) : VisualizationSettings :=
  forceDarkEffect (forceDarkEffect s).

(** A settings action delivered while the page is mounted, then the commit
    it causes. *)
Definition dark_run (s : VisualizationSettings) (acts : list SettingsAction) : VisualizationSettings :=
  fold_left (fun s a => dark_commit (dispatch a s)) acts (dark_commit s).

(** ** The AppContext test page *)

(** [settings.x ? 'Enabled' : 'Disabled'] *)
Definition enabledLabel (b : bool) : string := if b then "Enabled" else "Disabled".

(** The Current Settings card (lines 23-26). *)
Record SettingsCard := mkSettingsCard {
  darkModeLabel : string;
  testDataLabel : string;
  autoPlayLabel : string;
  speedMs : Q
}.

Definition settingsCard (s : VisualizationSettings) : SettingsCard :=
  mkSettingsCard (enabledLabel (isDarkMode s)) (enabledLabel (useTestData s))
    (enabledLabel (isAutoPlayEnabled s)) (autoPlaySpeed s).

(** The three Quick Actions buttons (lines 35-52). *)
Inductive QuickAction := ClickToggleDarkMode | ClickToggleTestData | ClickToggleAutoPlay.

Definition quickAction (e : QuickAction) (s : VisualizationSettings) : VisualizationSettings :=
  match e with
  | ClickToggleDarkMode => dispatch ToggleDarkMode s
  | ClickToggleTestData => dispatch ToggleTestData s
  | ClickToggleAutoPlay => dispatch ToggleAutoPlay s
  end.

(** [Object.entries] of the [ThemeAwareColors] object: its keys in the
    order of the [defaultSettings] literal (AppContext line 112), which
    [updateCategoryColor]'s spread of [prev.categoryColors] keeps. *)
Definition themeEntries (c : ThemeAwareColors) : list (string * CategoryColors) :=
  [("light", light c); ("dark", dark c)].

(** A value React writes into [style.backgroundColor]: a string is a CSS
    colour; an object is stringified to ["[object Object]"], which the CSS
    parser rejects, so the property stays unset. *)
Inductive StyleValue :=
| StyleString (v : string)
| StyleObject (v : @JsMap string string).

Definition appliedBackground (v : StyleValue) : option string :=
  match v with StyleString c => Some c | StyleObject _ => None end.

(** A swatch [<div key={answer} style={{ backgroundColor: color }} title={answer}/>]. *)
Record Swatch := mkSwatch {
  swatch_title : string;
  swatch_background : StyleValue
}.

(** The Color Configuration Preview (lines 62-76): four entries of
    [settings.categoryColors], three entries of each. *)
Definition colorPreview (s : VisualizationSettings) : list (string * list Swatch) :=
  map (fun '(category, colors) =>
         (replace_underscores category,
          map (fun '(answer, color) => mkSwatch answer (StyleObject color)) (take 3 colors)))
      (take 4 (themeEntries (categoryColors s))).

Definition is_dead (r : string) : bool :=
  match resolve_route r with NotFound => true | PageAt _ => false end.

(** ** Theorems *)

(** Of all the links the home, visualization and AppContext test pages
    write, exactly one leads to the not-found page: the home page's Survey
    Form card points to [/survey], which no [page.tsx] serves. *)
Theorem dead_page_links : List.filter is_dead page_links = ["/survey"].
Proof. vm_compute. reflexivity. Qed.

Lemma forceDarkEffect_dark s : isDarkMode (forceDarkEffect s) = true.
Proof. unfold forceDarkEffect. by destruct s as [? [] ? ? ?]. Qed.

Lemma forceDarkEffect_id s : isDarkMode s = true -> forceDarkEffect s = s.
Proof. unfold forceDarkEffect. by intros ->. Qed.

Lemma dark_commit_dark s : isDarkMode (dark_commit s) = true.
Proof. apply forceDarkEffect_dark. Qed.

Lemma dark_commit_stable s : isDarkMode s = true -> dark_commit s = s.
Proof. intros H. unfold dark_commit. rewrite (forceDarkEffect_id s H). by apply forceDarkEffect_id. Qed.

(** C25: Whatever settings actions arrive while the dark visualization page is
    mounted (a [toggleDarkMode] included), every commit ends with dark mode
    on, and the effect then settles: one more commit changes nothing, so
    the effect's re-run on every render does not loop. *)
Theorem dark_page_forces_dark s acts :
  isDarkMode (dark_run s acts) = true /\ dark_commit (dark_run s acts) = dark_run s acts.
Proof.
  unfold dark_run. generalize (dark_commit_dark s). generalize (dark_commit s).
  induction acts as [|a acts IH]; intros s' Hs; simpl.
  - split; [done | by apply dark_commit_stable].
  - apply IH, dark_commit_dark.
Qed.

