(* ===== verification/Login.v ===== *)
(** * The login page: [app/login/page.tsx]

    The page holds a few [useState] cells and starts asynchronous calls from
    its handlers.  As in [DataFeed], a handler is split at its [await]:
    the synchronous part updates the state and appends the call to
    [pending], with the arguments it captured; a [Resolve k r] event
    delivers the result [r] of the [k]-th pending call, in any order, and
    runs the rest of the handler.  A React 18 batch applies the setters of
    one part together, which is function composition here.

    [LoginPage]: the login form and the password-reset form share [email];
    the submit buttons are [disabled={isLoading}], which also blocks the
    browser's implicit submission, and the inputs are [required] (the
    browser's check of an e-mail field is the section variable
    [email_valid]).  [handleLogin] sets [isLoading] and clears it in its
    [finally]; [handleReset] never touches it.  A successful sign-in calls
    [router.push('/admin')], recorded in [pushed].

    The theorems: a sign-in is pending exactly while [isLoading] is set, and
    at most one; every resolution of a sign-in has its documented outcome,
    the error paths included; every navigation of the login page lands on
    the not-found page; from any reachable state showing the reset form,
    any number of password resets can be in flight, and a success followed
    by a failure shows the success message next to the error. *)

From S2P Require Import Prelude Pages.

Open Scope string_scope.

Module LoginPage.

(** The two calls of [supabase.auth], with the arguments they captured. *)
Inductive AuthRequest :=
| SignInWithPassword (email password : string)
| ResetPasswordForEmail (email redirectTo : string).

(** What an awaited call gives: [{ error }] with an error, without one, or a
    rejected promise (the [catch]). *)
Inductive AuthResult :=
| AuthFailed (message : string)
| AuthSucceeded
| AuthRejected.

(** The six [useState] cells (lines 9-14), the pending calls and the
    routes passed to [router.push]. *)
Record LoginState := mkLoginState {
  email : string;
  password : string;
  error : string;
  resetSent : bool;
  showReset : bool;
  isLoading : bool;
  pending : list AuthRequest;
  pushed : list string
}.

Definition setEmail (v : string) (s : LoginState) : LoginState :=
  mkLoginState v (password s) (error s) (resetSent s) (showReset s) (isLoading s) (pending s) (pushed s).
Definition setPassword (v : string) (s : LoginState) : LoginState :=
  mkLoginState (email s) v (error s) (resetSent s) (showReset s) (isLoading s) (pending s) (pushed s).
Definition setError (v : string) (s : LoginState) : LoginState :=
  mkLoginState (email s) (password s) v (resetSent s) (showReset s) (isLoading s) (pending s) (pushed s).
Definition setResetSent (v : bool) (s : LoginState) : LoginState :=
  mkLoginState (email s) (password s) (error s) v (showReset s) (isLoading s) (pending s) (pushed s).
Definition setShowReset (v : bool) (s : LoginState) : LoginState :=
  mkLoginState (email s) (password s) (error s) (resetSent s) v (isLoading s) (pending s) (pushed s).
Definition setIsLoading (v : bool) (s : LoginState) : LoginState :=
  mkLoginState (email s) (password s) (error s) (resetSent s) (showReset s) v (pending s) (pushed s).
Definition set_pending (v : list AuthRequest) (s : LoginState) : LoginState :=
  mkLoginState (email s) (password s) (error s) (resetSent s) (showReset s) (isLoading s) v (pushed s).
Definition router_push (r : string) (s : LoginState) : LoginState :=
  mkLoginState (email s) (password s) (error s) (resetSent s) (showReset s) (isLoading s) (pending s)
    (pushed s ++ [r]).

Definition initialLogin : LoginState := mkLoginState "" "" "" false false false [] [].

Definition unexpected_error : string := "An unexpected error occurred".

(** [handleLogin] up to its [await] (lines 16-24). *)
Definition handleLogin_start (s : LoginState) : LoginState :=
  set_pending (pending s ++ [SignInWithPassword (email s) (password s)]) (setError "" (setIsLoading true s)).

(** The rest of [handleLogin] (lines 25-40): the [if (error)], the
    [catch], the [finally]. *)
Definition handleLogin_resolve (r : AuthResult) (s : LoginState) : LoginState :=
  setIsLoading false
    match r with
    | AuthFailed message => setError message s
    | AuthSucceeded => router_push "/admin" s
    | AuthRejected => setError unexpected_error s
    end.

(** [handleReset] up to its [await] (lines 43-51); [origin] is
    [window.location.origin]. *)
Definition handleReset_start (origin : string) (s : LoginState) : LoginState :=
  set_pending (pending s ++ [ResetPasswordForEmail (email s) (origin ++ "/login")])
    (setResetSent false (setError "" s)).

(** The rest of [handleReset] (lines 52-59). *)
Definition handleReset_resolve (r : AuthResult) (s : LoginState) : LoginState :=
  match r with
  | AuthFailed message => setError message s
  | AuthSucceeded => setResetSent true s
  | AuthRejected => setError unexpected_error s
  end.

(** The continuation of the handler that made a call. *)
Definition resume (req : AuthRequest) : AuthResult -> LoginState -> LoginState :=
  match req with
  | SignInWithPassword _ _ => handleLogin_resolve
  | ResetPasswordForEmail _ _ => handleReset_resolve
  end.

(** The submit button's label of the reset form (line 79). *)
Definition resetButtonLabel (s : LoginState) : string :=
  if isLoading s then "Sending..." else "Send Password Reset".

Definition is_signin (req : AuthRequest) : bool :=
  match req with SignInWithPassword _ _ => true | ResetPasswordForEmail _ _ => false end.

(** The number of sign-ins awaiting their answer. *)
Definition signins (l : list AuthRequest) : nat := length (List.filter is_signin l).

Inductive LoginEvent :=
| TypeEmail (v : string)
| TypePassword (v : string)
| Submit
| ClickForgot
| ClickBack
| Resolve (k : nat) (r : AuthResult).

(** Inputs of the examples: a browser that accepts every address, an
    origin, and a sign-in submitted from the login form. *)
Definition accept_all (_ : string) : bool := true.
Definition demo_origin : string := "https://example.org".
Definition signin_evs : list LoginEvent := [TypeEmail "x@y.z"; TypePassword "pw"; Submit].

Section Form.
(** The browser's validation of the [type="email" required] input. *)
Variable email_valid : string -> bool.
(** [window.location.origin] *)
Variable origin : string.

(** The [required] inputs of the login form (lines 93-108). *)
Definition login_form_valid (s : LoginState) : bool :=
  email_valid (email s) && negb (String.eqb (password s) "").

(** One event on the rendered page (lines 62-127): the form shown is the
    reset form when [showReset]; the password input and the two toggle
    buttons exist only in their form. *)
Definition login_step (s : LoginState) (e : LoginEvent) : LoginState :=
  match e with
  | TypeEmail v => setEmail v s
  | TypePassword v => if showReset s then s else setPassword v s
  | Submit =>
      if isLoading s then s
      else if showReset s then (if email_valid (email s) then handleReset_start origin s else s)
      else if login_form_valid s then handleLogin_start s else s
  | ClickForgot => if showReset s then s else setShowReset true s
  | ClickBack => if showReset s then setShowReset false s else s
  | Resolve k r =>
      match pending s !! k with
      | Some req => resume req r (set_pending (delete k (pending s)) s)
      | None => s
      end
  end.

Definition login_run (s : LoginState) (evs : list LoginEvent) : LoginState := fold_left login_step evs s.

Inductive login_reachable : LoginState -> Prop :=
| login_reach_init : login_reachable initialLogin
| login_reach_step s e : login_reachable s -> login_reachable (login_step s e).

(** A sign-in is pending exactly while the buttons are disabled. *)
Definition login_inv (s : LoginState) : Prop :=
  signins (pending s) = if isLoading s then 1%nat else 0%nat.

(** ** Theorems *)

Lemma signins_app l req :
  signins (l ++ [req]) = (signins l + if is_signin req then 1 else 0)%nat.
Proof. unfold signins. rewrite List.filter_app, length_app. destruct req; simpl; lia. Qed.

Lemma resume_pending req r s : pending (resume req r s) = pending s.
Proof. by destruct req, r. Qed.

Lemma resume_pushed req r s :
  pushed (resume req r s) = pushed s \/ pushed (resume req r s) = (pushed s ++ ["/admin"])%list.
Proof. destruct req, r; simpl; auto. Qed.

Lemma resume_reset_loading e rd r s : isLoading (resume (ResetPasswordForEmail e rd) r s) = isLoading s.
Proof. by destruct r. Qed.

Lemma login_step_inv s e : login_inv s -> login_inv (login_step s e).
Proof.
  unfold login_inv. intros Hinv.
  destruct e as [v|v| | | |k r]; simpl; try by destruct (showReset s).
  - destruct (isLoading s) eqn:Hl; [by rewrite Hl|].
    destruct (showReset s); [destruct (email_valid (email s))|destruct (login_form_valid s)];
      simpl; rewrite ?signins_app, ?Hinv, ?Hl; simpl; done.
  - destruct (pending s !! k) as [req|] eqn:Hk; [|done].
    pose proof (length_filter_delete is_signin _ _ _ Hk) as Hd. fold (signins (pending s)) in Hd.
    rewrite resume_pending. simpl. fold (signins (delete k (pending s))) in Hd.
    destruct req as [em pw|em rd]; simpl in Hd.
    + destruct r; simpl; destruct (isLoading s); lia.
    + rewrite resume_reset_loading. simpl. lia.
Qed.

Lemma login_reachable_inv s : login_reachable s -> login_inv s.
Proof. induction 1; [done|]. by apply login_step_inv. Qed.

Lemma login_run_reachable s evs : login_reachable s -> login_reachable (login_run s evs).
Proof. revert s. induction evs as [|e evs IH]; intros s Hs; [done|]. apply IH. by constructor. Qed.

(** C22: In every reachable state of the login page, a sign-in is pending
    exactly while [isLoading] disables the buttons, and never more than
    one: the disabled submit button is the only guard, and [handleLogin]'s
    [finally] clears the flag once its call resolves, on every branch. *)
Theorem login_loading_inv s :
  login_reachable s -> signins (pending s) = if isLoading s then 1%nat else 0%nat.
Proof. apply login_reachable_inv. Qed.

Lemma login_reachable_run evs : login_reachable (login_run initialLogin evs).
Proof. apply login_run_reachable. constructor. Qed.

(** When the [k]-th pending call is a sign-in, its answer re-enables the
    form and removes the call; a failure shows the server's message, a
    rejected promise the generic message, and only a success navigates, to
    [/admin]. *)
Theorem login_resolve_outcome s k em pw r :
  pending s !! k = Some (SignInWithPassword em pw) ->
  let s' := login_step s (Resolve k r) in
  isLoading s' = false /\ pending s' = delete k (pending s) /\
  match r with
  | AuthFailed m => error s' = m /\ pushed s' = pushed s
  | AuthSucceeded => error s' = error s /\ pushed s' = (pushed s ++ ["/admin"])%list
  | AuthRejected => error s' = unexpected_error /\ pushed s' = pushed s
  end.
Proof. intros Hk. simpl. rewrite Hk. by destruct r. Qed.

Lemma login_step_pushed s e :
  Forall (eq "/admin") (pushed s) -> Forall (eq "/admin") (pushed (login_step s e)).
Proof.
  intros H. destruct e as [v|v| | | |k r]; simpl; try by destruct (showReset s).
  - by destruct (isLoading s), (showReset s), (email_valid (email s)), (login_form_valid s).
  - destruct (pending s !! k) as [req|]; [|done].
    destruct (resume_pushed req r (set_pending (delete k (pending s)) s)) as [->| ->]; [done|].
    apply Forall_app; split; [done|]. by constructor.
Qed.

(** C23: Every route the login page navigates to, in every reachable state,
    renders the not-found page: [router.push('/admin')] names a route no
    [page.tsx] serves (the admin panel is [/admin/controls]). *)
Theorem login_lands_not_found s :
  login_reachable s -> forall r, r ∈ pushed s -> resolve_route r = NotFound.
Proof.
  intros Hs. assert (Forall (eq "/admin") (pushed s)) as H.
  { induction Hs; [constructor|]. by apply login_step_pushed. }
  intros r Hr. rewrite Forall_forall in H. rewrite <- (H r Hr). vm_compute. reflexivity.
Qed.

(** In every reachable state the reset form's button reads
    "Sending..." exactly while a sign-in is pending: the label and the
    [disabled] flag of the reset form follow the sign-in, never a reset. *)
Theorem reset_label_signin s :
  login_reachable s -> resetButtonLabel s = "Sending..." <-> signins (pending s) = 1%nat.
Proof.
  intros Hs. pose proof (login_reachable_inv s Hs) as Hinv. unfold login_inv in Hinv.
  unfold resetButtonLabel. rewrite Hinv. by destruct (isLoading s).
Qed.

(** With the reset form shown, a submit starts a reset whatever is in
    flight. *)
Lemma submit_reset s :
  showReset s = true -> isLoading s = false -> email_valid (email s) = true ->
  login_step s Submit = handleReset_start origin s.
Proof. intros Hs Hl He. simpl. by rewrite Hl, Hs, He. Qed.

Lemma submit_resets s n :
  showReset s = true -> isLoading s = false -> email_valid (email s) = true ->
  let s' := login_run s (repeat Submit n) in
  pending s' = (pending s ++ repeat (ResetPasswordForEmail (email s) (origin ++ "/login")) n)%list /\
  isLoading s' = false.
Proof.
  cbv zeta. revert s. induction n as [|n IH]; intros s Hs Hl He; [by rewrite app_nil_r|].
  change (login_run s (repeat Submit (S n))) with (login_run (login_step s Submit) (repeat Submit n)).
  rewrite submit_reset by done. destruct (IH (handleReset_start origin s)) as [Hp Hl']; [done..|].
  split; [|done]. rewrite Hp. simpl. by rewrite <- app_assoc.
Qed.

(** C24: [handleReset] never sets [isLoading], so from every reachable state
    showing the reset form with the buttons enabled, [n] submits put [n]
    resets in flight at once; and whenever one pending reset succeeds and
    then another fails, the form shows "Password reset email sent!" and
    the second call's error together. *)
Theorem reset_double_submit s n :
  login_reachable s -> showReset s = true -> isLoading s = false -> email_valid (email s) = true ->
  let s' := login_run s (repeat Submit n) in
  (pending s' = (pending s ++ repeat (ResetPasswordForEmail (email s) (origin ++ "/login")) n)%list /\
   isLoading s' = false) /\
  (forall k k' e r e' r' m,
     pending s' !! k = Some (ResetPasswordForEmail e r) ->
     let t1 := login_step s' (Resolve k AuthSucceeded) in
     pending t1 !! k' = Some (ResetPasswordForEmail e' r') ->
     let t2 := login_step t1 (Resolve k' (AuthFailed m)) in
     resetSent t2 = true /\ error t2 = m /\ isLoading t2 = false).
Proof.
  intros _ Hs Hl He s'. split; [by apply submit_resets|].
  intros k k' e r e' r' m Hk t1 Hk' t2. subst t2. simpl. rewrite Hk'. subst t1. simpl. rewrite Hk. simpl.
  split_and!; [done|done|]. subst s'. by destruct (submit_resets s n Hs Hl He) as [_ ->].
Qed.

End Form.

(** ** Witnesses *)

Lemma login_loading_inv_witness :
  signins (pending (login_run accept_all demo_origin initialLogin signin_evs)) = 1%nat.
Proof.
  refine (eq_trans (login_loading_inv accept_all demo_origin _ (login_reachable_run _ _ _)) _).
  reflexivity.
Defined.

Lemma login_resolve_outcome_witness :
  let s := login_run accept_all demo_origin initialLogin signin_evs in
  pushed (login_step accept_all demo_origin s (Resolve 0 AuthSucceeded)) = (pushed s ++ ["/admin"])%list.
Proof.
  exact (proj2 (proj2 (proj2 (login_resolve_outcome accept_all demo_origin (login_run accept_all demo_origin initialLogin signin_evs) 0 "x@y.z" "pw" AuthSucceeded eq_refl)))).
Defined.

Lemma login_lands_not_found_witness : resolve_route "/admin" = NotFound.
Proof.
  apply (login_lands_not_found accept_all demo_origin
           (login_run accept_all demo_origin initialLogin (signin_evs ++ [Resolve 0 AuthSucceeded])));
    [apply login_reachable_run|].
  apply list_elem_of_In. simpl. auto.
Defined.

Lemma reset_label_signin_witness :
  resetButtonLabel (login_run accept_all demo_origin initialLogin (signin_evs ++ [ClickForgot])) = "Sending...".
Proof. apply (proj2 (reset_label_signin accept_all demo_origin _ (login_reachable_run _ _ _))). reflexivity. Defined.

Lemma reset_double_submit_witness :
  let s := login_run accept_all demo_origin initialLogin [ClickForgot; TypeEmail "x@y.z"] in
  pending (login_run accept_all demo_origin s (repeat Submit 2)) =
    [ResetPasswordForEmail "x@y.z" "https://example.org/login"; ResetPasswordForEmail "x@y.z" "https://example.org/login"].
Proof.
  refine (eq_trans (proj1 (proj1 (reset_double_submit accept_all demo_origin
            (login_run accept_all demo_origin initialLogin [ClickForgot; TypeEmail "x@y.z"]) 2
            (login_reachable_run _ _ _) eq_refl eq_refl eq_refl))) _).
  reflexivity.
Defined.

End LoginPage.
