(* ===== verification/ApiTester.v ===== *)
(** * The Supabase API tester: [app/test-supabase/page.tsx]

    Two buttons, never disabled, start a [select("*").limit(5)] or an
    [insert({ first_name: "TestUser", is_anonymous: true }).select()] on
    [attendees].  As in [Login], each handler is split at its [await]: the
    synchronous part sets [loading] and clears [error] and appends the query
    to [pending]; [TesterResolve k r] answers the [k]-th pending query, in
    any order, and runs the rest: the result cell is set to [data] (which
    supabase-js makes [null] on an error), the error is shown if there is
    one, and [loading] is cleared.  Rows are left abstract ([Row]).

    The theorems: in every reachable state [loading] is only set while a
    query is pending and each click starts one more query, but with two
    queries in flight the answer to either clears it while the other is
    still pending; a failed query erases the previous result of its
    button. *)

From S2P Require Import Prelude.

Open Scope string_scope.

Module SupabaseApiTester.

(** The row the insert sends (lines 24-27). *)
Record AttendeeInsert := mkAttendeeInsert {
  first_name : string;
  is_anonymous : bool
}.

Definition testUser : AttendeeInsert := mkAttendeeInsert "TestUser" true.

Inductive Query :=
| SelectAttendees (limit : nat)
| InsertAttendee (row : AttendeeInsert).

Section Tester.
Context {Row : Type}.

(** What an awaited query gives: [{ data: null, error }] or
    [{ data: rows, error: null }]. *)
Inductive QueryResult :=
| QueryError (message : string)
| QueryRows (rows : list Row).

Definition result_data (r : QueryResult) : option (list Row) :=
  match r with QueryError _ => None | QueryRows rows => Some rows end.

Definition result_error (r : QueryResult) : option string :=
  match r with QueryError m => Some m | QueryRows _ => None end.

(** The four [useState] cells (lines 7-10) and the pending queries. *)
Record TesterState := mkTesterState {
  selectResult : option (list Row);
  insertResult : option (list Row);
  loading : bool;
  error : option string;
  pending : list Query
}.

Definition setSelectResult (v : option (list Row)) (s : TesterState) : TesterState :=
  mkTesterState v (insertResult s) (loading s) (error s) (pending s).
Definition setInsertResult (v : option (list Row)) (s : TesterState) : TesterState :=
  mkTesterState (selectResult s) v (loading s) (error s) (pending s).
Definition setLoading (v : bool) (s : TesterState) : TesterState :=
  mkTesterState (selectResult s) (insertResult s) v (error s) (pending s).
Definition setError (v : option string) (s : TesterState) : TesterState :=
  mkTesterState (selectResult s) (insertResult s) (loading s) v (pending s).
Definition set_pending (v : list Query) (s : TesterState) : TesterState :=
  mkTesterState (selectResult s) (insertResult s) (loading s) (error s) v.

Definition initialTester : TesterState := mkTesterState None None false None [].

(** [handleSelect] and [handleInsert] up to their [await] (lines 12-15,
    21-27). *)
Definition handleSelect_start (s : TesterState) : TesterState :=
  set_pending (pending s ++ [SelectAttendees 5]) (setError None (setLoading true s)).

Definition handleInsert_start (s : TesterState) : TesterState :=
  set_pending (pending s ++ [InsertAttendee testUser]) (setError None (setLoading true s)).

(** The rest of either handler (lines 16-18, 28-30). *)
Definition query_resolve (q : Query) (r : QueryResult) (s : TesterState) : TesterState :=
  let s := match q with
           | SelectAttendees _ => setSelectResult (result_data r) s
           | InsertAttendee _ => setInsertResult (result_data r) s
           end in
  let s := match result_error r with Some m => setError (Some m) s | None => s end in
  setLoading false s.

Inductive TesterEvent :=
| ClickSelect
| ClickInsert
| TesterResolve (k : nat) (r : QueryResult).

Definition tester_step (s : TesterState) (e : TesterEvent) : TesterState :=
  match e with
  | ClickSelect => handleSelect_start s
  | ClickInsert => handleInsert_start s
  | TesterResolve k r =>
      match pending s !! k with
      | Some q => query_resolve q r (set_pending (delete k (pending s)) s)
      | None => s
      end
  end.

Definition tester_run (s : TesterState) (evs : list TesterEvent) : TesterState :=
  fold_left tester_step evs s.

Inductive tester_reachable : TesterState -> Prop :=
| tester_reach_init : tester_reachable initialTester
| tester_reach_step s e : tester_reachable s -> tester_reachable (tester_step s e).

(** "Loading..." (line 38) *)
Definition showsLoading (s : TesterState) : bool := loading s.

End Tester.

Arguments QueryResult : clear implicits.
Arguments TesterState : clear implicits.

(** ** Theorems *)

Section TesterTheorems.
Context {Row : Type}.
Implicit Types (s : TesterState Row) (r : QueryResult Row).

Lemma query_resolve_loading q r s : loading (query_resolve q r s) = false.
Proof. done. Qed.

Lemma query_resolve_pending q r s : pending (query_resolve q r s) = pending s.
Proof. unfold query_resolve. by destruct q, (result_error r). Qed.

Lemma tester_run_reachable s evs : tester_reachable s -> tester_reachable (tester_run s evs).
Proof. revert s. induction evs as [|e evs IH]; intros s Hs; [done|]. apply IH. by constructor. Qed.

(** [loading] is only set while a query is pending. *)
Lemma tester_loading_pending s : tester_reachable s -> loading s = true -> pending s <> [].
Proof.
  induction 1 as [|s [| |k r] Hs IH]; simpl; [done| | |].
  - intros _. by destruct (pending s).
  - intros _. by destruct (pending s).
  - destruct (pending s !! k) as [q|]; [|done]. by rewrite query_resolve_loading.
Qed.

Lemma length_delete_lookup {A} (l : list A) k x : l !! k = Some x -> length (delete k l) = pred (length l).
Proof. intros Hk. rewrite length_delete; [lia|done]. Qed.

(** C26: In every reachable state of the API tester, "Loading..." is shown
    only while a query is pending, and each button, never disabled, starts
    one more query and shows it; but once two queries are in flight, the
    answer to either of them hides "Loading..." while the other is still
    pending, whatever the answer. *)
Theorem tester_loading_cleared_early s :
  tester_reachable s ->
  (showsLoading s = true -> pending s <> []) /\
  (forall e, e = ClickSelect \/ e = ClickInsert ->
     showsLoading (tester_step s e) = true /\ length (pending (tester_step s e)) = S (length (pending s))) /\
  (forall k r, (2 <= length (pending s))%nat -> is_Some (pending s !! k) ->
     let s' := tester_step s (TesterResolve k r) in showsLoading s' = false /\ pending s' <> []).
Proof.
  intros Hs. split_and!; [by apply tester_loading_pending| |].
  - intros e [-> | ->]; simpl; rewrite length_app; simpl; split; [done|lia|done|lia].
  - intros k r Hlen [q Hk] s'. subst s'. simpl. rewrite Hk. split; [apply query_resolve_loading|].
    rewrite query_resolve_pending. simpl. intros Hnil.
    apply (f_equal length) in Hnil. rewrite (length_delete_lookup _ _ _ Hk) in Hnil. simpl in Hnil. lia.
Qed.

(** A failed select erases the rows the last select showed, and shows the
    error. *)
Lemma select_error_erases s k n m :
  pending s !! k = Some (SelectAttendees n) ->
  let s' := tester_step s (TesterResolve k (QueryError m)) in
  selectResult s' = None /\ error s' = Some m /\ loading s' = false /\ insertResult s' = insertResult s.
Proof. intros Hk. simpl. by rewrite Hk. Qed.

End TesterTheorems.

(** ** Witnesses *)

Lemma tester_loading_cleared_early_witness :
  showsLoading (tester_step (tester_run (Row := nat) initialTester [ClickSelect; ClickInsert])
                  (TesterResolve 0 (QueryRows []))) = false.
Proof.
  apply (proj2 (proj2 (tester_loading_cleared_early _
           (tester_run_reachable _ _ tester_reach_init))) 0 (QueryRows []));
    [simpl; lia|eexists; reflexivity].
Defined.

End SupabaseApiTester.
