(* ===== verification/Colors.v ===== *)
(** * The Color Resolver: [components/DataVisualization/shared/colorUtils.ts]

    The two theme palettes, the d3 ordinal scales of each category (an
    explicit domain, a range and [.unknown(theme.surface)]), the tenure
    scale whose colours [interpolateRgb] computes between the theme's
    primary and secondary colours, and [getNodeColor], which the Sankey
    render uses for every node and link: the user's colour from the
    settings when there is one, the category's scale otherwise.

    A d3 ordinal scale with [.unknown] set maps a value outside its domain
    to the unknown colour; it does not extend the domain.  Colours are
    strings; [interpolateRgb] parses [#RRGGBB], interpolates each channel
    linearly in [Q] and prints [rgb(r, g, b)] with [Math.round] and the
    clamp to [0, 255] of d3-color. *)

From S2P Require Import Prelude Survey Sankey Settings.
From Stdlib Require Import Ascii Qround Qminmax.
From stdpp Require Import pretty.

Open Scope string_scope.

Record ThemeText := mkText {
  text_primary : string;
  text_secondary : string;
  text_muted : string
}.

Record ThemePalette := mkPalette {
  primary : string;
  secondary : string;
  accent : string;
  background : string;
  surface : string;
  text : ThemeText;
  border : string;
  error : string;
  success : string;
  warning : string
}.

Definition lightTheme : ThemePalette :=
  mkPalette "#0077CC" "#00A3E0" "#FF6B6B" "#FFFFFF" "#F8F9FA"
    (mkText "#1A1A1A" "#6B7280" "#9CA3AF") "#E5E7EB" "#EF4444" "#10B981" "#F59E0B".

Definition darkTheme : ThemePalette :=
  mkPalette "#0088FF" "#00B4FF" "#FF7B7B" "#0A0A0F" "#1A1A1F"
    (mkText "#FFFFFF" "#A0A0A0" "#707070") "#2A2A2F" "#FF4D4D" "#4CAF50" "#FFC107".

Definition getThemeColors (isDarkMode : bool) : ThemePalette :=
  if isDarkMode then darkTheme else lightTheme.

(** ** Ordinal scales *)

(** [scaleOrdinal().domain(d).range(r).unknown(u)] *)
Record OrdinalScale := mkScale {
  sc_domain : list string;
  sc_range : list string;
  sc_unknown : string
}.

(** Applying the scale: the range entry at the value's domain index modulo
    the range's length, the unknown colour outside the domain. *)
Definition apply_scale (sc : OrdinalScale) (x : string) : string :=
  let i := js_indexOf (sc_domain sc) x in
  if (i <? 0)%Z then sc_unknown sc
  else default (sc_unknown sc) (sc_range sc !! (Z.to_nat i mod length (sc_range sc))).

(** ** Colour arithmetic of d3-interpolate and d3-color *)

Definition hex_digit (c : ascii) : option Z :=
  let n := Z.of_nat (nat_of_ascii c) in
  if ((48 <=? n) && (n <=? 57))%Z then Some (n - 48)%Z
  else if ((65 <=? n) && (n <=? 70))%Z then Some (n - 55)%Z
  else if ((97 <=? n) && (n <=? 102))%Z then Some (n - 87)%Z
  else None.

Definition hex_byte (hi lo : ascii) : option Z :=
  h ← hex_digit hi; l ← hex_digit lo; Some (16 * h + l)%Z.

(** [d3.color("#RRGGBB")] *)
Definition parse_hex (s : string) : option (Z * Z * Z) :=
  match s with
  | String "#" (String r1 (String r2 (String g1 (String g2 (String b1 (String b2 EmptyString)))))) =>
      r ← hex_byte r1 r2; g ← hex_byte g1 g2; b ← hex_byte b1 b2; Some (r, g, b)
  | _ => None
  end.

(** [Math.round]: the nearest integer, halves upward. *)
Definition js_round (q : Q) : Z := Qfloor (q + (1 # 2)).

(** d3-color's [clampi]. *)
Definition clampi (q : Q) : Z := Z.max 0 (Z.min 255 (js_round q)).

Definition lerp (a b : Z) (t : Q) : Q := inject_Z a + t * inject_Z (b - a).

(** [interpolateRgb(a, b)(t) + ""] for two [#RRGGBB] colours (gamma 1, so
    each channel is linear); an unparsable colour has [NaN] channels,
    which [clampi] prints as 0. *)
Definition interpolateRgb (a b : string) (t : Q) : string :=
  let '(r1, g1, b1) := default (0, 0, 0)%Z (parse_hex a) in
  let '(r2, g2, b2) := default (0, 0, 0)%Z (parse_hex b) in
  ("rgb(" ++ pretty (clampi (lerp r1 r2 t)) ++ ", " ++ pretty (clampi (lerp g1 g2 t)) ++ ", "
    ++ pretty (clampi (lerp b1 b2 t)) ++ ")")%string.

(** ** The category scales *)

Definition getYearsColorScale (isDarkMode : bool) : OrdinalScale :=
  let theme := getThemeColors isDarkMode in
  let step t := interpolateRgb (primary theme) (secondary theme) t in
  mkScale years_keys [step (1 # 5); step (2 # 5); step (3 # 5); step (4 # 5); step 1%Q] (surface theme).

Definition getLearningStyleColors (isDarkMode : bool) : OrdinalScale :=
  mkScale ["visual"; "auditory"; "kinesthetic"; "reading_writing"]
    (if isDarkMode then ["#FF8A8A"; "#6EDCD4"; "#65C7F1"; "#B6DEC4"]
     else ["#FF6B6B"; "#4ECDC4"; "#45B7D1"; "#96CEB4"])
    (surface (getThemeColors isDarkMode)).

Definition getShapedByColors (isDarkMode : bool) : OrdinalScale :=
  mkScale shaped_keys
    (if isDarkMode then ["#FF8A8A"; "#6EDCD4"; "#65C7F1"; "#B6DEC4"; "#FFB83C"]
     else ["#FF6B6B"; "#4ECDC4"; "#45B7D1"; "#96CEB4"; "#FF9F1C"])
    (surface (getThemeColors isDarkMode)).

Definition getPeakPerformanceColors (isDarkMode : bool) : OrdinalScale :=
  mkScale peak_keys
    (if isDarkMode then ["#FFD486"; "#26E6C0"; "#2AA2D2"; "#1A5B7C"; "#FF8A8A"]
     else ["#FFD166"; "#06D6A0"; "#118AB2"; "#073B4C"; "#FF6B6B"])
    (surface (getThemeColors isDarkMode)).

Definition getMotivationColors (isDarkMode : bool) : OrdinalScale :=
  mkScale motivation_keys
    (if isDarkMode then ["#FF8A8A"; "#6EDCD4"; "#65C7F1"; "#B6DEC4"; "#FFB83C"]
     else ["#FF6B6B"; "#4ECDC4"; "#45B7D1"; "#96CEB4"; "#FF9F1C"])
    (surface (getThemeColors isDarkMode)).

(** The scale of a category, for the five categories [getNodeColor] knows. *)
Definition category_scale (category : string) (isDarkMode : bool) : option OrdinalScale :=
  if String.eqb category "years_at_medtronic" then Some (getYearsColorScale isDarkMode)
  else if String.eqb category "learning_style" then Some (getLearningStyleColors isDarkMode)
  else if String.eqb category "peak_performance" then Some (getPeakPerformanceColors isDarkMode)
  else if String.eqb category "motivation" then Some (getMotivationColors isDarkMode)
  else if String.eqb category "shaped_by" then Some (getShapedByColors isDarkMode)
  else None.

(** [a || b] on strings: the empty string is falsy. *)
Definition js_or_str (a : option string) (b : string) : string :=
  match a with Some x => if String.eqb x "" then b else x | None => b end.

(** [getNodeColor(node, globalColors, isDarkMode)]: the chain of [if]s on
    [node.category], each [globalColors[category]?.[node.name] ||
    scale(node.name)], and the theme's primary colour for any other
    category (the dummy nodes). *)
Definition getNodeColor (node : SNode) (globalColors : CategoryColors) (isDarkMode : bool) : string :=
  match category_scale (node_category node) isDarkMode with
  | Some sc => js_or_str (color_of globalColors (node_category node) (node_name node))
                 (apply_scale sc (node_name node))
  | None => primary (getThemeColors isDarkMode)
  end.

(** ** Accessibility helpers (lines 159-178) *)

Definition is_digit (c : ascii) : bool :=
  let n := nat_of_ascii c in ((48 <=? n) && (n <=? 57))%nat.

(** The current run of digits, emitted when it is not empty. *)
Definition flush (cur : string) : list string := if String.eqb cur "" then [] else [cur].

(** [color.match(/\d+/g)]: the maximal runs of decimal digits, in order
    ([[]] for [null], which [|| [0, 0, 0]] replaces). *)
Fixpoint digit_runs_go (cur : string) (s : string) : list string :=
  match s with
  | EmptyString => flush cur
  | String c r =>
      if is_digit c then digit_runs_go (cur ++ String c EmptyString) r
      else flush cur ++ digit_runs_go "" r
  end.

Definition digit_runs (s : string) : list string := digit_runs_go "" s.

(** [Number(run)] on a run of digits: its decimal value. *)
Fixpoint decimal_go (acc : Z) (s : string) : Z :=
  match s with
  | EmptyString => acc
  | String c r => decimal_go (10 * acc + (Z.of_nat (nat_of_ascii c) - 48)) r
  end.

Definition js_Number (run : string) : Z := decimal_go 0 run.

(** [.map(Number) || [0, 0, 0]] *)
Definition rgb_of (color : string) : list Z :=
  match digit_runs color with [] => [0; 0; 0]%Z | runs => map js_Number runs end.

(** [getLuminance]: the sRGB transfer of each channel and the weighted
    sum; [Math.pow] with the real exponent 2.4 is the parameter [pow].  A
    colour with fewer than three runs destructures [b] (or [g]) as
    [undefined], and the luminance is [NaN], here [None]. *)
Definition getLuminance (pow : Q -> Q -> Q) (color : string) : option Q :=
  let chan (c : Z) :=
    let c := (inject_Z c / 255)%Q in
    if Qle_bool c (3928 # 100000) then (c / (1292 # 100))%Q else pow ((c + (55 # 1000)) / (1055 # 1000))%Q (24 # 10) in
  match map chan (rgb_of color) with
  | r :: g :: b :: _ => Some ((2126 # 10000) * r + (7152 # 10000) * g + (722 # 10000) * b)%Q
  | _ => None
  end.

(** [getContrastRatio]; [NaN] propagates through [Math.max]/[Math.min]. *)
Definition getContrastRatio (pow : Q -> Q -> Q) (foreground background : string) : option Q :=
  l1 ← getLuminance pow foreground; l2 ← getLuminance pow background;
  Some ((Qmax l1 l2 + (5 # 100)) / (Qmin l1 l2 + (5 # 100)))%Q.

(** [isAccessible]: [NaN >= 4.5] is false. *)
Definition isAccessible (pow : Q -> Q -> Q) (foreground background : string) : bool :=
  match getContrastRatio pow foreground background with
  | Some r => Qle_bool (9 # 2) r
  | None => false
  end.

(** A string of decimal digits only. *)
Fixpoint all_digits (s : string) : bool :=
  match s with EmptyString => true | String c r => is_digit c && all_digits r end.

(** ** The remaining helpers (lines 131-135 and 180-219) *)

(** [interpolateColors(color1, color2, t)] *)
Definition interpolateColors (color1 color2 : string) (t : Q) : string := interpolateRgb color1 color2 t.

(** [scaleSequential(interpolateRgb(primary, secondary)).domain([0, 1])]:
    on the domain [0, 1] the scale is the interpolator itself, and outside
    it the interpolator extrapolates (d3's default is no clamping), each
    channel then clamped by [clampi]. *)
Definition getSequentialColorScale (isDarkMode : bool) : Q -> string :=
  let theme := getThemeColors isDarkMode in
  fun x => interpolateRgb (primary theme) (secondary theme) ((x - 0) / (1 - 0)).

Record ColorRole := mkRole { role_default : string; role_hover : string; role_selected : string }.

Record ColorConstants := mkConstants {
  cc_node : ColorRole;
  cc_edge : ColorRole;
  cc_text : ThemeText;
  cc_background : string * string   (** [{ default, surface }] *)
}.

(** [getColorConstants(isDarkMode)] *)
Definition getColorConstants (isDarkMode : bool) : ColorConstants :=
  let theme := getThemeColors isDarkMode in
  mkConstants (mkRole (surface theme) (secondary theme) (primary theme))
    (mkRole (border theme) (secondary theme) (primary theme))
    (mkText (text_primary (text theme)) (text_secondary (text theme)) (text_muted (text theme)))
    (background theme, surface theme).

(** The deprecated light-mode exports (lines 211-219). *)
Definition colorConstants : ColorConstants := getColorConstants false.
Definition sequentialColorScale : Q -> string := getSequentialColorScale false.
Definition yearsColorScale : OrdinalScale := getYearsColorScale false.

(** ** Lemmas *)

Lemma apply_scale_unknown sc x : x ∉ sc_domain sc -> apply_scale sc x = sc_unknown sc.
Proof.
  intros Hx. unfold apply_scale. rewrite js_indexOf_absent by done. done.
Qed.

Lemma category_scale_unknown category isDarkMode sc :
  category_scale category isDarkMode = Some sc -> sc_unknown sc = surface (getThemeColors isDarkMode).
Proof. unfold category_scale. repeat case_match; intros [= <-]; done. Qed.

(** The fallback for an answer the settings do not colour: a value
    outside its category's scale domain is drawn in the theme's surface
    colour (the panel background's near twin), not in a colour of the
    category's palette. *)
Theorem getNodeColor_unknown_answer node globalColors isDarkMode sc :
  category_scale (node_category node) isDarkMode = Some sc ->
  color_of globalColors (node_category node) (node_name node) = None ->
  node_name node ∉ sc_domain sc ->
  getNodeColor node globalColors isDarkMode = surface (getThemeColors isDarkMode).
Proof.
  intros Hsc Hc Hd. unfold getNodeColor. rewrite Hsc, Hc. simpl.
  rewrite apply_scale_unknown by done. by apply (category_scale_unknown (node_category node)).
Qed.

(** A colour the user picked wins: for the five categories, a
    non-empty colour in the settings is the node's colour. *)
Theorem getNodeColor_override node globalColors isDarkMode sc c :
  category_scale (node_category node) isDarkMode = Some sc ->
  color_of globalColors (node_category node) (node_name node) = Some c -> c <> "" ->
  getNodeColor node globalColors isDarkMode = c.
Proof.
  intros Hsc Hc Hne. unfold getNodeColor. rewrite Hsc, Hc. simpl.
  destruct (String.eqb_spec c ""); done.
Qed.

(** The mock data's [shaped_by] answer ["success"] is outside the scale's
    domain and has no default colour: it is drawn in [#F8F9FA]. *)
Lemma getNodeColor_unknown_answer_witness :
  getNodeColor (mkNode "shaped_by:success" "success" "shaped_by")
    (getCurrentThemeColors defaultSettings) false = "#F8F9FA".
Proof.
  apply (getNodeColor_unknown_answer _ _ false (getShapedByColors false)); [reflexivity|reflexivity|].
  unfold getShapedByColors, shaped_keys. simpl. set_solver.
Defined.

Lemma getNodeColor_override_witness :
  getNodeColor (mkNode "learning_style:visual" "visual" "learning_style")
    (getCurrentThemeColors defaultSettings) false = "#FF6B6B".
Proof.
  apply (getNodeColor_override _ _ false (getLearningStyleColors false)); [reflexivity|reflexivity|discriminate].
Defined.

(** ** Reading back printed channels *)

Lemma digit_runs_go_digits cur d s :
  all_digits d = true -> digit_runs_go cur (d ++ s) = digit_runs_go (cur ++ d) s.
Proof.
  revert cur. induction d as [|c d IH]; intros cur Hd; simpl.
  - by rewrite string_app_nil_r.
  - apply andb_true_iff in Hd as [Hc Hd]. rewrite Hc, IH by done. by rewrite string_app_assoc.
Qed.

(** A run of digits between non-digits is one match. *)
Lemma digit_runs_go_run d c s :
  all_digits d = true -> d <> "" -> is_digit c = false ->
  digit_runs_go "" (d ++ String c s) = d :: digit_runs_go "" s.
Proof.
  intros Hd Hne Hc. rewrite digit_runs_go_digits by done. change ("" ++ d) with d. simpl. rewrite Hc.
  unfold flush. by destruct (String.eqb_spec d "").
Qed.

(** The decimal printing of a byte is a non-empty run of digits that
    [Number] reads back. *)
Lemma pretty_byte_check :
  forallb (fun n => let p := pretty (Z.of_nat n) in
             all_digits p && negb (String.eqb p "") && Z.eqb (js_Number p) (Z.of_nat n)) (seq 0 256) = true.
Proof. vm_compute. reflexivity. Qed.

Lemma pretty_byte z :
  (0 <= z <= 255)%Z -> all_digits (pretty z) = true /\ pretty z <> "" /\ js_Number (pretty z) = z.
Proof.
  intros Hz. pose proof pretty_byte_check as H. rewrite forallb_forall in H.
  specialize (H (Z.to_nat z) ltac:(apply in_seq; lia)). rewrite Z2Nat.id in H by lia. cbv zeta in H.
  apply andb_true_iff in H as [H Heq]. apply andb_true_iff in H as [Hd Hne].
  apply negb_true_iff, String.eqb_neq in Hne. split_and!; [done|done|by apply Z.eqb_eq].
Qed.

Lemma clampi_byte q : (0 <= clampi q <= 255)%Z.
Proof. unfold clampi. lia. Qed.

Lemma digit_runs_rgb_prefix s : digit_runs_go "" ("rgb(" ++ s) = digit_runs_go "" s.
Proof. reflexivity. Qed.

Lemma digit_runs_comma d s :
  all_digits d = true -> d <> "" -> digit_runs_go "" (d ++ ", " ++ s) = d :: digit_runs_go "" s.
Proof.
  intros Hd Hne. rewrite digit_runs_go_digits by done. change ("" ++ d) with d.
  change (", " ++ s) with (String "," (String " " s)). simpl.
  unfold flush. by destruct (String.eqb_spec d "").
Qed.

Lemma digit_runs_close d : all_digits d = true -> d <> "" -> digit_runs_go "" (d ++ ")") = [d].
Proof.
  intros Hd Hne. rewrite digit_runs_go_digits by done. change ("" ++ d) with d. simpl.
  unfold flush. by destruct (String.eqb_spec d "").
Qed.

(** C35: [getContrastRatio]'s reader is the inverse of [interpolateRgb]'s
    printer: the digit runs of an interpolated colour [rgb(r, g, b)] are
    read back as exactly the three channels it printed. *)
Theorem interpolateRgb_roundtrip a b t r1 g1 b1 r2 g2 b2 :
  parse_hex a = Some (r1, g1, b1) -> parse_hex b = Some (r2, g2, b2) ->
  rgb_of (interpolateRgb a b t) = [clampi (lerp r1 r2 t); clampi (lerp g1 g2 t); clampi (lerp b1 b2 t)].
Proof.
  intros Ha Hb. unfold interpolateRgb. rewrite Ha, Hb. simpl.
  destruct (pretty_byte (clampi (lerp r1 r2 t))) as (Hd1 & Hn1 & Hv1); [apply clampi_byte|].
  destruct (pretty_byte (clampi (lerp g1 g2 t))) as (Hd2 & Hn2 & Hv2); [apply clampi_byte|].
  destruct (pretty_byte (clampi (lerp b1 b2 t))) as (Hd3 & Hn3 & Hv3); [apply clampi_byte|].
  unfold rgb_of, digit_runs. rewrite digit_runs_rgb_prefix, !digit_runs_comma, digit_runs_close by done.
  simpl. by rewrite Hv1, Hv2, Hv3.
Qed.

(** [isAccessible] misreads the [#RRGGBB] colours the themes use: it
    takes the decimal digit runs of the hex string for channels, so white
    on black, and the light theme's primary text on its background, are
    reported inaccessible whatever [Math.pow] gives. *)
Theorem isAccessible_hex_misread pow :
  isAccessible pow "#FFFFFF" "#000000" = false /\
  isAccessible pow (text_primary (text lightTheme)) (background lightTheme) = false.
Proof. vm_compute. split; reflexivity. Qed.

(** The tenure scale's first colour is read back as its channels. *)
Lemma interpolateRgb_roundtrip_witness :
  rgb_of (interpolateRgb (primary lightTheme) (secondary lightTheme) (1 # 5)) = [0; 128; 208]%Z.
Proof.
  rewrite (interpolateRgb_roundtrip _ _ _ 0 119 204 0 163 224) by reflexivity.
  vm_compute. reflexivity.
Defined.
