(* ===== verification/Chord.v ===== *)
(** * The chord diagram: [components/DataVisualization/ChordDiagram.tsx]

    The render effect of the main chord (lines 333-659) turns the records
    into two half circles of arcs and ribbons between them:
    - the arcs of each side are laid out from [leftValues]/[rightValues]:
      the five tenure bands in band order, or the distinct non-empty
      answers in first-occurrence order;
    - the connection matrix is indexed by [sourceArray]/[targetArray]: the
      sorted distinct categories, where a missing answer is ['Unknown'];
    - a ribbon joins [leftArcs[i]] and [rightArcs[j]] for every non-zero
      cell [(i, j)] of the matrix.
    Angles are in units of pi (every angle the code computes is a rational
    multiple of [Math.PI]).  Also the secondary tenure/peak-performance
    chord (lines 100-149), [ensureDifferentCategories] (lines 253-260) and
    the chord's own [getNodeColor] (lines 35-56).

    The effect's early return (no [<svg>], no records, loading, a
    container too small) is [chordRenderEffect]; [renderChord] is the body
    after it.  The cycling effect reads [cyclingModes] from
    [./shared/chordUtils], a module that is not in the repository; it is
    not modelled. *)

From S2P Require Import Prelude Survey Categories Settings.
From stdpp Require Import pretty.

Open Scope string_scope.

(** ** The records of the chord *)

(** [settings.useTestData ? data : data.filter(item => !item.test_data)] *)
Definition chordData (useTestData : bool) (data : list SurveyResponse) : list SurveyResponse :=
  if useTestData then data else List.filter (fun d => negb (test_data d)) data.

Definition YEARS_GROUPS : list string := YEARS_CATEGORIES.

Definition is_years_field (f : Field.t) : bool := bool_decide (f = Field.years_at_medtronic).

(** [leftValues] / [rightValues] (lines 358-363). *)
Definition sideValues (fd : list SurveyResponse) (f : Field.t) : list string :=
  if is_years_field f then YEARS_GROUPS else distinct_values fd f.

(** The category a record adds to [sourceCategories] (lines 372-382):
    the band, or [d[field] || 'Unknown']. *)
Definition category_key (f : Field.t) (d : SurveyResponse) : string :=
  match f with
  | Field.years_at_medtronic => getYearsCategory (or_zero (years_at_medtronic d))
  | _ => match string_field f d with
         | Some s => if String.eqb s "" then "Unknown" else s
         | None => "Unknown"
         end
  end.

(** [Array.from(sourceCategories).sort()] (lines 385-386). *)
Definition categoryArray (fd : list SurveyResponse) (f : Field.t) : list string :=
  js_sort (array_from_set (map (category_key f) fd)).

(** [filteredData.filter(d => value(d) === cat).length]: [value] is the band
    for tenure and the raw answer otherwise, which is [accessor]. *)
Definition count_cat (fd : list SurveyResponse) (f : Field.t) (cat : string) : nat :=
  length (List.filter (fun d => bool_decide (accessor f d = Some cat)) fd).

(** [leftTotals.reduce((sum, val) => sum + val, 0)] *)
Definition totalSum (fd : list SurveyResponse) (f : Field.t) : nat :=
  sum_list (map (count_cat fd f) (categoryArray fd f)).

(** [connectionMatrix] (lines 410-422). *)
Definition connectionMatrix (fd : list SurveyResponse) (cs ct : Field.t) : list (list nat) :=
  map (fun sc => map (fun tc =>
         length (List.filter (fun d => bool_decide (accessor cs d = Some sc /\ accessor ct d = Some tc)) fd))
       (categoryArray fd ct))
    (categoryArray fd cs).

(** ** Arc layout *)

Definition arcGap : Q := 12 # 100.
Definition minArcSpacing : Q := 2 # 100.
Definition leftStart : Q := 1 + arcGap.
Definition leftEnd : Q := 2 - arcGap.
Definition rightStart : Q := arcGap.
Definition rightEnd : Q := 1 - arcGap.
Definition arcSpanTotal : Q := 1 - 2 * arcGap.

(** The chord's own [getNodeColor] (lines 35-56): the theme's colour map,
    then a fixed colour per category. *)
Definition chordGetNodeColor (nodeName : string) (category : Field.t) (globalColors : ThemeAwareColors)
    (isDarkMode : bool) : string :=
  let themeColors := if isDarkMode then dark globalColors else light globalColors in
  let pick fallback :=
    match color_of themeColors (Field.name category) nodeName with
    | Some c => if String.eqb c "" then fallback else c
    | None => fallback
    end in
  match category with
  | Field.years_at_medtronic => pick "#FF6B6B"
  | Field.learning_style => pick "#60a5fa"
  | Field.peak_performance => pick "#4F8EF7"
  | Field.motivation => pick "#9467bd"
  | Field.shaped_by => pick "#1f77b4"
  end.

Record Arc := mkArc {
  arc_name : string;
  arc_value : nat;
  startAngle : Q;
  endAngle : Q;
  arc_color : string;
  arc_opacity : Q
}.

(** The span of one arc: equal shares for tenure, otherwise the count's
    share of [availableSpan], at least [minArcSpacing]; [total || 1]. *)
Definition arcSpan (years : bool) (n count total : nat) (availableSpan : Q) : Q :=
  if years then availableSpan / inject_Z (Z.of_nat n)
  else Qmax minArcSpacing
         (availableSpan * (inject_Z (Z.of_nat count) / inject_Z (Z.of_nat (if Nat.eqb total 0 then 1 else total)))).

(** The [values.map] with the running [angle] (lines 448-469 and 472-493).
    [Qred] only normalises the fraction: the angle is the same rational. *)
Fixpoint layoutArcs (fd : list SurveyResponse) (f : Field.t) (colors : ThemeAwareColors) (isDarkMode : bool)
    (n total : nat) (availableSpan : Q) (angle : Q) (values : list string) : list Arc :=
  match values with
  | [] => []
  | v :: vs =>
      let count := count_cat fd f v in
      let span := arcSpan (is_years_field f) n count total availableSpan in
      mkArc v count angle (Qred (angle + span)) (chordGetNodeColor v f colors isDarkMode)
        (if Nat.eqb count 0 then 15 # 100 else 8 # 10)
      :: layoutArcs fd f colors isDarkMode n total availableSpan (Qred (angle + span + minArcSpacing)) vs
  end.

(** [leftArcs] from [leftStart], [rightArcs] from [rightStart]. *)
Definition sideArcs (fd : list SurveyResponse) (f : Field.t) (colors : ThemeAwareColors) (isDarkMode : bool)
    (start : Q) : list Arc :=
  let values := sideValues fd f in
  let n := length values in
  let availableSpan := (arcSpanTotal - minArcSpacing * inject_Z (Z.of_nat n - 1))%Q in
  layoutArcs fd f colors isDarkMode n (totalSum fd f) availableSpan start values.

(** ** Ribbons *)

Record Connection := mkConnection {
  conn_i : nat;
  conn_j : nat;
  conn_value : nat;
  conn_left : Arc;
  conn_right : Arc
}.

(** The non-zero cells in the order of the nested [for] loops. *)
Definition cells (matrix : list (list nat)) : list (nat * nat * nat) :=
  concat (imap (fun i row => omap (fun '(j, v) => if Nat.ltb 0 v then Some (i, j, v) else None)
                                 (imap pair row)) matrix).

(** [connections]: [leftArcs[i].startAngle] throws a [TypeError] when
    [leftArcs[i]] is [undefined]; [None] is that exception. *)
Definition connections (matrix : list (list nat)) (leftArcs rightArcs : list Arc) : option (list Connection) :=
  mapM (fun '(i, j, v) =>
          l ← leftArcs !! i; r ← rightArcs !! j; Some (mkConnection i j v l r))
       (cells matrix).

(** The render of the main chord: [None] when it throws. *)
Record ChordView := mkChordView {
  view_left : list Arc;
  view_right : list Arc;
  view_matrix : list (list nat);
  view_connections : list Connection
}.

(** The body of the render effect after its early return (lines 340-770):
    the arcs, the matrix and the ribbons.  The [processChordData] call of
    line 373 is from [shared/chordUtils], a module that is not in the
    repository; its result is never read, so the body is modelled
    without it. *)
Definition renderChord (settings : VisualizationSettings) (data : list SurveyResponse) (cs ct : Field.t)
    : option ChordView :=
  let fd := chordData (useTestData settings) data in
  let leftArcs := sideArcs fd cs (categoryColors settings) (isDarkMode settings) leftStart in
  let rightArcs := sideArcs fd ct (categoryColors settings) (isDarkMode settings) rightStart in
  let matrix := connectionMatrix fd cs ct in
  conns ← connections matrix leftArcs rightArcs;
  Some (mkChordView leftArcs rightArcs matrix conns).

(** [isContainerTooSmall] (lines 331-334): the chart area without the
    margins is under 200 pixels in either direction. *)
Definition isContainerTooSmall (width height : Q) : bool :=
  negb (Qle_bool 200 (width - 80 - 80)) || negb (Qle_bool 200 (height - 80 - 100)).

(** The render effect (lines 337-338): nothing is drawn ([None]) without
    the [<svg>], without records, while loading or in a container too
    small; otherwise the body runs, [Some None] when it throws. *)
Definition chordRenderEffect (svgMounted isLoading : bool) (width height : Q)
    (settings : VisualizationSettings) (data : list SurveyResponse) (cs ct : Field.t) : option (option ChordView) :=
  if negb svgMounted || Nat.eqb (length data) 0 || isLoading || isContainerTooSmall width height then None
  else Some (renderChord settings data cs ct).

(** The insights: [totalConnections] and the first strongest connection. *)
Definition totalConnections (conns : list Connection) : nat := sum_list (map conn_value conns).

Definition strongestConnection (conns : list Connection) : option Connection :=
  match conns with
  | [] => None
  | c :: cs => Some (fold_left (fun m d => if Nat.ltb (conn_value m) (conn_value d) then d else m) cs c)
  end.

(** ** The secondary chord (tenure against peak performance) *)

(** [secondaryData]: the records with a truthy [peak_performance]. *)
Definition secondaryData (fd : list SurveyResponse) : list SurveyResponse :=
  List.filter (fun d => match peak_performance d with Some s => negb (String.eqb s "") | None => false end) fd.

(** [peakPerfCategories]: [Array.from(new Set(...)).filter(Boolean).sort()]. *)
Definition peakPerfCategories (sd : list SurveyResponse) : list string :=
  js_sort (distinct_values sd Field.peak_performance).

(** One cell of the bipartite matrix (lines 126-143): zero within the
    tenure block and within the performance block, otherwise the number of
    records with that band and that performance answer. *)
Definition secondaryCell (sd : list SurveyResponse) (si : nat) (sc : string) (ti : nat) (tc : string) : nat :=
  let ny := length YEARS_GROUPS in
  if bool_decide ((si < ny)%nat <-> (ti < ny)%nat) then 0%nat
  else
    let yearsCat := if Nat.ltb si ny then sc else tc in
    let perfCat := if Nat.ltb si ny then tc else sc in
    length (List.filter (fun d => String.eqb (getYearsCategory (or_zero (years_at_medtronic d))) yearsCat &&
                                  bool_decide (peak_performance d = Some perfCat)) sd).

(** The matrix over [allCategories = [...yearsCategories, ...peakPerfCategories]]. *)
Definition secondaryMatrix (sd : list SurveyResponse) : list (list nat) :=
  let allCategories := (YEARS_GROUPS ++ peakPerfCategories sd)%list in
  imap (fun si sc => imap (fun ti tc => secondaryCell sd si sc ti tc) allCategories) allCategories.

(** [if (secondaryData.length < 5) return;] *)
Definition renderSecondary (fd : list SurveyResponse) : option (list (list nat)) :=
  let sd := secondaryData fd in
  if Nat.ltb (length sd) 5 then None else Some (secondaryMatrix sd).

(** ** [ensureDifferentCategories] *)

Definition chordFields : list Field.t := chordAvailableFields.

Definition ensureDifferentCategories (source target : Field.t) : Field.t * Field.t :=
  if bool_decide (source = target) then
    (source, default Field.learning_style (head (List.filter (fun f => negb (bool_decide (f = source))) chordFields)))
  else (source, target).

(** A record answers field [f]: its value there is a non-empty string (a
    band, for tenure). *)
Definition answered (f : Field.t) (d : SurveyResponse) : bool :=
  match accessor f d with Some x => negb (String.eqb x "") | None => false end.

(** Three records whose answers first occur in sorted order. *)
Definition sortedAnswers : list SurveyResponse :=
  [fixture 2 "auditory" "failure" "Ambivert, Morning" "autonomy";
   fixture 7 "kinesthetic" "mentor" "Extrovert, Morning" "growth";
   fixture 12 "visual" "mentor" "Introvert, Night" "impact";
   fixture 9 "auditory" "other" "Ambivert, Morning" "growth"].

(** ** Inputs of the counterexamples *)

(** The mock data and one more record whose [learning_style] is [null]. *)
Definition mockWithMissing : list SurveyResponse :=
  (testChordMockData ++
   [mkResponse "21" "21" (JsNum 3) None (Some "mentor") (Some "Introvert, Night") (Some "growth") 0 false true])%list.

(** Thirty records with thirty different motivations. *)
Definition manyAnswers : list SurveyResponse :=
  map (fun k => fixture 1 "visual" "mentor" "Extrovert, Morning" ("m" ++ pretty k)) (seq 0 30).

(** ** Lemmas *)

Lemma layoutArcs_length fd f colors dark n total avail angle values :
  length (layoutArcs fd f colors dark n total avail angle values) = length values.
Proof. revert angle. induction values; intros; simpl; auto. Qed.

Lemma layoutArcs_names fd f colors dark n total avail angle values :
  map arc_name (layoutArcs fd f colors dark n total avail angle values) = values.
Proof. revert angle. induction values; intros; simpl; f_equal; auto. Qed.

(** With a constant span [s] (the tenure case), the [k]-th arc starts [k]
    steps of [s + minArcSpacing] after the first. *)
Lemma layoutArcs_years fd colors dark n total avail angle values k a :
  layoutArcs fd Field.years_at_medtronic colors dark n total avail angle values !! k = Some a ->
  startAngle a == angle + inject_Z (Z.of_nat k) * (avail / inject_Z (Z.of_nat n) + minArcSpacing) /\
  endAngle a == startAngle a + avail / inject_Z (Z.of_nat n).
Proof.
  revert angle k. induction values as [|v vs IH]; intros angle k; [done|].
  destruct k as [|k]; simpl.
  - intros [= <-]. simpl. rewrite Qred_correct. split; [ring|reflexivity].
  - intros Hk. destruct (IH _ _ Hk) as [Hs He]. split; [|done].
    rewrite Hs, Qred_correct, Nat2Z.inj_succ. unfold Z.succ. rewrite inject_Z_plus. ring.
Qed.

(** With tenure on a side, its five arcs have equal spans, start one
    [minArcSpacing] after the previous arc ends, and fill the half circle
    exactly: the first starts at the side's start, the last ends
    [arcSpanTotal] later. *)
Theorem chord_years_arcs_tile fd colors dark start :
  let arcs := sideArcs fd Field.years_at_medtronic colors dark start in
  let s := ((arcSpanTotal - 4 * minArcSpacing) / 5)%Q in
  length arcs = 5%nat /\
  (forall k a, arcs !! k = Some a ->
     (startAngle a == start + inject_Z (Z.of_nat k) * (s + minArcSpacing))%Q /\ (endAngle a == startAngle a + s)%Q) /\
  (forall a, arcs !! 4%nat = Some a -> (endAngle a == start + arcSpanTotal)%Q).
Proof.
  intros arcs s. unfold arcs, sideArcs. simpl (sideValues _ _). simpl (length YEARS_GROUPS).
  assert (Hs : (arcSpanTotal - minArcSpacing * inject_Z (Z.of_nat 5 - 1)) / inject_Z (Z.of_nat 5) == s)
    by (unfold s, arcSpanTotal, minArcSpacing, arcGap; reflexivity).
  split_and!.
  - by rewrite layoutArcs_length.
  - intros k a Hk. destruct (layoutArcs_years _ _ _ _ _ _ _ _ _ _ Hk) as [H1 H2]. rewrite <- Hs. done.
  - intros a Hk. destruct (layoutArcs_years _ _ _ _ _ _ _ _ _ _ Hk) as [H1 H2].
    rewrite H2, H1, Hs. change (inject_Z (Z.of_nat 4)) with 4%Q.
    unfold s, arcSpanTotal, minArcSpacing, arcGap. field.
Qed.

(** The arcs of a side are not confined to their half circle: with
    thirty different answers every share is below [minArcSpacing], each
    arc is raised to it, and the left side runs past 360 degrees into the
    right side's half ([rightStart] plus a full turn). *)
Theorem chord_arcs_overflow :
  exists a, last (sideArcs manyAnswers Field.motivation (categoryColors defaultSettings) false leftStart) = Some a /\
            (2 + rightStart < endAngle a)%Q.
Proof. vm_compute. eexists. split; [reflexivity|]. vm_compute. reflexivity. Qed.

(** A single record with no answer for the source field makes the
    render throw: ['Unknown'] enters [sourceArray], which is then one
    longer than [leftArcs], and the last non-empty row reads
    [leftArcs[4].startAngle] of [undefined]. *)
Theorem chord_missing_answer_throws :
  renderChord defaultSettings mockWithMissing Field.learning_style Field.shaped_by = None.
Proof. vm_compute. reflexivity. Qed.

(** [ensureDifferentCategories] keeps the source and always returns a
    target different from it, and leaves an already valid pair alone. *)
Theorem ensureDifferentCategories_spec source target :
  (ensureDifferentCategories source target).1 = source /\
  (ensureDifferentCategories source target).2 <> source /\
  (source <> target -> ensureDifferentCategories source target = (source, target)).
Proof.
  unfold ensureDifferentCategories. case_bool_decide as Heq.
  - subst. split_and!; [done| |done]. destruct target; discriminate.
  - split_and!; done.
Qed.

(** ** Ribbons between the right arcs *)

Lemma lookup_map {A B} (f : A -> B) (l : list A) i : map f l !! i = f <$> l !! i.
Proof. revert i. induction l as [|x l IH]; intros [|i]; simpl; auto. Qed.

Lemma imap_pair_elem {A} (row : list A) j v : (j, v) ∈ imap pair row -> row !! j = Some v.
Proof.
  intros Hin. apply list_elem_of_lookup in Hin as [k Hk].
  rewrite list_lookup_imap in Hk. destruct (row !! k) eqn:E; simplify_eq/=. done.
Qed.

(** A cell of the loops is a non-zero entry of the matrix. *)
Lemma cells_elem m i j v :
  (i, j, v) ∈ cells m -> exists row, m !! i = Some row /\ row !! j = Some v /\ (0 < v)%nat.
Proof.
  unfold cells. rewrite list_elem_of_In, in_concat. intros (l & Hl & Hx).
  apply list_elem_of_In in Hl, Hx. apply list_elem_of_lookup in Hl as [i' Hi'].
  rewrite list_lookup_imap in Hi'. destruct (m !! i') as [row|] eqn:Hrow; simplify_eq/=.
  apply list_elem_of_omap in Hx as ([j' v'] & Hjv & Hf).
  destruct (Nat.ltb_spec 0 v'); simplify_eq. apply imap_pair_elem in Hjv. eauto.
Qed.

Lemma connectionMatrix_lookup fd cs ct i j row v :
  connectionMatrix fd cs ct !! i = Some row -> row !! j = Some v ->
  exists sc tc, categoryArray fd cs !! i = Some sc /\ categoryArray fd ct !! j = Some tc /\
    v = length (List.filter (fun d => bool_decide (accessor cs d = Some sc /\ accessor ct d = Some tc)) fd).
Proof.
  unfold connectionMatrix. rewrite lookup_map.
  destruct (categoryArray fd cs !! i) as [sc|] eqn:Ei; intros [= <-].
  rewrite lookup_map. destruct (categoryArray fd ct !! j) as [tc|] eqn:Ej; intros [= <-]. eauto.
Qed.

Lemma sideArcs_lookup fd f colors dark start i a :
  sideArcs fd f colors dark start !! i = Some a -> sideValues fd f !! i = Some (arc_name a).
Proof.
  intros Ha. unfold sideArcs in Ha. cbv zeta in Ha.
  rewrite <- (layoutArcs_names fd f colors dark (length (sideValues fd f)) (totalSum fd f)
    (arcSpanTotal - minArcSpacing * inject_Z (Z.of_nat (length (sideValues fd f)) - 1))%Q start
    (sideValues fd f)) at 1.
  rewrite lookup_map, Ha. done.
Qed.

Lemma sideArcs_is_Some fd f colors dark start i :
  (i < length (sideValues fd f))%nat -> is_Some (sideArcs fd f colors dark start !! i).
Proof. intros Hi. apply lookup_lt_is_Some. unfold sideArcs. by rewrite layoutArcs_length. Qed.

Lemma Forall2_elem_r {A B} (P : A -> B -> Prop) l k y :
  Forall2 P l k -> y ∈ k -> exists x, x ∈ l /\ P x y.
Proof.
  induction 1 as [|x y' l k Hxy _ IH]; [set_solver|].
  intros [->|Hy]%elem_of_cons; [exists x; split; [left|done]|].
  destruct (IH Hy) as (x' & Hx' & HP). exists x'. split; [right|]; done.
Qed.

(** A ribbon of the render comes from a non-zero cell [(i, j)] and joins
    [leftArcs[i]] to [rightArcs[j]]. *)
Lemma connections_elem m L R conns c :
  connections m L R = Some conns -> c ∈ conns ->
  exists row, m !! conn_i c = Some row /\ row !! conn_j c = Some (conn_value c) /\ (0 < conn_value c)%nat /\
    L !! conn_i c = Some (conn_left c) /\ R !! conn_j c = Some (conn_right c).
Proof.
  intros Hconns%mapM_Some_1 Hc. destruct (Forall2_elem_r _ _ _ _ Hconns Hc) as ([[i j] v] & Hx & Hf).
  destruct (L !! i) as [l|] eqn:Hl; simpl in Hf; [|done].
  destruct (R !! j) as [r|] eqn:Hr; simplify_eq/=.
  destruct (cells_elem _ i j v Hx) as (row & Hrow & Hv & Hpos). eauto 10.
Qed.

(** When the arcs of both sides are laid out in the order of the
    matrix ([leftValues] is [sourceArray] and [rightValues] is
    [targetArray]), the render does not throw and every ribbon joins the
    arcs of its own row and column, carrying the number of records with
    that pair of answers. *)
Theorem chord_ribbons_aligned settings data cs ct :
  let fd := chordData (useTestData settings) data in
  sideValues fd cs = categoryArray fd cs -> sideValues fd ct = categoryArray fd ct ->
  exists v, renderChord settings data cs ct = Some v /\
    forall c, c ∈ view_connections v ->
      categoryArray fd cs !! conn_i c = Some (arc_name (conn_left c)) /\
      categoryArray fd ct !! conn_j c = Some (arc_name (conn_right c)) /\
      conn_value c = length (List.filter (fun d => bool_decide (accessor cs d = Some (arc_name (conn_left c)) /\
                                                             accessor ct d = Some (arc_name (conn_right c)))) fd) /\
      (0 < conn_value c)%nat.
Proof.
  intros fd Hs Ht. unfold renderChord. fold fd.
  set (L := sideArcs fd cs (categoryColors settings) (isDarkMode settings) leftStart).
  set (R := sideArcs fd ct (categoryColors settings) (isDarkMode settings) rightStart).
  assert (Hok : is_Some (connections (connectionMatrix fd cs ct) L R)).
  { apply mapM_is_Some_2, Forall_forall. intros [[i j] v] Hc.
    destruct (cells_elem _ i j v Hc) as (row & Hrow & Hv & _).
    destruct (connectionMatrix_lookup fd cs ct i j row v Hrow Hv) as (sc & tc & Hsc & Htc & _).
    destruct (sideArcs_is_Some fd cs (categoryColors settings) (isDarkMode settings) leftStart i) as [l Hl];
      [rewrite Hs; by eapply lookup_lt_Some|].
    destruct (sideArcs_is_Some fd ct (categoryColors settings) (isDarkMode settings) rightStart j) as [r Hr];
      [rewrite Ht; by eapply lookup_lt_Some|].
    simpl. unfold L, R. rewrite Hl, Hr. done. }
  destruct Hok as [conns Hconns]. rewrite Hconns. eexists. split; [reflexivity|].
  intros c Hc. simpl in Hc.
  destruct (connections_elem _ _ _ _ c Hconns Hc) as (row & Hrow & Hv & Hpos & Hl & Hr).
  destruct (connectionMatrix_lookup fd cs ct _ _ row _ Hrow Hv) as (sc & tc & Hsc & Htc & Hval).
  apply sideArcs_lookup in Hl, Hr. rewrite Hs in Hl. rewrite Ht in Hr.
  rewrite Hsc in Hl. rewrite Htc in Hr. simplify_eq. split_and!; done.
Qed.

(** When every tenure band occurs, [sourceArray] is the five bands sorted
    as strings. *)
Lemma categoryArray_years_all fd :
  (forall b, b ∈ YEARS_GROUPS -> exists d, d ∈ fd /\ category_key Field.years_at_medtronic d = b) ->
  categoryArray fd Field.years_at_medtronic = ["0-5"; "11-15"; "16-20"; "20+"; "6-10"].
Proof.
  intros Hall. unfold categoryArray.
  rewrite (js_sort_perm_eq _ YEARS_GROUPS); [vm_compute; reflexivity|].
  apply NoDup_Permutation; [apply array_from_set_NoDup|apply YEARS_CATEGORIES_NoDup|].
  intros x. rewrite array_from_set_elem, list_elem_of_In, in_map_iff. split.
  - intros (d & <- & _). apply getYearsCategory_elem.
  - intros Hx. destruct (Hall x Hx) as (d & Hd & Hk). exists d. split; [done|].
    by apply list_elem_of_In.
Qed.

(** C27: with tenure as the source, the ribbons are drawn between the wrong
    arcs: for any records in which every band occurs, the matrix row of a
    ribbon is its band's place in [sourceArray] (sorted as strings: 0-5,
    11-15, 16-20, 20+, 6-10) while its arc is [leftArcs] at that place
    (band order), so every ribbon of a band other than 0-5 starts at
    another band's arc. *)
Theorem chord_ribbon_mismatch settings data ct v :
  let fd := chordData (useTestData settings) data in
  (forall b, b ∈ YEARS_GROUPS -> exists d, d ∈ fd /\ category_key Field.years_at_medtronic d = b) ->
  renderChord settings data Field.years_at_medtronic ct = Some v ->
  forall c, c ∈ view_connections v ->
    categoryArray fd Field.years_at_medtronic !! conn_i c = Some (arc_name (conn_left c)) <-> conn_i c = 0%nat.
Proof.
  intros fd Hall Hv c Hc. unfold renderChord in Hv. fold fd in Hv.
  destruct (connections _ _ _) as [conns|] eqn:Hconns; simplify_eq/=.
  destruct (connections_elem _ _ _ _ c Hconns Hc) as (row & Hrow & Hval & _ & Hl & _).
  destruct (connectionMatrix_lookup fd _ ct _ _ row _ Hrow Hval) as (sc & _ & Hsc & _).
  apply sideArcs_lookup in Hl. change (sideValues fd Field.years_at_medtronic) with YEARS_GROUPS in Hl.
  rewrite (categoryArray_years_all fd Hall) in Hsc |- *.
  destruct (conn_i c) as [|[|[|[|[|i]]]]]; simplify_eq/=; split; congruence.
Qed.

(** ** The matrix counts every answered record once *)

Lemma categoryArray_elem fd f x : x ∈ categoryArray fd f <-> exists d, d ∈ fd /\ category_key f d = x.
Proof.
  unfold categoryArray. rewrite js_sort_Permutation, array_from_set_elem, list_elem_of_fmap. naive_solver.
Qed.

Lemma categoryArray_NoDup fd f : NoDup (categoryArray fd f).
Proof. unfold categoryArray. rewrite js_sort_Permutation. apply array_from_set_NoDup. Qed.

Lemma getYearsCategory_nonempty y : getYearsCategory y <> "".
Proof. unfold getYearsCategory. repeat case_match; discriminate. Qed.

Lemma category_key_nonempty f d : category_key f d <> "".
Proof.
  destruct f; simpl; try apply getYearsCategory_nonempty;
    repeat case_match; try discriminate; by apply String.eqb_neq.
Qed.

Lemma accessor_category_key f d x : accessor f d = Some x -> x <> "" -> category_key f d = x.
Proof.
  destruct f; simpl; [intros [= <-]; done| | | |]; intros -> Hx; by rewrite (proj2 (String.eqb_neq x "") Hx).
Qed.

(** Being listed in [categoryArray] is being answered, for the records of
    the chord. *)
Lemma listed_answered fd f d :
  d ∈ fd ->
  match accessor f d with Some c => bool_decide (c ∈ categoryArray fd f) | None => false end = answered f d.
Proof.
  intros Hd. unfold answered. destruct (accessor f d) as [x|] eqn:Ex; [|done].
  destruct (String.eqb_spec x ""); simpl.
  - subst. apply bool_decide_eq_false. rewrite categoryArray_elem.
    intros (d' & _ & Hk). by apply (category_key_nonempty f d').
  - apply bool_decide_eq_true, categoryArray_elem. exists d. split; [done|]. by apply accessor_category_key.
Qed.

(** One row of the matrix adds up to the records of its source category
    whose target answer is a listed category. *)
Lemma row_sum fd cs ct sc :
  sum_list (map (fun tc => length (List.filter (fun d =>
      bool_decide (accessor cs d = Some sc /\ accessor ct d = Some tc)) fd)) (categoryArray fd ct)) =
  length (List.filter (fun d => bool_decide (accessor cs d = Some sc) &&
      match accessor ct d with Some c => bool_decide (c ∈ categoryArray fd ct) | None => false end) fd).
Proof.
  erewrite filter_ext; [|intros d; apply andb_comm].
  rewrite <- (sum_count_partition (accessor ct)) by apply categoryArray_NoDup.
  f_equal. apply map_ext. intros tc. f_equal. apply filter_ext. intros d.
  rewrite bool_decide_and. apply andb_comm.
Qed.

(** C36: The connection matrix counts every record that answers both
    fields exactly once: its entries add up to the number of those
    records.  (A record without an answer is in the ['Unknown'] row but
    counted in no cell.) *)
Theorem chord_matrix_total fd cs ct :
  sum_list (map sum_list (connectionMatrix fd cs ct)) =
  length (List.filter (fun d => answered cs d && answered ct d) fd).
Proof.
  unfold connectionMatrix. rewrite map_map, (map_ext _ _ (row_sum fd cs ct)).
  rewrite (sum_count_partition (accessor cs)) by apply categoryArray_NoDup.
  apply f_equal, filter_ext_in. intros d Hd%list_elem_of_In.
  by rewrite !listed_answered by done.
Qed.

(** On four records whose answers first occur in sorted order, learning
    style against shaped-by renders with every ribbon on its own arcs. *)
Lemma chord_ribbons_aligned_witness :
  exists v, renderChord defaultSettings sortedAnswers Field.learning_style Field.shaped_by = Some v.
Proof.
  destruct (chord_ribbons_aligned defaultSettings sortedAnswers Field.learning_style Field.shaped_by)
    as [v [Hv _]]; [vm_compute; reflexivity|vm_compute; reflexivity|].
  exists v. exact Hv.
Defined.

(** Every tenure band occurs among the records of a list, checked. *)
Lemma all_bands_occur fd :
  bool_decide (Forall (fun b => Exists (fun d => category_key Field.years_at_medtronic d = b) fd) YEARS_GROUPS) = true ->
  forall b, b ∈ YEARS_GROUPS -> exists d, d ∈ fd /\ category_key Field.years_at_medtronic d = b.
Proof.
  intros H%bool_decide_eq_true b Hb. rewrite Forall_forall in H. by apply Exists_exists, H.
Qed.

Lemma chord_ribbon_mismatch_witness :
  exists v c, renderChord defaultSettings testChordMockData Field.years_at_medtronic Field.learning_style = Some v /\
    c ∈ view_connections v /\ conn_i c = 1%nat /\
    categoryArray (chordData (useTestData defaultSettings) testChordMockData) Field.years_at_medtronic !! conn_i c <>
      Some (arc_name (conn_left c)).
Proof.
  destruct (renderChord defaultSettings testChordMockData Field.years_at_medtronic Field.learning_style)
    as [v|] eqn:Hv; [|vm_compute in Hv; discriminate].
  assert (Hc : exists c, c ∈ view_connections v /\ conn_i c = 1%nat).
  { vm_compute in Hv. injection Hv as <-. eexists. split; [do 3 right; left|reflexivity]. }
  destruct Hc as (c & Hc & Hi). exists v, c. split_and!; [done|done|done|].
  intros Hm. apply (chord_ribbon_mismatch defaultSettings testChordMockData Field.learning_style v) in Hc.
  - apply Hc in Hm. by rewrite Hi in Hm.
  - apply all_bands_occur. vm_compute. reflexivity.
  - exact Hv.
Defined.

(** ** The secondary chord *)

Lemma secondaryMatrix_lookup sd i j :
  secondaryMatrix sd !! i ≫= (fun row => row !! j) =
  (sc ← (YEARS_GROUPS ++ peakPerfCategories sd)%list !! i;
   tc ← (YEARS_GROUPS ++ peakPerfCategories sd)%list !! j;
   Some (secondaryCell sd i sc j tc)).
Proof.
  unfold secondaryMatrix. cbv zeta. rewrite list_lookup_imap.
  destruct (_ !! i) as [sc|]; cbn -[imap]; [|done]. rewrite list_lookup_imap.
  by destruct (_ !! j).
Qed.

Lemma secondaryCell_sym sd i sc j tc : secondaryCell sd i sc j tc = secondaryCell sd j tc i sc.
Proof.
  unfold secondaryCell. simpl (length YEARS_GROUPS).
  do 2 case_bool_decide; try tauto; try done.
  destruct (Nat.ltb_spec i 5), (Nat.ltb_spec j 5); try done; exfalso; apply H; split; lia.
Qed.

(** The secondary chord's matrix is symmetric, as [d3.chord] expects
    of an undirected relation: entry [(i, j)] equals entry [(j, i)]. *)
Theorem secondaryMatrix_symmetric sd i j :
  secondaryMatrix sd !! i ≫= (fun row => row !! j) = secondaryMatrix sd !! j ≫= (fun row => row !! i).
Proof.
  rewrite !secondaryMatrix_lookup.
  destruct (_ !! i) as [sc|], (_ !! j) as [tc|]; simpl; try done.
  by rewrite secondaryCell_sym.
Qed.

Lemma secondaryCell_block sd si sc ti tc :
  ((si < 5)%nat <-> (ti < 5)%nat) -> secondaryCell sd si sc ti tc = 0%nat.
Proof. intros H. unfold secondaryCell. simpl (length YEARS_GROUPS). by rewrite bool_decide_eq_true_2. Qed.

Lemma secondaryCell_cross sd si sc ti tc :
  (si < 5)%nat -> (5 <= ti)%nat ->
  secondaryCell sd si sc ti tc =
  length (List.filter (fun d => String.eqb (getYearsCategory (or_zero (years_at_medtronic d))) sc &&
                                bool_decide (peak_performance d = Some tc)) sd).
Proof.
  intros Hs Ht. unfold secondaryCell. simpl (length YEARS_GROUPS).
  rewrite bool_decide_eq_false_2 by lia. by destruct (Nat.ltb_spec si 5); [|lia].
Qed.

Lemma lookup_YEARS_GROUPS_lt i sc : YEARS_GROUPS !! i = Some sc -> (i < 5)%nat.
Proof. intros H. apply lookup_lt_Some in H. done. Qed.

(** Every record of [secondaryData] answers a listed performance. *)
Lemma secondaryData_cover fd :
  forall d, d ∈ secondaryData fd ->
  exists c, peak_performance d = Some c /\ c ∈ peakPerfCategories (secondaryData fd).
Proof.
  intros d Hd. pose proof Hd as Hd'. unfold secondaryData in Hd'.
  apply list_elem_of_In, filter_In in Hd' as [_ Hp].
  destruct (peak_performance d) as [p|] eqn:E; [|done].
  exists p. split; [done|]. unfold peakPerfCategories. rewrite js_sort_Permutation, distinct_values_elem.
  split; [by exists d|]. apply String.eqb_neq. by destruct (String.eqb p "").
Qed.

Lemma peakPerfCategories_NoDup sd : NoDup (peakPerfCategories sd).
Proof. unfold peakPerfCategories. rewrite js_sort_Permutation. apply distinct_values_NoDup. Qed.

Lemma band_cover (sd : list SurveyResponse) :
  forall d, d ∈ sd -> exists c, Some (getYearsCategory (or_zero (years_at_medtronic d))) = Some c /\ c ∈ YEARS_GROUPS.
Proof. intros d _. eexists. split; [reflexivity|]. apply getYearsCategory_elem. Qed.

(** A tenure row adds up to the records of its band. *)
Lemma secondary_row_years fd si sc :
  let sd := secondaryData fd in
  YEARS_GROUPS !! si = Some sc ->
  sum_list (imap (fun ti tc => secondaryCell sd si sc ti tc) (YEARS_GROUPS ++ peakPerfCategories sd)%list) =
  length (List.filter (fun d => String.eqb (getYearsCategory (or_zero (years_at_medtronic d))) sc) sd).
Proof.
  intros sd Hsi. pose proof (lookup_YEARS_GROUPS_lt _ _ Hsi) as Hlt.
  rewrite imap_app, sum_list_with_app.
  rewrite (imap_map_in _ (fun _ => 0%nat)), sum_list_zeros
    by (intros ti tc Htc%lookup_YEARS_GROUPS_lt; apply secondaryCell_block; lia).
  rewrite (imap_map_in _ (fun tc => length (List.filter (fun d =>
      bool_decide (peak_performance d = Some tc) &&
      String.eqb (getYearsCategory (or_zero (years_at_medtronic d))) sc) sd))).
  - rewrite sum_count_cover; [done|apply peakPerfCategories_NoDup|apply secondaryData_cover].
  - intros n tc _. rewrite secondaryCell_cross by (simpl; lia).
    f_equal. apply filter_ext. intros d. apply andb_comm.
Qed.

Lemma eqb_bool_decide_Some (a b : string) : String.eqb a b = bool_decide (Some a = Some b).
Proof. destruct (String.eqb_spec a b); case_bool_decide; congruence. Qed.

(** A performance row adds up to the records with that answer. *)
Lemma secondary_row_perf fd n sc :
  let sd := secondaryData fd in
  peakPerfCategories sd !! n = Some sc ->
  sum_list (imap (fun ti tc => secondaryCell sd (length YEARS_GROUPS + n) sc ti tc)
    (YEARS_GROUPS ++ peakPerfCategories sd)%list) =
  length (List.filter (fun d => bool_decide (peak_performance d = Some sc)) sd).
Proof.
  intros sd Hn. rewrite imap_app, sum_list_with_app.
  rewrite (imap_map_in _ (fun _ => 0%nat) (peakPerfCategories sd)), sum_list_zeros, Nat.add_0_r
    by (intros; apply secondaryCell_block; simpl; lia).
  rewrite (imap_map_in _ (fun tc => length (List.filter (fun d =>
      bool_decide (Some (getYearsCategory (or_zero (years_at_medtronic d))) = Some tc) &&
      bool_decide (peak_performance d = Some sc)) sd))).
  - apply sum_count_cover; [apply YEARS_CATEGORIES_NoDup|apply band_cover].
  - intros ti tc Htc%lookup_YEARS_GROUPS_lt. rewrite secondaryCell_sym, secondaryCell_cross by (simpl; lia).
    f_equal. apply filter_ext. intros d. by rewrite eqb_bool_decide_Some.
Qed.

(** C40: Every record of the secondary chord is counted twice, once in its
    band's row and once in its performance answer's row: the matrix adds
    up to twice the number of records with a [peak_performance]. *)
Theorem secondary_matrix_total fd :
  sum_list (map sum_list (secondaryMatrix (secondaryData fd))) = (2 * length (secondaryData fd))%nat.
Proof.
  unfold secondaryMatrix. cbv zeta.
  rewrite map_list_fmap, fmap_imap, imap_app, sum_list_with_app.
  rewrite (imap_map_in _ (fun sc => length (List.filter (fun d =>
      bool_decide (Some (getYearsCategory (or_zero (years_at_medtronic d))) = Some sc) && true) (secondaryData fd)))).
  2: { intros si sc Hsi. unfold compose. rewrite (secondary_row_years fd si sc Hsi).
       f_equal. apply filter_ext. intros d. by rewrite andb_true_r, eqb_bool_decide_Some. }
  rewrite (imap_map_in _ (fun sc => length (List.filter (fun d =>
      bool_decide (peak_performance d = Some sc) && true) (secondaryData fd)))).
  2: { intros n sc Hn. unfold compose. rewrite (secondary_row_perf fd n sc Hn).
       f_equal. apply filter_ext. intros d. by rewrite andb_true_r. }
  rewrite !sum_count_cover, filter_true_length;
    [lia| |apply secondaryData_cover|apply YEARS_CATEGORIES_NoDup|apply band_cover].
  apply peakPerfCategories_NoDup.
Qed.
