(* ===== verification/DataFeed.v ===== *)
(** * The data feed: [components/DataVisualization/shared/useVisualizationData.ts]

    The hook that loads [survey_responses] for the diagrams: the record
    check [validateResponse], the per-attendee deduplication of the initial
    load (the [reduce] that keeps the latest [updated_at]), the
    asynchronous [fetchData] with its error fallback to [mockData] and its
    retry branch, and the realtime channel's handler, which upserts a row by
    [id] or deletes it.

    The hook's state is [Feed]: the four [useState] cells, the effect's
    locals [mounted] and [retryCount], the fetches awaiting their
    [select] ([inflight], each with its [isRetry] flag), the pending retry
    timeouts and whether the channel is open.  A [FeedEvent] is what the
    outside world delivers: a fetch resolving with the database's answer, a
    retry timeout firing, a realtime payload, the subscription status, the
    unmount.  Fetches resolve in any order and interleave with realtime
    payloads, as the [await]s allow. *)

From S2P Require Import Prelude Survey.

Open Scope string_scope.

(** ** Validation and deduplication *)

Definition nonempty_string (v : option string) : bool :=
  match v with Some s => negb (String.eqb s "") | None => false end.

(** [validateResponse] (lines 106-115): a non-negative numeric tenure,
    the four answers as non-empty strings and the joined attendee. *)
Definition validateResponse (r : SurveyResponse) : bool :=
  match years_at_medtronic r with JsNum z => Z.leb 0 z | _ => false end &&
  nonempty_string (learning_style r) && nonempty_string (shaped_by r) &&
  nonempty_string (peak_performance r) && nonempty_string (motivation r) &&
  has_attendee r.

(** [Array.prototype.findIndex], [None] for [-1]. *)
Fixpoint findIndex {A} (p : A -> bool) (l : list A) : option nat :=
  match l with
  | [] => None
  | x :: l => if p x then Some 0%nat else S <$> findIndex p l
  end.

(** The reducer of lines 148-156: a new attendee is pushed; a known one is
    replaced when the current row's [updated_at] is strictly later. *)
Definition dedupe_step (acc : list SurveyResponse) (curr : SurveyResponse) : list SurveyResponse :=
  match findIndex (fun r => String.eqb (attendee_id r) (attendee_id curr)) acc with
  | None => acc ++ [curr]
  | Some i =>
      match acc !! i with
      | Some r => if Z.ltb (updated_at r) (updated_at curr) then <[i := curr]> acc else acc
      | None => acc
      end
  end.

Definition dedupe (responses : list SurveyResponse) : list SurveyResponse :=
  fold_left dedupe_step responses [].

(** [mockData] (lines 16-80); [2024-01-01T00:00:00Z] is 1704067200000 ms. *)
Definition mockData : list SurveyResponse :=
  [mkResponse "mock-1" "mock-attendee-1" (JsNum 5) (Some "visual") (Some "mentor")
     (Some "Extrovert, Morning") (Some "growth") 1704067200000 false true;
   mkResponse "mock-2" "mock-attendee-2" (JsNum 10) (Some "auditory") (Some "challenge")
     (Some "Introvert, Morning") (Some "impact") 1704067200000 false true;
   mkResponse "mock-3" "mock-attendee-3" (JsNum 15) (Some "kinesthetic") (Some "success")
     (Some "Ambivert, Morning") (Some "purpose") 1704067200000 false true].

(** ** The hook's state *)

Record Feed := mkFeed {
  data : list SurveyResponse;
  isLoading : bool;
  error : option string;
  isMockData : bool;
  mounted : bool;
  retryCount : nat;
  inflight : list bool;
  timers : list nat;
  channel : bool
}.

Definition MAX_RETRIES : nat := 3.

(** The [useState] setters, and the effect's assignments. *)
Definition setData (v : list SurveyResponse) (s : Feed) : Feed :=
  mkFeed v (isLoading s) (error s) (isMockData s) (mounted s) (retryCount s) (inflight s) (timers s) (channel s).
Definition setIsLoading (v : bool) (s : Feed) : Feed :=
  mkFeed (data s) v (error s) (isMockData s) (mounted s) (retryCount s) (inflight s) (timers s) (channel s).
Definition setError (v : option string) (s : Feed) : Feed :=
  mkFeed (data s) (isLoading s) v (isMockData s) (mounted s) (retryCount s) (inflight s) (timers s) (channel s).
Definition setIsMockData (v : bool) (s : Feed) : Feed :=
  mkFeed (data s) (isLoading s) (error s) v (mounted s) (retryCount s) (inflight s) (timers s) (channel s).
Definition set_mounted (v : bool) (s : Feed) : Feed :=
  mkFeed (data s) (isLoading s) (error s) (isMockData s) v (retryCount s) (inflight s) (timers s) (channel s).
Definition set_retryCount (v : nat) (s : Feed) : Feed :=
  mkFeed (data s) (isLoading s) (error s) (isMockData s) (mounted s) v (inflight s) (timers s) (channel s).
Definition set_inflight (v : list bool) (s : Feed) : Feed :=
  mkFeed (data s) (isLoading s) (error s) (isMockData s) (mounted s) (retryCount s) v (timers s) (channel s).
Definition set_timers (v : list nat) (s : Feed) : Feed :=
  mkFeed (data s) (isLoading s) (error s) (isMockData s) (mounted s) (retryCount s) (inflight s) v (channel s).
Definition set_channel (v : bool) (s : Feed) : Feed :=
  mkFeed (data s) (isLoading s) (error s) (isMockData s) (mounted s) (retryCount s) (inflight s) (timers s) v.

(** The first render's state (lines 83-86). *)
Definition initialFeed : Feed := mkFeed [] true None false false 0 [] [] false.

(** The synchronous part of [fetchData(isRetry)] up to its [await]
    (lines 125-137). *)
Definition fetchData_start (isRetry : bool) (s : Feed) : Feed :=
  let s := if isRetry then setError (Some "Retrying connection...") s
           else setError None (setIsLoading true s) in
  set_inflight (inflight s ++ [isRetry]) s.

(** The effect body on mount (lines 118-121, 193-196). *)
Definition mount (realtime : bool) (s : Feed) : Feed :=
  set_channel realtime (fetchData_start false (set_retryCount 0 (set_mounted true s))).

(** What the awaited [select] gives: an error, or the rows ([null] rows
    are the empty list: both fail [responses && responses.length > 0]). *)
Inductive FetchResult :=
| FetchError (message : string)
| FetchOk (responses : list SurveyResponse).

(** The rest of [fetchData] once its [select] resolves (lines 139-190):
    the [try] block, the [catch] with its retry branch, the [finally]. *)
Definition fetchData_resolve (isRetry : bool) (r : FetchResult) (s : Feed) : Feed :=
  let s :=
    if mounted s then
      match r with
      | FetchOk responses =>
          let s := if Nat.ltb 0 (length responses)
                   then setIsMockData false (setData (dedupe (List.filter validateResponse responses)) s)
                   else setIsMockData true (setData mockData s) in
          setError None s
      | FetchError message =>
          if isRetry && Nat.ltb (retryCount s) MAX_RETRIES then
            let n := S (retryCount s) in
            set_timers (timers s ++ [1000 * n]%nat) (set_retryCount n s)
          else setIsMockData true (setData mockData (setError (Some message) s))
      end
    else s in
  if mounted s then setIsLoading false s else s.

(** What the realtime handler's own [select ... .single()] gives. *)
Inductive RowResult :=
| RowError (message : string)
| Row (response : option SurveyResponse).

(** The [setData] updater of lines 222-233: replace the row with the same
    [id] in place, or push it. *)
Definition upsert_by_id (response : SurveyResponse) (currentData : list SurveyResponse) : list SurveyResponse :=
  match findIndex (fun item => String.eqb (id item) (id response)) currentData with
  | Some index => <[index := response]> currentData
  | None => currentData ++ [response]
  end.

(** The realtime handler (lines 205-242) for an [INSERT] or [UPDATE]
    payload, after its [select] resolved. *)
Definition realtime_upsert (r : RowResult) (s : Feed) : Feed :=
  if mounted s then
    match r with
    | RowError message => setError (Some message) s
    | Row (Some response) =>
        if validateResponse response then setData (upsert_by_id response (data s)) s else s
    | Row None => s
    end
  else s.

(** A [DELETE] payload (line 236). *)
Definition realtime_delete (old_id : string) (s : Feed) : Feed :=
  if mounted s then setData (List.filter (fun item => negb (String.eqb (id item) old_id)) (data s)) s else s.

(** The [subscribe] callback (lines 244-251). *)
Definition subscribe_status (subscribed : bool) (s : Feed) : Feed :=
  if subscribed then s else setError (Some "Realtime connection failed") s.

(** The effect's cleanup (lines 253-263): the channel is removed and
    [mounted] cleared; pending retry timeouts are not cancelled. *)
Definition cleanup (s : Feed) : Feed := set_mounted false (set_channel false s).

Inductive FeedEvent :=
| FetchResolves (k : nat) (r : FetchResult)
| RetryFires (k : nat)
| RealtimeUpsert (r : RowResult)
| RealtimeDelete (old_id : string)
| SubscribeStatus (subscribed : bool)
| Unmount.

(** One event.  The [k]-th pending fetch or timeout is the one that
    resolves or fires; realtime payloads arrive only on an open channel. *)
Definition feed_step (s : Feed) (e : FeedEvent) : Feed :=
  match e with
  | FetchResolves k r =>
      match inflight s !! k with
      | Some isRetry => fetchData_resolve isRetry r (set_inflight (delete k (inflight s)) s)
      | None => s
      end
  | RetryFires k =>
      match timers s !! k with
      | Some _ => fetchData_start true (set_timers (delete k (timers s)) s)
      | None => s
      end
  | RealtimeUpsert r => if channel s then realtime_upsert r s else s
  | RealtimeDelete i => if channel s then realtime_delete i s else s
  | SubscribeStatus b => if channel s then subscribe_status b s else s
  | Unmount => cleanup s
  end.

Definition feed_run (s : Feed) (evs : list FeedEvent) : Feed := fold_left feed_step evs s.

(** The state after mounting and then the events. *)
Definition session (realtime : bool) (evs : list FeedEvent) : Feed :=
  feed_run (mount realtime initialFeed) evs.

(** Rows used by the examples: two responses of one attendee, and a third
    attendee's. *)
Definition rowA1 : SurveyResponse :=
  mkResponse "r1" "att-1" (JsNum 3) (Some "visual") (Some "mentor") (Some "individual") (Some "growth") 1 false true.
Definition rowA2 : SurveyResponse :=
  mkResponse "r2" "att-1" (JsNum 3) (Some "auditory") (Some "mentor") (Some "individual") (Some "growth") 2 false true.
Definition rowB : SurveyResponse :=
  mkResponse "r3" "att-2" (JsNum 12) (Some "visual") (Some "failure") (Some "team") (Some "impact") 3 false true.

(** ** Predicates of the proofs *)

(** [r] is dominated in [acc] when a row of [acc] has its attendee and
    an [updated_at] no earlier than its own. *)
Definition dominated (acc : list SurveyResponse) (r : SurveyResponse) : Prop :=
  exists r', r' ∈ acc /\ attendee_id r' = attendee_id r /\ (updated_at r <= updated_at r')%Z.

(** The retry bookkeeping stays idle: no timeout pending, no retry
    counted, and every in-flight fetch is a first attempt. *)
Definition retry_idle (s : Feed) : Prop :=
  timers s = [] /\ retryCount s = 0%nat /\ (forall k b, inflight s !! k = Some b -> b = false).

(** The database's answers carry distinct [id]s (the table's primary key). *)
Definition wf_event (e : FeedEvent) : Prop :=
  match e with
  | FetchResolves _ (FetchOk responses) => NoDup (id <$> responses)
  | _ => True
  end.

(** Every row passes [validateResponse]: the row type the diagrams rely on. *)
Definition rows_valid (l : list SurveyResponse) : Prop := Forall (fun r => validateResponse r = true) l.

(** ** Lemmas *)

Lemma findIndex_Some {A} (p : A -> bool) l i :
  findIndex p l = Some i -> exists x, l !! i = Some x /\ p x = true.
Proof.
  revert i. induction l as [|y l IH]; intros i; simpl; [done|].
  destruct (p y) eqn:Hy; [intros [= <-]; eauto|].
  destruct (findIndex p l) as [j|] eqn:Hj; simpl; [|done]. intros [= <-]. by apply IH.
Qed.

Lemma findIndex_None {A} (p : A -> bool) l : findIndex p l = None -> forall x, x ∈ l -> p x = false.
Proof.
  induction l as [|y l IH]; simpl; [set_solver|].
  destruct (p y) eqn:Hy; [done|]. destruct (findIndex p l); [done|].
  intros _ x [->|Hx]%elem_of_cons; auto.
Qed.

Lemma elem_of_insert_inv {A} (l : list A) i x y : y ∈ <[i := x]> l -> y = x \/ y ∈ l.
Proof.
  intros [j Hj]%list_elem_of_lookup. destruct (decide (i = j)) as [->|Hne].
  - apply list_lookup_insert_Some in Hj. naive_solver.
  - rewrite list_lookup_insert_ne in Hj by done. right. by eapply list_elem_of_lookup_2.
Qed.

Lemma elem_of_insert_other {A} (l : list A) i j x y :
  l !! j = Some y -> i <> j -> y ∈ <[i := x]> l.
Proof. intros Hj Hne. apply list_elem_of_lookup. exists j. by rewrite list_lookup_insert_ne. Qed.

(** Replacing the entry [findIndex] found for a key, or pushing a row
    whose key is absent, keeps the keys distinct: the shape of both the
    initial load's reducer and the realtime upsert. *)
Lemma keyed_insert_NoDup {A} (key : A -> string) acc curr i :
  findIndex (fun r => String.eqb (key r) (key curr)) acc = Some i ->
  NoDup (key <$> acc) -> NoDup (key <$> <[i := curr]> acc).
Proof.
  intros Hf Hnd. destruct (findIndex_Some _ _ _ Hf) as (x & Hx & Hp%String.eqb_eq).
  rewrite list_fmap_insert, <- Hp, list_insert_id; [done|]. by rewrite list_lookup_fmap, Hx.
Qed.

Lemma keyed_push_NoDup {A} (key : A -> string) acc curr :
  findIndex (fun r => String.eqb (key r) (key curr)) acc = None ->
  NoDup (key <$> acc) -> NoDup (key <$> (acc ++ [curr])%list).
Proof.
  intros Hf Hnd. pose proof (findIndex_None _ _ Hf) as Hno. rewrite fmap_app. apply NoDup_app.
  split; [done|]. split; [|apply NoDup_singleton]. intros a Ha ->%list_elem_of_singleton.
  apply list_elem_of_fmap in Ha as (x & Hax & Hx). specialize (Hno x Hx). simpl in Hno.
  rewrite Hax, String.eqb_refl in Hno. discriminate.
Qed.

(** The step keeps at most one row per attendee. *)
Lemma dedupe_step_NoDup acc curr :
  NoDup (attendee_id <$> acc) -> NoDup (attendee_id <$> dedupe_step acc curr).
Proof.
  intros Hnd. unfold dedupe_step. destruct (findIndex _ acc) as [i|] eqn:Hf.
  - destruct (acc !! i); [|done]. destruct (Z.ltb _ _); [|done]. by eapply keyed_insert_NoDup.
  - by apply keyed_push_NoDup.
Qed.

(** The step only keeps rows of [acc] and the current one. *)
Lemma dedupe_step_sub acc curr x : x ∈ dedupe_step acc curr -> x ∈ acc \/ x = curr.
Proof.
  unfold dedupe_step. destruct (findIndex _ acc) as [i|].
  - destruct (acc !! i); [|auto]. destruct (Z.ltb _ _); [|auto].
    intros [->|Hx]%elem_of_insert_inv; auto.
  - intros [Hx|Hx]%elem_of_app; [auto|]. apply list_elem_of_singleton in Hx. auto.
Qed.

(** Every row of [acc] and the current row are dominated after the step. *)
Lemma dedupe_step_dominates acc curr r :
  r ∈ curr :: acc -> dominated (dedupe_step acc curr) r.
Proof.
  intros Hr. unfold dominated, dedupe_step. destruct (findIndex _ acc) as [i|] eqn:Hf.
  - destruct (findIndex_Some _ _ _ Hf) as (x & Hx & Hp%String.eqb_eq). rewrite Hx.
    assert (Hi : (i < length acc)%nat) by (eapply lookup_lt_Some; eauto).
    destruct (Z.ltb_spec (updated_at x) (updated_at curr)) as [Hlt|Hge].
    + assert (Hc : curr ∈ <[i := curr]> acc)
        by (apply list_elem_of_lookup; exists i; by rewrite list_lookup_insert_eq).
      apply elem_of_cons in Hr as [->|Hr]; [exists curr; split_and!; auto; lia|].
      apply list_elem_of_lookup in Hr as [j Hj]. destruct (decide (i = j)) as [<-|Hne].
      * rewrite Hx in Hj. injection Hj as <-. exists curr. split_and!; auto; lia.
      * exists r. split_and!; [by eapply elem_of_insert_other|done|lia].
    + apply elem_of_cons in Hr as [->|Hr].
      * exists x. split_and!; [by eapply list_elem_of_lookup_2|done|lia].
      * exists r. split_and!; auto; lia.
  - exists r. split_and!; [|done|lia]. apply elem_of_cons in Hr as [->|Hr]; set_solver.
Qed.

Lemma dominated_trans L r r1 :
  dominated L r1 -> attendee_id r1 = attendee_id r -> (updated_at r <= updated_at r1)%Z -> dominated L r.
Proof. intros (r2 & Hr2 & Ha2 & Hu2) Ha1 Hu1. exists r2. split_and!; [done|congruence|lia]. Qed.

Lemma dedupe_fold l acc :
  NoDup (attendee_id <$> acc) ->
  NoDup (attendee_id <$> fold_left dedupe_step l acc) /\
  (forall x, x ∈ fold_left dedupe_step l acc -> x ∈ acc \/ x ∈ l) /\
  (forall r, r ∈ acc \/ r ∈ l -> dominated (fold_left dedupe_step l acc) r).
Proof.
  revert acc. induction l as [|curr l IH]; intros acc Hnd; simpl.
  - split_and!; [done|auto|]. intros r [Hr|Hr]; [|set_solver]. exists r. split_and!; auto; lia.
  - destruct (IH (dedupe_step acc curr)) as (Hnd' & Hsub & Hdom); [by apply dedupe_step_NoDup|].
    split_and!; [done| |].
    + intros x [Hx|Hx]%Hsub; [|set_solver]. apply dedupe_step_sub in Hx. set_solver.
    + intros r Hr. assert (Hr' : r ∈ curr :: acc \/ r ∈ l) by (destruct Hr as [|[->|]%elem_of_cons]; set_solver).
      destruct Hr' as [Hr'|Hl]; [|auto].
      destruct (dedupe_step_dominates acc curr r) as (r1 & Hr1 & Ha1 & Hu1); [done|].
      by apply (dominated_trans _ r r1); [apply Hdom; left|..].
Qed.

(** ** The feed's state over a session *)

Lemma fetchData_resolve_first r s :
  timers (fetchData_resolve false r s) = timers s /\
  retryCount (fetchData_resolve false r s) = retryCount s /\
  inflight (fetchData_resolve false r s) = inflight s.
Proof. unfold fetchData_resolve. cbv zeta. destruct (mounted s), r; simpl; repeat case_match; done. Qed.

Lemma retry_idle_mount realtime : retry_idle (mount realtime initialFeed).
Proof. split_and!; [done|done|]. intros [|k] b; simpl; [congruence|by rewrite lookup_nil]. Qed.

Lemma retry_idle_step s e : retry_idle s -> retry_idle (feed_step s e).
Proof.
  intros (Ht & Hr & Hi). destruct e as [k r|k|r|i|b|]; simpl; unfold retry_idle.
  - destruct (inflight s !! k) as [b|] eqn:Hk; [|by split_and!].
    rewrite (Hi k b Hk). destruct (fetchData_resolve_first r (set_inflight (delete k (inflight s)) s)) as (-> & -> & ->).
    split_and!; [done|done|]. simpl. intros j c Hj. apply (Hi (if decide (j < k)%nat then j else S j)).
    rewrite list_lookup_delete in Hj. by destruct (decide (j < k)%nat).
  - by rewrite Ht.
  - unfold realtime_upsert. repeat case_match; by split_and!.
  - unfold realtime_delete. repeat case_match; by split_and!.
  - unfold subscribe_status. repeat case_match; by split_and!.
  - by split_and!.
Qed.

Lemma retry_idle_session realtime evs : retry_idle (session realtime evs).
Proof.
  unfold session, feed_run. generalize (retry_idle_mount realtime).
  generalize (mount realtime initialFeed). induction evs as [|e evs IH]; simpl; auto using retry_idle_step.
Qed.

(** ** Row identity *)

Lemma NoDup_fmap_filter {A B} (f : A -> B) (p : A -> bool) l :
  NoDup (f <$> l) -> NoDup (f <$> List.filter p l).
Proof.
  induction l as [|x l IH]; simpl; [done|]. intros [Hx Hnd]%NoDup_cons.
  destruct (p x); simpl; [|auto]. constructor; [|auto].
  intros (y & Hy & Hin)%list_elem_of_fmap. apply Hx, list_elem_of_fmap.
  exists y. split; [done|]. apply list_elem_of_In in Hin. apply filter_In in Hin as [Hin _].
  by apply list_elem_of_In.
Qed.

Lemma dedupe_ids l : NoDup (id <$> l) -> NoDup (id <$> dedupe l).
Proof.
  intros Hnd. destruct (dedupe_fold l [] (NoDup_nil_2)) as (Hnd' & Hsub & _).
  apply NoDup_fmap_2_strong; [|by eapply NoDup_fmap_1].
  intros x y Hx Hy. apply (NoDup_fmap_elem_inj id l); [done| |].
  - destruct (Hsub x Hx) as [H|H]; [set_solver|done].
  - destruct (Hsub y Hy) as [H|H]; [set_solver|done].
Qed.

Lemma mockData_ids : NoDup (id <$> mockData).
Proof. apply (bool_decide_unpack _). vm_compute. exact I. Qed.

Lemma fetchData_resolve_data b r s :
  data (fetchData_resolve b r s) = data s \/ data (fetchData_resolve b r s) = mockData \/
  exists responses, r = FetchOk responses /\
    data (fetchData_resolve b r s) = dedupe (List.filter validateResponse responses).
Proof. unfold fetchData_resolve. cbv zeta. destruct (mounted s), r; simpl; repeat case_match; simpl; eauto. Qed.

Lemma upsert_by_id_ids response l : NoDup (id <$> l) -> NoDup (id <$> upsert_by_id response l).
Proof.
  unfold upsert_by_id. destruct (findIndex _ l) eqn:Hf.
  - by apply keyed_insert_NoDup.
  - by apply keyed_push_NoDup.
Qed.

Lemma ids_step s e : wf_event e -> NoDup (id <$> data s) -> NoDup (id <$> data (feed_step s e)).
Proof.
  intros Hwf Hnd. destruct e as [k r|k|r|i|b|]; simpl.
  - destruct (inflight s !! k); [|done].
    destruct (fetchData_resolve_data b r (set_inflight (delete k (inflight s)) s)) as [->|[->|(rs & -> & ->)]];
      [done|apply mockData_ids|]. by apply dedupe_ids, NoDup_fmap_filter.
  - destruct (timers s !! k); [|done]. done.
  - unfold realtime_upsert. repeat case_match; simpl; auto using upsert_by_id_ids.
  - unfold realtime_delete. repeat case_match; simpl; auto using NoDup_fmap_filter.
  - unfold subscribe_status. by repeat case_match.
  - done.
Qed.

Lemma upsert_by_id_Some response l index :
  NoDup (id <$> l) -> findIndex (fun item => String.eqb (id item) (id response)) l = Some index ->
  forall x, x ∈ <[index := response]> l <-> x = response \/ (x ∈ l /\ id x <> id response).
Proof.
  intros Hnd Hf x. destruct (findIndex_Some _ _ _ Hf) as (y & Hy & Hp%String.eqb_eq).
  assert (Hi : (index < length l)%nat) by (eapply lookup_lt_Some; eauto).
  split.
  - intros [j Hj]%list_elem_of_lookup. destruct (decide (index = j)) as [<-|Hne].
    + rewrite list_lookup_insert_eq in Hj by done. left. congruence.
    + rewrite list_lookup_insert_ne in Hj by done. right. split; [by eapply list_elem_of_lookup_2|].
      intros Hid. apply Hne, (NoDup_lookup _ _ _ (id x) Hnd); rewrite list_lookup_fmap; [rewrite Hy; simpl; by rewrite Hp, Hid|by rewrite Hj].
  - intros [->|[[j Hj]%list_elem_of_lookup Hid]].
    + apply list_elem_of_lookup. exists index. by rewrite list_lookup_insert_eq.
    + eapply elem_of_insert_other; [done|]. intros <-. congruence.
Qed.

(** ** Row validity *)

Lemma mockData_valid : rows_valid mockData.
Proof. repeat constructor. Qed.

Lemma rows_valid_dedupe l : rows_valid l -> rows_valid (dedupe l).
Proof.
  intros Hl. destruct (dedupe_fold l [] NoDup_nil_2) as (_ & Hsub & _). fold (dedupe l) in Hsub.
  apply Forall_forall. intros x Hx. destruct (Hsub x Hx) as [H|H]; [set_solver|].
  by eapply Forall_forall in Hl.
Qed.

Lemma rows_valid_filter l : rows_valid (List.filter validateResponse l).
Proof.
  apply Forall_forall. intros x Hx%list_elem_of_In. by apply filter_In in Hx as [_ ?].
Qed.

Lemma rows_valid_upsert r l : rows_valid l -> validateResponse r = true -> rows_valid (upsert_by_id r l).
Proof.
  intros Hl Hr. unfold upsert_by_id. destruct (findIndex _ l).
  - apply Forall_forall. intros x [->|Hx]%elem_of_insert_inv; [done|]. by eapply Forall_forall in Hl.
  - apply Forall_app. split; [done|]. by constructor.
Qed.

Lemma rows_valid_step s e : rows_valid (data s) -> rows_valid (data (feed_step s e)).
Proof.
  intros Hs. destruct e as [k r|k|r|i|b|]; simpl.
  - destruct (inflight s !! k) as [b|]; [|done].
    destruct (fetchData_resolve_data b r (set_inflight (delete k (inflight s)) s)) as [->|[->|(rs & -> & ->)]];
      [done|apply mockData_valid|]. apply rows_valid_dedupe, rows_valid_filter.
  - by destruct (timers s !! k).
  - unfold realtime_upsert. repeat case_match; simpl; auto using rows_valid_upsert.
  - destruct (channel s); [|done]. unfold realtime_delete. destruct (mounted s); [|done]. simpl.
    apply Forall_forall. intros x Hx%list_elem_of_In. apply filter_In in Hx as [Hx _].
    apply list_elem_of_In in Hx. by eapply Forall_forall in Hs.
  - unfold subscribe_status. by repeat case_match.
  - done.
Qed.

Lemma rows_valid_run s evs : rows_valid (data s) -> rows_valid (data (feed_run s evs)).
Proof. revert s. induction evs as [|e evs IH]; intros s Hs; simpl; [done|]. by apply IH, rows_valid_step. Qed.

(** ** The realtime upsert *)

Lemma findIndex_absent {A} (p : A -> bool) l : (forall x, x ∈ l -> p x = false) -> findIndex p l = None.
Proof.
  induction l as [|y l IH]; intros Hl; simpl; [done|].
  rewrite (Hl y) by set_solver. rewrite IH; [done|]. intros x Hx. apply Hl. set_solver.
Qed.

(** A response whose [id] is not shown yet is pushed at the end. *)
Lemma upsert_by_id_push response l :
  id response ∉ id <$> l -> upsert_by_id response l = (l ++ [response])%list.
Proof.
  intros Hid. unfold upsert_by_id. rewrite findIndex_absent; [done|].
  intros x Hx. apply String.eqb_neq. intros E. apply Hid, list_elem_of_fmap. by exists x.
Qed.

(** The upserted response is shown afterwards. *)
Lemma upsert_by_id_self response l : response ∈ upsert_by_id response l.
Proof.
  unfold upsert_by_id. destruct (findIndex _ l) as [i|] eqn:Hf.
  - destruct (findIndex_Some _ _ _ Hf) as (x & Hx & _).
    apply list_elem_of_lookup. exists i. apply list_lookup_insert_eq. by eapply lookup_lt_Some.
  - set_solver.
Qed.

Lemma realtime_upsert_data s r :
  mounted s = true -> channel s = true -> validateResponse r = true ->
  data (feed_step s (RealtimeUpsert (Row (Some r)))) = upsert_by_id r (data s).
Proof. intros Hm Hc Hv. simpl. rewrite Hc. unfold realtime_upsert. by rewrite Hm, Hv. Qed.

Lemma dedupe_sub l x : x ∈ dedupe l -> x ∈ l.
Proof.
  intros Hx. destruct (dedupe_fold l [] NoDup_nil_2) as (_ & Hsub & _).
  destruct (Hsub x Hx) as [H|H]; [set_solver|done].
Qed.

(** ** Properties *)

(** C15: The initial load's deduplication keeps exactly one row per
    attendee: the kept rows come from the response, every attendee of the
    response has a kept row, and that row's [updated_at] is the latest of
    the attendee's rows. *)
Theorem dedupe_spec l :
  NoDup (attendee_id <$> dedupe l) /\
  (forall x, x ∈ dedupe l -> x ∈ l) /\
  (forall r, r ∈ l -> exists r', r' ∈ dedupe l /\ attendee_id r' = attendee_id r) /\
  (forall r r', r ∈ l -> r' ∈ dedupe l -> attendee_id r' = attendee_id r -> (updated_at r <= updated_at r')%Z).
Proof.
  destruct (dedupe_fold l [] NoDup_nil_2) as (Hnd & Hsub & Hdom). fold (dedupe l) in *.
  split_and!; [done| | |].
  - intros x Hx. destruct (Hsub x Hx) as [H|H]; [set_solver|done].
  - intros r Hr. destruct (Hdom r (or_intror Hr)) as (r' & Hr' & Ha & _). eauto.
  - intros r r' Hr Hr' Ha. destruct (Hdom r (or_intror Hr)) as (r'' & Hr'' & Ha'' & Hu).
    rewrite (NoDup_fmap_elem_inj attendee_id (dedupe l) r' r''); [done|done|done|done|congruence].
Qed.

(** C28: the retry branch of [fetchData] is dead: in any session, a fetch
    that fails while the hook is mounted falls back to [mockData] at once,
    with the error shown and no retry timeout scheduled. *)
Theorem fetch_error_no_retry realtime evs k b message :
  mounted (session realtime evs) = true -> inflight (session realtime evs) !! k = Some b ->
  let s' := feed_step (session realtime evs) (FetchResolves k (FetchError message)) in
  data s' = mockData /\ isMockData s' = true /\ error s' = Some message /\ isLoading s' = false /\ timers s' = [].
Proof.
  intros Hm Hk. destruct (retry_idle_session realtime evs) as (Ht & _ & Hi).
  rewrite (Hi k b Hk) in Hk. set (s := session realtime evs) in *. clearbody s.
  simpl. rewrite Hk. unfold fetchData_resolve. simpl. rewrite Hm. simpl. rewrite Hm. simpl.
  by rewrite Ht.
Qed.

(** C29: in any session whose database answers carry distinct [id]s, the
    displayed rows have distinct [id]s: the initial load, the fallback,
    the realtime upsert and delete all keep them distinct. *)
Theorem session_ids_unique realtime evs :
  Forall wf_event evs -> NoDup (id <$> data (session realtime evs)).
Proof.
  unfold session, feed_run. assert (H0 : NoDup (id <$> data (mount realtime initialFeed))) by constructor.
  revert H0. generalize (mount realtime initialFeed). induction evs as [|e evs IH]; intros s Hs Hwf; [done|].
  apply Forall_cons in Hwf as [He Hwf]. simpl. apply IH; [by apply ids_step|done].
Qed.

(** The realtime upsert replaces the row with the payload's [id] and
    keeps every other row: on rows with distinct [id]s, a row is present
    afterwards exactly when it is the payload or an old row of another [id]. *)
Theorem upsert_by_id_spec response l x :
  NoDup (id <$> l) ->
  x ∈ upsert_by_id response l <-> x = response \/ (x ∈ l /\ id x <> id response).
Proof.
  intros Hnd. unfold upsert_by_id. destruct (findIndex _ l) as [index|] eqn:Hf.
  - by apply upsert_by_id_Some.
  - pose proof (findIndex_None _ _ Hf) as Hno. rewrite elem_of_app, list_elem_of_singleton.
    split.
    + intros [Hx|Hx]; [right|by left]. split; [done|]. intros Hid.
      specialize (Hno x Hx). simpl in Hno. by rewrite Hid, String.eqb_refl in Hno.
    + intros [Hx|[Hx _]]; [by right|by left].
Qed.

(** C31: the realtime handler does not keep the initial load's one row per
    attendee: in any session, once the channel delivers a valid new
    response (an [id] not shown yet) of an attendee already shown, the
    attendee is shown twice, where the initial load's [dedupe] keeps one
    row per attendee. *)
Theorem realtime_duplicates_attendee realtime evs x r :
  let s := session realtime evs in
  mounted s = true -> channel s = true -> validateResponse r = true ->
  x ∈ data s -> attendee_id x = attendee_id r -> id r ∉ id <$> data s ->
  ~ NoDup (attendee_id <$> data (feed_step s (RealtimeUpsert (Row (Some r))))).
Proof.
  intros s Hm Hc Hv Hx Ha Hid. rewrite (realtime_upsert_data s r Hm Hc Hv).
  rewrite (upsert_by_id_push r (data s) Hid), fmap_app. intros (_ & Hdis & _)%NoDup_app.
  apply (Hdis (attendee_id r)); [|by apply list_elem_of_singleton].
  apply list_elem_of_fmap. by exists x.
Qed.

(** C30: a row the realtime channel delivers while a fetch is still
    awaiting its [select] is lost when that fetch resolves with a snapshot
    that lacks it: in any session, [setData(validResponses)] replaces the
    list instead of merging. *)
Theorem initial_load_overwrites_realtime realtime evs k b r responses :
  let s := session realtime evs in
  mounted s = true -> channel s = true -> validateResponse r = true ->
  inflight s !! k = Some b -> (0 < length responses)%nat -> r ∉ responses ->
  let s1 := feed_step s (RealtimeUpsert (Row (Some r))) in
  r ∈ data s1 /\ r ∉ data (feed_step s1 (FetchResolves k (FetchOk responses))).
Proof.
  intros s Hm Hc Hv Hk Hlen Hr s1.
  assert (Hs1 : s1 = setData (upsert_by_id r (data s)) s)
    by (subst s1; simpl; rewrite Hc; unfold realtime_upsert; by rewrite Hm, Hv).
  split; [rewrite Hs1; apply upsert_by_id_self|].
  rewrite Hs1. simpl. rewrite Hk. unfold fetchData_resolve. simpl. rewrite Hm.
  apply Nat.ltb_lt in Hlen. rewrite Hlen. simpl. rewrite Hm. simpl.
  intros Hin. apply dedupe_sub, list_elem_of_In, filter_In in Hin as [Hin _].
  by apply Hr, list_elem_of_In.
Qed.

(** A fetch that resolves while mounted shows the deduplicated valid
    rows of a non-empty answer, or [mockData] for an empty one, clears the
    error and ends the loading state. *)
Theorem fetch_ok_loads realtime evs k b responses :
  mounted (session realtime evs) = true -> inflight (session realtime evs) !! k = Some b ->
  let s' := feed_step (session realtime evs) (FetchResolves k (FetchOk responses)) in
  data s' = (if Nat.ltb 0 (length responses) then dedupe (List.filter validateResponse responses) else mockData) /\
  isMockData s' = negb (Nat.ltb 0 (length responses)) /\ error s' = None /\ isLoading s' = false.
Proof.
  intros Hm Hk. set (s := session realtime evs) in *. clearbody s.
  simpl. rewrite Hk. unfold fetchData_resolve. simpl. rewrite Hm.
  destruct (Nat.ltb 0 (length responses)); simpl; by rewrite Hm.
Qed.

(** C14: every row the hook hands to the diagrams has the typed shape
    [validateResponse] checks (a non-negative numeric tenure, four
    non-empty answers, the joined attendee), in every session: the
    initial load filters, the fallback rows are valid and the realtime
    handler only upserts valid rows. *)
Theorem session_rows_valid realtime evs : rows_valid (data (session realtime evs)).
Proof. apply rows_valid_run. constructor. Qed.

(** ** Examples *)

Lemma fetch_error_no_retry_witness :
  data (feed_step (session true []) (FetchResolves 0 (FetchError "timeout"))) = mockData.
Proof. apply (fetch_error_no_retry true [] 0 false "timeout"); reflexivity. Defined.

Lemma fetch_ok_loads_witness :
  data (feed_step (session true []) (FetchResolves 0 (FetchOk [rowA1; rowA2; rowB]))) = [rowA2; rowB].
Proof.
  destruct (fetch_ok_loads true [] 0 false [rowA1; rowA2; rowB]) as [-> _]; [reflexivity|reflexivity|].
  vm_compute. reflexivity.
Defined.

Lemma session_ids_unique_witness :
  NoDup (id <$> data (session true [FetchResolves 0 (FetchOk [rowA1; rowB]); RealtimeUpsert (Row (Some rowA2));
                                    RealtimeDelete "r1"])).
Proof.
  apply session_ids_unique. constructor; [|constructor; [exact I|constructor; [exact I|constructor]]].
  change (NoDup (id <$> [rowA1; rowB])). apply (bool_decide_unpack _). vm_compute. exact I.
Defined.

Lemma upsert_by_id_spec_witness : rowB ∈ upsert_by_id rowA2 [rowA1; rowB].
Proof.
  apply (upsert_by_id_spec rowA2 [rowA1; rowB] rowB).
  - apply (bool_decide_unpack _). vm_compute. exact I.
  - right. split; [right; left|discriminate].
Defined.

Lemma realtime_duplicates_attendee_witness :
  ~ NoDup (attendee_id <$> data (feed_step (session true [FetchResolves 0 (FetchOk [rowA1])])
                                  (RealtimeUpsert (Row (Some rowA2))))).
Proof.
  apply (realtime_duplicates_attendee true [FetchResolves 0 (FetchOk [rowA1])] rowA1 rowA2);
    [reflexivity|reflexivity|reflexivity| |reflexivity|].
  - vm_compute. left.
  - vm_compute. intros H%list_elem_of_singleton. discriminate.
Defined.

Lemma initial_load_overwrites_realtime_witness :
  rowB ∉ data (feed_step (feed_step (session true []) (RealtimeUpsert (Row (Some rowB))))
                 (FetchResolves 0 (FetchOk [rowA1]))).
Proof.
  apply (initial_load_overwrites_realtime true [] 0 false rowB [rowA1]);
    [reflexivity|reflexivity|reflexivity|reflexivity|simpl; lia|].
  intros H%list_elem_of_singleton. discriminate.
Defined.
