(* ===== verification/AdminControls.v ===== *)
(** * The admin panel: [app/admin/controls/page.tsx]

    The page through which the settings of [AppContext] are edited: the
    toggles and the speed slider call the context's setters, and a grid of
    [ColorPicker]s, one per (category, answer) of the theme being edited,
    calls [updateCategoryColor] with the [colorEditMode] theme.

    A [ColorPicker] keeps its own [inputValue], initialised from its
    [color] prop when it mounts ([useState(color)]).  The native colour
    input passes its value on; the hex text field passes a value on only
    when it matches [/^#[0-9A-F]{6}$/i]; leaving the field resets an
    invalid text to the prop.  React keeps a picker's state while its key
    ([category], then [answer]) stays on the page, so the page state holds
    one [inputValue] per key, and a render mounts the pickers of keys not
    seen before.

    The theorems: the regular expression accepts exactly the strings
    [d3.color] parses as [#RRGGBB] (an equivalence of the validator with
    the parser of [Colors]); every colour the page writes keeps the
    settings' palettes made of such colours; and the text field shows a
    stale colour after [Reset to Defaults] or a change of the edited theme. *)

From S2P Require Import Prelude Survey Sankey Settings Colors.
From Stdlib Require Import Ascii.

Open Scope string_scope.

(** ** The hex validator *)

(** The class [[0-9A-F]] under the [i] flag: digits, [A-F] and [a-f]. *)
Definition hex_class (c : ascii) : bool :=
  let n := nat_of_ascii c in
  (((48 <=? n) && (n <=? 57)) || ((65 <=? n) && (n <=? 70)) || ((97 <=? n) && (n <=? 102)))%nat.

Fixpoint all_hex (s : string) : bool :=
  match s with
  | EmptyString => true
  | String c r => hex_class c && all_hex r
  end.

(** [/^#[0-9A-F]{6}$/i.test(value)] *)
Definition is_hex_color (s : string) : bool :=
  match s with
  | String "#" r => Nat.eqb (String.length r) 6 && all_hex r
  | _ => false
  end.

(** ** [ColorPicker] (lines 7-59) *)

(** [handleColorChange]: the native input's value is stored and passed on. *)
Definition handleColorChange (newColor : string) (inputValue : string) : string * option string :=
  (newColor, Some newColor).

(** [handleHexChange]: the text is stored; it is passed on when valid. *)
Definition handleHexChange (value : string) (inputValue : string) : string * option string :=
  (value, if is_hex_color value then Some value else None).

(** [handleHexBlur]: an invalid text is reset to the [color] prop. *)
Definition handleHexBlur (color : string) (inputValue : string) : string :=
  if is_hex_color inputValue then inputValue else color.

(** ** The page *)

Record Admin := mkAdmin {
  settings : VisualizationSettings;
  colorEditMode : Theme;
  pickers : @JsMap (string * string) string
}.

(** The (category, answer) keys of a theme's palette with their colours,
    in the order of the two [Object.entries] loops (lines 265-278). *)
Definition picker_entries (m : CategoryColors) : list ((string * string) * string) :=
  List.concat (map (fun '(category, answers) =>
    map (fun '(answer, color) => ((category, answer), color)) answers) m).

(** The palette the grid shows: [settings.categoryColors[colorEditMode]]. *)
Definition edited (a : Admin) : CategoryColors :=
  theme_colors (colorEditMode a) (categoryColors (settings a)).

(** A render: pickers whose key is new mount with the colour they are
    given; the others keep their state. *)
Definition reconcile (a : Admin) : Admin :=
  mkAdmin (settings a) (colorEditMode a)
    (fold_left (fun p '(k, color) => if map_has p k then p else map_set k color p)
       (picker_entries (edited a)) (pickers a)).

(** The [color] prop of a picker, and the text its hex field shows. *)
Definition picker_color (a : Admin) (category answer : string) : option string :=
  color_of (edited a) category answer.

Definition picker_text (a : Admin) (category answer : string) : option string :=
  map_get (pickers a) (category, answer).

(** The page's first render (line 119: [colorEditMode] starts at ['light']). *)
Definition admin_mount (s : VisualizationSettings) : Admin := reconcile (mkAdmin s ThemeLight []).

(** The [Slider]'s range input (lines 89-116): a browser only produces the
    positions [min + k * step] that do not exceed [max], and [onChange]
    receives [Number(e.target.value)]. *)
Definition slider_value (min max step : Q) (k : nat) : option Q :=
  let v := (min + inject_Z (Z.of_nat k) * step)%Q in
  if Qle_bool v max then Some v else None.

Inductive AdminEvent :=
| ResetClick
| ToggleDark
| ToggleTest
| ToggleAuto
| SlideSpeed (k : nat)   (** the speed slider moved to its [k]-th position *)
| EditMode (t : Theme)
| ColorInput (category answer value : string)
| HexInput (category answer value : string)
| HexBlur (category answer : string).

Definition with_settings (s : VisualizationSettings) (a : Admin) : Admin :=
  mkAdmin s (colorEditMode a) (pickers a).

(** A picker's handler, then its [onChange] on the emitted colour
    (line 275: [updateCategoryColor(category, answer, newColor, colorEditMode)]). *)
Definition picker_event (category answer : string) (h : string -> string * option string) (a : Admin) : Admin :=
  match map_get (pickers a) (category, answer) with
  | None => a
  | Some input =>
      let '(input', emitted) := h input in
      let a := mkAdmin (settings a) (colorEditMode a) (map_set (category, answer) input' (pickers a)) in
      match emitted with
      | Some newColor =>
          with_settings (updateCategoryColor (settings a) category answer newColor
                           (Some (colorEditMode a)) (settings a)) a
      | None => a
      end
  end.

(** One event of the page, and the render that follows it. *)
Definition admin_step (a : Admin) (e : AdminEvent) : Admin :=
  reconcile
    match e with
    | ResetClick => with_settings (resetToDefaults (settings a)) a
    | ToggleDark => with_settings (toggleDarkMode (settings a)) a
    | ToggleTest => with_settings (toggleTestData (settings a)) a
    | ToggleAuto => with_settings (toggleAutoPlay (settings a)) a
    | SlideSpeed k =>
        match slider_value 1000 10000 500 k with
        | Some v => with_settings (updateAutoPlaySpeed v (settings a)) a
        | None => a
        end
    | EditMode t => mkAdmin (settings a) t (pickers a)
    | ColorInput c ans v => picker_event c ans (handleColorChange v) a
    | HexInput c ans v => picker_event c ans (handleHexChange v) a
    | HexBlur c ans =>
        match map_get (pickers a) (c, ans) with
        | Some input =>
            mkAdmin (settings a) (colorEditMode a)
              (map_set (c, ans) (handleHexBlur (default "" (picker_color a c ans)) input) (pickers a))
        | None => a
        end
    end.

Definition admin_run (a : Admin) (evs : list AdminEvent) : Admin := fold_left admin_step evs a.

(** ** Predicates of the proofs *)

(** Every colour of a palette is a [#RRGGBB] colour. *)
Definition palette_valid (m : CategoryColors) : Prop :=
  forall category answer color, color_of m category answer = Some color -> is_hex_color color = true.

Definition settings_valid (s : VisualizationSettings) : Prop :=
  palette_valid (light (categoryColors s)) /\ palette_valid (dark (categoryColors s)).

(** Its check on a concrete palette. *)
Definition palette_hex (m : CategoryColors) : bool :=
  forallb (fun '(_, answers) => forallb (fun '(_, color) => is_hex_color color) answers) m.

(** The speed the slider allows. *)
Definition speed_ok (s : VisualizationSettings) : Prop := (1000 <= autoPlaySpeed s <= 10000)%Q.

(** The native colour input only yields [#rrggbb] values. *)
Definition wf_admin_event (e : AdminEvent) : Prop :=
  match e with
  | ColorInput _ _ value => is_hex_color value = true
  | _ => True
  end.

(** ** The validator and the parser *)

Lemma hex_class_digit c : hex_class c = match hex_digit c with Some _ => true | None => false end.
Proof. destruct c as [[] [] [] [] [] [] [] []]; reflexivity. Qed.

Ltac no_parse := split; [discriminate|intros [? Hp]; discriminate Hp].

(** C32: the hex field's regular expression and [d3.color]'s [#RRGGBB]
    parser accept the same strings: a colour passes [/^#[0-9A-F]{6}$/i]
    exactly when [parse_hex] reads three channels from it. *)
Theorem hex_color_parse s : is_hex_color s = true <-> is_Some (parse_hex s).
Proof.
  destruct s as [|c r]; [no_parse|].
  destruct c as [[] [] [] [] [] [] [] []]; try no_parse.
  destruct r as [|a1 [|a2 [|a3 [|a4 [|a5 [|a6 [|a7 r]]]]]]]; simpl; try no_parse.
  rewrite !hex_class_digit. unfold hex_byte.
  destruct (hex_digit a1), (hex_digit a2), (hex_digit a3), (hex_digit a4), (hex_digit a5), (hex_digit a6);
    simpl; split; intros H; try done; destruct H as [? H]; discriminate H.
Qed.

(** ** Palettes stay made of hex colours *)

Lemma palette_hex_valid m : palette_hex m = true -> palette_valid m.
Proof.
  intros Hm category answer color. unfold color_of.
  destruct (map_get m category) as [inner|] eqn:Hc; simpl; [|done]. intros Ha.
  apply map_get_Some, list_elem_of_In in Hc. apply map_get_Some, list_elem_of_In in Ha.
  unfold palette_hex in Hm. rewrite forallb_forall in Hm. specialize (Hm _ Hc). simpl in Hm.
  rewrite forallb_forall in Hm. exact (Hm _ Ha).
Qed.

Lemma defaultSettings_valid : settings_valid defaultSettings.
Proof. split; apply palette_hex_valid; vm_compute; reflexivity. Qed.

Lemma palette_valid_set m category answer color :
  palette_valid m -> is_hex_color color = true -> palette_valid (set_color m category answer color).
Proof.
  intros Hm Hcol c a col. destruct (decide ((c, a) = (category, answer))) as [[= -> ->]|Hne].
  - rewrite color_of_set_eq. congruence.
  - rewrite color_of_set_ne by done. apply Hm.
Qed.

Lemma settings_valid_update settings category answer color theme prev :
  settings_valid prev -> is_hex_color color = true ->
  settings_valid (updateCategoryColor settings category answer color theme prev).
Proof.
  intros [Hl Hd] Hcol. unfold updateCategoryColor, settings_valid. simpl.
  destruct (targetTheme settings theme); simpl; split; auto using palette_valid_set.
Qed.

Lemma picker_event_valid category answer h a :
  (forall input color, snd (h input) = Some color -> is_hex_color color = true) ->
  settings_valid (settings a) -> settings_valid (settings (picker_event category answer h a)).
Proof.
  intros Hh Hs. unfold picker_event. destruct (map_get _ _) as [input|]; [|done].
  specialize (Hh input). destruct (h input) as [input' [color|]]; simpl in *; [|done].
  by apply settings_valid_update, Hh.
Qed.

Lemma admin_step_valid a e :
  wf_admin_event e -> settings_valid (settings a) -> settings_valid (settings (admin_step a e)).
Proof.
  intros He Hs. destruct e; simpl.
  - apply defaultSettings_valid.
  - exact Hs.
  - exact Hs.
  - exact Hs.
  - destruct (slider_value _ _ _ _); exact Hs.
  - exact Hs.
  - apply picker_event_valid; [|done]. simpl. intros _ color [= <-]. exact He.
  - apply picker_event_valid; [|done]. simpl. intros _ color. case_match; [congruence|done].
  - destruct (map_get _ _); exact Hs.
Qed.

(** ** The speed stays on the slider's range *)

Lemma slider_value_range k v : slider_value 1000 10000 500 k = Some v -> (1000 <= v <= 10000)%Q.
Proof.
  unfold slider_value. destruct (Qle_bool _ _) eqn:E; [intros [= <-]|done].
  apply Qle_bool_iff in E. split; [|exact E].
  assert (Hk : (0 <= inject_Z (Z.of_nat k))%Q) by (change 0%Q with (inject_Z 0); rewrite <- Zle_Qle; lia).
  lra.
Qed.

Lemma picker_event_speed category answer h a :
  autoPlaySpeed (settings (picker_event category answer h a)) = autoPlaySpeed (settings a).
Proof.
  unfold picker_event. destruct (map_get _ _) as [input|]; [|done].
  by destruct (h input) as [input' [color|]].
Qed.

Lemma admin_step_speed a e : speed_ok (settings a) -> speed_ok (settings (admin_step a e)).
Proof.
  unfold speed_ok. intros Hs. destruct e; simpl; rewrite ?picker_event_speed; try exact Hs.
  - split; discriminate.
  - destruct (slider_value _ _ _ _) eqn:E; [by apply slider_value_range in E|exact Hs].
  - destruct (map_get _ _); exact Hs.
Qed.

(** Whatever the admin does, the auto-play speed stays between 1 s and
    10 s, the slider's range: the [|| 3000] fallback of the animation's
    timings is never taken. *)
Lemma admin_speed_bounded evs : speed_ok (settings (admin_run (admin_mount defaultSettings) evs)).
Proof.
  unfold admin_run. assert (H0 : speed_ok (settings (admin_mount defaultSettings))) by (split; discriminate).
  revert H0. generalize (admin_mount defaultSettings).
  induction evs as [|e evs IH]; intros a Ha; simpl; [done|]. by apply IH, admin_step_speed.
Qed.

(** C33: whatever the admin does on the page (toggles, slider, reset,
    colour swatches, typed hex codes, theme switch), both palettes of the
    settings only hold [#RRGGBB] colours, so [d3.color] reads every colour
    the diagrams are given from the settings. *)
Theorem admin_palettes_valid evs :
  Forall wf_admin_event evs -> settings_valid (settings (admin_run (admin_mount defaultSettings) evs)).
Proof.
  unfold admin_run. assert (H0 : settings_valid (settings (admin_mount defaultSettings)))
    by exact defaultSettings_valid.
  revert H0. generalize (admin_mount defaultSettings). induction evs as [|e evs IH]; intros a Ha Hwf; simpl; [done|].
  apply Forall_cons in Hwf as [He Hwf]. apply IH; [by apply admin_step_valid|done].
Qed.

(** A render keeps the state of every picker already mounted. *)
Lemma reconcile_keeps a k t :
  map_get (pickers a) k = Some t -> map_get (pickers (reconcile a)) k = Some t.
Proof.
  unfold reconcile. simpl. generalize (pickers a). generalize (picker_entries (edited a)).
  intros entries. induction entries as [|[k' color] entries IH]; intros p Hp; simpl; [done|].
  apply IH. unfold map_has. destruct (map_get p k') eqn:E; [done|].
  rewrite map_get_set_ne; [done|]. intros ->. congruence.
Qed.

(** C34: the hex text field goes stale: in any state of the page, a mounted
    picker keeps the text it shows across [Reset to Defaults] and across a
    change of the edited theme, while its swatch takes the default colour,
    or the other theme's colour, so the two disagree whenever that colour
    is not the text. *)
Theorem hex_text_stale a c ans t :
  picker_text a c ans = Some t ->
  picker_text (admin_step a ResetClick) c ans = Some t /\
  picker_color (admin_step a ResetClick) c ans = color_of (theme_colors (colorEditMode a) (categoryColors defaultSettings)) c ans /\
  (forall th, picker_text (admin_step a (EditMode th)) c ans = Some t /\
              picker_color (admin_step a (EditMode th)) c ans = color_of (theme_colors th (categoryColors (settings a))) c ans).
Proof.
  intros Ht. split_and!; [by apply reconcile_keeps|done|]. intros th. split; [by apply reconcile_keeps|done].
Qed.

Lemma admin_palettes_valid_witness :
  settings_valid (settings (admin_run (admin_mount defaultSettings)
    [ColorInput "motivation" "growth" "#00ff00"; HexInput "motivation" "growth" "#12"; ResetClick])).
Proof.
  apply admin_palettes_valid. constructor; [exact eq_refl|constructor; [exact I|constructor; [exact I|constructor]]].
Defined.

Lemma hex_text_stale_witness :
  let a := admin_step (admin_mount defaultSettings) (HexInput "years_at_medtronic" "0-5" "#123456") in
  picker_text (admin_step a ResetClick) "years_at_medtronic" "0-5" = Some "#123456".
Proof.
  apply (proj1 (hex_text_stale (admin_step (admin_mount defaultSettings) (HexInput "years_at_medtronic" "0-5" "#123456"))
                  "years_at_medtronic" "0-5" "#123456" ltac:(vm_compute; reflexivity))).
Defined.
