(* ===== verification/QuestionSelector.v ===== *)
(** * The question selector: [components/DataVisualization/shared/QuestionSelector.tsx]

    Two dropdowns over the diagram's [availableFields]: the source one
    disables the option of the current target, the target one that of the
    current source, and each calls [onChange] with the new pair.  A
    browser fires [change] only when the user picks an enabled option other
    than the selected one.

    The theorems: the selector never emits a pair with equal fields (the
    guard of the sequencer's [EvSelectSource]/[EvSelectTarget] events),
    and on the chord's fields the [ensureDifferentCategories] correction of
    the chord's [onChange] leaves every emitted pair unchanged. *)

From S2P Require Import Prelude Survey Categories Settings Chord.

Open Scope string_scope.

(** An [<option>]: its [value] and whether it is [disabled]. *)
Record FieldOption := mkOption {
  opt_value : Field.t;
  opt_disabled : bool
}.

(** [availableFields.map(field => <option ... disabled={field.value === other}>)]
    (lines 69-73 and 102-106). *)
Definition options (fields : list Field.t) (other : Field.t) : list FieldOption :=
  map (fun f => mkOption f (bool_decide (f = other))) fields.

(** The user picks [v] in a [select] showing [current]: the change event
    fires for an enabled option other than the current value. *)
Definition pick (opts : list FieldOption) (current v : Field.t) : option Field.t :=
  if bool_decide (v = current) then None
  else match List.find (fun o => bool_decide (opt_value o = v)) opts with
       | Some o => if opt_disabled o then None else Some v
       | None => None
       end.

(** [onChange={e => onChange(e.target.value, currentTarget)}] (line 67). *)
Definition onSourceChange (fields : list Field.t) (currentSource currentTarget v : Field.t)
    : option (Field.t * Field.t) :=
  (fun s => (s, currentTarget)) <$> pick (options fields currentTarget) currentSource v.

(** [onChange={e => onChange(currentSource, e.target.value)}] (line 100). *)
Definition onTargetChange (fields : list Field.t) (currentSource currentTarget v : Field.t)
    : option (Field.t * Field.t) :=
  (fun t => (currentSource, t)) <$> pick (options fields currentSource) currentTarget v.

(** The chord's [onChange] (ChordDiagram lines 831-835). *)
Definition chordOnChange (p : Field.t * Field.t) : Field.t * Field.t :=
  ensureDifferentCategories (fst p) (snd p).

(** ** Lemmas *)

Lemma find_options fields other v :
  v ∈ fields ->
  List.find (fun o => bool_decide (opt_value o = v)) (options fields other) = Some (mkOption v (bool_decide (v = other))).
Proof.
  induction fields as [|f fields IH]; simpl; [set_solver|].
  intros Hv. destruct (decide (f = v)) as [->|Hne].
  - by rewrite bool_decide_eq_true_2.
  - rewrite bool_decide_eq_false_2 by done. apply IH. set_solver.
Qed.

Lemma pick_spec fields current other v :
  v ∈ fields ->
  pick (options fields other) current v = if bool_decide (v = current) || bool_decide (v = other) then None else Some v.
Proof.
  intros Hv. unfold pick. rewrite find_options by done. simpl.
  by destruct (bool_decide (v = current)), (bool_decide (v = other)).
Qed.

Lemma pick_Some opts current v f : pick opts current v = Some f -> f = v.
Proof. unfold pick. repeat case_match; congruence. Qed.

Lemma elem_of_availableFields f : f ∈ availableFields.
Proof. destruct f; set_solver. Qed.

Lemma elem_of_chordFields f : f ∈ chordFields.
Proof. destruct f; set_solver. Qed.

(** A picked value is never the other dropdown's field. *)
Lemma pick_not_other fields current other v f :
  pick (options fields other) current v = Some f -> f <> other.
Proof.
  unfold pick. case_bool_decide; [done|].
  destruct (List.find _ _) as [o|] eqn:Hf; [|done].
  apply List.find_some in Hf as [Hin Hv]. apply bool_decide_eq_true_1 in Hv.
  apply in_map_iff in Hin as (g & <- & _). simpl in *. subst g.
  case_bool_decide; congruence.
Qed.

(** The selector never emits a pair of equal fields: a source picked in
    the source dropdown is not the current target, a target picked in the
    target dropdown is not the current source. *)
Lemma selector_distinct fields cs ct v s t :
  onSourceChange fields cs ct v = Some (s, t) \/ onTargetChange fields cs ct v = Some (s, t) -> s <> t.
Proof.
  unfold onSourceChange, onTargetChange.
  intros [H|H]; destruct (pick _ _ v) as [f|] eqn:Hp; simpl in H; try discriminate; injection H as <- <-.
  - exact (pick_not_other _ _ _ _ _ Hp).
  - intros ->. exact (pick_not_other _ _ _ _ _ Hp eq_refl).
Qed.

(** ** Properties *)

(** The chord's correction is redundant behind the selector: every
    pair the dropdowns emit on the chord's fields passes
    [ensureDifferentCategories] unchanged. *)
Theorem chord_select_uncorrected cs ct v p :
  onSourceChange chordFields cs ct v = Some p \/ onTargetChange chordFields cs ct v = Some p ->
  chordOnChange p = p.
Proof.
  intros Hp. destruct p as [s t]. unfold chordOnChange, ensureDifferentCategories. simpl.
  rewrite bool_decide_eq_false_2; [done|]. by eapply selector_distinct.
Qed.

Lemma chord_select_uncorrected_witness :
  chordOnChange (Field.motivation, Field.learning_style) = (Field.motivation, Field.learning_style).
Proof.
  apply (chord_select_uncorrected Field.years_at_medtronic Field.learning_style Field.motivation).
  left. reflexivity.
Defined.
