(* ===== verification/Pipeline.v ===== *)
(** * The feed and the diagrams together

    [ChordDiagram.tsx] renders the [data] of [useVisualizationData].  The
    chord's render throws a [TypeError] on a record with a missing answer
    ([chord_missing_answer_throws]); the feed only hands over rows that
    passed [validateResponse] ([session_rows_valid]).  On such rows every
    category of the connection matrix has an arc, so the composition never
    throws: the chord renders whatever the session delivered, whichever
    fields are shown and whatever the settings. *)

From S2P Require Import Prelude Survey Categories Settings Chord DataFeed.

Open Scope string_scope.

(** [const { data } = useVisualizationData()] (ChordDiagram line 68): the
    chord's render effect draws the rows the hook holds. *)
Definition chordOfFeed (settings : VisualizationSettings) (feed : Feed) (cs ct : Field.t) :=
  renderChord settings (data feed) cs ct.

(** ** Lemmas *)

Lemma nonempty_string_spec v : nonempty_string v = true -> exists s, v = Some s /\ s <> "".
Proof.
  destruct v as [s|]; simpl; [|discriminate].
  intros H%negb_true_iff%String.eqb_neq. eauto.
Qed.

(** A valid row answers every categorical field with a non-empty string. *)
Lemma valid_answer f d :
  validateResponse d = true -> f <> Field.years_at_medtronic ->
  exists s, string_field f d = Some s /\ s <> "".
Proof.
  unfold validateResponse. intros Hv Hf.
  repeat (apply andb_true_iff in Hv as [Hv ?]).
  destruct f; [done|..]; simpl; apply nonempty_string_spec; assumption.
Qed.

Lemma rows_valid_chordData b l : rows_valid l -> rows_valid (chordData b l).
Proof.
  unfold chordData. destruct b; [done|]. intros Hl. apply Forall_forall.
  intros x Hx%list_elem_of_In. apply filter_In in Hx as [Hx _]. apply list_elem_of_In in Hx.
  by eapply Forall_forall in Hl.
Qed.

(** On valid rows every category of the matrix is a side value. *)
Lemma categoryArray_side fd f x :
  rows_valid fd -> x ∈ categoryArray fd f -> x ∈ sideValues fd f.
Proof.
  intros Hfd (d & Hd & <-)%categoryArray_elem. unfold sideValues, is_years_field.
  case_bool_decide as Hy.
  - subst f. apply getYearsCategory_elem.
  - assert (Hv : validateResponse d = true) by (by eapply Forall_forall in Hfd).
    destruct (valid_answer f d Hv Hy) as (s & Hs & Hne).
    assert (Hk : category_key f d = s).
    { destruct f; try done; simpl in *; rewrite Hs; by destruct (String.eqb_spec s ""). }
    rewrite Hk. apply distinct_values_elem. split; [by exists d|done].
Qed.

Lemma categoryArray_length fd f :
  rows_valid fd -> (length (categoryArray fd f) <= length (sideValues fd f))%nat.
Proof.
  intros Hfd. apply submseteq_length, NoDup_submseteq; [apply categoryArray_NoDup|].
  intros x. by apply categoryArray_side.
Qed.

(** Every cell of the matrix has its two arcs, so the ribbon loop finishes. *)
Lemma connections_total fd cs ct colors dark :
  rows_valid fd ->
  is_Some (connections (connectionMatrix fd cs ct)
             (sideArcs fd cs colors dark leftStart) (sideArcs fd ct colors dark rightStart)).
Proof.
  intros Hfd. unfold connections. apply mapM_is_Some_2, Forall_forall.
  intros [[i j] v] Hc. destruct (cells_elem _ _ _ _ Hc) as (row & Hrow & Hv & _).
  unfold connectionMatrix in Hrow. rewrite list_lookup_fmap in Hrow.
  destruct (categoryArray fd cs !! i) as [sc|] eqn:Hi; simplify_eq/=.
  rewrite list_lookup_fmap in Hv. destruct (categoryArray fd ct !! j) as [tc|] eqn:Hj; simplify_eq/=.
  destruct (sideArcs_is_Some fd cs colors dark leftStart i) as [l Hl].
  { apply lookup_lt_Some in Hi. pose proof (categoryArray_length fd cs Hfd). lia. }
  destruct (sideArcs_is_Some fd ct colors dark rightStart j) as [r Hr].
  { apply lookup_lt_Some in Hj. pose proof (categoryArray_length fd ct Hfd). lia. }
  rewrite Hl, Hr. by eexists.
Qed.

(** ** Properties *)

(** C13: the chord never throws on the feed's data: in every session of
    [useVisualizationData], for any settings and any pair of fields, the
    chord's render completes, because the rows the feed delivers have all
    their answers. *)
Theorem chord_renders_session realtime evs settings cs ct :
  is_Some (chordOfFeed settings (session realtime evs) cs ct).
Proof.
  unfold chordOfFeed, renderChord. cbv zeta.
  destruct (connections_total (chordData (useTestData settings) (data (session realtime evs))) cs ct
              (categoryColors settings) (isDarkMode settings)) as [conns Hc].
  { apply rows_valid_chordData, rows_valid_run. constructor. }
  rewrite Hc. by eexists.
Qed.
