(* ===== verification/Highlight.v ===== *)
(** * The highlight effect of [AlluvialDiagram.tsx] (lines 989-1076)

    A second effect of the Sankey component repaints the drawn rectangles
    and paths whenever the sequencer's [hoveredSourceIndex],
    [hoveredTargetIndex] or [animationPhase] change.  It reads the source
    column in the animation's visual order ([sortedSources], the
    [visual_order] of [SankeyLayout]) and the target column in
    [sortedTargetsForHighlight] ([targetsForHighlight] of the sequencer),
    and compares the nodes that d3-sankey attached to each drawn link by
    their [name].

    The theorems: while a source value is highlighted, a target node is
    bright exactly when some counted record pairs that source value with the
    node's value, so the name-based [isConnected] test agrees with the
    data; and hovering a link or a node while the animation runs never
    shows its highlight, because the commit that follows re-runs the
    animation effect, whose cleanup resets the phase to [full], so every
    rectangle and path is repainted at its baseline.  The render effect's
    [isCategoryChange] test is false in every reachable state, since each
    change of the pair records the new pair as [lastCategoryChange] in the
    same batch: the draw-in of new links never plays. *)

From S2P Require Import Prelude Survey Categories Sankey Layout Sequencer.

Open Scope string_scope.

(** [arr[i]]: [undefined] outside the array. *)
Definition js_at {A} (l : list A) (i : Z) : option A :=
  if (i <? 0)%Z then None else l !! Z.to_nat i.

(** The node d3-sankey attaches to a link end: [find(nodeById, id)] in a
    [new Map(nodes.map(d => [id(d), d]))], where a later node of an id
    replaces an earlier one; its [name]. *)
Definition node_name_of (nodes : list SNode) (id : string) : option string :=
  node_name <$> List.find (fun n => String.eqb (node_id n) id) (rev nodes).

(** [name === x] for an [x] that may be [undefined]. *)
Definition name_is (name : string) (x : option string) : bool :=
  match x with Some x => String.eqb name x | None => false end.

(** [link.source.name === x] (or [link.target]): the end's node resolved
    by its id. *)
Definition end_is (g : SankeyGraph) (id : string) (x : option string) : bool :=
  match node_name_of (graph_nodes g) id with Some name => name_is name x | None => false end.

Section Highlight.
Context `{SankeyLayout} (env : Env).

(** The graph the render effect drew for the current pair of fields. *)
Definition drawnGraph (s : State) : SankeyGraph :=
  sankey_graph (env_data env) (currentSource (view s)) (currentTarget (view s)).

(** The animation's [sortedSources] memo (lines 230-285). *)
Definition highlightSources (s : State) : list string :=
  visual_order (env_data env) (currentSource (view s)) (currentTarget (view s)).

Definition isHighlighting (s : State) : bool := bool_decide (animationPhase (view s) = highlighting).

(** [svg.selectAll('path').data().some(link => link.source.name === hoveredSource
    && link.target.name === d.name)] over the drawn links. *)
Definition isConnected (s : State) (hoveredSource : option string) (name : string) : bool :=
  let g := drawnGraph s in
  existsb (fun l => end_is g (link_source l) hoveredSource && end_is g (link_target l) (Some name))
    (filteredLinks g).

(** The rectangles' [opacity] (lines 1011-1034). *)
Definition node_opacity (s : State) (d : SNode) : Q :=
  let v := view s in
  if String.eqb (node_category d) (Field.name (currentSource v)) then
    match hoveredSourceIndex v, isHighlighting s with
    | Some i, true => if name_is (node_name d) (js_at (highlightSources s) i) then 1 else 15 # 100
    | _, _ => 6 # 10
    end
  else
    match hoveredSourceIndex v, isHighlighting s with
    | Some i, true => if isConnected s (js_at (highlightSources s) i) (node_name d) then 1 else 15 # 100
    | _, _ =>
        match hoveredTargetIndex v, isHighlighting s with
        | Some j, true => if name_is (node_name d) (js_at (targetsForHighlight env s) j) then 1 else 15 # 100
        | _, _ => 6 # 10
        end
    end.

(** The rectangles' [stroke-width] (lines 1035-1041). *)
Definition node_stroke_width (s : State) (d : SNode) : Q :=
  let v := view s in
  if String.eqb (node_category d) (Field.name (currentSource v)) then
    match hoveredSourceIndex v, isHighlighting s with
    | Some i, true => if name_is (node_name d) (js_at (highlightSources s) i) then 3 else 1
    | _, _ => 1
    end
  else 1.

(** The paths' [opacity] (lines 1046-1067) under [settings.isDarkMode]. *)
Definition baseOpacity (dark : bool) : Q := if dark then 85 # 100 else 4 # 10.
Definition highlightOpacity (dark : bool) : Q := if dark then 1 else 95 # 100.
Definition dimOpacity (dark : bool) : Q := if dark then 35 # 100 else 5 # 100.

Definition link_opacity (dark : bool) (s : State) (d : SLink) : Q :=
  let v := view s in
  let g := drawnGraph s in
  if negb (isHighlighting s) then baseOpacity dark
  else match hoveredSourceIndex v with
       | Some i => if end_is g (link_source d) (js_at (highlightSources s) i)
                   then highlightOpacity dark else dimOpacity dark
       | None =>
           match hoveredTargetIndex v with
           | Some j => if end_is g (link_target d) (js_at (targetsForHighlight env s) j)
                       then highlightOpacity dark else dimOpacity dark
           | None => baseOpacity dark
           end
       end.

(** The paths' [stroke-width] (lines 1068-1075), [width] being the
    layout's [d.width]. *)
Definition link_stroke_width (s : State) (d : SLink) (width : Q) : Q :=
  match hoveredSourceIndex (view s), isHighlighting s with
  | Some i, true =>
      if end_is (drawnGraph s) (link_source d) (js_at (highlightSources s) i)
      then Qmax 2 (width * (12 # 10)) else Qmax 1 width
  | _, _ => Qmax 1 width
  end.

End Highlight.

(** [isCategoryChange] of the render effect (line 697): the draw-in
    animation of the new links plays only when it holds. *)
Definition isCategoryChange (v : View) : bool :=
  negb (bool_decide ((lastCategoryChange v).1 = currentSource v)) ||
  negb (bool_decide ((lastCategoryChange v).2 = currentTarget v)).

(** ** Lemmas *)

Definition lcc_ok (v : View) : Prop := lastCategoryChange v = (currentSource v, currentTarget v).

Definition dummy_node (n : SNode) : Prop := n = DUMMY_SOURCE_NODE \/ n = DUMMY_TARGET_NODE.

Section NodeFold.
Context {X : Type} (step : list SNode * @JsMap string SLink * bool -> X -> list SNode * @JsMap string SLink * bool).
Hypothesis Hgrow : forall acc x n, n ∈ acc.1.1 -> n ∈ (step acc x).1.1.
Hypothesis Hnew : forall acc x n, n ∈ (step acc x).1.1 -> n ∈ acc.1.1 \/ dummy_node n.

Lemma fold_nodes_grow xs acc n : n ∈ acc.1.1 -> n ∈ (fold_left step xs acc).1.1.
Proof. revert acc. induction xs as [|x xs IH]; intros acc Hn; simpl; [done|]. by apply IH, Hgrow. Qed.

Lemma fold_nodes_new xs acc n : n ∈ (fold_left step xs acc).1.1 -> n ∈ acc.1.1 \/ dummy_node n.
Proof.
  revert acc. induction xs as [|x xs IH]; intros acc Hn; simpl in *; [by left|].
  destruct (IH _ Hn) as [Hn'|]; [|by right]. by apply (Hnew acc x).
Qed.
End NodeFold.

Lemma dummy_source_step_grow acc t n : n ∈ acc.1.1 -> n ∈ (dummy_source_step acc t).1.1.
Proof. destruct acc as [[nodes m] []]; simpl; destruct (existsb _ _); simpl; set_solver. Qed.

Lemma dummy_source_step_new acc t n : n ∈ (dummy_source_step acc t).1.1 -> n ∈ acc.1.1 \/ dummy_node n.
Proof. unfold dummy_node. destruct acc as [[nodes m] []]; simpl; destruct (existsb _ _); simpl; set_solver. Qed.

Lemma dummy_target_step_grow acc t n : n ∈ acc.1.1 -> n ∈ (dummy_target_step acc t).1.1.
Proof. destruct acc as [[nodes m] []]; simpl; destruct (existsb _ _); simpl; set_solver. Qed.

Lemma dummy_target_step_new acc t n : n ∈ (dummy_target_step acc t).1.1 -> n ∈ acc.1.1 \/ dummy_node n.
Proof. unfold dummy_node. destruct acc as [[nodes m] []]; simpl; destruct (existsb _ _); simpl; set_solver. Qed.

(** The nodes of the graph: the two columns and the dummy nodes. *)
Lemma graph_nodes_spec data cs ct n :
  let g := sankey_graph data cs ct in
  (n ∈ column_nodes cs (sortedSources data cs) \/ n ∈ column_nodes ct (sortedTargets data ct) -> n ∈ graph_nodes g) /\
  (n ∈ graph_nodes g ->
   n ∈ column_nodes cs (sortedSources data cs) \/ n ∈ column_nodes ct (sortedTargets data ct) \/ dummy_node n).
Proof.
  intros g. subst g. rewrite sankey_graph_unfold. simpl. split.
  - intros Hn. apply (fold_nodes_grow _ dummy_target_step_grow). simpl.
    apply (fold_nodes_grow _ dummy_source_step_grow). simpl. set_solver.
  - intros [Hn|Hn]%(fold_nodes_new _ dummy_target_step_new); [|by right; right].
    simpl in Hn. apply (fold_nodes_new _ dummy_source_step_new) in Hn as [Hn|Hn]; simpl in Hn; [|by right; right].
    set_solver.
Qed.

Lemma nodeId_field_inj f f' x y : nodeId f x = nodeId f' y -> f = f'.
Proof. unfold nodeId. destruct f, f'; try done; intros H; discriminate H. Qed.

(** A [Map] lookup finds the name every node of the id carries. *)
Lemma node_name_of_spec nodes id x :
  (exists n, n ∈ nodes /\ node_id n = id) ->
  (forall n, n ∈ nodes -> node_id n = id -> node_name n = x) ->
  node_name_of nodes id = Some x.
Proof.
  intros (n & Hn & Hid) Hall. unfold node_name_of.
  destruct (List.find _ (rev nodes)) as [m|] eqn:Hf.
  - apply List.find_some in Hf as [Hm Heq%String.eqb_eq]. simpl. f_equal.
    apply Hall; [|done]. apply list_elem_of_In, in_rev, Hm.
  - eapply List.find_none in Hf; [|apply -> in_rev; by apply list_elem_of_In].
    by rewrite Hid, String.eqb_refl in Hf.
Qed.

(** The id of a listed value resolves to that value. *)
Lemma graph_name data cs ct f x :
  (f = cs /\ x ∈ sortedSources data cs) \/ (f = ct /\ x ∈ sortedTargets data ct) ->
  node_name_of (graph_nodes (sankey_graph data cs ct)) (nodeId f x) = Some x.
Proof.
  intros Hx. apply node_name_of_spec.
  - exists (mkNode (nodeId f x) x (Field.name f)). split; [|done].
    apply graph_nodes_spec. destruct Hx as [[-> Hx]|[-> Hx]]; [left|right]; apply column_nodes_elem; eauto.
  - intros n Hn Hid. apply graph_nodes_spec in Hn as [Hn|[Hn|[->| ->]]].
    1,2: apply column_nodes_elem in Hn as (x' & -> & _); simpl in *;
         pose proof (nodeId_field_inj _ _ _ _ Hid) as <-; by apply nodeId_inj in Hid.
    + by destruct (nodeId_not_dummy_source f x).
    + by destruct (nodeId_not_dummy_target f x).
Qed.

Lemma end_is_listed data cs ct f x o :
  (f = cs /\ x ∈ sortedSources data cs) \/ (f = ct /\ x ∈ sortedTargets data ct) ->
  end_is (sankey_graph data cs ct) (nodeId f x) o = name_is x o.
Proof. intros Hx. unfold end_is. by rewrite graph_name. Qed.

Lemma js_at_elem {A} (l : list A) i x : js_at l i = Some x -> x ∈ l.
Proof. unfold js_at. destruct (i <? 0)%Z; [done|]. apply list_elem_of_lookup_2. Qed.

Lemma highlightSources_elem `{SankeyLayout} env s x :
  x ∈ highlightSources env s -> x ∈ sortedSources (env_data env) (currentSource (view s)).
Proof. unfold highlightSources, sortedSources. by rewrite visual_order_perm, sortFor_Permutation. Qed.

(** A drawn link joins the hovered source to a target value exactly when a
    counted record has that pair of values. *)
Lemma isConnected_spec `{SankeyLayout} env s x y :
  let cs := currentSource (view s) in
  let ct := currentTarget (view s) in
  arrow_free cs (env_data env) = true ->
  x ∈ sortedSources (env_data env) cs -> y ∈ sortedTargets (env_data env) ct ->
  isConnected env s (Some x) y =
  bool_decide (Exists (fun d => accessor cs d = Some x /\ accessor ct d = Some y) (filteredData (env_data env) cs ct)).
Proof.
  intros cs ct Ha Hx Hy. unfold isConnected, drawnGraph. cbv zeta. fold cs ct.
  apply eq_iff_eq_true. rewrite bool_decide_eq_true, existsb_exists, Exists_exists. split.
  - intros (l & Hl%list_elem_of_In & Hends).
    destruct (filteredLinks_pair _ _ _ l Ha Hl) as (x' & y' & Hs & Ht & Hx' & Hy' & Hlo & Hv).
    rewrite Hs, Ht, !end_is_listed in Hends by auto. simpl in Hends.
    apply andb_true_iff in Hends as [->%String.eqb_eq ->%String.eqb_eq].
    rewrite Hv in Hlo. destruct (qcount_pos_inv _ _ Hlo) as (d & Hd & Hp%bool_decide_eq_true).
    by exists d.
  - intros (d & Hd & Hdx & Hdy).
    destruct (filteredLinks_cover _ _ _ d x y Ha Hd Hdx Hdy) as (l & Hl & Hs & Ht);
      [by apply sortedSources_elem in Hx as [_ ?]|by apply sortedTargets_elem in Hy as [_ ?]|].
    exists l. split; [by apply list_elem_of_In|].
    rewrite Hs, Ht, !end_is_listed by auto. simpl. by rewrite !String.eqb_refl.
Qed.

(** The drawn nodes outside the source column are the target column's. *)
Lemma drawn_target_node data cs ct n :
  n ∈ filteredNodes (sankey_graph data cs ct) -> node_category n <> Field.name cs ->
  exists y, n = mkNode (nodeId ct y) y (Field.name ct) /\ y ∈ sortedTargets data ct.
Proof.
  unfold filteredNodes. rewrite list_elem_of_In, filter_In, <- list_elem_of_In.
  intros [Hn Hd] Hc. apply graph_nodes_spec in Hn as [Hn|[Hn|[->| ->]]]; try done.
  - apply column_nodes_elem in Hn as (x & -> & _). done.
  - by apply column_nodes_elem.
Qed.

(** Outside the highlighting phase every rectangle and path is at its
    baseline. *)
Lemma highlight_at_rest `{SankeyLayout} env s dark :
  animationPhase (view s) <> highlighting ->
  (forall n, node_opacity env s n = 6 # 10 /\ node_stroke_width env s n = 1%Q) /\
  (forall l, link_opacity env dark s l = baseOpacity dark).
Proof.
  intros Hph. assert (Hh : isHighlighting s = false) by (by apply bool_decide_eq_false_2).
  split; [intros n|intros l]; unfold node_opacity, node_stroke_width, link_opacity; rewrite Hh; [|done].
  by repeat case_match.
Qed.

(** A commit after a handler stopped the animation ends in the [full]
    phase: the effect re-runs, its cleanup and its [!isAnimating] branch
    both call [setAnimationPhase('full')]. *)
Lemma commit_stopped `{SankeyLayout} env s :
  isAnimating (view s) = false -> effect_deps s <> Some (deps_of env s) ->
  animationPhase (view (commit env s)) = full.
Proof.
  intros Han Hd. unfold commit. rewrite bool_decide_eq_false_2 by done.
  assert (Hs1 : isAnimating (view (if effect_cleanup s then effect_teardown s else s)) = false).
  { destruct (effect_cleanup s); [|done]. unfold effect_teardown, clearTimer. by case_match. }
  unfold effect_body. rewrite Hs1. simpl. by destruct (_ || _).
Qed.

(** Entering a link or a node stops the animation and leaves the effect's
    recorded dependencies as they were. *)
Lemma pointer_enter_handler `{SankeyLayout} env ev s s1 :
  pointer_enter ev = true -> handler env ev s = Some s1 ->
  isAnimating (view s1) = false /\ effect_deps s1 = effect_deps s.
Proof.
  destruct ev; try done; intros _ [= <-]; unfold enterLink, enterNode, pauseAnimation, clearTimer;
    simpl; split; try done; by repeat case_match.
Qed.

(** *** Every change of the pair also records it as the last change *)

Lemma clearTimer_view s : view (clearTimer s) = view s.
Proof. unfold clearTimer. by case_match. Qed.

Lemma animate_lcc `{SankeyLayout} clo s : lcc_ok (view s) -> lcc_ok (view (animate clo s)).
Proof. unfold animate. by repeat case_match. Qed.

Lemma run_callback_lcc `{SankeyLayout} t s : lcc_ok (view s) -> lcc_ok (view (run_callback t s)).
Proof.
  intros Hs. unfold run_callback. destruct (t_cb t); repeat case_match; try done; by apply animate_lcc.
Qed.

Lemma pause_resume_lcc `{SankeyLayout} env s :
  (lcc_ok (view s) -> lcc_ok (view (pauseAnimation s))) /\
  (lcc_ok (view s) -> lcc_ok (view (resumeAnimation env s))).
Proof.
  split; intros Hs; [unfold pauseAnimation; case_match; [by rewrite clearTimer_view|done]|].
  unfold resumeAnimation. case_match; [by apply animate_lcc|done].
Qed.

Lemma commit_lcc `{SankeyLayout} env s : lcc_ok (view s) -> lcc_ok (view (commit env s)).
Proof.
  intros Hs. unfold commit. case_bool_decide; [done|].
  assert (H1 : lcc_ok (view (if effect_cleanup s then effect_teardown s else s))).
  { destruct (effect_cleanup s); [|done]. unfold effect_teardown, lcc_ok. simpl. by rewrite clearTimer_view. }
  revert H1. generalize (if effect_cleanup s then effect_teardown s else s). intros s1 H1.
  unfold effect_body. repeat case_match; simplify_eq/=; try done;
    try (unfold effect_teardown, lcc_ok; simpl; by rewrite clearTimer_view).
  by apply animate_lcc.
Qed.

Lemma step_lcc `{SankeyLayout} env ev s s' : lcc_ok (view s) -> step env ev s = Some s' -> lcc_ok (view s').
Proof.
  intros Hs. unfold step. destruct (handler env ev s) as [s1|] eqn:Eh; [|done]. intros [= <-].
  apply commit_lcc. destruct ev; simpl in Eh.
  - destruct (pending s); [done|]. injection Eh as <-. by apply run_callback_lcc.
  - injection Eh as <-. unfold enterLink, lcc_ok. simpl. by apply pause_resume_lcc.
  - injection Eh as <-. unfold enterNode, lcc_ok. simpl. by apply pause_resume_lcc.
  - destruct (hovering s); [|done]. injection Eh as <-. unfold leave, lcc_ok. simpl.
    destruct isLink; simpl; by apply pause_resume_lcc.
  - case_match; [done|]. by injection Eh as <-.
  - case_match; [done|]. by injection Eh as <-.
  - by injection Eh as <-.
Qed.

(** ** Properties *)

(** C11: while the sequencer highlights a source value [x], a drawn target
    node is bright (opacity 1) exactly when some counted record answers [x]
    in the source field and the node's value in the target field, and is
    dimmed (0.15) otherwise: the name-based [isConnected] test over the
    drawn links agrees with the data. *)
Theorem highlight_target_lit `{SankeyLayout} env s i x n :
  let cs := currentSource (view s) in
  let ct := currentTarget (view s) in
  arrow_free cs (env_data env) = true ->
  animationPhase (view s) = highlighting ->
  hoveredSourceIndex (view s) = Some i ->
  js_at (highlightSources env s) i = Some x ->
  n ∈ filteredNodes (drawnGraph env s) -> node_category n <> Field.name cs ->
  node_opacity env s n =
    if bool_decide (Exists (fun d => accessor cs d = Some x /\ accessor ct d = Some (node_name n))
                      (filteredData (env_data env) cs ct))
    then 1%Q else 15 # 100.
Proof.
  intros cs ct Ha Hph Hi Hx Hn Hc.
  destruct (drawn_target_node _ _ _ n Hn Hc) as (y & -> & Hy). simpl in *.
  unfold node_opacity, isHighlighting. cbn [node_category node_name]. fold cs ct.
  rewrite (proj2 (String.eqb_neq (Field.name ct) (Field.name cs)) Hc), Hi, Hx, Hph.
  rewrite bool_decide_eq_true_2 by done.
  rewrite isConnected_spec; [done|done| |done]. apply highlightSources_elem. by eapply js_at_elem.
Qed.

Lemma highlight_target_lit_witness :
  node_opacity demoEnv demoMounted (mkNode (nodeId Field.learning_style "visual") "visual" "learning_style") =
  if bool_decide (Exists (fun d => accessor Field.years_at_medtronic d = Some "0-5" /\
                                   accessor Field.learning_style d = Some "visual")
                    (filteredData (env_data demoEnv) Field.years_at_medtronic Field.learning_style))
  then 1%Q else 15 # 100.
Proof.
  apply (highlight_target_lit demoEnv demoMounted 0 "0-5");
    [vm_compute; reflexivity|vm_compute; reflexivity|vm_compute; reflexivity|vm_compute; reflexivity| |vm_compute; discriminate].
  apply list_elem_of_In. vm_compute. auto 20.
Defined.

(** C10: hovering never shows its highlight while the animation runs:
    entering a link or a node sets the [highlighting] phase and
    [isAnimating = false], but the commit that follows re-runs the
    animation effect, whose cleanup sets the phase back to [full], so every
    rectangle and path is repainted at its baseline and the hovered element
    is not emphasized. *)
Theorem hover_highlight_erased `{SankeyLayout} env s ev s' dark :
  reachable env s -> isAnimating (view s) = true -> pointer_enter ev = true -> step env ev s = Some s' ->
  (forall n, node_opacity env s' n = 6 # 10 /\ node_stroke_width env s' n = 1%Q) /\
  (forall l, link_opacity env dark s' l = baseOpacity dark).
Proof.
  intros Hr Han Hev Hstep. apply highlight_at_rest.
  unfold step in Hstep. destruct (handler env ev s) as [s1|] eqn:Eh; [|done]. injection Hstep as <-.
  destruct (pointer_enter_handler env ev s s1 Hev Eh) as [Han1 Hd1].
  rewrite commit_stopped; [done|done|].
  rewrite Hd1, (proj2 (reachable_inv env s Hr)). intros Hdeps.
  apply (f_equal (option_map dep_isAnimating)) in Hdeps. simpl in Hdeps. congruence.
Qed.

Lemma hover_highlight_erased_witness :
  step demoEnv (EvEnterNode Field.learning_style "visual") demoMounted =
    Some (default demoMounted (step demoEnv (EvEnterNode Field.learning_style "visual") demoMounted)) /\
  node_opacity demoEnv (default demoMounted (step demoEnv (EvEnterNode Field.learning_style "visual") demoMounted))
    (mkNode (nodeId Field.learning_style "visual") "visual" "learning_style") = 6 # 10.
Proof.
  assert (Hs : step demoEnv (EvEnterNode Field.learning_style "visual") demoMounted =
    Some (default demoMounted (step demoEnv (EvEnterNode Field.learning_style "visual") demoMounted)))
    by (vm_compute; reflexivity).
  split; [exact Hs|].
  refine (proj1 (proj1 (hover_highlight_erased demoEnv demoMounted (EvEnterNode Field.learning_style "visual")
                          _ false _ _ _ Hs) _)); [apply reach_mount|vm_compute; reflexivity|reflexivity].
Defined.

(** C12: the draw-in animation of new links never plays: every place that
    changes the pair of fields (the target and source changes of [animate],
    the question selector) sets [lastCategoryChange] to the new pair in
    the same batch, so in every state the component renders,
    [isCategoryChange] is false, while the spec asks for the stroke reveal
    exactly when the pair changed. *)
Theorem draw_in_never_plays `{SankeyLayout} env s :
  reachable env s -> isCategoryChange (view s) = false.
Proof.
  intros Hr. assert (Hl : lcc_ok (view s)).
  { induction Hr as [enabled speed|s ev s' _ IH Hstep]; [by apply commit_lcc|by eapply step_lcc]. }
  unfold isCategoryChange. rewrite Hl. simpl. by rewrite !bool_decide_eq_true_2.
Qed.

Lemma draw_in_never_plays_witness :
  isCategoryChange (view (default demoMounted (run demoEnv [EvTimer; EvSelectTarget Field.motivation] demoMounted)))
    = false.
Proof.
  apply (draw_in_never_plays demoEnv).
  apply (run_reachable demoEnv [EvTimer; EvSelectTarget Field.motivation] demoMounted); [apply reach_mount|].
  vm_compute. reflexivity.
Defined.
