(* ===== verification/ChordCycle.v ===== *)
(** * The chord's auto-cycle and rotation: [ChordDiagram.tsx] lines 66-335

    The chord component keeps the shown pair of fields, the last category
    change, a rotation angle and whether the secondary chord is shown.
    Three effects drive it: a correction of the initial pair (lines
    263-270), an interval that moves to the next entry of [cyclingModes]
    (lines 272-317) and an interval that turns [rotationAngle] by half a
    degree every 100 ms (lines 319-328).  The question selector's
    [onChange] (lines 831-836) sets a corrected pair.

    [cyclingModes] comes from [shared/chordUtils], which is not in the
    repository: it is a variable of the section, and every theorem holds
    for any list of modes.  React's commit ([chord_commit]) runs the secondary-chord effect
    (lines 94-97) and the render effect (lines 337-770), which redraws the
    whole chart whenever one of its dependencies changed; [redraws] counts
    those runs.

    The theorems: the two fields always differ and the angle stays in
    [0, 360); with valid distinct modes each tick moves to the next mode,
    so the cycle visits them all in order; a mode whose source equals its
    target is not skipped but stops the cycle for good; and a rotation tick
    redraws the same chart, since the drawing never reads the angle. *)

From S2P Require Import Prelude Survey Categories Settings Chord.
From Stdlib Require Import Qround.

Open Scope Z_scope.

(** An entry of [cyclingModes]: [{ source, target }]. *)
Record Mode := mkMode {
  mode_source : Field.t;
  mode_target : Field.t
}.

Definition mode_pair (m : Mode) : Field.t * Field.t := (mode_source m, mode_target m).

(** [arr.findIndex(p)]: the first index where [p] holds, [-1] if none. *)
Fixpoint js_findIndex {A} (p : A -> bool) (l : list A) : Z :=
  match l with
  | [] => -1
  | x :: l' => if p x then 0 else let i := js_findIndex p l' in if i <? 0 then -1 else i + 1
  end.

(** The state of the component the cycle reads and writes. *)
Record ChordState := mkChordState {
  currentSource : Field.t;
  currentTarget : Field.t;
  lastCategoryChange : Field.t * Field.t;
  rotationAngle : Q;
  showSecondaryChord : bool;
  show_deps : option (Field.t * Field.t);         (** last dependencies of the secondary-chord effect *)
  render_deps : option (Field.t * Field.t * Q * (Field.t * Field.t) * bool);
  redraws : nat;                                  (** runs of the render effect *)
  notified : list (Field.t * Field.t)             (** calls of [onRelationshipChange] *)
}.

(** The props and settings the effects read. *)
Record ChordEnv := mkChordEnv {
  autoPlay : bool;
  enableRotation : bool;
  chord_autoPlayEnabled : bool   (** [settings.isAutoPlayEnabled] *)
}.

Section Cycle.
Variable cyclingModes : list Mode.
Variable env : ChordEnv.

Definition set_pair (p : Field.t * Field.t) (s : ChordState) : ChordState :=
  mkChordState p.1 p.2 (lastCategoryChange s) (rotationAngle s) (showSecondaryChord s)
    (show_deps s) (render_deps s) (redraws s) (notified s).
Definition set_lastCategoryChange (p : Field.t * Field.t) (s : ChordState) : ChordState :=
  mkChordState (currentSource s) (currentTarget s) p (rotationAngle s) (showSecondaryChord s)
    (show_deps s) (render_deps s) (redraws s) (notified s).
Definition set_rotation (a : Q) (s : ChordState) : ChordState :=
  mkChordState (currentSource s) (currentTarget s) (lastCategoryChange s) a (showSecondaryChord s)
    (show_deps s) (render_deps s) (redraws s) (notified s).
Definition set_show (b : bool) (d : option (Field.t * Field.t)) (s : ChordState) : ChordState :=
  mkChordState (currentSource s) (currentTarget s) (lastCategoryChange s) (rotationAngle s) b
    d (render_deps s) (redraws s) (notified s).
Definition set_render (d : option (Field.t * Field.t * Q * (Field.t * Field.t) * bool)) (n : nat)
    (s : ChordState) : ChordState :=
  mkChordState (currentSource s) (currentTarget s) (lastCategoryChange s) (rotationAngle s)
    (showSecondaryChord s) (show_deps s) d n (notified s).
Definition chord_notify (p : Field.t * Field.t) (s : ChordState) : ChordState :=
  mkChordState (currentSource s) (currentTarget s) (lastCategoryChange s) (rotationAngle s)
    (showSecondaryChord s) (show_deps s) (render_deps s) (redraws s) (notified s ++ [p])%list.

(** The interval callback of the auto-cycle (lines 288-311); [None] is the
    [TypeError] of reading [.source] of [undefined] when [cyclingModes] is
    empty ([x % 0] is [NaN]). *)
(** [cyclingModes.findIndex(mode => mode.source === currentSource && mode.target === currentTarget)] *)
Definition currentModeIndex (s : ChordState) : Z :=
  js_findIndex (fun m => bool_decide (mode_source m = currentSource s) &&
                         bool_decide (mode_target m = currentTarget s)) cyclingModes.

(** [(currentModeIndex + 1) % cyclingModes.length] *)
Definition nextModeIndex (s : ChordState) : Z :=
  Z.rem (currentModeIndex s + 1) (Z.of_nat (length cyclingModes)).

Definition cycle_tick (s : ChordState) : option ChordState :=
  if Z.of_nat (length cyclingModes) =? 0 then None
  else
    match cyclingModes !! Z.to_nat (nextModeIndex s) with
    | None => None
    | Some nextMode =>
        if bool_decide (mode_source nextMode = mode_target nextMode) then Some s
        else Some (chord_notify (mode_source nextMode, mode_target nextMode)
                     (set_lastCategoryChange (mode_source nextMode, mode_target nextMode)
                        (set_pair (mode_source nextMode, mode_target nextMode) s)))
    end.

(** [setRotationAngle(prev => (prev + 0.5) % 360)] (line 324), with
    JavaScript's truncating [%]. *)
Definition rotate_tick (s : ChordState) : ChordState :=
  set_rotation (js_rem (rotationAngle s + (1 # 2)) 360) s.

(** The selector's [onChange] (lines 831-836). *)
Definition select_pair (p : Field.t * Field.t) (s : ChordState) : ChordState :=
  let corrected := ensureDifferentCategories p.1 p.2 in
  set_lastCategoryChange corrected (set_pair corrected s).

(** [currentSource === 'peak_performance' || currentTarget === 'peak_performance'] *)
Definition peak_involved (s : ChordState) : bool :=
  bool_decide (currentSource s = Field.peak_performance) || bool_decide (currentTarget s = Field.peak_performance).

Definition chord_deps_of (s : ChordState) : Field.t * Field.t * Q * (Field.t * Field.t) * bool :=
  (currentSource s, currentTarget s, rotationAngle s, lastCategoryChange s, showSecondaryChord s).

(** React compares each dependency with [Object.is]: numbers by value. *)
Definition deps_eqb (a b : Field.t * Field.t * Q * (Field.t * Field.t) * bool) : bool :=
  let '(s1, t1, r1, l1, b1) := a in
  let '(s2, t2, r2, l2, b2) := b in
  bool_decide (s1 = s2) && bool_decide (t1 = t2) && Qeq_bool r1 r2 && bool_decide (l1 = l2) && Bool.eqb b1 b2.

(** The render effect run by a commit of the render that showed [seen]:
    it redraws when its dependencies changed. *)
Definition render_effect (seen s : ChordState) : ChordState :=
  match render_deps s with
  | Some d => if deps_eqb d (chord_deps_of seen) then s else set_render (Some (chord_deps_of seen)) (S (redraws s)) s
  | None => set_render (Some (chord_deps_of seen)) (S (redraws s)) s
  end.

(** React's commit: the secondary-chord effect and the render effect run
    in declaration order on the committed render; when the first one
    changed [showSecondaryChord], React renders again and the render effect
    runs on that render too. *)
Definition chord_commit (s : ChordState) : ChordState :=
  let pair := (currentSource s, currentTarget s) in
  let show' := if bool_decide (show_deps s = Some pair) then showSecondaryChord s else peak_involved s in
  let s1 := render_effect s (set_show (showSecondaryChord s) (Some pair) s) in
  let s2 := set_show show' (Some pair) s1 in
  render_effect s2 s2.

(** The mount: the [useState] initial values, the correction effect of
    lines 263-270 (a no-op on [years_at_medtronic]/[learning_style]), and
    the first commit. *)
Definition chord_initial : ChordState :=
  mkChordState Field.years_at_medtronic Field.learning_style
    (Field.years_at_medtronic, Field.learning_style) 0%Q false None None 0%nat [].

Definition chord_mount : ChordState :=
  let corrected := ensureDifferentCategories Field.years_at_medtronic Field.learning_style in
  chord_commit (if bool_decide (corrected = (Field.years_at_medtronic, Field.learning_style)) then chord_initial
          else set_pair corrected chord_initial).

Inductive ChordEvent :=
| CycleTick                        (** the auto-cycle interval fires *)
| RotateTick                       (** the rotation interval fires *)
| SelectPair (p : Field.t * Field.t).  (** the selector's [onChange(source, target)] *)

(** An interval only exists while its effect's guard holds. *)
Definition chord_handler (ev : ChordEvent) (s : ChordState) : option ChordState :=
  match ev with
  | CycleTick => if autoPlay env && chord_autoPlayEnabled env then cycle_tick s else None
  | RotateTick =>
      if autoPlay env && enableRotation env && chord_autoPlayEnabled env then Some (rotate_tick s) else None
  | SelectPair p => Some (select_pair p s)
  end.

Definition chord_step (ev : ChordEvent) (s : ChordState) : option ChordState :=
  chord_commit <$> chord_handler ev s.

Fixpoint chord_run (evs : list ChordEvent) (s : ChordState) : option ChordState :=
  match evs with
  | [] => Some s
  | ev :: evs' => match chord_step ev s with Some s' => chord_run evs' s' | None => None end
  end.

Inductive chord_reachable : ChordState -> Prop :=
| chord_reach_mount : chord_reachable chord_mount
| chord_reach_step ev s s' : chord_reachable s -> chord_step ev s = Some s' -> chord_reachable s'.

End Cycle.

(** ** Lemmas *)

(** A committed state: both effects have seen its current values. *)
Definition fresh (s : ChordState) : Prop :=
  (exists d, render_deps s = Some d /\ deps_eqb d (chord_deps_of s) = true) /\
  show_deps s = Some (currentSource s, currentTarget s).

Definition chord_inv (s : ChordState) : Prop :=
  currentSource s <> currentTarget s /\ (0 <= rotationAngle s < 360)%Q.

Lemma deps_eqb_refl d : deps_eqb d d = true.
Proof.
  destruct d as [[[[s t] r] l] b]. simpl.
  rewrite !bool_decide_eq_true_2, Qeq_bool_refl by done. by destruct b.
Qed.

(** A tick keeps the angle in [[0, 360)]. *)
Lemma rotation_step_bounds r : (0 <= r < 360)%Q -> (0 <= js_rem (r + (1 # 2)) 360 < 360)%Q.
Proof. intros Hr. apply js_rem_bounds; lra. Qed.


Lemma js_findIndex_lookup {A} (p : A -> bool) l k x :
  l !! k = Some x -> p x = true -> (forall j y, (j < k)%nat -> l !! j = Some y -> p y = false) ->
  js_findIndex p l = Z.of_nat k.
Proof.
  revert k. induction l as [|a l IH]; intros [|k] Hk Hp Hb; simpl in *; try done.
  - injection Hk as ->. by rewrite Hp.
  - rewrite (Hb 0%nat a) by (done || lia).
    rewrite (IH k Hk Hp); [|intros j y ? ?; apply (Hb (S j) y); [lia|done]].
    destruct (Z.ltb_spec (Z.of_nat k) 0); lia.
Qed.


(** A tick always moves the angle: [360 * k] is never [1/2]. *)
Lemma js_rem_rotates a : ~ (js_rem (a + (1 # 2)) 360 == a)%Q.
Proof.
  unfold js_rem. set (f := js_trunc ((a + (1 # 2)) / 360)). intros Heq.
  destruct (Z.le_gt_cases f 0) as [Hf|Hf].
  - rewrite Zle_Qle in Hf. change (inject_Z 0) with 0%Q in Hf. lra.
  - assert (Hf' : (1 <= inject_Z f)%Q) by (change 1%Q with (inject_Z 1); rewrite <- Zle_Qle; lia). lra.
Qed.

Lemma deps_eqb_angle d x y :
  deps_eqb d (chord_deps_of x) = true -> deps_eqb d (chord_deps_of y) = true -> (rotationAngle x == rotationAngle y)%Q.
Proof.
  destruct d as [[[[a b] r] l] c]. unfold deps_eqb, chord_deps_of.
  rewrite !andb_true_iff, !Qeq_bool_iff. intros (((_ & H1) & _) & _) (((_ & H2) & _) & _). lra.
Qed.

Lemma set_show_id s : show_deps s = Some (currentSource s, currentTarget s) ->
  set_show (showSecondaryChord s) (Some (currentSource s, currentTarget s)) s = s.
Proof. destruct s; simpl. by intros ->. Qed.

Section Props.
Variable cyclingModes : list Mode.
Variable env : ChordEnv.

Lemma render_effect_keeps seen s :
  currentSource (render_effect seen s) = currentSource s /\ currentTarget (render_effect seen s) = currentTarget s /\
  rotationAngle (render_effect seen s) = rotationAngle s /\
  lastCategoryChange (render_effect seen s) = lastCategoryChange s /\
  showSecondaryChord (render_effect seen s) = showSecondaryChord s /\ show_deps (render_effect seen s) = show_deps s /\
  notified (render_effect seen s) = notified s.
Proof. unfold render_effect. by repeat case_match. Qed.

(** A commit changes only what the effects own. *)
Lemma commit_keeps s :
  currentSource (chord_commit s) = currentSource s /\ currentTarget (chord_commit s) = currentTarget s /\
  rotationAngle (chord_commit s) = rotationAngle s /\ lastCategoryChange (chord_commit s) = lastCategoryChange s /\
  notified (chord_commit s) = notified s.
Proof.
  unfold chord_commit. cbv zeta.
  lazymatch goal with |- context [render_effect ?x ?x] =>
    destruct (render_effect_keeps x x) as (-> & -> & -> & -> & _ & _ & ->) end.
  simpl.
  lazymatch goal with |- context [render_effect ?a ?b] =>
    destruct (render_effect_keeps a b) as (-> & -> & -> & -> & _ & _ & ->) end.
  done.
Qed.

Lemma render_effect_fresh s : exists d, render_deps (render_effect s s) = Some d /\ deps_eqb d (chord_deps_of (render_effect s s)) = true.
Proof.
  unfold render_effect. destruct (render_deps s) as [d|] eqn:Hd; [destruct (deps_eqb d _) eqn:He|].
  - by exists d.
  - eexists; split; [done|]. apply deps_eqb_refl.
  - eexists; split; [done|]. apply deps_eqb_refl.
Qed.

Lemma chord_commit_fresh s : fresh (chord_commit s).
Proof.
  split; [unfold chord_commit; cbv zeta; apply render_effect_fresh|].
  unfold chord_commit. cbv zeta.
  lazymatch goal with |- context [render_effect ?x ?x] =>
    destruct (render_effect_keeps x x) as (-> & -> & _ & _ & _ & -> & _) end.
  simpl.
  lazymatch goal with |- context [render_effect ?a ?b] =>
    destruct (render_effect_keeps a b) as (-> & -> & _) end.
  done.
Qed.

Lemma chord_fresh_commit s : fresh s -> chord_commit s = s.
Proof.
  intros [(d & Hd & He) Hsd]. unfold chord_commit. cbv zeta. rewrite Hsd, bool_decide_eq_true_2 by done.
  assert (Hs := set_show_id s Hsd).
  assert (Hr : render_effect s s = s) by (unfold render_effect; by rewrite Hd, He).
  by rewrite Hs, Hr, Hs, Hr.
Qed.

Lemma chord_mount_eq : chord_mount = chord_commit chord_initial.
Proof. reflexivity. Qed.

Lemma chord_reachable_fresh s : chord_reachable cyclingModes env s -> fresh s.
Proof.
  destruct 1 as [|ev s0 s' _ Hstep]; [rewrite chord_mount_eq; apply chord_commit_fresh|].
  unfold chord_step in Hstep. destruct (chord_handler _ _ ev s0); simplify_eq/=. apply chord_commit_fresh.
Qed.

(** A tick stays put or moves to a valid mode of the list. *)
Lemma cycle_tick_cases s s' :
  cycle_tick cyclingModes s = Some s' ->
  s' = s \/ (exists m, m ∈ cyclingModes /\ mode_source m <> mode_target m /\
             currentSource s' = mode_source m /\ currentTarget s' = mode_target m /\
             rotationAngle s' = rotationAngle s).
Proof.
  unfold cycle_tick. case_match; [done|].
  destruct (cyclingModes !! _) as [m|] eqn:Hm; [|done]. case_bool_decide; intros [= <-]; [by left|].
  right. exists m. split_and!; try done. by eapply list_elem_of_lookup_2.
Qed.

Lemma chord_step_inv ev s s' : chord_inv s -> chord_step cyclingModes env ev s = Some s' -> chord_inv s'.
Proof.
  unfold chord_step. destruct (chord_handler _ _ ev s) as [s1|] eqn:Eh; [|done]. intros [Hd Ha] [= <-].
  unfold chord_inv. destruct (commit_keeps s1) as (-> & -> & -> & _).
  destruct ev; simpl in Eh.
  - destruct (_ && _); [|done]. destruct (cycle_tick_cases s s1 Eh) as [->|(m & _ & Hm & -> & -> & ->)]; done.
  - destruct (_ && _ && _); [|done]. injection Eh as <-. split; [done|]. by apply rotation_step_bounds.
  - injection Eh as <-. simpl. destruct (ensureDifferentCategories_spec p.1 p.2) as (H1 & H2 & _).
    destruct (ensureDifferentCategories p.1 p.2) as [a b]. simpl in *. subst. auto.
Qed.


(** On distinct modes, the shown pair is found at its own index, and the
    tick moves to the next index modulo the length. *)
Lemma nextModeIndex_at s k m :
  NoDup (mode_pair <$> cyclingModes) -> cyclingModes !! k = Some m ->
  currentSource s = mode_source m -> currentTarget s = mode_target m ->
  nextModeIndex cyclingModes s = Z.of_nat ((S k) mod length cyclingModes).
Proof.
  intros Hnd Hk Hs Ht. unfold nextModeIndex, currentModeIndex.
  rewrite (js_findIndex_lookup _ _ k m Hk).
  - assert (Hlen : (k < length cyclingModes)%nat) by (by eapply lookup_lt_Some).
    rewrite Nat2Z.inj_mod, Z.rem_mod_nonneg by lia. f_equal. lia.
  - rewrite Hs, Ht. by rewrite !bool_decide_eq_true_2.
  - intros j y Hj Hy. destruct (bool_decide (mode_source y = _)) eqn:E1; [|done].
    destruct (bool_decide (mode_target y = _)) eqn:E2; [|done].
    apply bool_decide_eq_true in E1, E2. exfalso.
    assert (j = k); [|lia]. apply (NoDup_lookup _ _ _ (mode_pair m) Hnd).
    + rewrite list_lookup_fmap, Hy. simpl. unfold mode_pair. congruence.
    + by rewrite list_lookup_fmap, Hk.
Qed.

Lemma cycle_tick_next s k m :
  Forall (fun m => mode_source m <> mode_target m) cyclingModes -> NoDup (mode_pair <$> cyclingModes) ->
  cyclingModes !! k = Some m -> currentSource s = mode_source m -> currentTarget s = mode_target m ->
  exists m', cyclingModes !! ((S k) mod length cyclingModes)%nat = Some m' /\
    cycle_tick cyclingModes s = Some (chord_notify (mode_pair m') (set_lastCategoryChange (mode_pair m') (set_pair (mode_pair m') s))).
Proof.
  intros Hv Hnd Hk Hs Ht.
  assert (Hlen : (k < length cyclingModes)%nat) by (by eapply lookup_lt_Some).
  destruct (lookup_lt_is_Some_2 cyclingModes ((S k) mod length cyclingModes)%nat) as [m' Hm'].
  { apply Nat.mod_upper_bound. lia. }
  exists m'. split; [done|]. unfold cycle_tick.
  rewrite (proj2 (Z.eqb_neq _ 0)) by lia. rewrite (nextModeIndex_at s k m), Nat2Z.id, Hm' by done.
  rewrite bool_decide_eq_false_2; [done|]. apply (proj1 (Forall_forall _ _) Hv m'). by eapply list_elem_of_lookup_2.
Qed.

(** A rotation tick redraws the chart once, with the same pair, last
    change and secondary chord: the drawing never reads the angle. *)
Lemma rotate_tick_redraw s s' :
  fresh s -> chord_step cyclingModes env RotateTick s = Some s' ->
  redraws s' = S (redraws s) /\ currentSource s' = currentSource s /\ currentTarget s' = currentTarget s /\
  lastCategoryChange s' = lastCategoryChange s /\ showSecondaryChord s' = showSecondaryChord s.
Proof.
  intros [(d & Hd & He) Hsd]. unfold chord_step, chord_handler.
  destruct (_ && _ && _); [|done]. intros [= <-].
  set (r := rotate_tick s).
  assert (Hr : show_deps r = Some (currentSource r, currentTarget r)) by exact Hsd.
  assert (Hne : deps_eqb d (chord_deps_of r) = false).
  { destruct (deps_eqb d (chord_deps_of r)) eqn:E; [|done]. exfalso.
    apply (js_rem_rotates (rotationAngle s)). symmetry. exact (deps_eqb_angle d s r He E). }
  set (x := set_render (Some (chord_deps_of r)) (S (redraws r)) r).
  assert (Hre : render_effect r r = x).
  { unfold render_effect. change (render_deps r) with (render_deps s). by rewrite Hd, Hne. }
  assert (Hxs : set_show (showSecondaryChord r) (Some (currentSource r, currentTarget r)) x = x)
    by exact (set_show_id x Hsd).
  assert (Hxx : render_effect x x = x).
  { unfold render_effect. change (render_deps x) with (Some (chord_deps_of r)). cbv beta iota.
    change (chord_deps_of x) with (chord_deps_of r). by rewrite deps_eqb_refl. }
  unfold chord_commit. cbv zeta. rewrite Hr, bool_decide_eq_true_2, set_show_id, Hre, Hxs, Hxx by done.
  done.
Qed.
End Props.

(** ** Properties *)

(** C20: in every state the chord component reaches, whatever the modes of
    [cyclingModes], the ticks and the selector's changes, the two fields
    shown differ and the rotation angle stays in [0, 360). *)
Theorem chord_state_inv cyclingModes env s :
  chord_reachable cyclingModes env s -> chord_inv s.
Proof.
  induction 1 as [|ev s s' _ IH Hstep]; [|by eapply chord_step_inv].
  rewrite chord_mount_eq. unfold chord_inv. destruct (commit_keeps chord_initial) as (-> & -> & -> & _).
  simpl. split; [done|lra].
Qed.

Lemma chord_state_inv_witness :
  chord_inv (chord_mount).
Proof. apply (chord_state_inv [] (mkChordEnv true true true)). constructor. Defined.

(** C19: a mode whose source equals its target is not skipped, it stops
    the cycle for good: when the mode after the shown pair is such a mode,
    the interval callback returns without a change, so every later tick
    computes the same next mode again and the state never changes (no
    field change, no [onRelationshipChange]). *)
Theorem chord_cycle_stalls cyclingModes env s m n :
  chord_reachable cyclingModes env s -> autoPlay env && chord_autoPlayEnabled env = true ->
  cyclingModes !! Z.to_nat (nextModeIndex cyclingModes s) = Some m -> mode_source m = mode_target m ->
  chord_run cyclingModes env (repeat CycleTick n) s = Some s.
Proof.
  intros Hr Hg Hm Hsame. pose proof (chord_fresh_commit s (chord_reachable_fresh cyclingModes env s Hr)) as Hc.
  assert (Htick : chord_step cyclingModes env CycleTick s = Some s).
  { unfold chord_step, chord_handler. rewrite Hg. unfold cycle_tick.
    destruct (Z.eqb_spec (Z.of_nat (length cyclingModes)) 0) as [Hl|_].
    - destruct cyclingModes; [done|simpl in Hl; lia].
    - rewrite Hm, bool_decide_eq_true_2 by done. simpl. by rewrite Hc. }
  induction n as [|n IH]; simpl; [done|]. by rewrite Htick.
Qed.

Lemma chord_cycle_stalls_witness :
  chord_run [mkMode Field.years_at_medtronic Field.learning_style; mkMode Field.motivation Field.motivation]
    (mkChordEnv true true true) (repeat CycleTick 3) chord_mount = Some chord_mount.
Proof.
  apply (chord_cycle_stalls _ _ _ (mkMode Field.motivation Field.motivation));
    [constructor|reflexivity|vm_compute; reflexivity|reflexivity].
Defined.

(** On modes that are valid and pairwise distinct, the cycle visits
    them in order: from the pair of mode [k], [n] ticks show the pair of
    mode [(k + n) mod length]. *)
Theorem chord_cycle_visits cyclingModes env s k m n :
  Forall (fun m => mode_source m <> mode_target m) cyclingModes -> NoDup (mode_pair <$> cyclingModes) ->
  autoPlay env && chord_autoPlayEnabled env = true ->
  cyclingModes !! k = Some m -> currentSource s = mode_source m -> currentTarget s = mode_target m ->
  exists s' m', chord_run cyclingModes env (repeat CycleTick n) s = Some s' /\
    cyclingModes !! ((k + n) mod length cyclingModes)%nat = Some m' /\
    currentSource s' = mode_source m' /\ currentTarget s' = mode_target m'.
Proof.
  intros Hv Hnd Hg. revert s k m. induction n as [|n IH]; intros s k m Hk Hs Ht.
  - exists s, m. rewrite Nat.add_0_r, Nat.mod_small by (by eapply lookup_lt_Some). done.
  - destruct (cycle_tick_next cyclingModes s k m Hv Hnd Hk Hs Ht) as (m' & Hm' & Htick).
    set (t := chord_notify (mode_pair m') (set_lastCategoryChange (mode_pair m') (set_pair (mode_pair m') s))) in Htick.
    set (s1 := chord_commit t). destruct (commit_keeps t) as (Hs1 & Ht1 & _).
    destruct (IH s1 _ m' Hm' Hs1 Ht1) as (s' & m'' & Hrun & Hm'' & Hs' & Ht').
    exists s', m''. simpl. unfold chord_step, chord_handler. rewrite Hg, Htick. simpl. split; [done|].
    split; [|done]. rewrite <- Hm''. f_equal.
    rewrite Nat.Div0.add_mod_idemp_l. f_equal. lia.
Qed.

Lemma chord_cycle_visits_witness :
  exists s' m', chord_run [mkMode Field.years_at_medtronic Field.learning_style;
                           mkMode Field.learning_style Field.motivation;
                           mkMode Field.motivation Field.shaped_by]
    (mkChordEnv true false true) (repeat CycleTick 5) chord_mount = Some s' /\
    [mkMode Field.years_at_medtronic Field.learning_style; mkMode Field.learning_style Field.motivation;
     mkMode Field.motivation Field.shaped_by] !! ((0 + 5) mod 3)%nat = Some m' /\
    currentSource s' = mode_source m' /\ currentTarget s' = mode_target m'.
Proof.
  apply (chord_cycle_visits [mkMode Field.years_at_medtronic Field.learning_style;
                             mkMode Field.learning_style Field.motivation; mkMode Field.motivation Field.shaped_by]
           (mkChordEnv true false true) chord_mount 0 (mkMode Field.years_at_medtronic Field.learning_style) 5);
    [repeat constructor; discriminate|apply (bool_decide_unpack _); vm_compute; reflexivity
    |reflexivity|reflexivity|reflexivity|reflexivity].
Defined.

(** C21: the rotation interval turns nothing: in every reachable state a
    rotation tick makes the render effect clear and redraw the chart once,
    for the same pair of fields, last change and secondary chord, since
    [rotationAngle] is read only by the effect's dependency list. *)
Theorem rotation_redraws_same_chart cyclingModes env s s' :
  chord_reachable cyclingModes env s -> chord_step cyclingModes env RotateTick s = Some s' ->
  redraws s' = S (redraws s) /\ currentSource s' = currentSource s /\ currentTarget s' = currentTarget s /\
  lastCategoryChange s' = lastCategoryChange s /\ showSecondaryChord s' = showSecondaryChord s.
Proof. intros Hr. apply rotate_tick_redraw, (chord_reachable_fresh cyclingModes env s Hr). Qed.

Lemma rotation_redraws_same_chart_witness :
  chord_step [] (mkChordEnv true true true) RotateTick chord_mount =
    Some (default chord_mount (chord_step [] (mkChordEnv true true true) RotateTick chord_mount)) /\
  redraws (default chord_mount (chord_step [] (mkChordEnv true true true) RotateTick chord_mount)) =
    S (redraws chord_mount).
Proof.
  assert (Hs : chord_step [] (mkChordEnv true true true) RotateTick chord_mount =
    Some (default chord_mount (chord_step [] (mkChordEnv true true true) RotateTick chord_mount)))
    by (vm_compute; reflexivity).
  split; [exact Hs|].
  exact (proj1 (rotation_redraws_same_chart [] (mkChordEnv true true true) chord_mount _ (chord_reach_mount _ _) Hs)).
Defined.
