(* ===== verification/Render.v ===== *)
(** * The render effect's labels and insights: [AlluvialDiagram.tsx] lines 919-974

    After the links and rectangles, the render effect of the Sankey
    component writes one text label per node of the two columns (lines
    919-962), on the nodes d3-sankey returns, and then the three insights of
    the panel (lines 965-974).

    d3-sankey is a library the code only calls.  Two of its outputs are
    read here: a node's [value], which its [computeNodeValues] sets to the
    larger of the sums of the node's outgoing and incoming link values
    ([d3_node_value]), and the node's geometry [x0, x1, y0, y1], which the
    section variable [geom] stands for.  The [nodes] array keeps its order
    through the layout.

    The theorems: the labels name every source value once, in the sorted
    order, then every target value once, and none is dimmed, since every
    node has a link of positive weight (the [node.value === 0] branch is
    dead); the "Most Common Flow" insight names the heaviest pair, whose
    weight is the largest number of records sharing a pair. *)

From S2P Require Import Prelude Survey Categories Sankey.
From Stdlib Require Import Ascii.

Open Scope string_scope.

(** ** d3-sankey's node values *)

(** [d3.sum(links, value)] *)
Definition links_sum (ls : list SLink) : Q := qsum (map link_value ls).

(** [computeNodeValues]: [Math.max(sum(sourceLinks), sum(targetLinks))],
    a link's ends being resolved by [nodeId]. *)
Definition d3_node_value (g : SankeyGraph) (n : SNode) : Q :=
  Qmax (links_sum (List.filter (fun l => String.eqb (link_source l) (node_id n)) (graph_links g)))
       (links_sum (List.filter (fun l => String.eqb (link_target l) (node_id n)) (graph_links g))).

(** ** Labels *)

(** The geometry d3-sankey assigns to a node. *)
Record NodeGeom := mkNodeGeom {
  x0 : Q;
  x1 : Q;
  y0 : Q;
  y1 : Q
}.

(** A [text] element of the label layer, with the attributes that depend
    on the node (the font attributes are constants). *)
Record Label := mkLabel {
  label_x : Q;
  label_y : Q;
  label_anchor : string;
  label_opacity : Q;
  label_text : string
}.

Definition nodeLabelOffset : Q := 24.

Section Labels.
(** The layout's geometry of each node. *)
Variable geom : SNode -> NodeGeom.

(** [node.value === 0 ? 0.5 : 1] *)
Definition label_opacity_of (g : SankeyGraph) (n : SNode) : Q :=
  if Qeq_bool (d3_node_value g n) 0 then 1 # 2 else 1.

(** A source label, left of its node (lines 929-945). *)
Definition source_label (g : SankeyGraph) (n : SNode) : Label :=
  mkLabel (x0 (geom n) - nodeLabelOffset) ((y0 (geom n) + y1 (geom n)) / 2) "end"
    (label_opacity_of g n) (node_name n).

(** A target label, right of its node (lines 946-962). *)
Definition target_label (g : SankeyGraph) (n : SNode) : Label :=
  mkLabel (x1 (geom n) + nodeLabelOffset) ((y0 (geom n) + y1 (geom n)) / 2) "start"
    (label_opacity_of g n) (node_name n).

(** The label layer (lines 919-962): [sourceNodes] and [targetNodes] are the
    layout's nodes of each column's category, labelled when their name is
    in the column's set. *)
Definition render_labels (data : list SurveyResponse) (cs ct : Field.t) : list Label :=
  let g := sankey_graph data cs ct in
  let ss := sortedSources data cs in
  let st := sortedTargets data ct in
  let sourceNodes := List.filter (fun n => String.eqb (node_category n) (Field.name cs)) (graph_nodes g) in
  let targetNodes := List.filter (fun n => String.eqb (node_category n) (Field.name ct)) (graph_nodes g) in
  map (source_label g) (List.filter (fun n => js_includes ss (node_name n)) sourceNodes) ++
  map (target_label g) (List.filter (fun n => js_includes st (node_name n)) targetNodes).

End Labels.

(** ** Insights *)

(** [str.split(':')] *)
Fixpoint js_split_colon (s : string) : list string :=
  match s with
  | EmptyString => [""]
  | String c s' =>
      let rest := js_split_colon s' in
      if Ascii.eqb c ":"%char then "" :: rest
      else match rest with
           | r :: rs => String c r :: rs
           | [] => [String c ""]
           end
  end.

(** [`${arr[i]}`]: [undefined] prints as ["undefined"]. *)
Definition template_at (l : list string) (i : nat) : string :=
  match l !! i with Some x => x | None => "undefined" end.

(** [id.split(':')[1]] *)
Definition flow_name (id : string) : string := template_at (js_split_colon id) 1.

Inductive InsightValue :=
| InsightNumber (n : nat)
| InsightText (t : string).

(** The [description]: absent, [''], or [`${value} attendees`]. *)
Inductive InsightDescription :=
| NoDescription
| EmptyDescription
| Attendees (count : Q).

Record Insight := mkInsight {
  insight_title : string;
  insight_value : InsightValue;
  insight_description : InsightDescription
}.

Definition flow_arrow : string := " " ++ ARROW ++ " ".

(** [setInsights([...])] (lines 965-974); [links] keeps the dummy links. *)
Definition insights (data : list SurveyResponse) (cs ct : Field.t) : list Insight :=
  let links := graph_links (sankey_graph data cs ct) in
  [mkInsight "Total Responses" (InsightNumber (length data)) NoDescription;
   mkInsight "Current View" (InsightText (Field.name cs ++ flow_arrow ++ Field.name ct)) NoDescription;
   match mostCommon links with
   | Some m =>
       mkInsight "Most Common Flow"
         (InsightText (flow_name (link_source m) ++ flow_arrow ++ flow_name (link_target m)))
         (Attendees (link_value m))
   | None => mkInsight "Most Common Flow" (InsightText "N/A") EmptyDescription
   end].

(** Whether a string holds a [':']. *)
Fixpoint has_colon (s : string) : bool :=
  match s with
  | EmptyString => false
  | String c s' => Ascii.eqb c ":"%char || has_colon s'
  end.

(** The records that pair [x] with [y]. *)
Definition pair_count (data : list SurveyResponse) (cs ct : Field.t) (x y : string) : Q :=
  qcount (fun d => bool_decide (accessor cs d = Some x /\ accessor ct d = Some y)) (filteredData data cs ct).

(** A geometry for the examples. *)
Definition unitGeom (_ : SNode) : NodeGeom := mkNodeGeom 0 24 0 10.

(** Every link of a map is a real one or weighs [0.0001]. *)
Definition real_or_dummy (m : @JsMap string SLink) : Prop :=
  forall l, l ∈ map_values m -> not_dummy l = true \/ link_value l = DUMMY_WEIGHT.

(** ** Lemmas *)

Section NodeFilter.
Variable p : SNode -> bool.
Hypothesis p_src : p DUMMY_SOURCE_NODE = false.
Hypothesis p_tgt : p DUMMY_TARGET_NODE = false.

Lemma filter_dummy_source_fold tids acc :
  List.filter p (fold_left dummy_source_step tids acc).1.1 = List.filter p acc.1.1.
Proof.
  revert acc. induction tids as [|t tids IH]; intros [[nodes m] added]; [done|]. simpl.
  rewrite IH. unfold dummy_source_step. destruct (existsb _ _), added; simpl; rewrite ?p_src; done.
Qed.

Lemma filter_dummy_target_fold sids acc :
  List.filter p (fold_left dummy_target_step sids acc).1.1 = List.filter p acc.1.1.
Proof.
  revert acc. induction sids as [|t sids IH]; intros [[nodes m] added]; [done|]. simpl.
  rewrite IH. unfold dummy_target_step. destruct (existsb _ _), added; simpl; try done.
  rewrite List.filter_app. simpl. rewrite p_tgt. apply app_nil_r.
Qed.

(** The dummy nodes aside, the layout's nodes are the two columns. *)
Lemma graph_nodes_filter data cs ct :
  List.filter p (graph_nodes (sankey_graph data cs ct)) =
  List.filter p (column_nodes cs (sortedSources data cs) ++ column_nodes ct (sortedTargets data ct)).
Proof.
  rewrite sankey_graph_unfold. cbn [graph_nodes]. rewrite filter_dummy_target_fold. cbn [fst].
  by rewrite filter_dummy_source_fold.
Qed.
End NodeFilter.

Lemma filter_column_nodes f f' names :
  List.filter (fun n => String.eqb (node_category n) (Field.name f)) (column_nodes f' names) =
  if bool_decide (f = f') then column_nodes f' names else [].
Proof.
  unfold column_nodes. induction names as [|x names IH]; simpl; [by case_bool_decide|].
  rewrite IH. case_bool_decide as Hf.
  - subst. by rewrite String.eqb_refl.
  - destruct (String.eqb_spec (Field.name f') (Field.name f)) as [E|]; [|done].
    apply Field_name_inj in E. congruence.
Qed.

(** The layout's nodes of a column's category are that column. *)
Lemma column_of_category data cs ct f :
  cs <> ct -> f = cs \/ f = ct ->
  List.filter (fun n => String.eqb (node_category n) (Field.name f)) (graph_nodes (sankey_graph data cs ct)) =
  column_nodes f (if bool_decide (f = cs) then sortedSources data cs else sortedTargets data ct).
Proof.
  intros Hne Hf. rewrite graph_nodes_filter by (by destruct f). rewrite List.filter_app, !filter_column_nodes.
  destruct Hf as [->| ->]; repeat case_bool_decide; try congruence; by rewrite ?app_nil_r.
Qed.

Lemma filter_listed_column f names :
  List.filter (fun n => js_includes names (node_name n)) (column_nodes f names) = column_nodes f names.
Proof.
  apply filter_id_in. intros n Hn. apply column_nodes_elem in Hn as (x & -> & Hx).
  by apply js_includes_spec.
Qed.

Lemma column_names f names : map node_name (column_nodes f names) = names.
Proof. unfold column_nodes. rewrite map_map. apply map_id. Qed.

(** A node with a link of positive weight gets a positive value. *)
Lemma d3_node_value_pos data cs ct n l :
  arrow_free cs data = true -> l ∈ graph_links (sankey_graph data cs ct) ->
  (link_source l = node_id n \/ link_target l = node_id n) -> (0 < link_value l)%Q ->
  (0 < d3_node_value (sankey_graph data cs ct) n)%Q.
Proof.
  intros Ha Hl Hend Hv. destruct (sankey_graph_flow data cs ct Ha) as (Hpos & _ & _).
  assert (Hsum : forall b : SLink -> string,
            b l = node_id n ->
            (0 < links_sum (List.filter (fun l' => String.eqb (b l') (node_id n))
                              (graph_links (sankey_graph data cs ct))))%Q).
  { intros b Hb. apply (qsum_pos _ (link_value l)); [|apply list_elem_of_In, in_map_iff|done].
    - intros r (l' & <- & Hl')%list_elem_of_In%in_map_iff.
      apply filter_In in Hl' as [Hl' _]. apply Qlt_le_weak, Hpos, list_elem_of_In, Hl'.
    - exists l. split; [done|]. apply filter_In. split; [by apply list_elem_of_In|].
      by apply String.eqb_eq. }
  unfold d3_node_value. destruct Hend as [Hs|Ht].
  - pose proof (Hsum link_source Hs). pose proof (Q.le_max_l
      (links_sum (List.filter (fun l' => String.eqb (link_source l') (node_id n)) (graph_links (sankey_graph data cs ct))))
      (links_sum (List.filter (fun l' => String.eqb (link_target l') (node_id n)) (graph_links (sankey_graph data cs ct))))).
    lra.
  - pose proof (Hsum link_target Ht). pose proof (Q.le_max_r
      (links_sum (List.filter (fun l' => String.eqb (link_source l') (node_id n)) (graph_links (sankey_graph data cs ct))))
      (links_sum (List.filter (fun l' => String.eqb (link_target l') (node_id n)) (graph_links (sankey_graph data cs ct))))).
    lra.
Qed.

(** No node of either column is labelled at half opacity. *)
Lemma label_opacity_column data cs ct f names n :
  arrow_free cs data = true ->
  (f = cs /\ names = sortedSources data cs) \/ (f = ct /\ names = sortedTargets data ct) ->
  n ∈ column_nodes f names -> label_opacity_of (sankey_graph data cs ct) n = 1%Q.
Proof.
  intros Ha Hf (x & -> & Hx)%column_nodes_elem.
  destruct (sankey_graph_flow data cs ct Ha) as (_ & Hs & Ht).
  assert (Hv : (0 < d3_node_value (sankey_graph data cs ct) (mkNode (nodeId f x) x (Field.name f)))%Q).
  { destruct Hf as [[-> ->]|[-> ->]].
    - destruct (Hs x Hx) as (l & Hl & Hsrc & Hpos). by apply (d3_node_value_pos _ _ _ _ l Ha Hl); [left|].
    - destruct (Ht x Hx) as (l & Hl & Htgt & Hpos). by apply (d3_node_value_pos _ _ _ _ l Ha Hl); [right|]. }
  unfold label_opacity_of. destruct (Qeq_bool _ _) eqn:E; [|done].
  apply Qeq_bool_eq in E. rewrite E in Hv. discriminate.
Qed.

(** C17: The render effect labels every source value once, in the sorted
    order of the column, then every target value once, on the nodes
    d3-sankey returns; and no label is dimmed: every node has a link of
    positive weight (a dummy one if need be), so d3-sankey's [node.value]
    is never [0] and the [0.5] branch of the label opacity is dead. *)
Theorem render_labels_columns geom data cs ct :
  cs <> ct -> arrow_free cs data = true ->
  map label_text (render_labels geom data cs ct) = (sortedSources data cs ++ sortedTargets data ct)%list /\
  Forall (fun l => label_opacity l = 1%Q) (render_labels geom data cs ct).
Proof.
  intros Hne Ha. unfold render_labels. cbv zeta.
  rewrite (column_of_category data cs ct cs), (column_of_category data cs ct ct) by auto.
  rewrite (bool_decide_eq_true_2 (cs = cs)), (bool_decide_eq_false_2 (ct = cs)) by auto.
  rewrite !filter_listed_column. split.
  - by rewrite map_app, !map_map, !column_names.
  - apply Forall_app. split; apply Forall_forall; intros l (n & <- & Hn)%list_elem_of_In%in_map_iff;
      apply list_elem_of_In in Hn; simpl.
    + eapply label_opacity_column; [done|left; done|exact Hn].
    + eapply label_opacity_column; [done|right; done|exact Hn].
Qed.

(** ** The most common flow *)

Lemma mostCommon_fold (links : list SLink) acc :
  let r := fold_left (fun a b => if Qlt_le_dec (link_value a) (link_value b) then b else a) links acc in
  (r = acc \/ r ∈ links) /\ (link_value acc <= link_value r)%Q /\
  forall l, l ∈ links -> (link_value l <= link_value r)%Q.
Proof.
  revert acc. induction links as [|b links IH]; intros acc; simpl.
  - split_and!; [by left|lra|set_solver].
  - destruct (Qlt_le_dec (link_value acc) (link_value b)) as [Hlt|Hle].
    + destruct (IH b) as (Hr & Hv & Hall). split_and!.
      * destruct Hr as [->|Hr]; right; set_solver.
      * lra.
      * intros l [->|Hl]%elem_of_cons; [done|auto].
    + destruct (IH acc) as (Hr & Hv & Hall). split_and!.
      * destruct Hr as [->|Hr]; [by left|right; set_solver].
      * done.
      * intros l [->|Hl]%elem_of_cons; [lra|auto].
Qed.

(** [mostCommon] is a link of the largest weight. *)
Lemma mostCommon_max links m :
  mostCommon links = Some m -> m ∈ links /\ forall l, l ∈ links -> (link_value l <= link_value m)%Q.
Proof.
  destruct links as [|l0 links]; [done|]. unfold mostCommon. intros H. injection H as Hm.
  pose proof (mostCommon_fold (l0 :: links) l0) as Hf. cbv zeta in Hf. simpl fold_left in Hf. rewrite Hm in Hf.
  destruct Hf as (Hr & _ & Hall). split; [|exact Hall].
  destruct Hr as [Hr|Hr]; [rewrite Hr; set_solver|exact Hr].
Qed.

Lemma map_values_set_elem (m : @JsMap string SLink) k v l :
  l ∈ map_values (map_set k v m) -> l = v \/ l ∈ map_values m.
Proof.
  intros ([k' l'] & -> & Hin)%list_elem_of_fmap.
  destruct (map_set_elem _ _ _ _ Hin) as [[= -> ->]|H]; [by left|right].
  apply list_elem_of_fmap. by exists (k', l').
Qed.

Lemma real_or_dummy_source_fold tids acc :
  real_or_dummy acc.1.2 -> real_or_dummy (fold_left dummy_source_step tids acc).1.2.
Proof.
  revert acc. induction tids as [|t tids IH]; intros [[nodes m] added] Hm; [done|]. apply IH.
  unfold dummy_source_step. destruct (existsb _ _); [done|]. simpl.
  intros l [->|Hl]%map_values_set_elem; [by right|auto].
Qed.

Lemma real_or_dummy_target_fold sids acc :
  real_or_dummy acc.1.2 -> real_or_dummy (fold_left dummy_target_step sids acc).1.2.
Proof.
  revert acc. induction sids as [|t sids IH]; intros [[nodes m] added] Hm; [done|]. apply IH.
  unfold dummy_target_step. destruct (existsb _ _); [done|]. simpl.
  intros l [->|Hl]%map_values_set_elem; [by right|auto].
Qed.

(** The links handed to d3-sankey are the drawn ones and dummies of weight
    [0.0001]. *)
Lemma graph_links_real_or_dummy data cs ct l :
  l ∈ graph_links (sankey_graph data cs ct) ->
  l ∈ filteredLinks (sankey_graph data cs ct) \/ link_value l = DUMMY_WEIGHT.
Proof.
  intros Hl. cut (not_dummy l = true \/ link_value l = DUMMY_WEIGHT).
  { intros [H|H]; [left|by right]. unfold filteredLinks.
    apply list_elem_of_In, filter_In. split; [by apply list_elem_of_In|done]. }
  revert Hl. rewrite sankey_graph_unfold. cbn [graph_links].
  set (ss := sortedSources data cs). set (st := sortedTargets data ct).
  set (agg := aggregate cs ct ss st (filteredData data cs ct)).
  set (acc1 := fold_left dummy_source_step _ _).
  assert (H0 : real_or_dummy agg) by (intros l' Hl'; left; by eapply agg_not_dummy).
  assert (H1 : real_or_dummy acc1.1.2) by (apply real_or_dummy_source_fold; exact H0).
  apply (real_or_dummy_target_fold (map (nodeId cs) ss) (acc1.1.1, acc1.1.2, false) H1).
Qed.

Lemma filteredLinks_graph g l : l ∈ filteredLinks g -> l ∈ graph_links g.
Proof. unfold filteredLinks. rewrite !list_elem_of_In, filter_In. tauto. Qed.

(** Every pair of non-empty values is carried by no more records than a
    drawn link of at least that weight. *)
Lemma pair_count_bounded data cs ct x y :
  arrow_free cs data = true -> x <> "" -> y <> "" -> (1 <= pair_count data cs ct x y)%Q ->
  exists l, l ∈ filteredLinks (sankey_graph data cs ct) /\ link_value l == pair_count data cs ct x y.
Proof.
  intros Ha Hx Hy Hc. apply qcount_pos_inv in Hc as (d & Hd & Hp).
  apply bool_decide_eq_true in Hp as [Hdx Hdy].
  destruct (filteredLinks_cover data cs ct d x y Ha Hd Hdx Hdy Hx Hy) as (l & Hl & Hs & Ht).
  destruct (filteredLinks_pair data cs ct l Ha Hl) as (x' & y' & Hs' & Ht' & _ & _ & _ & Hv).
  rewrite Hs in Hs'. rewrite Ht in Ht'. apply nodeId_inj in Hs' as <-. apply nodeId_inj in Ht' as <-.
  by exists l.
Qed.

Lemma js_split_colon_plain s : has_colon s = false -> js_split_colon s = [s].
Proof.
  induction s as [|c s IH]; [done|]. simpl. intros [Hc Hs]%orb_false_iff.
  rewrite Hc, IH by done. done.
Qed.

Lemma js_split_colon_app a b :
  has_colon a = false -> js_split_colon (a ++ ":" ++ b) = a :: js_split_colon b.
Proof.
  induction a as [|c a IH]; [done|]. simpl. intros [Hc Ha]%orb_false_iff.
  rewrite Hc, IH by done. done.
Qed.

(** The name a node id shows when its value has no [':']. *)
Lemma flow_name_nodeId f x : has_colon x = false -> flow_name (nodeId f x) = x.
Proof.
  intros Hx. unfold flow_name, nodeId. rewrite js_split_colon_app by (by destruct f).
  by rewrite js_split_colon_plain.
Qed.

(** C18: When some record pairs two non-empty values, the "Most Common
    Flow" insight names a drawn link, never a dummy one, as
    [source → target] (each end's id after its first [':']), its count is
    the number of records with that pair, and no other pair of non-empty
    values has more records. *)
Theorem most_common_flow data cs ct d x y :
  arrow_free cs data = true -> d ∈ filteredData data cs ct ->
  accessor cs d = Some x -> accessor ct d = Some y -> x <> "" -> y <> "" ->
  exists x' y' c,
    insights data cs ct !! 2 =
      Some (mkInsight "Most Common Flow"
              (InsightText (flow_name (nodeId cs x') ++ flow_arrow ++ flow_name (nodeId ct y')))
              (Attendees c)) /\
    c == pair_count data cs ct x' y' /\
    (forall x'' y'', x'' <> "" -> y'' <> "" -> (pair_count data cs ct x'' y'' <= c)%Q).
Proof.
  intros Ha Hd Hx Hy Hxe Hye.
  destruct (filteredLinks_cover data cs ct d x y Ha Hd Hx Hy Hxe Hye) as (l & Hl & _ & _).
  destruct (filteredLinks_pair data cs ct l Ha Hl) as (_ & _ & _ & _ & _ & _ & Hl1 & _).
  destruct (mostCommon (graph_links (sankey_graph data cs ct))) as [m|] eqn:Hm.
  2:{ apply filteredLinks_graph in Hl. destruct (graph_links (sankey_graph data cs ct)); [set_solver|discriminate Hm]. }
  destruct (mostCommon_max _ _ Hm) as (Hmin & Hmax).
  pose proof (Hmax l (filteredLinks_graph _ _ Hl)) as Hlm.
  destruct (graph_links_real_or_dummy data cs ct m Hmin) as [Hmf|Hw].
  2:{ rewrite Hw in Hlm. unfold DUMMY_WEIGHT in Hlm. lra. }
  destruct (filteredLinks_pair data cs ct m Ha Hmf) as (x' & y' & Hs & Ht & _ & _ & _ & Hc).
  exists x', y', (link_value m). split_and!.
  - unfold insights. cbn zeta. rewrite Hm. simpl. by rewrite Hs, Ht.
  - exact Hc.
  - intros x'' y'' Hx'' Hy''.
    destruct (Qlt_le_dec (pair_count data cs ct x'' y'') 1) as [Hlt|Hge]; [lra|].
    destruct (pair_count_bounded data cs ct x'' y'' Ha Hx'' Hy'' Hge) as (l'' & Hl'' & Hv).
    rewrite <- Hv. apply Hmax, filteredLinks_graph, Hl''.
Qed.

(** ** Witnesses *)

Lemma render_labels_columns_witness :
  Forall (fun l => label_opacity l = 1%Q)
    (render_labels unitGeom testChordMockData Field.learning_style Field.motivation).
Proof. exact (proj2 (render_labels_columns unitGeom testChordMockData Field.learning_style Field.motivation ltac:(discriminate) eq_refl)). Defined.

Lemma most_common_flow_witness :
  exists x' y' c,
    insights testChordMockData Field.learning_style Field.motivation !! 2 =
      Some (mkInsight "Most Common Flow"
              (InsightText (flow_name (nodeId Field.learning_style x') ++ flow_arrow ++
                            flow_name (nodeId Field.motivation y')))
              (Attendees c)) /\
    c == pair_count testChordMockData Field.learning_style Field.motivation x' y' /\
    (forall x'' y'', x'' <> "" -> y'' <> "" ->
       (pair_count testChordMockData Field.learning_style Field.motivation x'' y'' <= c)%Q).
Proof.
  apply (most_common_flow testChordMockData Field.learning_style Field.motivation
           (fixture 15 "visual" "mentor" "Ambivert, Morning" "impact") "visual" "impact");
    [reflexivity| |reflexivity|reflexivity|discriminate|discriminate].
  apply list_elem_of_In. vm_compute. tauto.
Defined.
