(* ===== verification/TestChord.v ===== *)
(** * The chord test page: [app/test-chord/page.tsx]

    [TestChordDiagram] holds the two selected fields and a rotation angle
    (lines 43-47).  Its interval adds half a degree every 100 ms, modulo
    360 (lines 53-59), and its two [<select>]s set the source and the
    target field to any of the five options (lines 255-283 and 291-319).
    The render effect (lines 62-220) draws what [processChordData] of
    [shared/chordUtils] returns; that module is not in the repository, so
    the drawing is not modelled.

    Unlike [ChordDiagram]'s selector, whose [onChange] goes through
    [ensureDifferentCategories], the page never corrects a choice: a
    select stores any of the five fields, the other one's included.  The
    interval's [%] is JavaScript's truncating remainder ([js_rem]); the
    theorem shows that the angle stays a whole number of half degrees in
    [0, 360), which needs the invariant that it is never negative. *)

From S2P Require Import Prelude Survey.

Open Scope string_scope.

Record TestChordState := mkTestChord {
  tc_source : Field.t;
  tc_target : Field.t;
  tc_rotation : Q
}.

(** [useState('years_at_medtronic')], [useState('learning_style')],
    [useState(0)] *)
Definition initialTestChord : TestChordState :=
  mkTestChord Field.years_at_medtronic Field.learning_style 0.

(** The [<option>]s of both selects, in order. *)
Definition testChordOptions : list Field.t :=
  [Field.years_at_medtronic; Field.learning_style; Field.shaped_by; Field.peak_performance; Field.motivation].

(** An option's label. *)
Definition testChordLabel (f : Field.t) : string :=
  match f with
  | Field.years_at_medtronic => "Years at Medtronic"
  | Field.learning_style => "Learning Style"
  | Field.shaped_by => "Shaped By"
  | Field.peak_performance => "Peak Performance"
  | Field.motivation => "Motivation"
  end.

(** The two selects' [onChange] and the interval's tick; a select can only
    deliver one of its options, and every field is one. *)
Inductive TestChordEvent :=
| SelectSource (f : Field.t)
| SelectTarget (f : Field.t)
| TestRotationTick.

Definition testChord_step (s : TestChordState) (e : TestChordEvent) : TestChordState :=
  match e with
  | SelectSource f => mkTestChord f (tc_target s) (tc_rotation s)
  | SelectTarget f => mkTestChord (tc_source s) f (tc_rotation s)
  | TestRotationTick => mkTestChord (tc_source s) (tc_target s) (js_rem (tc_rotation s + (1 # 2)) 360)
  end.

Definition testChord_run (s : TestChordState) (evs : list TestChordEvent) : TestChordState :=
  fold_left testChord_step evs s.

Inductive testChord_reachable : TestChordState -> Prop :=
| tc_reach_init : testChord_reachable initialTestChord
| tc_reach_step s e : testChord_reachable s -> testChord_reachable (testChord_step s e).

(** ** Theorems *)

Lemma testChord_run_reachable s evs :
  testChord_reachable s -> testChord_reachable (testChord_run s evs).
Proof. revert s. induction evs as [|e evs IH]; intros s Hs; [done|]. apply IH. by constructor. Qed.

(** The angle as a number of half degrees. *)
Definition half_degrees (k : nat) : Q := (inject_Z (Z.of_nat k) * (1 # 2))%Q.

(** A tick from [k] half degrees lands on [k + 1], modulo a full turn. *)
Lemma tick_half_degrees k :
  (k < 720)%nat -> js_rem (half_degrees k + (1 # 2)) 360 == half_degrees ((S k) mod 720).
Proof.
  intros Hk. destruct (Nat.eq_dec k 719%nat) as [->|E]; [vm_compute; reflexivity|].
  unfold js_rem, half_degrees.
  assert (Hd : (inject_Z (Z.of_nat k) * (1 # 2) + (1 # 2)) / 360 == inject_Z (Z.of_nat (S k)) / 720)
    by (rewrite Nat2Z.inj_succ, <- Z.add_1_r, inject_Z_plus; field).
  rewrite Hd, Nat.mod_small by lia.
  assert (Ht : js_trunc (inject_Z (Z.of_nat (S k)) / 720) = 0%Z).
  { unfold js_trunc, Qdiv, Qmult, Qinv, inject_Z. simpl. rewrite Z.mul_1_r. apply Z.quot_small. lia. }
  rewrite Ht, Nat2Z.inj_succ, <- Z.add_1_r, inject_Z_plus. simpl. ring.
Qed.

(** C38: In every reachable state of the chord test page the rotation angle
    is a whole number of half degrees in [0, 360): the interval's
    [(prev + 0.5) % 360] starts from 0 and never goes negative, so the
    truncating [%] keeps it below a full turn. *)
Theorem test_chord_rotation_bounded s :
  testChord_reachable s ->
  (0 <= tc_rotation s < 360)%Q /\ exists k, (k < 720)%nat /\ tc_rotation s == half_degrees k.
Proof.
  induction 1 as [|s [f'|g'|] Hs IH]; simpl; [split; [lra|exists 0%nat; split; [lia|reflexivity]]|done|done|].
  destruct IH as [_ (k & Hk & Hr)].
  assert (Hn : js_rem (tc_rotation s + (1 # 2)) 360 == half_degrees ((S k) mod 720)).
  { rewrite Hr. by apply tick_half_degrees. }
  split.
  - rewrite Hn. unfold half_degrees. pose proof (Nat.mod_upper_bound (S k) 720 ltac:(lia)) as Hb.
    assert (H0 : (0 <= inject_Z (Z.of_nat ((S k) mod 720)))%Q) by (change 0%Q with (inject_Z 0); rewrite <- Zle_Qle; lia).
    assert (H1 : (inject_Z (Z.of_nat ((S k) mod 720)) <= 719)%Q) by (change 719%Q with (inject_Z 719); rewrite <- Zle_Qle; lia).
    lra.
  - exists ((S k) mod 720)%nat. split; [apply Nat.mod_upper_bound; lia|exact Hn].
Qed.

(** ** Witnesses *)

Lemma test_chord_rotation_bounded_witness :
  (0 <= tc_rotation (testChord_run initialTestChord (repeat TestRotationTick 721)) < 360)%Q.
Proof. exact (proj1 (test_chord_rotation_bounded _ (testChord_run_reachable _ _ tc_reach_init))). Defined.
